(* ===== verification/_CoqProject ===== *)
-Q . S2P
Prelude.v
WireFormat.v
WireLemmas.v
GapBuf.v
GapWalk.v
Framing.v
GapInv.v
GapStep.v
GapRun.v
GapProps.v
Codec.v
GapSafety.v
GapType.v
GapComplete.v
GapInOrder.v
GapRecover.v
GapRetx.v
GapTrack.v
GapTrackRun.v
GapEdge.v
Sink.v
Stats.v
FloatRank.v
Arbitrator.v
ArbProps.v
Book.v
BookInv.v
BookProps.v
BookTop.v
BookNotify.v
SymbolBook.v
SymbolProps.v
BookType.v
LateJoin.v
StatsProps.v
SharedHistogram.v
Decision.v
Pcap.v
Pacing.v
Unpaced.v
PcapProps.v
PcapRound.v
PcapEdge.v
PcapTotal.v
PacedReplay.v
Receiver.v
ReceiverOpen.v
ReceiverProps.v
ReceiverRun.v
ReceiverSignal.v
Pipeline.v
PipelineProps.v
PipelineType.v
DualLine.v
Tools.v
ToolsProps.v
GenGap.v
CommandLine.v
CommandProps.v
Timestamp.v
TimestampProps.v
Benchmark.v
BenchProps.v
Main.v
Program.v
ConformFeed.v
ConformBook.v
