(* ===== verification/Prelude.v ===== *)
(** * A verified model of udp-multicast-receiver

    The program receives a market-data feed over UDP multicast (NASDAQ
    MoldUDP64 datagrams that carry ITCH 5.0 messages), restores the exchange's
    message sequence, rebuilds the order books, and times a decision made on
    every change of the best prices.  This library models its headers
    ([include/feed/*.hpp], under [src/]), the receiver program ([src/main.cpp])
    and its three tools ([tools/]), and proves what makes them correct.

    ** The parts and how they interact

<<
    socket --- MulticastReceiver --+                    +--> Handler (main)
    file ----- PcapReader ---------+--> GapBuffer ------+
    lines A/B - FeedArbitrator ----+    (PacketSink)    +--> MultiSymbolBook --> DecisionEngine
                                                             (OrderBook each)    (LatencyHistogram)
    PcapWriter <--- gen_pcap             MoldHeader, Itch*: wire_format.hpp
>>

    A feed (the receive loop, a replayed capture, two arbitrated lines) calls
    [GapBuffer::ingest] with every datagram and [GapBuffer::tick] from a timer.
    The buffer delivers messages in sequence through a callback; the callback of
    the benchmark feeds [MultiSymbolBook::ingest], whose own callback feeds
    [DecisionEngine::on_top_of_book].

    ** How code becomes definitions

    A class is a Module with its state as the record [t] (members keep their
    names, e.g. [next_expected_]), a method a function from the state and its
    arguments to the new state, the callback calls made (a list of events, in
    order) and the C++ result.  Unsigned integers are [Z] with the wrap of their
    width ([u16], [u32], [u64]) written where the code computes; bytes are
    [list byte].  Reading or writing outside an object is [Fault OutOfBounds] in
    the error monad [res], an [int] counted out of its range is a fault too, and a
    loop that is not structural takes fuel, so "the code is memory safe and
    terminates" is the statement that a run is [Ok].
    An [std::function] member is a flag that says whether it is installed.  Maps
    of the code are stdpp's [gmap]; [double] is [spec_float] of the Standard
    Library.

    ** Files

    - [Prelude]: faults and the error monad, fixed-width integers, bytes and
      memory, the [feed] hint database, the tactics [width], [unwrap], [case_bool].
    - [WireFormat] ([wire_format.hpp]): byte order, [MoldHeader], the ITCH
      messages and their parsers, [RetransmitRequest], the PCAP headers.
      [WireLemmas]: their meaning.  [Framing]: the reference encoder of a
      datagram.  [Codec]: round trips of datagrams and messages.
    - [GapBuf] ([gap_buffer.hpp]): the whole of [GapBuffer], ring of 4096 slots
      included.  [GapWalk]: the message loop against a reference decoding;
      [GapInv]: the invariant; [GapStep]: every entry point keeps it; [GapRun]:
      runs of datagrams and ticks.  Theorems: [GapProps] (refinement of the
      stream, provenance, quiescence), [GapSafety] (arbitrary bytes), [GapType]
      (every member and event stays in its C++ type),
      [GapComplete] (any arrival order is enough), [GapInOrder] (a healthy feed,
      on which nothing but delivery happens, and a feed with a hole), [GapRecover]
      (a resend recovers from any state, overflows included),
      [GapRetx] (the retransmit timer), [GapTrack] and [GapTrackRun] (the gap
      tracker as an abstract state machine, its rate limit, and the refinement),
      [GapEdge] (where the sentinels and the ring run out).
    - [Sink]: the interface [PacketSink] with its laws, which the layers above
      the buffer are proved against; [GapBuffer] is the instance.
    - [Arbitrator] ([feed_arbitrator.hpp]) and [ArbProps]: A/B arbitration.
    - [Book] ([order_book.hpp]): [OrderBook] and [MultiSymbolBook].  [BookInv]:
      levels as the aggregate of the resting orders; [BookProps]: every operation
      against the map of orders; [BookTop], [BookNotify]: runs, the top, the
      notifications.  [SymbolBook], [SymbolProps]: the routed stream of messages.
      [BookType]: the types of every member.  [LateJoin]: a consumer that joins in
      the middle of the feed.
    - [Stats] ([stats.hpp]) and [StatsProps]: histogram, sample recorder,
      throughput window.  [SharedHistogram]: the histogram's atomics interleaved
      step by step between threads.  [FloatRank]: the rounding of binary64 products, by which
      the ranks the code computes are the rational ones.
    - [Decision] ([decision_engine.hpp]): the engine and its theorems.
    - [Pcap] ([pcap_replay.hpp]): writer and reader.  [PcapProps], [PcapRound],
      [PcapEdge], [PcapTotal]: extraction, replay, round trips, limits, arbitrary
      files.  [Pacing]: when a paced frame is let go, and for which clocks the waits
      end; [Unpaced]: the replay without its clock, a reference; [PacedReplay]: what
      realtime changes.
    - [Receiver] ([receiver.hpp]): set-up against a kernel, one receive, the
      loop.  [ReceiverOpen] (the calls a socket takes, and that [open] makes them up to
      the first that fails), [ReceiverProps], [ReceiverRun]: its theorems.
      [ReceiverSignal]: the loop with the flag it reads and the signal handler of
      [src/main.cpp], as a transition system.
    - [Pipeline] (the wiring in [tools/tick_to_trade_bench.cpp]) and
      [PipelineProps], [PipelineType]: from datagrams to decisions.  [DualLine]: the
      same behind the arbitrator of two lines.
    - [Tools]: the packet builders of the benchmark and [tools/gen_pcap.cpp], with
      [ToolsProps] and [GenGap] (the generated gap).
    - [CommandLine] and [CommandProps]: the option loops of the four programs, with
      the number conversions of the C and C++ libraries.  An exception nobody
      catches is the result of a program (monad [outcome]).
    - [Timestamp] ([tools/timestamp_validate.cpp]) and [TimestampProps].
    - [Benchmark] ([main] of the benchmark) and [BenchProps]: the load over any
      random engine (class [Rng], laws [RngLaws]), also as the orders it means
      ([load_run]); the measured loop; the report.
    - [Main] ([src/main.cpp]): the message handler and the wiring of the buffer.
      [Program]: [main] itself, both modes, with what it prints and the calls on
      its socket.
    - [ConformFeed], [ConformBook]: the repository's own tests ([tests/*.cpp]), a
      Module per file and an example per test function, evaluated on the model.

    ** What the theorems show

    - Sequencing: any run of datagrams of one stream delivers a consecutive
      segment of it, in order, each message once, with its bytes and arrival
      time ([delivers_stream], [delivered_from_datagrams]); nothing deliverable
      is kept back ([nothing_left_waiting], [any_order_delivers_all],
      [in_order_feed_delivered]); whatever was lost, an in-sequence resend
      recovers ([resend_recovers]); arbitrary bytes cause no out-of-bounds access
      and no endless loop ([run_memory_safe]), and no value out of its type
      ([gap_buffer_preserves_types], [pipeline_preserves_types]).
    - Gap tracking: [tick_requests_missing_run], [requests_rate_limited],
      [gaps_reported_once].
    - Arbitration adds nothing to the data path, tolerates a loss on either line
      down to the trades, silently when the cover is in time, and attributes
      exactly ([arbitration_transparent], [either_line_suffices],
      [dual_feed_trades_stream], [timely_cover_is_silent], [attribution_exact]).
    - Books refine the map of resting orders, from messages and from raw bytes
      ([book_refines_orders], [symbol_books_refine_feed],
      [top_is_best_bid_offer], [notifications_exact],
      [ingest_takes_book_messages]); a late start misses exactly the old orders
      ([late_join_misses_old_orders]).
    - Feeds: the receive loop is its consumer driven by a computed list of
      datagrams and ticks ([loop_refines_sink], [live_stream_delivered],
      [ticks_keep_cadence], [open_joins_or_reports]); its runs are the executions
      of the loop with a signal at any moment, which ends it
      ([run_is_signalled_loop], [signal_ends_loop]); capture and replay lose
      nothing ([replay_feeds_captures], [captured_window_delivered],
      [generated_capture_replays], [generated_gap_replays]); replay of arbitrary
      bytes ends, exactly when its clock lets it ([replay_terminates]).
    - Programs: arguments are read back ([options_round_trip]); the receiver prints
      the totals of the stream it got, in both modes, and releases its socket
      ([replay_prints_totals], [live_session_prints_totals]); the benchmark and
      the timestamp tool measure what they mean to ([benchmark_measures_path],
      [timestamp_tool_exact]); realtime replay keeps the capture's spacing and
      changes nothing else ([realtime_replay_keeps_pace]).
    - End to end: what is traded depends on the stream alone
      ([pipeline_trades_stream], [arrival_order_does_not_show],
      [decisions_anchored_to_arrival]); the rule and the books of the engine
      ([quotes_inside_wide_spread], [engine_accounts]).
    - Encodings and recorders: [itch_round_trip], [mold_round_trip],
      [percentile_is_bucket_bound], [msgs_per_sec_exact], [summary_exact]; shared by
      threads the histogram loses no sample, and a percentile read meanwhile is
      still a true bound ([concurrent_records_exact],
      [concurrent_percentile_bound]).
    - Behaviour the design does not intend: [partial_fill_forgets_gap],
      [zero_heartbeat_wedges], [stale_slot_drops_packet], [covered_loss_fires_gap],
      [mixed_clocks_request_at_once], [replace_leaks_level],
      [cross_symbol_duplicate_misroutes], [truncated_frame_reads_stale],
      [oversized_write_truncates], [replay_overruns_frame_buffer],
      [zero_messages_per_packet_spins], [early_packet_stalls],
      [zero_symbols_out_of_bounds], [zero_filter_bids_through_ask],
      [wrapped_filter_lets_narrow_spread_through].

    ** Bounds and fuel

    The flush loop and the scan for missing sequences have [kCapacity + 1] turns:
    every flush empties a slot, and the scan is bounded by [kCapacity] in the code.
    The replay loop has one turn per byte of the file (every record takes at
    least 16; its realtime waits end exactly when the clock readings given get to
    the frame's target), the generator one per message (every packet carries at least one
    when [msgs_per_pkt] is not 0; when it is, no fuel is enough).  Each is shown to be enough by a theorem
    whose conclusion is [Ok].  Theorems about sequences assume they stay below
    [2^64]; the window of [any_order_delivers_all] is the ring's 4096 sequences.
    [replay_terminates] asks that no UDP length claims more than the frame buffer
    has, which the code does not check; the ranks of percentiles are exact for
    fewer than [2^43] samples; the benchmark's theorem has up to 80000
    symbols (names of 8 bytes, prices of 32 bits) and [2^32 - 2] messages.

    ** Not modelled

    The kernel: system calls answer from a parameter, [recvmsg] and clocks from
    the run's input; in [Program] a signal is the end of that input, which
    [ReceiverSignal] justifies.  The random engine of the benchmark is a
    parameter.  Reordering of relaxed atomics by a compiler: the operations of a
    thread take effect in program order ([SharedHistogram]), and the other
    recorders have one writer.  Exhaustion of memory, and failure of [fwrite].  The text around
    printed values.  Documentation and build files. *)

From stdpp Require Import base gmap list strings fin_maps.
From Stdlib Require Import ZArith Lia.
From Stdlib Require Strings.Byte.
Abbreviation byte := Corelib.Init.Byte.byte.

#[local] Open Scope Z_scope.

(** ** Faults and the error monad

    C++ undefined behaviour is made visible: a read or write outside an object
    is [Fault OutOfBounds], an [int] counted past its range [Fault SignedOverflow].
    A loop whose recursion is not structural takes
    fuel, and running out of it is [Fault OutOfFuel]; theorems show that it
    never happens. *)

Inductive fault := OutOfBounds | OutOfFuel | SignedOverflow.

Inductive res (A : Type) :=
| Ok (a : A)
| Fault (f : fault).
Arguments Ok {A} _.
Arguments Fault {A} _.

#[export] Instance res_ret : MRet res := fun A a => Ok a.
#[export] Instance res_bind : MBind res := fun A B f m =>
  match m with Ok a => f a | Fault e => Fault e end.

Definition is_ok {A} (r : res A) : bool :=
  match r with Ok _ => true | Fault _ => false end.

Lemma bind_Ok {A B} (a : A) (f : A -> res B) : (Ok a ≫= f) = f a.
Proof. reflexivity. Qed.

Lemma bind_Fault {A B} e (f : A -> res B) : (Fault e ≫= f) = Fault e.
Proof. reflexivity. Qed.

Lemma bind_Ok_inv {A B} (m : res A) (f : A -> res B) b :
  (m ≫= f) = Ok b -> exists a, m = Ok a /\ f a = Ok b.
Proof. destruct m as [a|e]; intros H; [by exists a | discriminate H]. Qed.

Lemma Ok_inj {A} (a b : A) : Ok a = Ok b -> a = b.
Proof. by intros [= ->]. Qed.

(** Observe a computation without spelling out the states it goes through. *)
Definition probe {A B} (f : A -> B) (r : res A) : option B :=
  match r with Ok a => Some (f a) | Fault _ => None end.

Lemma probe_ok {A B} (f : A -> B) r v : probe f r = Some v -> exists a, r = Ok a /\ f a = v.
Proof. destruct r as [a|]; intros [=]. by exists a. Qed.

(** ** Fixed-width unsigned integers

    A [uintN_t] is a [Z]; arithmetic is followed by the wrap of its width. *)

Definition u8 (z : Z) : Z := z mod 2 ^ 8.
Definition u16 (z : Z) : Z := z mod 2 ^ 16.
Definition u32 (z : Z) : Z := z mod 2 ^ 32.
Definition u64 (z : Z) : Z := z mod 2 ^ 64.

Definition is_u8 (z : Z) : Prop := 0 <= z < 2 ^ 8.
Definition is_u16 (z : Z) : Prop := 0 <= z < 2 ^ 16.
Definition is_u32 (z : Z) : Prop := 0 <= z < 2 ^ 32.
Definition is_u64 (z : Z) : Prop := 0 <= z < 2 ^ 64.

Lemma u8_range z : is_u8 (u8 z).
Proof. unfold is_u8, u8. apply Z.mod_pos_bound. lia. Qed.
Lemma u16_range z : is_u16 (u16 z).
Proof. unfold is_u16, u16. apply Z.mod_pos_bound. lia. Qed.
Lemma u32_range z : is_u32 (u32 z).
Proof. unfold is_u32, u32. apply Z.mod_pos_bound. lia. Qed.
Lemma u64_range z : is_u64 (u64 z).
Proof. unfold is_u64, u64. apply Z.mod_pos_bound. lia. Qed.

Lemma u8_small z : is_u8 z -> u8 z = z.
Proof. apply Z.mod_small. Qed.
Lemma u16_small z : is_u16 z -> u16 z = z.
Proof. apply Z.mod_small. Qed.
Lemma u32_small z : is_u32 z -> u32 z = z.
Proof. apply Z.mod_small. Qed.
Lemma u64_small z : is_u64 z -> u64 z = z.
Proof. apply Z.mod_small. Qed.

Lemma u64_add_idemp_l a b : u64 (u64 a + b) = u64 (a + b).
Proof. unfold u64. by rewrite Zplus_mod_idemp_l. Qed.

Create HintDb feed.
Create Rewrite HintDb feed.
#[export] Hint Resolve u8_range u16_range u32_range u64_range : feed.
#[export] Hint Rewrite @bind_Ok @bind_Fault : feed.

(** Unfold the range predicates and finish by linear arithmetic. *)
Ltac width := unfold is_u8, is_u16, is_u32, is_u64 in *; lia.

(** Remove a wrap whose argument is provably in range. *)
Ltac unwrap :=
  repeat first
    [ rewrite u64_small by width
    | rewrite u32_small by width
    | rewrite u16_small by width
    | rewrite u8_small by width ].

(** Case analysis on every boolean comparison of the goal. *)
Ltac case_bool :=
  match goal with
  | |- context [ (?a <? ?b)%Z ] => destruct (Z.ltb_spec a b)
  | |- context [ (?a <=? ?b)%Z ] => destruct (Z.leb_spec a b)
  | |- context [ (?a >? ?b)%Z ] => rewrite (Z.gtb_ltb a b); destruct (Z.ltb_spec b a)
  | |- context [ (?a >=? ?b)%Z ] => rewrite (Z.geb_leb a b); destruct (Z.leb_spec b a)
  | |- context [ (?a =? ?b)%Z ] => destruct (Z.eqb_spec a b)
  end.

(** ** Clock readings

    [timespec], as [clock_gettime] or a control message returns it. *)

Record timespec := mk_timespec { tv_sec : Z; tv_nsec : Z }.

(** [uint64_t(ts.tv_sec) * 1'000'000'000ULL + uint64_t(ts.tv_nsec)] *)
Definition timespec_ns (ts : timespec) : Z :=
  u64 (u64 (u64 (tv_sec ts) * 1000000000) + u64 (tv_nsec ts)).

(** ** Bytes *)

Definition b2z (b : byte) : Z := Z.of_N (Stdlib.Strings.Byte.to_N b).
Definition z2b (z : Z) : byte :=
  default Corelib.Init.Byte.x00 (Stdlib.Strings.Byte.of_N (Z.to_N (u8 z))).

#[export] Instance byte_eq_dec : EqDecision byte := Stdlib.Strings.Byte.byte_eq_dec.

Lemma b2z_range b : is_u8 (b2z b).
Proof.
  unfold b2z, is_u8. pose proof (Stdlib.Strings.Byte.to_N_bounded b). lia.
Qed.

Lemma z2b_b2z b : z2b (b2z b) = b.
Proof.
  unfold z2b. rewrite u8_small by apply b2z_range.
  unfold b2z. by rewrite N2Z.id, Stdlib.Strings.Byte.of_to_N.
Qed.

Lemma b2z_z2b z : b2z (z2b z) = u8 z.
Proof.
  unfold z2b. assert (H : is_u8 (u8 z)) by (apply Z.mod_pos_bound; lia).
  destruct (Stdlib.Strings.Byte.of_N (Z.to_N (u8 z))) as [b|] eqn:E; simpl.
  - unfold b2z. apply Stdlib.Strings.Byte.to_of_N in E. rewrite E.
    rewrite Z2N.id; [done | width].
  - apply Stdlib.Strings.Byte.of_N_None_iff in E. width.
Qed.

Lemma b2z_inj a b : b2z a = b2z b -> a = b.
Proof. intros H. by rewrite <-(z2b_b2z a), H, z2b_b2z. Qed.

#[export] Hint Resolve b2z_range : feed.

(** ** Memory: an object is its list of bytes, a pointer into it an offset *)

Abbreviation blen l := (Z.of_nat (length l)).

Definition in_bounds (m : list byte) (off n : Z) : bool :=
  (0 <=? off) && (0 <=? n) && (off + n <=? blen m).

Definition slice {A} (m : list A) (off n : Z) : list A :=
  take (Z.to_nat n) (drop (Z.to_nat off) m).

(** [n] bytes at [off], as [memcpy] or an array access reads them. *)
Definition mem_read (m : list byte) (off n : Z) : res (list byte) :=
  if in_bounds m off n then Ok (slice m off n) else Fault OutOfBounds.

Definition mem_write (m : list byte) (off : Z) (bs : list byte) : res (list byte) :=
  if in_bounds m off (blen bs)
  then Ok (take (Z.to_nat off) m ++ bs ++ drop (Z.to_nat off + length bs) m)
  else Fault OutOfBounds.

Lemma in_bounds_true m off n :
  in_bounds m off n = true <-> 0 <= off /\ 0 <= n /\ off + n <= blen m.
Proof. unfold in_bounds. rewrite !andb_true_iff, !Z.leb_le. tauto. Qed.

Lemma length_slice {A} (m : list A) off n :
  0 <= off -> 0 <= n -> off + n <= blen m -> length (slice m off n) = Z.to_nat n.
Proof. intros. unfold slice. rewrite length_take, length_drop. lia. Qed.

Lemma mem_read_Ok m off n :
  0 <= off -> 0 <= n -> off + n <= blen m -> mem_read m off n = Ok (slice m off n).
Proof.
  intros. unfold mem_read. by rewrite (proj2 (in_bounds_true m off n)).
Qed.

Lemma mem_write_Ok m off bs :
  0 <= off -> off + blen bs <= blen m ->
  mem_write m off bs =
    Ok (take (Z.to_nat off) m ++ bs ++ drop (Z.to_nat off + length bs) m).
Proof.
  intros. unfold mem_write. rewrite (proj2 (in_bounds_true m off (blen bs))); [done | lia].
Qed.

Lemma mem_write_length m off bs m' :
  mem_write m off bs = Ok m' -> length m' = length m.
Proof.
  unfold mem_write. destruct (in_bounds m off (blen bs)) eqn:E; [|done].
  intros [= <-]. apply in_bounds_true in E.
  rewrite !length_app, length_take, length_drop. lia.
Qed.

Lemma slice_app_l {A} (a b : list A) off n :
  0 <= off -> 0 <= n -> off + n <= blen a -> slice (a ++ b) off n = slice a off n.
Proof.
  intros. unfold slice. rewrite drop_app_le by lia.
  rewrite take_app_le; [done|]. rewrite length_drop. lia.
Qed.

Lemma slice_app_r {A} (a b : list A) off n :
  blen a <= off -> slice (a ++ b) off n = slice b (off - blen a) n.
Proof.
  intros. unfold slice. rewrite drop_app_ge by lia.
  do 2 f_equal. lia.
Qed.

Lemma slice_drop {A} (m : list A) k off n :
  0 <= k -> 0 <= off -> slice (drop (Z.to_nat k) m) off n = slice m (k + off) n.
Proof. intros. unfold slice. rewrite drop_drop. do 2 f_equal. lia. Qed.

Lemma slice_take {A} (m : list A) k off n :
  0 <= off -> 0 <= n -> off + n <= k -> slice (take (Z.to_nat k) m) off n = slice m off n.
Proof.
  intros. unfold slice. rewrite skipn_firstn_comm, take_take. f_equal. lia.
Qed.

Lemma slice_all {A} (m : list A) n : blen m = n -> slice m 0 n = m.
Proof. intros <-. unfold slice. by rewrite drop_0, take_ge by lia. Qed.

(** The object [m] with [bs] stored at [off]: what an in-bounds write leaves. *)
Definition splice {A} (m : list A) (off : Z) (bs : list A) : list A :=
  take (Z.to_nat off) m ++ bs ++ drop (Z.to_nat off + length bs) m.

Lemma length_splice {A} (m : list A) off bs :
  0 <= off -> off + blen bs <= blen m -> length (splice m off bs) = length m.
Proof.
  intros. unfold splice. rewrite !length_app, length_take, length_drop. lia.
Qed.

Lemma slice_splice_eq {A} (m : list A) off bs n :
  0 <= off -> off + blen bs <= blen m -> n = blen bs ->
  slice (splice m off bs) off n = bs.
Proof.
  intros ? ? ->. unfold splice.
  assert (E : length (take (Z.to_nat off) m) = Z.to_nat off) by (rewrite length_take; lia).
  rewrite slice_app_r by lia. rewrite E, Z2Nat.id, Z.sub_diag by lia.
  rewrite slice_app_l by lia. by apply slice_all.
Qed.

Lemma slice_splice_before {A} (m : list A) off bs o n :
  0 <= o -> 0 <= n -> o + n <= off -> off + blen bs <= blen m ->
  slice (splice m off bs) o n = slice m o n.
Proof.
  intros. unfold splice.
  rewrite slice_app_l by (rewrite ?length_take; lia).
  apply slice_take; lia.
Qed.

Lemma slice_splice_after {A} (m : list A) off bs o n :
  0 <= off -> off + blen bs <= o -> off + blen bs <= blen m ->
  slice (splice m off bs) o n = slice m o n.
Proof.
  intros. unfold splice.
  assert (E : length (take (Z.to_nat off) m) = Z.to_nat off) by (rewrite length_take; lia).
  rewrite slice_app_r by lia. rewrite slice_app_r by lia. rewrite E.
  unfold slice. rewrite drop_drop. do 2 f_equal. lia.
Qed.

(** Two adjacent writes are one. *)
Lemma splice_splice_app {A} (m : list A) off a b :
  0 <= off -> off + blen a + blen b <= blen m ->
  splice (splice m off a) (off + blen a) b = splice m off (a ++ b).
Proof.
  intros. unfold splice.
  assert (E : length (take (Z.to_nat off) m) = Z.to_nat off) by (rewrite length_take; lia).
  set (hd := take (Z.to_nat off) m) in *.
  set (tl := drop (Z.to_nat off + length a) m).
  replace (Z.to_nat (off + blen a)) with (length (hd ++ a)) by (rewrite length_app; lia).
  rewrite (app_assoc hd a tl), take_app_length, drop_app_add'.
  - unfold tl. rewrite drop_drop, length_app, <-!app_assoc. do 3 f_equal. f_equal. lia.
  - rewrite length_app. lia.
Qed.

Lemma mem_write_splice m off bs :
  0 <= off -> off + blen bs <= blen m -> mem_write m off bs = Ok (splice m off bs).
Proof. apply mem_write_Ok. Qed.

(** A disjunction of disjoint bit fields is their sum. *)
Lemma lor_shiftl_add x y n :
  0 <= n -> 0 <= y < 2 ^ n -> Z.lor (Z.shiftl x n) y = x * 2 ^ n + y.
Proof.
  intros Hn Hy. rewrite <-(Z.shiftl_mul_pow2 x n) by done.
  rewrite <-Z.add_lor_land.
  enough (Z.land (Z.shiftl x n) y = 0) by lia.
  apply Z.bits_inj'. intros k Hk. rewrite Z.land_spec, Z.bits_0.
  destruct (Z.lt_ge_cases k n).
  - by rewrite Z.shiftl_spec_low.
  - rewrite <-(Z.mod_small y (2 ^ n)) by done.
    rewrite Z.mod_pow2_bits_high by lia. apply andb_false_r.
Qed.
