(* ===== verification/WireFormat.v ===== *)
(** * WireFormat: big-endian access, MoldUDP64 framing and ITCH 5.0 layouts

    Models [include/feed/wire_format.hpp].  A pointer argument is the list of
    the bytes readable from it (or an object and an offset); a [parse] method
    returns the [bool] of the source together with the [out] object. *)

From stdpp Require Import base gmap list strings fin_maps.
From Stdlib Require Import ZArith Lia.
From S2P Require Import Prelude.

#[local] Open Scope Z_scope.

(** ** Native (little-endian) loads and stores, and the byte swap *)

Fixpoint load_le (bs : list byte) : Z :=
  match bs with
  | [] => 0
  | b :: bs' => b2z b + 256 * load_le bs'
  end.

Fixpoint store_le (n : nat) (v : Z) : list byte :=
  match n with
  | O => []
  | S n' => z2b v :: store_le n' (v / 256)
  end.

(** [__builtin_bswap16/32/64]: the bytes of a value in the other order. *)
Definition bswap (n : nat) (v : Z) : Z := load_le (rev (store_le n v)).

Definition be16 (p : list byte) (off : Z) : res Z :=
  v ← mem_read p off 2; mret (bswap 2 (load_le v)).
Definition be32 (p : list byte) (off : Z) : res Z :=
  v ← mem_read p off 4; mret (bswap 4 (load_le v)).
Definition be64 (p : list byte) (off : Z) : res Z :=
  v ← mem_read p off 8; mret (bswap 8 (load_le v)).

(** [p[i]] *)
Definition byte_at (p : list byte) (i : Z) : res Z :=
  b ← mem_read p i 1; mret (load_le b).

Definition be48 (p : list byte) (off : Z) : res Z :=
  p0 ← byte_at p off; p1 ← byte_at p (off + 1); p2 ← byte_at p (off + 2);
  p3 ← byte_at p (off + 3); p4 ← byte_at p (off + 4); p5 ← byte_at p (off + 5);
  mret (Z.lor (Z.lor (Z.lor (Z.lor (Z.lor
    (Z.shiftl p0 40) (Z.shiftl p1 32)) (Z.shiftl p2 24)) (Z.shiftl p3 16))
    (Z.shiftl p4 8)) p5).

Definition put_be16 (p : list byte) (off v : Z) : res (list byte) :=
  mem_write p off (store_le 2 (bswap 2 v)).
Definition put_be32 (p : list byte) (off v : Z) : res (list byte) :=
  mem_write p off (store_le 4 (bswap 4 v)).
Definition put_be64 (p : list byte) (off v : Z) : res (list byte) :=
  mem_write p off (store_le 8 (bswap 8 v)).

(** The loop [for (i = 0; i < 6; ++i) p[i] = uint8_t(v >> (40 - 8 * i))]. *)
Definition put_be48 (p : list byte) (off v : Z) : res (list byte) :=
  foldl (fun r i => q ← r; mem_write q (off + i) [z2b (Z.shiftr v (40 - 8 * i))])
        (Ok p) [0; 1; 2; 3; 4; 5].

(** ** Their meaning: the big-endian value of a byte string *)

Definition be_val (bs : list byte) : Z := foldl (fun acc b => acc * 256 + b2z b) 0 bs.

Definition be_bytes (n : nat) (v : Z) : list byte := rev (store_le n v).

(** ** MoldUDP64 header *)

Definition kMoldHeaderSize : Z := 20.

Module MoldHeader.

Record t := mk {
  session : list byte;      (* char[10] *)
  seq_num : Z;              (* uint64_t *)
  msg_count : Z             (* uint16_t *)
}.

Definition parse (this : t) (buf : list byte) (len : Z) : res (bool * t) :=
  if len <? kMoldHeaderSize then mret (false, this)
  else
    s ← mem_read buf 0 10;
    seq ← be64 buf 10;
    cnt ← be16 buf 18;
    mret (true, mk s seq cnt).

Definition serialise (this : t) (buf : list byte) : res (list byte) :=
  b0 ← mem_write buf 0 (session this);
  b1 ← put_be64 b0 10 (seq_num this);
  put_be16 b1 18 (msg_count this).

Definition is_heartbeat (this : t) : bool := msg_count this =? 0.
Definition session_view (this : t) : list byte := session this.

Definition wf (h : t) : Prop :=
  length (session h) = 10%nat /\ is_u64 (seq_num h) /\ is_u16 (msg_count h).

(** The twenty bytes of a header on the wire. *)
Definition wire (h : t) : list byte :=
  session h ++ be_bytes 8 (seq_num h) ++ be_bytes 2 (msg_count h).

End MoldHeader.

(** A decoded message: [body] is the memory readable from the zero-copy
    pointer, of which the first [length] bytes are the message. *)
Module MoldMessage.

Record t := mk {
  length : Z;               (* uint16_t *)
  body : list byte;         (* const uint8_t* *)
  seq_num : Z;              (* uint64_t *)
  recv_ns : Z               (* uint64_t *)
}.

End MoldMessage.

(** ** ITCH 5.0 message types *)

Inductive ItchMsgType :=
| SystemEvent | StockDirectory | AddOrderNoMpid | AddOrderMpid | OrderExecuted
| OrderExecutedPrice | OrderCancel | OrderDelete | OrderReplace | Trade
| CrossTrade | BrokenTrade | NOII | Unknown
| Unnamed (v : Z).          (* a uint8_t value with no enumerator *)

(** [static_cast<ItchMsgType>(v)] on the enumerators' character codes. *)
Definition itch_of_code (v : Z) : ItchMsgType :=
  if v =? 83 then SystemEvent else if v =? 82 then StockDirectory
  else if v =? 65 then AddOrderNoMpid else if v =? 70 then AddOrderMpid
  else if v =? 69 then OrderExecuted else if v =? 67 then OrderExecutedPrice
  else if v =? 88 then OrderCancel else if v =? 68 then OrderDelete
  else if v =? 85 then OrderReplace else if v =? 80 then Trade
  else if v =? 81 then CrossTrade else if v =? 66 then BrokenTrade
  else if v =? 73 then NOII else if v =? 255 then Unknown else Unnamed v.

Definition itch_type (body : list byte) : res ItchMsgType :=
  b ← byte_at body 0; mret (itch_of_code b).

Definition kType : Z := 0.
Definition kStockLocate : Z := 1.
Definition kTracking : Z := 3.
Definition kTimestamp : Z := 5.
Definition kBody : Z := 11.

Definition itch_timestamp_ns (body : list byte) : res Z := be48 body kTimestamp.
Definition itch_stock_locate (body : list byte) : res Z := be16 body kStockLocate.

(** [char(body[i])] *)
Definition char_at (p : list byte) (i : Z) : res byte :=
  if in_bounds p i 1
  then mret (default Corelib.Init.Byte.x00 (p !! Z.to_nat i))
  else Fault OutOfBounds.

(** ** ITCH decoded messages *)

Module ItchAddOrder.

Record t := mk {
  seq_num : Z; timestamp_ns : Z; stock_locate : Z; order_ref : Z;
  shares : Z; price : Z;
  stock : list byte;        (* char[9], null-terminated *)
  side : byte; has_mpid : bool
}.

Definition parse (body : list byte) (len : Z) (out : t) : res (bool * t) :=
  if len <? 36 then mret (false, out)
  else
    loc ← be16 body 1;
    ts ← be48 body 5;
    oref ← be64 body 11;
    sd ← char_at body 19;
    sh ← be32 body 20;
    stk ← mem_read body 24 8;
    pr ← be32 body 32;
    ty ← byte_at body 0;
    mret (true, mk (seq_num out) ts loc oref sh pr (stk ++ [Corelib.Init.Byte.x00])
                   sd (ty =? 70)).

End ItchAddOrder.

Module ItchDeleteOrder.

Record t := mk { seq_num : Z; timestamp_ns : Z; order_ref : Z }.

Definition parse (body : list byte) (len : Z) (out : t) : res (bool * t) :=
  if len <? 19 then mret (false, out)
  else
    ts ← be48 body 5;
    oref ← be64 body 11;
    mret (true, mk (seq_num out) ts oref).

End ItchDeleteOrder.

Module ItchOrderExecuted.

Record t := mk {
  seq_num : Z; timestamp_ns : Z; order_ref : Z; executed_shares : Z; match_number : Z
}.

Definition parse (body : list byte) (len : Z) (out : t) : res (bool * t) :=
  if len <? 31 then mret (false, out)
  else
    ts ← be48 body 5;
    oref ← be64 body 11;
    sh ← be32 body 19;
    mn ← be64 body 23;
    mret (true, mk (seq_num out) ts oref sh mn).

End ItchOrderExecuted.

Module ItchOrderCancel.

Record t := mk { seq_num : Z; timestamp_ns : Z; order_ref : Z; cancelled_shares : Z }.

Definition parse (body : list byte) (len : Z) (out : t) : res (bool * t) :=
  if len <? 23 then mret (false, out)
  else
    ts ← be48 body 5;
    oref ← be64 body 11;
    sh ← be32 body 19;
    mret (true, mk (seq_num out) ts oref sh).

End ItchOrderCancel.

Module ItchOrderReplace.

Record t := mk {
  seq_num : Z; timestamp_ns : Z; orig_order_ref : Z; new_order_ref : Z;
  shares : Z; price : Z
}.

Definition parse (body : list byte) (len : Z) (out : t) : res (bool * t) :=
  if len <? 35 then mret (false, out)
  else
    ts ← be48 body 5;
    orig ← be64 body 11;
    new ← be64 body 19;
    sh ← be32 body 27;
    pr ← be32 body 31;
    mret (true, mk (seq_num out) ts orig new sh pr).

End ItchOrderReplace.

(** ** Retransmit request *)

Module RetransmitRequest.

Record t := mk { session : list byte; first_seq : Z; count : Z }.

Definition serialise (this : t) (buf : list byte) : res (list byte) :=
  b0 ← mem_write buf 0 (session this);
  b1 ← put_be64 b0 10 (first_seq this);
  put_be16 b1 18 (count this).

Definition kSize : Z := 20.

End RetransmitRequest.

(** ** PCAP file headers (packed, host byte order) *)

Module PcapGlobalHeader.

Record t := mk {
  magic_number : Z; version_major : Z; version_minor : Z; thiszone : Z;
  sigfigs : Z; snaplen : Z; network : Z
}.

(** [PcapGlobalHeader{}] *)
Definition init : t := mk 0xa1b2c3d4 2 4 0 0 65535 1.

(** The 24 bytes of the packed struct. *)
Definition bytes (h : t) : list byte :=
  store_le 4 (magic_number h) ++ store_le 2 (version_major h) ++
  store_le 2 (version_minor h) ++ store_le 4 (thiszone h) ++
  store_le 4 (sigfigs h) ++ store_le 4 (snaplen h) ++ store_le 4 (network h).

End PcapGlobalHeader.

Module PcapRecordHeader.

Record t := mk { ts_sec : Z; ts_usec : Z; incl_len : Z; orig_len : Z }.

Definition bytes (h : t) : list byte :=
  store_le 4 (ts_sec h) ++ store_le 4 (ts_usec h) ++
  store_le 4 (incl_len h) ++ store_le 4 (orig_len h).

(** The struct read back from its 16 bytes. *)
Definition of_bytes (bs : list byte) : t :=
  mk (load_le (slice bs 0 4)) (load_le (slice bs 4 4))
     (load_le (slice bs 8 4)) (load_le (slice bs 12 4)).

End PcapRecordHeader.

Definition kPcapMagicLE : Z := 0xa1b2c3d4.
Definition kPcapMagicBE : Z := 0xd4c3b2a1.
Definition kPcapMagicNsLE : Z := 0xa1b23c4d.
Definition kEtherIpUdpHdrSize : Z := 42.
