(* ===== verification/WireLemmas.v ===== *)
(** * WireLemmas: the meaning of the wire-format operations

    Big-endian access equals the big-endian value of the bytes, every parser is
    memory safe on the length it is given and decodes the ITCH 5.0 layout
    tables, and the MoldUDP64 header round-trips through its wire form. *)

From stdpp Require Import base gmap list strings fin_maps.
From Stdlib Require Import ZArith Lia.
From S2P Require Import Prelude WireFormat.

#[local] Open Scope Z_scope.

(** ** Loads, stores and byte swaps *)

Lemma load_le_app a b : load_le (a ++ b) = load_le a + 256 ^ blen a * load_le b.
Proof.
  induction a as [|x a IH].
  - simpl load_le. simpl length. rewrite Z.pow_0_r. simpl app. lia.
  - cbn [load_le app length]. rewrite IH, Nat2Z.inj_succ, Z.pow_succ_r by lia. ring.
Qed.

Lemma load_le_rev bs : load_le (rev bs) = be_val bs.
Proof.
  unfold be_val. induction bs as [|b bs IH] using rev_ind; [done|].
  rewrite rev_app_distr, foldl_app. cbn [rev app load_le foldl]. rewrite IH. ring.
Qed.

Lemma load_le_range bs : 0 <= load_le bs < 256 ^ blen bs.
Proof.
  induction bs as [|b bs IH]; [simpl; lia|].
  cbn [load_le length]. rewrite Nat2Z.inj_succ, Z.pow_succ_r by lia.
  pose proof (b2z_range b). width.
Qed.

Lemma be_val_range bs : 0 <= be_val bs < 256 ^ blen bs.
Proof. rewrite <-load_le_rev, <-(length_rev bs). apply load_le_range. Qed.

Lemma length_store_le n v : length (store_le n v) = n.
Proof. revert v. induction n; intros; simpl; auto. Qed.

Lemma load_store_le n v : load_le (store_le n v) = v mod 256 ^ Z.of_nat n.
Proof.
  revert v. induction n as [|n IH]; intros v.
  - simpl. by rewrite Z.mod_1_r.
  - cbn [store_le load_le]. rewrite IH, b2z_z2b, Nat2Z.inj_succ, Z.pow_succ_r by lia.
    rewrite Z.rem_mul_r by lia. unfold u8. done.
Qed.

Lemma store_load_le bs : store_le (length bs) (load_le bs) = bs.
Proof.
  induction bs as [|b bs IH]; [done|].
  cbn [length store_le load_le]. f_equal.
  - apply b2z_inj. rewrite b2z_z2b. pose proof (b2z_range b). unfold u8.
    change (2 ^ 8) with 256. rewrite Z.mul_comm, Z_mod_plus_full.
    apply Z.mod_small. width.
  - rewrite Z.mul_comm, Z_div_plus_full by lia.
    rewrite Z.div_small by (pose proof (b2z_range b); width). by rewrite Z.add_0_l.
Qed.

Lemma store_le_bswap n v : store_le n (bswap n v) = be_bytes n v.
Proof.
  unfold bswap, be_bytes. rewrite <-(length_store_le n v) at 1.
  rewrite <-length_rev. apply store_load_le.
Qed.

Lemma bswap_load bs : bswap (length bs) (load_le bs) = be_val bs.
Proof. unfold bswap. rewrite store_load_le. apply load_le_rev. Qed.

Lemma length_be_bytes n v : length (be_bytes n v) = n.
Proof. unfold be_bytes. by rewrite length_rev, length_store_le. Qed.

Lemma be_val_be_bytes n v : be_val (be_bytes n v) = v mod 256 ^ Z.of_nat n.
Proof. unfold be_bytes. rewrite <-load_le_rev, rev_involutive. apply load_store_le. Qed.

Lemma be_bytes_be_val n bs : length bs = n -> be_bytes n (be_val bs) = bs.
Proof.
  intros <-. unfold be_bytes. rewrite <-load_le_rev, <-length_rev, store_load_le.
  apply rev_involutive.
Qed.

(** ** Access in bounds *)

Lemma bswap_load_n n bs : length bs = n -> bswap n (load_le bs) = be_val bs.
Proof. intros <-. apply bswap_load. Qed.

Lemma be16_Ok p off : 0 <= off -> off + 2 <= blen p -> be16 p off = Ok (be_val (slice p off 2)).
Proof.
  intros. unfold be16. rewrite mem_read_Ok by lia. cbn [mbind res_bind mret res_ret].
  by rewrite bswap_load_n by (rewrite length_slice; lia).
Qed.

Lemma be32_Ok p off : 0 <= off -> off + 4 <= blen p -> be32 p off = Ok (be_val (slice p off 4)).
Proof.
  intros. unfold be32. rewrite mem_read_Ok by lia. cbn [mbind res_bind mret res_ret].
  by rewrite bswap_load_n by (rewrite length_slice; lia).
Qed.

Lemma be64_Ok p off : 0 <= off -> off + 8 <= blen p -> be64 p off = Ok (be_val (slice p off 8)).
Proof.
  intros. unfold be64. rewrite mem_read_Ok by lia. cbn [mbind res_bind mret res_ret].
  by rewrite bswap_load_n by (rewrite length_slice; lia).
Qed.

Lemma slice_cons {A} (m : list A) off n x :
  0 <= off -> 0 < n -> m !! Z.to_nat off = Some x ->
  slice m off n = x :: slice m (off + 1) (n - 1).
Proof.
  intros Hoff Hn Hx. unfold slice. rewrite (drop_S _ _ _ Hx).
  replace (Z.to_nat n) with (S (Z.to_nat (n - 1))) by lia.
  replace (Z.to_nat (off + 1)) with (S (Z.to_nat off)) by lia. done.
Qed.

Lemma slice_nil {A} (m : list A) off : slice m off 0 = [].
Proof. unfold slice. by rewrite take_0. Qed.

Lemma lookup_in_bounds (p : list byte) i :
  0 <= i -> i + 1 <= blen p -> exists b, p !! Z.to_nat i = Some b.
Proof. intros. apply lookup_lt_is_Some. lia. Qed.

Lemma byte_at_Ok p i b :
  0 <= i -> p !! Z.to_nat i = Some b -> byte_at p i = Ok (b2z b).
Proof.
  intros Hi Hb. pose proof (lookup_lt_Some _ _ _ Hb). unfold byte_at.
  rewrite mem_read_Ok by lia. rewrite (slice_cons p i 1 b) by (done || lia).
  rewrite slice_nil. cbn [mbind res_bind mret res_ret load_le]. f_equal. lia.
Qed.

Lemma be48_bits (b0 b1 b2 b3 b4 b5 : byte) :
  Z.lor (Z.lor (Z.lor (Z.lor (Z.lor
    (Z.shiftl (b2z b0) 40) (Z.shiftl (b2z b1) 32)) (Z.shiftl (b2z b2) 24))
    (Z.shiftl (b2z b3) 16)) (Z.shiftl (b2z b4) 8)) (b2z b5)
  = be_val [b0; b1; b2; b3; b4; b5].
Proof.
  pose proof (b2z_range b0). pose proof (b2z_range b1). pose proof (b2z_range b2).
  pose proof (b2z_range b3). pose proof (b2z_range b4). pose proof (b2z_range b5).
  rewrite <-!Z.lor_assoc. unfold is_u8 in *.
  rewrite (lor_shiftl_add (b2z b4)) by lia.
  rewrite (lor_shiftl_add (b2z b3)) by lia.
  rewrite (lor_shiftl_add (b2z b2)) by lia.
  rewrite (lor_shiftl_add (b2z b1)) by lia.
  rewrite (lor_shiftl_add (b2z b0)) by lia.
  unfold be_val. cbn [foldl]. lia.
Qed.

Lemma be48_Ok p off : 0 <= off -> off + 6 <= blen p -> be48 p off = Ok (be_val (slice p off 6)).
Proof.
  intros Hoff Hlen.
  destruct (lookup_in_bounds p off) as [b0 H0]; [lia..|].
  destruct (lookup_in_bounds p (off + 1)) as [b1 H1]; [lia..|].
  destruct (lookup_in_bounds p (off + 2)) as [b2 H2]; [lia..|].
  destruct (lookup_in_bounds p (off + 3)) as [b3 H3]; [lia..|].
  destruct (lookup_in_bounds p (off + 4)) as [b4 H4]; [lia..|].
  destruct (lookup_in_bounds p (off + 5)) as [b5 H5]; [lia..|].
  unfold be48. erewrite !byte_at_Ok by (eassumption || lia).
  cbn [mbind res_bind mret res_ret]. rewrite be48_bits.
  rewrite (slice_cons p off 6 b0) by (done || lia).
  rewrite (slice_cons p (off + 1) (6 - 1) b1) by (done || lia).
  rewrite (slice_cons p _ _ b2) by (lia || (replace (off + 1 + 1) with (off + 2) by lia; done)).
  rewrite (slice_cons p _ _ b3) by (lia || (replace (off + 1 + 1 + 1) with (off + 3) by lia; done)).
  rewrite (slice_cons p _ _ b4) by (lia || (replace (off + 1 + 1 + 1 + 1) with (off + 4) by lia; done)).
  rewrite (slice_cons p _ _ b5) by (lia || (replace (off + 1 + 1 + 1 + 1 + 1) with (off + 5) by lia; done)).
  replace (6 - 1 - 1 - 1 - 1 - 1 - 1) with 0 by lia. by rewrite slice_nil.
Qed.

Lemma put_be16_Ok p off v :
  0 <= off -> off + 2 <= blen p -> put_be16 p off v = Ok (splice p off (be_bytes 2 v)).
Proof.
  intros. unfold put_be16. rewrite store_le_bswap. apply mem_write_splice; [done|].
  by rewrite length_be_bytes.
Qed.

Lemma put_be32_Ok p off v :
  0 <= off -> off + 4 <= blen p -> put_be32 p off v = Ok (splice p off (be_bytes 4 v)).
Proof.
  intros. unfold put_be32. rewrite store_le_bswap. apply mem_write_splice; [done|].
  by rewrite length_be_bytes.
Qed.

Lemma put_be64_Ok p off v :
  0 <= off -> off + 8 <= blen p -> put_be64 p off v = Ok (splice p off (be_bytes 8 v)).
Proof.
  intros. unfold put_be64. rewrite store_le_bswap. apply mem_write_splice; [done|].
  by rewrite length_be_bytes.
Qed.

Lemma be_bytes_6 v :
  be_bytes 6 v = [z2b (Z.shiftr v 40); z2b (Z.shiftr v 32); z2b (Z.shiftr v 24);
                  z2b (Z.shiftr v 16); z2b (Z.shiftr v 8); z2b (Z.shiftr v 0)].
Proof.
  unfold be_bytes. cbn [store_le rev app].
  rewrite !Z.shiftr_div_pow2 by lia. rewrite Z.div_1_r.
  repeat rewrite Z.div_div by lia. done.
Qed.

Lemma put_be48_Ok p off v :
  0 <= off -> off + 6 <= blen p -> put_be48 p off v = Ok (splice p off (be_bytes 6 v)).
Proof.
  intros Hoff Hlen. rewrite be_bytes_6. unfold put_be48. cbn [foldl].
  assert (Step : forall bs x i, i = blen bs -> i < 6 ->
    mem_write (splice p off bs) (off + i) [x] = Ok (splice p off (bs ++ [x]))).
  { intros bs x i -> Hi. rewrite mem_write_splice.
    - f_equal. apply splice_splice_app; simpl; lia.
    - lia.
    - rewrite length_splice by lia. simpl. lia. }
  rewrite bind_Ok, Z.add_0_r, mem_write_splice by (simpl; lia).
  do 5 (rewrite bind_Ok, Step by (simpl; lia)). done.
Qed.

(** ** Reading single bytes *)

Lemma slice_1 (p : list byte) i :
  0 <= i -> i + 1 <= blen p ->
  slice p i 1 = [default Corelib.Init.Byte.x00 (p !! Z.to_nat i)].
Proof.
  intros. destruct (lookup_in_bounds p i) as [b Hb]; [done..|].
  rewrite (slice_cons p i 1 b) by (done || lia). by rewrite slice_nil, Hb.
Qed.

Lemma char_at_slice p i b :
  0 <= i -> i + 1 <= blen p -> slice p i 1 = [b] -> char_at p i = Ok b.
Proof.
  intros ?? Hs. unfold char_at. rewrite (proj2 (in_bounds_true p i 1)) by lia.
  rewrite slice_1 in Hs by done. by injection Hs as ->.
Qed.

Lemma char_at_Ok p i :
  0 <= i -> i + 1 <= blen p ->
  char_at p i = Ok (default Corelib.Init.Byte.x00 (p !! Z.to_nat i)).
Proof. intros. apply char_at_slice; [done..|]. by apply slice_1. Qed.

Lemma byte_at_slice p i :
  0 <= i -> i + 1 <= blen p -> byte_at p i = Ok (be_val (slice p i 1)).
Proof.
  intros. destruct (lookup_in_bounds p i) as [b Hb]; [done..|].
  rewrite (byte_at_Ok p i b), slice_1, Hb by done. done.
Qed.

(** Run a chain of in-bounds reads; the bounds are found by [lia]. *)
Ltac run_reads :=
  repeat first
    [ rewrite bind_Ok
    | rewrite be16_Ok by lia | rewrite be32_Ok by lia
    | rewrite be48_Ok by lia | rewrite be64_Ok by lia
    | rewrite char_at_Ok by lia | rewrite byte_at_slice by lia
    | rewrite mem_read_Ok by lia ].

(** Locate a field inside a concatenation of fields of known length. *)
Lemma slice_app_hd {A} (a b : list A) off n :
  off = 0 -> blen a = n -> slice (a ++ b) off n = a.
Proof.
  intros -> <-. rewrite slice_app_l by lia. by apply slice_all.
Qed.

Lemma slice_whole {A} (a : list A) off n : off = 0 -> blen a = n -> slice a off n = a.
Proof. intros ->. apply slice_all. Qed.

#[export] Hint Rewrite @length_app @length_cons @length_be_bytes @length_nil : layout.

Ltac len := autorewrite with layout in *; lia.

Ltac field :=
  repeat match goal with
  | |- context [ slice (?a ++ ?b) ?off ?n ] =>
      first [ rewrite (slice_app_hd a b off n) by len
            | rewrite (slice_app_r a b off n) by len ]
  | |- context [ slice ?a ?off ?n ] => rewrite (slice_whole a off n) by len
  end.

(** ** MoldUDP64 header *)

Lemma MoldHeader_parse_short h0 buf len :
  len < kMoldHeaderSize -> MoldHeader.parse h0 buf len = Ok (false, h0).
Proof.
  intros H. unfold MoldHeader.parse. destruct (Z.ltb_spec len kMoldHeaderSize); [done | lia].
Qed.

Lemma MoldHeader_parse_Ok h0 buf len :
  kMoldHeaderSize <= len -> len <= blen buf ->
  MoldHeader.parse h0 buf len =
    Ok (true, MoldHeader.mk (slice buf 0 10) (be_val (slice buf 10 8)) (be_val (slice buf 18 2))).
Proof.
  unfold kMoldHeaderSize. intros. unfold MoldHeader.parse, kMoldHeaderSize.
  destruct (Z.ltb_spec len 20); [lia|]. by run_reads.
Qed.

Lemma be_val_slice_range (m : list byte) off n :
  0 <= off -> 0 <= n -> off + n <= blen m -> 0 <= be_val (slice m off n) < 256 ^ n.
Proof.
  intros. pose proof (be_val_range (slice m off n)) as Hr.
  rewrite length_slice, Z2Nat.id in Hr by lia. done.
Qed.

Lemma MoldHeader_parse_wf h0 buf len h :
  len <= blen buf -> MoldHeader.parse h0 buf len = Ok (true, h) -> MoldHeader.wf h.
Proof.
  intros Hlen Hp. destruct (Z.lt_ge_cases len kMoldHeaderSize) as [Hs|Hs].
  { by rewrite MoldHeader_parse_short in Hp. }
  rewrite MoldHeader_parse_Ok in Hp by done. injection Hp as <-.
  unfold kMoldHeaderSize in *. unfold MoldHeader.wf; simpl.
  pose proof (be_val_slice_range buf 10 8). pose proof (be_val_slice_range buf 18 2).
  rewrite length_slice by lia. width.
Qed.

Lemma wire_length h :
  length (MoldHeader.session h) = 10%nat -> blen (MoldHeader.wire h) = kMoldHeaderSize.
Proof.
  intros Hs. unfold MoldHeader.wire, kMoldHeaderSize.
  autorewrite with layout. lia.
Qed.

Lemma MoldHeader_serialise_Ok h buf :
  length (MoldHeader.session h) = 10%nat -> kMoldHeaderSize <= blen buf ->
  MoldHeader.serialise h buf = Ok (splice buf 0 (MoldHeader.wire h)).
Proof.
  intros Hs Hlen. unfold kMoldHeaderSize in Hlen.
  unfold MoldHeader.serialise.
  rewrite mem_write_splice, bind_Ok by lia.
  rewrite put_be64_Ok, bind_Ok by (rewrite ?length_splice; lia).
  rewrite put_be16_Ok by (rewrite ?length_splice; rewrite ?length_splice, ?length_be_bytes; lia).
  unfold MoldHeader.wire. f_equal.
  replace 10 with (0 + blen (MoldHeader.session h)) at 1 by lia.
  rewrite splice_splice_app by (autorewrite with layout; lia).
  replace 18 with (0 + blen (MoldHeader.session h ++ be_bytes 8 (MoldHeader.seq_num h)))
    by (autorewrite with layout; lia).
  rewrite splice_splice_app by (autorewrite with layout; lia).
  by rewrite <-app_assoc.
Qed.

(** Parsing what [serialise] wrote gives the header back. *)
Lemma MoldHeader_parse_wire h0 h rest len :
  MoldHeader.wf h -> kMoldHeaderSize <= len <= kMoldHeaderSize + blen rest ->
  MoldHeader.parse h0 (MoldHeader.wire h ++ rest) len = Ok (true, h).
Proof.
  intros Hwf Hlen. pose proof (wire_length h (proj1 Hwf)) as Hw.
  rewrite MoldHeader_parse_Ok by (rewrite ?length_app; lia).
  destruct Hwf as (Hs & Hq & Hc).
  unfold MoldHeader.wire in *. rewrite <-!app_assoc. field.
  rewrite !be_val_be_bytes, !Z.mod_small by width. by destruct h.
Qed.

Lemma splice_0 {A} (m bs : list A) : splice m 0 bs = bs ++ drop (length bs) m.
Proof. unfold splice. by rewrite take_0. Qed.

(** ** ITCH messages: outcome of every branch *)

Section ItchOutcome.
Context (body : list byte) (len : Z) (Hlen : len <= blen body).

Lemma ItchAddOrder_parse_eq out :
  ItchAddOrder.parse body len out =
  if len <? 36 then Ok (false, out) else
  Ok (true, ItchAddOrder.mk (ItchAddOrder.seq_num out)
    (be_val (slice body 5 6)) (be_val (slice body 1 2)) (be_val (slice body 11 8))
    (be_val (slice body 20 4)) (be_val (slice body 32 4))
    (slice body 24 8 ++ [Corelib.Init.Byte.x00])
    (default Corelib.Init.Byte.x00 (body !! 19%nat)) (be_val (slice body 0 1) =? 70)).
Proof.
  unfold ItchAddOrder.parse. destruct (Z.ltb_spec len 36); [done|]. by run_reads.
Qed.

Lemma ItchDeleteOrder_parse_eq out :
  ItchDeleteOrder.parse body len out =
  if len <? 19 then Ok (false, out) else
  Ok (true, ItchDeleteOrder.mk (ItchDeleteOrder.seq_num out)
    (be_val (slice body 5 6)) (be_val (slice body 11 8))).
Proof.
  unfold ItchDeleteOrder.parse. destruct (Z.ltb_spec len 19); [done|]. by run_reads.
Qed.

Lemma ItchOrderExecuted_parse_eq out :
  ItchOrderExecuted.parse body len out =
  if len <? 31 then Ok (false, out) else
  Ok (true, ItchOrderExecuted.mk (ItchOrderExecuted.seq_num out)
    (be_val (slice body 5 6)) (be_val (slice body 11 8))
    (be_val (slice body 19 4)) (be_val (slice body 23 8))).
Proof.
  unfold ItchOrderExecuted.parse. destruct (Z.ltb_spec len 31); [done|]. by run_reads.
Qed.

Lemma ItchOrderCancel_parse_eq out :
  ItchOrderCancel.parse body len out =
  if len <? 23 then Ok (false, out) else
  Ok (true, ItchOrderCancel.mk (ItchOrderCancel.seq_num out)
    (be_val (slice body 5 6)) (be_val (slice body 11 8)) (be_val (slice body 19 4))).
Proof.
  unfold ItchOrderCancel.parse. destruct (Z.ltb_spec len 23); [done|]. by run_reads.
Qed.

Lemma ItchOrderReplace_parse_eq out :
  ItchOrderReplace.parse body len out =
  if len <? 35 then Ok (false, out) else
  Ok (true, ItchOrderReplace.mk (ItchOrderReplace.seq_num out)
    (be_val (slice body 5 6)) (be_val (slice body 11 8)) (be_val (slice body 19 8))
    (be_val (slice body 27 4)) (be_val (slice body 31 4))).
Proof.
  unfold ItchOrderReplace.parse. destruct (Z.ltb_spec len 35); [done|]. by run_reads.
Qed.

End ItchOutcome.

(** ** The ITCH 5.0 layout tables, as the comments of the source give them *)

Definition itch_prefix (ty loc trk ts : Z) : list byte :=
  [z2b ty] ++ be_bytes 2 loc ++ be_bytes 2 trk ++ be_bytes 6 ts.

Definition itch_add_wire ty loc trk ts oref (sd : byte) sh (stk : list byte) pr : list byte :=
  itch_prefix ty loc trk ts ++ be_bytes 8 oref ++ [sd] ++ be_bytes 4 sh ++ stk ++ be_bytes 4 pr.

Definition itch_delete_wire loc trk ts oref : list byte :=
  itch_prefix 68 loc trk ts ++ be_bytes 8 oref.

Definition itch_executed_wire loc trk ts oref sh mn : list byte :=
  itch_prefix 69 loc trk ts ++ be_bytes 8 oref ++ be_bytes 4 sh ++ be_bytes 8 mn.

Definition itch_cancel_wire loc trk ts oref sh : list byte :=
  itch_prefix 88 loc trk ts ++ be_bytes 8 oref ++ be_bytes 4 sh.

Definition itch_replace_wire loc trk ts orig new sh pr : list byte :=
  itch_prefix 85 loc trk ts ++ be_bytes 8 orig ++ be_bytes 8 new ++ be_bytes 4 sh ++ be_bytes 4 pr.

Definition is_u48 (z : Z) : Prop := 0 <= z < 2 ^ 48.

Lemma be_val_1 ty : is_u8 ty -> be_val [z2b ty] = ty.
Proof. intros. unfold be_val. simpl. rewrite b2z_z2b. by apply u8_small. Qed.

Lemma lookup_slice_1 (p : list byte) i b :
  0 <= i -> i + 1 <= blen p -> slice p i 1 = [b] ->
  default Corelib.Init.Byte.x00 (p !! Z.to_nat i) = b.
Proof. intros ?? Hs. rewrite slice_1 in Hs by done. by injection Hs. Qed.

Ltac layout :=
  unfold itch_prefix; rewrite <-?app_assoc; field;
  rewrite ?be_val_be_bytes, ?be_val_1, ?Z.mod_small by (unfold is_u48 in *; width).

Lemma itch_add_decode ty loc trk ts oref sd sh stk pr rest len out :
  (ty = 65 \/ ty = 70) -> is_u16 loc -> is_u48 ts -> is_u64 oref -> is_u32 sh ->
  length stk = 8%nat -> is_u32 pr -> 36 <= len <= 36 + blen rest ->
  ItchAddOrder.parse (itch_add_wire ty loc trk ts oref sd sh stk pr ++ rest) len out =
  Ok (true, ItchAddOrder.mk (ItchAddOrder.seq_num out) ts loc oref sh pr
              (stk ++ [Corelib.Init.Byte.x00]) sd (ty =? 70)).
Proof.
  intros Hty ? ? ? ? Hstk ? Hlen.
  assert (Hw : blen (itch_add_wire ty loc trk ts oref sd sh stk pr) = 36)
    by (unfold itch_add_wire, itch_prefix; autorewrite with layout; lia).
  rewrite ItchAddOrder_parse_eq by (rewrite length_app; lia).
  destruct (Z.ltb_spec len 36); [lia|].
  change 19%nat with (Z.to_nat 19).
  rewrite (lookup_slice_1 _ 19 sd); [| lia | rewrite length_app; lia |].
  - unfold itch_add_wire. by layout.
  - unfold itch_add_wire. by layout.
Qed.

Lemma itch_delete_decode loc trk ts oref rest len out :
  is_u48 ts -> is_u64 oref -> 19 <= len <= 19 + blen rest ->
  ItchDeleteOrder.parse (itch_delete_wire loc trk ts oref ++ rest) len out =
  Ok (true, ItchDeleteOrder.mk (ItchDeleteOrder.seq_num out) ts oref).
Proof.
  intros ? ? Hlen.
  assert (Hw : blen (itch_delete_wire loc trk ts oref) = 19)
    by (unfold itch_delete_wire, itch_prefix; autorewrite with layout; lia).
  rewrite ItchDeleteOrder_parse_eq by (rewrite length_app; lia).
  destruct (Z.ltb_spec len 19); [lia|]. unfold itch_delete_wire. by layout.
Qed.

Lemma itch_executed_decode loc trk ts oref sh mn rest len out :
  is_u48 ts -> is_u64 oref -> is_u32 sh -> is_u64 mn -> 31 <= len <= 31 + blen rest ->
  ItchOrderExecuted.parse (itch_executed_wire loc trk ts oref sh mn ++ rest) len out =
  Ok (true, ItchOrderExecuted.mk (ItchOrderExecuted.seq_num out) ts oref sh mn).
Proof.
  intros ? ? ? ? Hlen.
  assert (Hw : blen (itch_executed_wire loc trk ts oref sh mn) = 31)
    by (unfold itch_executed_wire, itch_prefix; autorewrite with layout; lia).
  rewrite ItchOrderExecuted_parse_eq by (rewrite length_app; lia).
  destruct (Z.ltb_spec len 31); [lia|]. unfold itch_executed_wire. by layout.
Qed.

Lemma itch_cancel_decode loc trk ts oref sh rest len out :
  is_u48 ts -> is_u64 oref -> is_u32 sh -> 23 <= len <= 23 + blen rest ->
  ItchOrderCancel.parse (itch_cancel_wire loc trk ts oref sh ++ rest) len out =
  Ok (true, ItchOrderCancel.mk (ItchOrderCancel.seq_num out) ts oref sh).
Proof.
  intros ? ? ? Hlen.
  assert (Hw : blen (itch_cancel_wire loc trk ts oref sh) = 23)
    by (unfold itch_cancel_wire, itch_prefix; autorewrite with layout; lia).
  rewrite ItchOrderCancel_parse_eq by (rewrite length_app; lia).
  destruct (Z.ltb_spec len 23); [lia|]. unfold itch_cancel_wire. by layout.
Qed.

Lemma itch_replace_decode loc trk ts orig new sh pr rest len out :
  is_u48 ts -> is_u64 orig -> is_u64 new -> is_u32 sh -> is_u32 pr ->
  35 <= len <= 35 + blen rest ->
  ItchOrderReplace.parse (itch_replace_wire loc trk ts orig new sh pr ++ rest) len out =
  Ok (true, ItchOrderReplace.mk (ItchOrderReplace.seq_num out) ts orig new sh pr).
Proof.
  intros ? ? ? ? ? Hlen.
  assert (Hw : blen (itch_replace_wire loc trk ts orig new sh pr) = 35)
    by (unfold itch_replace_wire, itch_prefix; autorewrite with layout; lia).
  rewrite ItchOrderReplace_parse_eq by (rewrite length_app; lia).
  destruct (Z.ltb_spec len 35); [lia|]. unfold itch_replace_wire. by layout.
Qed.
