(* ===== verification/GapBuf.v ===== *)
(** * GapBuf: the sequence-gap buffer

    Models [include/feed/gap_buffer.hpp].  [GapBuffer.t] is the object's state
    (the three [std::function] members are reduced to whether a callback is
    installed); every operation returns the new state, the callback calls it
    made, in order, and its result. *)

From stdpp Require Import base gmap list strings fin_maps.
From Stdlib Require Import ZArith Lia.
From S2P Require Import Prelude WireFormat.

#[local] Open Scope Z_scope.

(** [++x] on a [uint64_t] counter. *)
Definition inc (x : Z) : Z := u64 (x + 1).

Definition kMaxPacketBytes : Z := 1500.

Record GapEvent := mk_GapEvent {
  first_missing_seq : Z;
  last_missing_seq : Z;     (* inclusive *)
  detected_at_ns : Z
}.

Module BufferedPacket.

Record t := mk {
  seq_num : Z; msg_count : Z; occupied : bool; data_len : Z; recv_ns : Z;
  data : list byte          (* uint8_t[kMaxPacketBytes] *)
}.

(** A value-initialised slot: [slots_.fill({})]. *)
Definition init : t := mk 0 0 false 0 0 (replicate (Z.to_nat kMaxPacketBytes) Corelib.Init.Byte.x00).

(** [slot.occupied = false] *)
Definition release (s : t) : t :=
  mk (seq_num s) (msg_count s) false (data_len s) (recv_ns s) (data s).

End BufferedPacket.

Abbreviation BufferedPacket := BufferedPacket.t.

(** What the callbacks observe. *)
Inductive event :=
| OnMessage (m : MoldMessage.t)
| OnGap (ev : GapEvent)
| OnRetransmitRequest (req : RetransmitRequest.t).

Module GapBuffer.

Definition kCapacity : Z := 4096.
Definition kMask : Z := kCapacity - 1.

Record Config := mk_Config {
  gap_timeout_ns : Z; retry_interval_ns : Z; max_retransmit_count : Z;
  cfg_session : list byte
}.

(** [Config()] *)
Definition Config_init : Config :=
  mk_Config 100000 1000000 100 (replicate 10 Corelib.Init.Byte.x20).

Record t := mk {
  cfg_ : Config;
  session_ : list byte;
  session_synced_ : bool;
  next_expected_ : Z;
  gap_start_ : Z;
  gap_detected_at_ns : Z;
  gap_last_retx_ns : Z;
  on_message_ : bool;
  on_gap_ : bool;
  on_retx_ : bool;
  slots_ : list BufferedPacket;
  stat_packets_ : Z;
  stat_messages_ : Z;
  stat_gaps_ : Z;
  stat_duplicates_ : Z;
  stat_delivered_ : Z;
  stat_retx_ : Z;
  stat_heartbeats_ : Z;
  stat_buffer_overflows_ : Z
}.

Definition set_session (g : t) (s : list byte) (n : Z) : t :=
  mk (cfg_ g) s true n (gap_start_ g) (gap_detected_at_ns g) (gap_last_retx_ns g)
     (on_message_ g) (on_gap_ g) (on_retx_ g) (slots_ g) (stat_packets_ g)
     (stat_messages_ g) (stat_gaps_ g) (stat_duplicates_ g) (stat_delivered_ g)
     (stat_retx_ g) (stat_heartbeats_ g) (stat_buffer_overflows_ g).

Definition set_next_expected (g : t) (n : Z) : t :=
  mk (cfg_ g) (session_ g) (session_synced_ g) n (gap_start_ g) (gap_detected_at_ns g)
     (gap_last_retx_ns g) (on_message_ g) (on_gap_ g) (on_retx_ g) (slots_ g)
     (stat_packets_ g) (stat_messages_ g) (stat_gaps_ g) (stat_duplicates_ g)
     (stat_delivered_ g) (stat_retx_ g) (stat_heartbeats_ g) (stat_buffer_overflows_ g).

Definition set_gap (g : t) (start detected retx : Z) : t :=
  mk (cfg_ g) (session_ g) (session_synced_ g) (next_expected_ g) start detected retx
     (on_message_ g) (on_gap_ g) (on_retx_ g) (slots_ g) (stat_packets_ g)
     (stat_messages_ g) (stat_gaps_ g) (stat_duplicates_ g) (stat_delivered_ g)
     (stat_retx_ g) (stat_heartbeats_ g) (stat_buffer_overflows_ g).

Definition set_gap_start (g : t) (start : Z) : t :=
  mk (cfg_ g) (session_ g) (session_synced_ g) (next_expected_ g) start
     (gap_detected_at_ns g) (gap_last_retx_ns g) (on_message_ g) (on_gap_ g) (on_retx_
     g) (slots_ g) (stat_packets_ g) (stat_messages_ g) (stat_gaps_ g) (stat_duplicates_
     g) (stat_delivered_ g) (stat_retx_ g) (stat_heartbeats_ g) (stat_buffer_overflows_
     g).

Definition set_gap_last_retx (g : t) (ns : Z) : t :=
  mk (cfg_ g) (session_ g) (session_synced_ g) (next_expected_ g) (gap_start_ g)
     (gap_detected_at_ns g) ns (on_message_ g) (on_gap_ g) (on_retx_ g) (slots_ g)
     (stat_packets_ g) (stat_messages_ g) (stat_gaps_ g) (stat_duplicates_ g)
     (stat_delivered_ g) (stat_retx_ g) (stat_heartbeats_ g) (stat_buffer_overflows_ g).

Definition set_slots (g : t) (l : list BufferedPacket) : t :=
  mk (cfg_ g) (session_ g) (session_synced_ g) (next_expected_ g) (gap_start_ g)
     (gap_detected_at_ns g) (gap_last_retx_ns g) (on_message_ g) (on_gap_ g) (on_retx_
     g) l (stat_packets_ g) (stat_messages_ g) (stat_gaps_ g) (stat_duplicates_ g)
     (stat_delivered_ g) (stat_retx_ g) (stat_heartbeats_ g) (stat_buffer_overflows_ g).

Definition inc_packets (g : t)  : t :=
  mk (cfg_ g) (session_ g) (session_synced_ g) (next_expected_ g) (gap_start_ g)
     (gap_detected_at_ns g) (gap_last_retx_ns g) (on_message_ g) (on_gap_ g) (on_retx_
     g) (slots_ g) (inc (stat_packets_ g)) (stat_messages_ g) (stat_gaps_ g)
     (stat_duplicates_ g) (stat_delivered_ g) (stat_retx_ g) (stat_heartbeats_ g)
     (stat_buffer_overflows_ g).

Definition inc_gaps (g : t)  : t :=
  mk (cfg_ g) (session_ g) (session_synced_ g) (next_expected_ g) (gap_start_ g)
     (gap_detected_at_ns g) (gap_last_retx_ns g) (on_message_ g) (on_gap_ g) (on_retx_
     g) (slots_ g) (stat_packets_ g) (stat_messages_ g) (inc (stat_gaps_ g))
     (stat_duplicates_ g) (stat_delivered_ g) (stat_retx_ g) (stat_heartbeats_ g)
     (stat_buffer_overflows_ g).

Definition inc_duplicates (g : t)  : t :=
  mk (cfg_ g) (session_ g) (session_synced_ g) (next_expected_ g) (gap_start_ g)
     (gap_detected_at_ns g) (gap_last_retx_ns g) (on_message_ g) (on_gap_ g) (on_retx_
     g) (slots_ g) (stat_packets_ g) (stat_messages_ g) (stat_gaps_ g) (inc
     (stat_duplicates_ g)) (stat_delivered_ g) (stat_retx_ g) (stat_heartbeats_ g)
     (stat_buffer_overflows_ g).

Definition inc_delivered (g : t)  : t :=
  mk (cfg_ g) (session_ g) (session_synced_ g) (next_expected_ g) (gap_start_ g)
     (gap_detected_at_ns g) (gap_last_retx_ns g) (on_message_ g) (on_gap_ g) (on_retx_
     g) (slots_ g) (stat_packets_ g) (stat_messages_ g) (stat_gaps_ g) (stat_duplicates_
     g) (inc (stat_delivered_ g)) (stat_retx_ g) (stat_heartbeats_ g)
     (stat_buffer_overflows_ g).

Definition inc_retx (g : t)  : t :=
  mk (cfg_ g) (session_ g) (session_synced_ g) (next_expected_ g) (gap_start_ g)
     (gap_detected_at_ns g) (gap_last_retx_ns g) (on_message_ g) (on_gap_ g) (on_retx_
     g) (slots_ g) (stat_packets_ g) (stat_messages_ g) (stat_gaps_ g) (stat_duplicates_
     g) (stat_delivered_ g) (inc (stat_retx_ g)) (stat_heartbeats_ g)
     (stat_buffer_overflows_ g).

Definition inc_heartbeats (g : t)  : t :=
  mk (cfg_ g) (session_ g) (session_synced_ g) (next_expected_ g) (gap_start_ g)
     (gap_detected_at_ns g) (gap_last_retx_ns g) (on_message_ g) (on_gap_ g) (on_retx_
     g) (slots_ g) (stat_packets_ g) (stat_messages_ g) (stat_gaps_ g) (stat_duplicates_
     g) (stat_delivered_ g) (stat_retx_ g) (inc (stat_heartbeats_ g))
     (stat_buffer_overflows_ g).

Definition inc_buffer_overflows (g : t)  : t :=
  mk (cfg_ g) (session_ g) (session_synced_ g) (next_expected_ g) (gap_start_ g)
     (gap_detected_at_ns g) (gap_last_retx_ns g) (on_message_ g) (on_gap_ g) (on_retx_
     g) (slots_ g) (stat_packets_ g) (stat_messages_ g) (stat_gaps_ g) (stat_duplicates_
     g) (stat_delivered_ g) (stat_retx_ g) (stat_heartbeats_ g) (inc
     (stat_buffer_overflows_ g)).

Definition add_messages (g : t) (n : Z) : t :=
  mk (cfg_ g) (session_ g) (session_synced_ g) (next_expected_ g) (gap_start_ g)
     (gap_detected_at_ns g) (gap_last_retx_ns g) (on_message_ g) (on_gap_ g) (on_retx_
     g) (slots_ g) (stat_packets_ g) (u64 (stat_messages_ g + n)) (stat_gaps_ g)
     (stat_duplicates_ g) (stat_delivered_ g) (stat_retx_ g) (stat_heartbeats_ g)
     (stat_buffer_overflows_ g).

Definition set_on_message (g : t) (installed : bool) : t :=
  mk (cfg_ g) (session_ g) (session_synced_ g) (next_expected_ g) (gap_start_ g)
     (gap_detected_at_ns g) (gap_last_retx_ns g) installed (on_gap_ g) (on_retx_ g)
     (slots_ g) (stat_packets_ g) (stat_messages_ g) (stat_gaps_ g) (stat_duplicates_ g)
     (stat_delivered_ g) (stat_retx_ g) (stat_heartbeats_ g) (stat_buffer_overflows_ g).

Definition set_on_gap (g : t) (installed : bool) : t :=
  mk (cfg_ g) (session_ g) (session_synced_ g) (next_expected_ g) (gap_start_ g)
     (gap_detected_at_ns g) (gap_last_retx_ns g) (on_message_ g) installed (on_retx_ g)
     (slots_ g) (stat_packets_ g) (stat_messages_ g) (stat_gaps_ g) (stat_duplicates_ g)
     (stat_delivered_ g) (stat_retx_ g) (stat_heartbeats_ g) (stat_buffer_overflows_ g).

Definition set_on_retransmit (g : t) (installed : bool) : t :=
  mk (cfg_ g) (session_ g) (session_synced_ g) (next_expected_ g) (gap_start_ g)
     (gap_detected_at_ns g) (gap_last_retx_ns g) (on_message_ g) (on_gap_ g) installed
     (slots_ g) (stat_packets_ g) (stat_messages_ g) (stat_gaps_ g) (stat_duplicates_ g)
     (stat_delivered_ g) (stat_retx_ g) (stat_heartbeats_ g) (stat_buffer_overflows_ g).


(** [GapBuffer(cfg)] *)
Definition create (c : Config) : t :=
  mk c (cfg_session c) false 0 0 0 0 false false false
     (replicate (Z.to_nat kCapacity) BufferedPacket.init) 0 0 0 0 0 0 0 0.

(** [slots_[seq & kMask]]; the array has [kCapacity] elements (see [wf]). *)
Definition slot_idx (seq : Z) : nat := Z.to_nat (Z.land seq kMask).
Definition slot (g : t) (seq : Z) : BufferedPacket :=
  default BufferedPacket.init (slots_ g !! slot_idx seq).
Definition put_slot (g : t) (seq : Z) (s : BufferedPacket) : t :=
  set_slots g (<[slot_idx seq := s]> (slots_ g)).

Definition in_gap (g : t) : bool := negb (gap_start_ g =? 0).

(** ** Gap handling *)

Definition handle_gap (g : t) (received_seq now_ns : Z) : t * list event :=
  if gap_start_ g =? 0 then
    let g1 := inc_gaps (set_gap g (next_expected_ g) now_ns 0) in
    (g1, if on_gap_ g1
         then [OnGap (mk_GapEvent (gap_start_ g1) (u64 (received_seq - 1)) now_ns)]
         else [])
  else (g, []).

(** The loop counting the missing sequences from [gap_start_]. *)
Fixpoint scan_missing (fuel : nat) (g : t) (s bound missing_count : Z) : res Z :=
  match fuel with
  | O => Fault OutOfFuel
  | S fuel' =>
      if s <? bound then
        let sl := slot g s in
        if BufferedPacket.occupied sl && (BufferedPacket.seq_num sl =? s)
        then mret missing_count
        else
          let missing_count := missing_count + 1 in
          if max_retransmit_count (cfg_ g) <=? missing_count then mret missing_count
          else scan_missing fuel' g (u64 (s + 1)) bound missing_count
      else mret missing_count
  end.

Definition check_gap_timeout (g : t) (now_ns : Z) : res (t * list event) :=
  if gap_start_ g =? 0 then mret (g, []) else
  let since_detect := u64 (now_ns - gap_detected_at_ns g) in
  let since_retx := if gap_last_retx_ns g =? 0 then since_detect
                    else u64 (now_ns - gap_last_retx_ns g) in
  let first_request := (gap_last_retx_ns g =? 0) && (gap_timeout_ns (cfg_ g) <=? since_detect) in
  let retry_request := negb (gap_last_retx_ns g =? 0)
                       && (retry_interval_ns (cfg_ g) <=? since_retx) in
  if negb first_request && negb retry_request then mret (g, []) else
  if negb (on_retx_ g) then mret (g, []) else
  missing_count ← scan_missing (S (Z.to_nat kCapacity)) g (gap_start_ g)
                    (u64 (gap_start_ g + kCapacity)) 0;
  if missing_count =? 0 then mret (set_gap_start g 0, []) else
  let req := RetransmitRequest.mk (session_ g) (gap_start_ g) (u16 missing_count) in
  mret (inc_retx (set_gap_last_retx g now_ns), [OnRetransmitRequest req]).

(** ** Packet buffering *)

Definition buffer_packet (g : t) (hdr : MoldHeader.t) (payload : list byte)
    (len now_ns : Z) : res t :=
  let sl := slot g (MoldHeader.seq_num hdr) in
  if BufferedPacket.occupied sl
     && negb (BufferedPacket.seq_num sl =? MoldHeader.seq_num hdr)
  then mret (inc_buffer_overflows g)
  else
    let body_len := if kMoldHeaderSize <? len then len - kMoldHeaderSize else 0 in
    let data_len := u16 (Z.min body_len kMaxPacketBytes) in
    src ← mem_read payload kMoldHeaderSize data_len;
    data ← mem_write (BufferedPacket.data sl) 0 src;
    mret (put_slot g (MoldHeader.seq_num hdr)
            (BufferedPacket.mk (MoldHeader.seq_num hdr) (MoldHeader.msg_count hdr)
               true data_len now_ns data)).

(** ** In-order delivery *)

(** The message loop; [n] counts down [hdr.msg_count - i]. *)
Fixpoint deliver_loop (n : nat) (g : t) (payload : list byte) (cursor end_ seq recv_ns : Z)
    (count : Z) : res (t * list event * Z * Z) :=
  match n with
  | O => mret (g, [], count, seq)
  | S n' =>
      if cursor + 2 <=? end_ then
        msg_len ← be16 payload cursor;
        let cursor := cursor + 2 in
        if end_ <? cursor + msg_len then mret (g, [], count, seq)
        else if next_expected_ g <=? seq then
          let msg := MoldMessage.mk msg_len (drop (Z.to_nat cursor) payload) seq recv_ns in
          let evs := if on_message_ g then [OnMessage msg] else [] in
          '(g', evs', count', seq') ←
            deliver_loop n' (inc_delivered g) payload (cursor + msg_len) end_
                         (u64 (seq + 1)) recv_ns (count + 1);
          mret (g', evs ++ evs', count', seq')
        else
          deliver_loop n' g payload (cursor + msg_len) end_ (u64 (seq + 1)) recv_ns count
      else mret (g, [], count, seq)
  end.

Definition deliver_packet (g : t) (hdr : MoldHeader.t) (payload : list byte)
    (len recv_ns : Z) : res (t * list event * Z) :=
  '(g1, evs, count, seq) ←
    deliver_loop (Z.to_nat (MoldHeader.msg_count hdr)) g payload kMoldHeaderSize len
                 (MoldHeader.seq_num hdr) recv_ns 0;
  let g2 := if next_expected_ g1 <? seq then set_next_expected g1 seq else g1 in
  mret (g2, evs, count).

(** The local packet [flush_buffer] rebuilds; its memory is the initialised
    part of [buf]. *)
Definition rebuild (g : t) (sl : BufferedPacket) : res (MoldHeader.t * list byte) :=
  let hdr := MoldHeader.mk (session_ g) (BufferedPacket.seq_num sl) (BufferedPacket.msg_count sl) in
  buf ← MoldHeader.serialise hdr
          (replicate (Z.to_nat kMoldHeaderSize) Corelib.Init.Byte.x00);
  data ← mem_read (BufferedPacket.data sl) 0 (BufferedPacket.data_len sl);
  mret (hdr, buf ++ data).

Fixpoint flush_loop (fuel : nat) (g : t) (count : Z) : res (t * list event * Z) :=
  match fuel with
  | O => Fault OutOfFuel
  | S fuel' =>
      let sl := slot g (next_expected_ g) in
      if negb (BufferedPacket.occupied sl)
         || negb (BufferedPacket.seq_num sl =? next_expected_ g)
      then mret (g, [], count)
      else
        let here := next_expected_ g in
        '(hdr, buf) ← rebuild g sl;
        '(g1, evs, n) ← deliver_packet g hdr buf
                          (kMoldHeaderSize + BufferedPacket.data_len sl)
                          (BufferedPacket.recv_ns sl);
        let g2 := put_slot g1 here (BufferedPacket.release (slot g1 here)) in
        '(g3, evs', count') ← flush_loop fuel' g2 (count + n);
        mret (g3, evs ++ evs', count')
  end.

(** Every turn empties an occupied slot: [kCapacity + 1] turns are enough. *)
Definition flush_buffer (g : t) : res (t * list event * Z) :=
  flush_loop (S (Z.to_nat kCapacity)) g 0.

(** ** Entry points *)

(** "Sync session on first packet." *)
Definition sync_session (g : t) (hdr : MoldHeader.t) : t :=
  if (next_expected_ g =? 0) && negb (session_synced_ g)
  then set_session g (MoldHeader.session hdr) (MoldHeader.seq_num hdr)
  else g.

Definition hdr_uninit : MoldHeader.t := MoldHeader.mk [] 0 0.

Definition ingest (g : t) (payload : list byte) (len now_ns : Z) : res (t * list event * Z) :=
  '(ok, hdr) ← MoldHeader.parse hdr_uninit payload len;
  if negb ok then mret (g, [], -1) else
  let g := sync_session g hdr in
  if MoldHeader.is_heartbeat hdr then
    '(g, evs) ← check_gap_timeout (inc_heartbeats g) now_ns;
    mret (g, evs, 0)
  else
  let g := add_messages (inc_packets g) (MoldHeader.msg_count hdr) in
  let pkt_first := MoldHeader.seq_num hdr in
  let pkt_last := u64 (pkt_first + MoldHeader.msg_count hdr - 1) in
  if pkt_last <? next_expected_ g then mret (inc_duplicates g, [], 0)
  else if next_expected_ g <? pkt_first then
    let '(g, evs) := handle_gap g pkt_first now_ns in
    g ← buffer_packet g hdr payload len now_ns;
    '(g, evs') ← check_gap_timeout g now_ns;
    mret (g, evs ++ evs', 0)
  else
    '(g, evs, delivered) ← deliver_packet g hdr payload len now_ns;
    '(g, evs', flushed) ← flush_buffer g;
    let g := if negb (gap_start_ g =? 0) && (gap_start_ g <? next_expected_ g)
             then set_gap_start g 0 else g in
    mret (g, evs ++ evs', delivered + flushed).

Definition tick (g : t) (now_ns : Z) : res (t * list event) := check_gap_timeout g now_ns.

(** The statistics. *)
Definition next_expected (g : t) : Z := next_expected_ g.
Definition stat_packets (g : t) : Z := stat_packets_ g.
Definition stat_messages (g : t) : Z := stat_messages_ g.
Definition stat_gaps (g : t) : Z := stat_gaps_ g.
Definition stat_duplicates (g : t) : Z := stat_duplicates_ g.
Definition stat_delivered (g : t) : Z := stat_delivered_ g.
Definition stat_retransmit_requests (g : t) : Z := stat_retx_ g.
Definition stat_heartbeats (g : t) : Z := stat_heartbeats_ g.

End GapBuffer.
