(* ===== verification/GapWalk.v ===== *)
(** * GapWalk: what one packet's message loop delivers

    The message loop of [deliver_packet] equals a reference decoding of the
    packet ([walk]), numbered from the header's sequence number and cut at
    [next_expected_]. *)

From stdpp Require Import base gmap list strings fin_maps.
From Stdlib Require Import ZArith Lia.
From S2P Require Import Prelude WireFormat WireLemmas GapBuf.

#[local] Open Scope Z_scope.
Import GapBuffer.

(** ** Reference decoding of a packet *)

(** The complete messages of a payload, as (length, memory at the body). *)
Fixpoint walk (n : nat) (payload : list byte) (cursor end_ : Z) : list (Z * list byte) :=
  match n with
  | O => []
  | S n' =>
      if cursor + 2 <=? end_ then
        let l := be_val (slice payload cursor 2) in
        if end_ <? cursor + 2 + l then []
        else (l, drop (Z.to_nat (cursor + 2)) payload)
             :: walk n' payload (cursor + 2 + l) end_
      else []
  end.

(** The bytes of a message: the first [length] bytes of the zero-copy memory. *)
Definition content (lb : Z * list byte) : list byte := take (Z.to_nat lb.1) lb.2.

Definition bodies (n : nat) (payload : list byte) (cursor end_ : Z) : list (list byte) :=
  content <$> walk n payload cursor end_.

Fixpoint number (w : list (Z * list byte)) (seq recv_ns : Z) : list MoldMessage.t :=
  match w with
  | [] => []
  | (l, b) :: w' => MoldMessage.mk l b seq recv_ns :: number w' (seq + 1) recv_ns
  end.

Definition fresh (next : Z) (ms : list MoldMessage.t) : list MoldMessage.t :=
  filter (fun m => next <= MoldMessage.seq_num m) ms.

Definition emit (g : t) (ms : list MoldMessage.t) : list event :=
  if on_message_ g then OnMessage <$> ms else [].

Definition messages (evs : list event) : list MoldMessage.t :=
  omap (fun e => match e with OnMessage m => Some m | _ => None end) evs.

Definition msg_content (m : MoldMessage.t) : list byte :=
  take (Z.to_nat (MoldMessage.length m)) (MoldMessage.body m).

(** ** Facts about the decoding *)

Lemma walk_length n payload cursor end_ : (length (walk n payload cursor end_) <= n)%nat.
Proof.
  revert cursor. induction n as [|n IH]; intros cursor; simpl; [lia|].
  repeat case_bool; simpl; try lia. apply le_n_S, IH.
Qed.

Lemma be_val_2_range (m : list byte) off :
  0 <= off -> off + 2 <= blen m -> is_u16 (be_val (slice m off 2)).
Proof. intros. pose proof (be_val_slice_range m off 2). width. Qed.

(** Every decoded message lies inside the payload. *)
Lemma walk_in_bounds n payload cursor end_ l b :
  0 <= cursor -> end_ <= blen payload ->
  (l, b) ∈ walk n payload cursor end_ -> is_u16 l /\ l <= blen b.
Proof.
  revert cursor. induction n as [|n IH]; intros cursor Hc He; simpl;
    [by intros ?%elem_of_nil|].
  destruct (Z.leb_spec (cursor + 2) end_); [|by intros ?%elem_of_nil].
  destruct (Z.ltb_spec end_ (cursor + 2 + be_val (slice payload cursor 2)));
    [by intros ?%elem_of_nil|].
  pose proof (be_val_2_range payload cursor) as Hr.
  intros [[= -> ->]|Hin]%elem_of_cons.
  - split; [width|]. rewrite length_drop. width.
  - apply IH in Hin; [done | width | done].
Qed.

Lemma number_length w seq recv : length (number w seq recv) = length w.
Proof. revert seq. induction w as [|[l b] w IH]; intros; simpl; auto. Qed.

Lemma number_seqs w seq recv :
  MoldMessage.seq_num <$> number w seq recv = seqZ seq (blen w).
Proof.
  revert seq. induction w as [|[l b] w IH]; intros seq; [done|].
  cbn [number fmap list_fmap length MoldMessage.seq_num]. rewrite IH.
  rewrite (seqZ_cons seq) by lia. rewrite Nat2Z.inj_succ. do 2 f_equal; lia.
Qed.

Lemma number_lookup w seq recv i m :
  number w seq recv !! i = Some m ->
  exists lb, w !! i = Some lb /\ msg_content m = content lb
    /\ MoldMessage.length m = lb.1 /\ MoldMessage.body m = lb.2
    /\ MoldMessage.seq_num m = seq + Z.of_nat i /\ MoldMessage.recv_ns m = recv.
Proof.
  revert seq i. induction w as [|[l b] w IH]; intros seq i; [done|].
  destruct i as [|i]; cbn [number].
  - intros [= <-]. exists (l, b). simpl. repeat split; try done. lia.
  - intros Hm. destruct (IH _ _ Hm) as (lb & ? & ? & ? & ? & ? & ?).
    exists lb. repeat split; try done. lia.
Qed.

Lemma fresh_number w seq recv next :
  seq <= next -> fresh next (number w seq recv) = drop (Z.to_nat (next - seq)) (number w seq recv).
Proof.
  revert seq. induction w as [|[l b] w IH]; intros seq Hs.
  - simpl. by rewrite drop_nil.
  - cbn [number]. destruct (decide (seq = next)) as [->|Hne].
    + rewrite Z.sub_diag, drop_0. clear Hs IH.
      enough (H : forall v, next <= v -> fresh next (number ((l, b) :: w) v recv)
                  = number ((l, b) :: w) v recv) by (apply (H next); lia).
      generalize ((l, b) :: w) as w'. induction w' as [|[l' b'] w' IH]; [done|].
      intros v Hv. unfold fresh. cbn [number]. rewrite filter_cons_True by done.
      f_equal. apply IH. lia.
    + unfold fresh. rewrite filter_cons_False by (simpl; lia).
      change (fresh next (number w (seq + 1) recv)
              = drop (Z.to_nat (next - seq)) (MoldMessage.mk l b seq recv :: number w (seq + 1) recv)).
      rewrite IH by lia.
      replace (Z.to_nat (next - seq)) with (S (Z.to_nat (next - (seq + 1)))) by lia. done.
Qed.

(** The messages delivered from a packet starting at or before [next] are
    numbered consecutively from [next]. *)
Lemma fresh_seqs w seq recv next :
  seq <= next ->
  MoldMessage.seq_num <$> fresh next (number w seq recv)
  = seqZ next (Z.max 0 (seq + blen w - next)).
Proof.
  intros Hs. rewrite fresh_number by done.
  rewrite fmap_drop, number_seqs.
  apply list_eq. intros i. rewrite lookup_drop.
  destruct (decide (Z.of_nat i < seq + blen w - next)).
  - rewrite !lookup_seqZ_lt by lia. f_equal. lia.
  - rewrite !lookup_seqZ_ge by lia. done.
Qed.

Lemma fresh_length w seq recv next :
  seq <= next -> blen (fresh next (number w seq recv)) = Z.max 0 (seq + blen w - next).
Proof.
  intros Hs. rewrite <-(length_fmap MoldMessage.seq_num), fresh_seqs, length_seqZ by done.
  lia.
Qed.

Lemma messages_app a b : messages (a ++ b) = messages a ++ messages b.
Proof. apply omap_app. Qed.

Lemma messages_emit g ms : messages (emit g ms) = if on_message_ g then ms else [].
Proof.
  unfold emit. destruct (on_message_ g); [|done].
  induction ms as [|m ms IH]; [done|]. cbn. by f_equal.
Qed.

(** ** The message loop *)

Lemma iter_inc_delivered_on_message k g :
  on_message_ (Nat.iter k inc_delivered g) = on_message_ g.
Proof. by induction k. Qed.

Lemma deliver_loop_eq n g payload cursor end_ seq recv count :
  0 <= cursor -> end_ <= blen payload -> 0 <= seq -> seq + Z.of_nat n < 2 ^ 64 ->
  let w := walk n payload cursor end_ in
  let d := fresh (next_expected_ g) (number w seq recv) in
  deliver_loop n g payload cursor end_ seq recv count =
  Ok (Nat.iter (length d) inc_delivered g, emit g d, count + blen d, seq + blen w).
Proof.
  revert g cursor seq count. induction n as [|n IH]; intros g cursor seq count Hc He Hs Hn w d.
  - subst w d. unfold emit. cbn. by destruct (on_message_ g); rewrite !Z.add_0_r.
  - subst w d. cbn [deliver_loop walk]. destruct (Z.leb_spec (cursor + 2) end_).
    2:{ unfold emit. cbn. by destruct (on_message_ g); rewrite !Z.add_0_r. }
    rewrite be16_Ok, bind_Ok by lia. pose proof (be_val_2_range payload cursor) as Hr.
    set (l := be_val (slice payload cursor 2)) in *.
    destruct (Z.ltb_spec end_ (cursor + 2 + l)).
    { unfold emit. cbn. by destruct (on_message_ g); rewrite !Z.add_0_r. }
    rewrite (u64_small (seq + 1)) by width.
    cbn [number fresh]. unfold fresh. destruct (Z.leb_spec (next_expected_ g) seq).
    + rewrite filter_cons_True by done.
      rewrite (IH (inc_delivered g)) by width. rewrite bind_Ok.
      unfold mret, res_ret. cbn [next_expected_ inc_delivered].
      do 2 f_equal; [f_equal; [f_equal|]|].
      * unfold fresh. cbn [length]. by rewrite Nat.iter_succ_r.
      * unfold emit. cbn [on_message_ inc_delivered]. by destruct (on_message_ g).
      * cbn [length]. unfold fresh. lia.
      * cbn [length]. lia.
    + rewrite filter_cons_False by (simpl; lia). rewrite IH by width.
      cbn [length]. do 2 f_equal. lia.
Qed.

Lemma set_next_expected_id g : set_next_expected g (next_expected_ g) = g.
Proof. by destruct g. Qed.

Lemma iter_inc_delivered_next k g :
  next_expected_ (Nat.iter k inc_delivered g) = next_expected_ g.
Proof. by induction k. Qed.

Lemma deliver_packet_eq g hdr payload len recv :
  len <= blen payload -> 0 <= MoldHeader.seq_num hdr ->
  0 <= MoldHeader.msg_count hdr -> MoldHeader.seq_num hdr + MoldHeader.msg_count hdr < 2 ^ 64 ->
  let w := walk (Z.to_nat (MoldHeader.msg_count hdr)) payload kMoldHeaderSize len in
  let d := fresh (next_expected_ g) (number w (MoldHeader.seq_num hdr) recv) in
  deliver_packet g hdr payload len recv =
  Ok (set_next_expected (Nat.iter (length d) inc_delivered g)
        (Z.max (next_expected_ g) (MoldHeader.seq_num hdr + blen w)),
      emit g d, blen d).
Proof.
  intros Hlen Hs Hc Hw w d. unfold deliver_packet.
  rewrite deliver_loop_eq by (unfold kMoldHeaderSize; lia). rewrite bind_Ok.
  unfold mret, res_ret. fold w. fold d. rewrite Z.add_0_l, iter_inc_delivered_next.
  destruct (Z.ltb_spec (next_expected_ g) (MoldHeader.seq_num hdr + blen w)).
  - by rewrite Z.max_r by lia.
  - rewrite Z.max_l by lia.
    rewrite <-(iter_inc_delivered_next (length d) g), set_next_expected_id. done.
Qed.

(** ** Comparing the contents of two payloads *)

Lemma content_slice (p : list byte) c l :
  0 <= c -> content (l, drop (Z.to_nat c) p) = slice p c l.
Proof. done. Qed.

(** If one payload repeats the beginning of another, its messages are the first
    messages of the other. *)
Lemma bodies_prefix n p1 p2 c1 c2 e1 e2 :
  0 <= c1 -> 0 <= c2 -> e1 - c1 <= e2 - c2 ->
  (forall o k, 0 <= o -> 0 <= k -> c1 + o + k <= e1 ->
     slice p1 (c1 + o) k = slice p2 (c2 + o) k) ->
  bodies n p1 c1 e1 `prefix_of` bodies n p2 c2 e2.
Proof.
  revert c1 c2. induction n as [|n IH]; intros c1 c2 H1 H2 He Hag; [done|].
  unfold bodies. cbn [walk].
  destruct (Z.leb_spec (c1 + 2) e1); [|apply prefix_nil].
  destruct (Z.leb_spec (c2 + 2) e2); [|lia].
  assert (Hl : slice p1 c1 2 = slice p2 c2 2).
  { pose proof (Hag 0 2) as Hx. rewrite !Z.add_0_r in Hx. apply Hx; lia. }
  rewrite Hl. set (l := be_val (slice p2 c2 2)).
  assert (0 <= l) by apply be_val_range.
  destruct (Z.ltb_spec e1 (c1 + 2 + l)); [apply prefix_nil|].
  destruct (Z.ltb_spec e2 (c2 + 2 + l)); [lia|].
  rewrite !fmap_cons, !content_slice by lia.
  rewrite <-(Hag 2 l) by lia. apply prefix_cons. apply IH; [lia..|].
  intros o k Ho Hk Hb. rewrite <-!Z.add_assoc.
  replace (c1 + (2 + (l + o))) with (c1 + (2 + l + o)) by lia.
  rewrite (Hag (2 + l + o) k) by lia. f_equal. lia.
Qed.

Lemma bodies_same n p1 p2 c1 c2 e1 e2 :
  0 <= c1 -> 0 <= c2 -> e1 - c1 = e2 - c2 ->
  (forall o k, 0 <= o -> 0 <= k -> c1 + o + k <= e1 ->
     slice p1 (c1 + o) k = slice p2 (c2 + o) k) ->
  bodies n p1 c1 e1 = bodies n p2 c2 e2.
Proof.
  intros ? ? ? Hag. apply (anti_symm prefix); apply bodies_prefix; try lia; [done|].
  intros o k ? ? ?. symmetry. apply Hag; lia.
Qed.

Lemma length_bodies n p c e : length (bodies n p c e) = length (walk n p c e).
Proof. apply length_fmap. Qed.
