(* ===== verification/Framing.v ===== *)
(** * Framing: the MoldUDP64 datagram layout and its decoding

    The reference encoder follows the layout comment of [wire_format.hpp]; the
    message loop of the gap buffer recovers exactly the encoded messages. *)

From stdpp Require Import base gmap list strings fin_maps.
From Stdlib Require Import ZArith Lia.
From S2P Require Import Prelude WireFormat WireLemmas GapBuf GapWalk.

#[local] Open Scope Z_scope.

(** The messages of a datagram, each behind its two-byte length. *)
Fixpoint frame (msgs : list (list byte)) : list byte :=
  match msgs with
  | [] => []
  | b :: msgs' => be_bytes 2 (blen b) ++ b ++ frame msgs'
  end.

Definition packet_hdr (session : list byte) (seq : Z) (msgs : list (list byte)) : MoldHeader.t :=
  MoldHeader.mk session seq (blen msgs).

Definition packet_wire (session : list byte) (seq : Z) (msgs : list (list byte)) : list byte :=
  MoldHeader.wire (packet_hdr session seq msgs) ++ frame msgs.

Definition fits (msgs : list (list byte)) : Prop := Forall (fun b => blen b < 2 ^ 16) msgs.

Lemma bodies_frame pre msgs post :
  fits msgs ->
  bodies (length msgs) (pre ++ frame msgs ++ post) (blen pre) (blen pre + blen (frame msgs)) = msgs.
Proof.
  revert pre. induction msgs as [|b msgs IH]; intros pre Hf; [done|].
  apply Forall_cons in Hf as [Hb Hf]. cbn [length frame].
  set (m := pre ++ _). unfold bodies. cbn [walk].
  rewrite !length_app, length_be_bytes.
  destruct (Z.leb_spec (blen pre + 2) (blen pre + Z.of_nat (2 + (length b + length (frame msgs)))));
    [|lia].
  assert (Hl : be_val (slice m (blen pre) 2) = blen b).
  { unfold m. rewrite slice_app_r, Z.sub_diag by lia. rewrite <-app_assoc.
    rewrite slice_app_hd by (rewrite ?length_be_bytes; lia).
    rewrite be_val_be_bytes, Z.mod_small by lia. done. }
  rewrite Hl.
  destruct (Z.ltb_spec (blen pre + Z.of_nat (2 + (length b + length (frame msgs))))
              (blen pre + 2 + blen b)); [lia|].
  rewrite fmap_cons, content_slice by lia. f_equal.
  - unfold m. rewrite slice_app_r by lia. rewrite <-app_assoc.
    rewrite slice_app_r by (rewrite length_be_bytes; lia). rewrite length_be_bytes, <-app_assoc.
    apply slice_app_hd; lia.
  - specialize (IH (pre ++ be_bytes 2 (blen b) ++ b) Hf).
    rewrite !length_app, length_be_bytes in IH.
    unfold bodies in IH. etransitivity; [|exact IH]. unfold m. rewrite <-!app_assoc.
    do 2 f_equal; lia.
Qed.

Lemma frame_length_bound msgs : blen msgs * 2 <= blen (frame msgs).
Proof.
  induction msgs as [|b msgs IH]; [done|]. cbn [length frame].
  rewrite !length_app, length_be_bytes. lia.
Qed.
