(* ===== verification/GapInv.v ===== *)
(** * GapInv: the invariant of the gap buffer and what every step delivers

    Everything is stated over a relation [Src seq bytes recv_ns] ("these bytes
    are message [seq], and arrived at [recv_ns]") that the ingested packets
    satisfy: the messages handed to [on_message_] satisfy it too and are
    numbered consecutively from [next_expected_]. *)

From stdpp Require Import base gmap list strings fin_maps.
From Stdlib Require Import ZArith Lia.
From S2P Require Import Prelude WireFormat WireLemmas GapBuf GapWalk.

#[local] Open Scope Z_scope.
Import GapBuffer.

(** ** Ring slots *)

Lemma land_kMask s : 0 <= s -> Z.land s kMask = s mod kCapacity.
Proof. intros. change kMask with (Z.ones 12). by rewrite Z.land_ones by lia. Qed.

Lemma slot_idx_lt s : (slot_idx s < Z.to_nat kCapacity)%nat.
Proof.
  unfold slot_idx. change kMask with (Z.ones 12). rewrite Z.land_ones by lia.
  apply Z2Nat.inj_lt; [apply Z.mod_pos_bound; lia | done |].
  apply (Z.mod_pos_bound s kCapacity). done.
Qed.

(** Two sequences of one window of [kCapacity] share a slot only if equal. *)
Lemma slot_idx_inj a b :
  0 <= a -> 0 <= b -> Z.abs (a - b) < kCapacity -> slot_idx a = slot_idx b -> a = b.
Proof.
  unfold slot_idx. intros Ha Hb Hd He. rewrite !land_kMask in He by done.
  unfold kCapacity in *.
  pose proof (Z.mod_pos_bound a 4096 eq_refl). pose proof (Z.mod_pos_bound b 4096 eq_refl).
  apply Z2Nat.inj in He; [|lia..].
  pose proof (Z.div_mod a 4096). pose proof (Z.div_mod b 4096). lia.
Qed.

Lemma length_filter_insert {A} (P : A -> Prop) `{!forall x, Decision (P x)}
    (l : list A) i x y :
  l !! i = Some x -> P x -> ~ P y ->
  length (filter P l) = S (length (filter P (<[i := y]> l))).
Proof.
  intros Hx Px Py. pose proof (lookup_lt_Some _ _ _ Hx).
  rewrite insert_take_drop by done. rewrite <-(take_drop_middle l i x) at 1 by done.
  rewrite !filter_app, !length_app, filter_cons_True, filter_cons_False by done.
  simpl. lia.
Qed.

(** The state outside [next_expected_], the slots and [stat_delivered_]. *)
Definition control (g : t) :=
  (cfg_ g, session_ g, session_synced_ g,
   (gap_start_ g, gap_detected_at_ns g, gap_last_retx_ns g),
   (on_message_ g, on_gap_ g, on_retx_ g),
   (stat_packets_ g, stat_messages_ g, stat_gaps_ g, stat_duplicates_ g,
    stat_retx_ g, stat_heartbeats_ g, stat_buffer_overflows_ g)).

Definition occupied_slots (g : t) : nat :=
  length (filter (fun s => BufferedPacket.occupied s = true) (slots_ g)).

(** A packet waits in the slot of [next_expected_]. *)
Definition ready (g : t) : Prop :=
  let s := slot g (next_expected_ g) in
  BufferedPacket.occupied s = true /\ BufferedPacket.seq_num s = next_expected_ g.

Section Inv.
Context (Src : Z -> list byte -> Z -> Prop).

Definition packet_src (hdr : MoldHeader.t) (payload : list byte) (len now : Z) : Prop :=
  forall i b,
    bodies (Z.to_nat (MoldHeader.msg_count hdr)) payload kMoldHeaderSize len !! i = Some b ->
    Src (MoldHeader.seq_num hdr + Z.of_nat i) b now.

(** A packet whose sequence numbers stay below the 64-bit wrap. *)
Definition no_wrap (hdr : MoldHeader.t) : Prop :=
  MoldHeader.seq_num hdr + MoldHeader.msg_count hdr < 2 ^ 64.

Record slot_ok (i : nat) (s : BufferedPacket) : Prop := {
  so_data : blen (BufferedPacket.data s) = kMaxPacketBytes;
  so_len : 0 <= BufferedPacket.data_len s <= kMaxPacketBytes;
  so_seq : is_u64 (BufferedPacket.seq_num s);
  so_count : is_u16 (BufferedPacket.msg_count s);
  so_occupied : BufferedPacket.occupied s = true ->
    slot_idx (BufferedPacket.seq_num s) = i /\
    BufferedPacket.seq_num s + BufferedPacket.msg_count s < 2 ^ 64 /\
    forall k b,
      bodies (Z.to_nat (BufferedPacket.msg_count s)) (BufferedPacket.data s) 0
             (BufferedPacket.data_len s) !! k = Some b ->
      Src (BufferedPacket.seq_num s + Z.of_nat k) b (BufferedPacket.recv_ns s)
}.

Record inv (g : t) : Prop := {
  inv_slots : length (slots_ g) = Z.to_nat kCapacity;
  inv_session : length (session_ g) = 10%nat;
  inv_next : is_u64 (next_expected_ g);
  inv_gap : is_u64 (gap_start_ g);
  inv_stat : is_u64 (stat_delivered_ g);
  inv_slot_ok : forall i s, slots_ g !! i = Some s -> slot_ok i s
}.

(** What [on_message_] may assume of a message. *)
Definition msg_src (m : MoldMessage.t) : Prop :=
  Src (MoldMessage.seq_num m) (msg_content m) (MoldMessage.recv_ns m)
  /\ is_u16 (MoldMessage.length m) /\ MoldMessage.length m <= blen (MoldMessage.body m).

(** [g'] is [g] after delivering [c] messages through [evs]. *)
Record delivers (g g' : t) (evs : list event) (c : Z) : Prop := {
  dl_count : 0 <= c;
  dl_next : next_expected_ g' = next_expected_ g + c;
  dl_seqs : MoldMessage.seq_num <$> messages evs
            = if on_message_ g then seqZ (next_expected_ g) c else [];
  dl_src : Forall msg_src (messages evs);
  dl_only : evs = OnMessage <$> messages evs;
  dl_stat : stat_delivered_ g' = u64 (stat_delivered_ g + c);
  dl_control : control g' = control g
}.

Lemma on_message_control g g' : control g' = control g -> on_message_ g' = on_message_ g.
Proof. unfold control. congruence. Qed.

Lemma delivers_trans g1 g2 g3 e1 e2 c1 c2 :
  delivers g1 g2 e1 c1 -> delivers g2 g3 e2 c2 -> delivers g1 g3 (e1 ++ e2) (c1 + c2).
Proof.
  intros [] []. split.
  - lia.
  - lia.
  - rewrite messages_app, fmap_app, dl_seqs0, dl_seqs1.
    rewrite (on_message_control g1 g2), dl_next0 by done.
    destruct (on_message_ g1); [|done]. rewrite seqZ_app by done. done.
  - rewrite messages_app. by apply Forall_app.
  - rewrite messages_app, fmap_app. congruence.
  - rewrite dl_stat1, dl_stat0, u64_add_idemp_l. f_equal. lia.
  - congruence.
Qed.

Lemma slot_lookup g s : inv g -> slots_ g !! slot_idx s = Some (slot g s).
Proof.
  intros Hi. unfold slot. destruct (slots_ g !! slot_idx s) eqn:E; [done|].
  apply lookup_ge_None in E. rewrite (inv_slots g Hi) in E. pose proof (slot_idx_lt s). lia.
Qed.

Lemma slot_slot_ok g s : inv g -> slot_ok (slot_idx s) (slot g s).
Proof. intros Hi. by apply (inv_slot_ok g Hi), slot_lookup. Qed.

Lemma inv_put_slot g seq s : inv g -> slot_ok (slot_idx seq) s -> inv (put_slot g seq s).
Proof.
  intros [Hl Hse Hn Hg Hst Hs] Hok. split; cbn; try done.
  - by rewrite length_insert.
  - intros i s'. destruct (decide (slot_idx seq = i)) as [<-|Hne].
    + rewrite list_lookup_insert_eq by (rewrite Hl; apply slot_idx_lt). by intros [= <-].
    + rewrite list_lookup_insert_ne by done. apply Hs.
Qed.

(** *** Delivering one packet *)

Lemma iter_inc_delivered_frame k g :
  slots_ (Nat.iter k inc_delivered g) = slots_ g /\
  control (Nat.iter k inc_delivered g) = control g.
Proof. induction k as [|k [IH1 IH2]]; simpl; [done|]. by rewrite <-IH1, <-IH2. Qed.

Lemma iter_inc_delivered_stat k g :
  is_u64 (stat_delivered_ g) ->
  stat_delivered_ (Nat.iter k inc_delivered g) = u64 (stat_delivered_ g + Z.of_nat k).
Proof.
  intros Hs. induction k as [|k IH].
  - simpl. by rewrite Z.add_0_r, u64_small.
  - cbn [Nat.iter nat_rect stat_delivered_ inc_delivered]. unfold Nat.iter in IH.
    rewrite IH. unfold inc. rewrite u64_add_idemp_l. f_equal. lia.
Qed.

Lemma fresh_msg_src hdr payload len recv next :
  len <= blen payload -> packet_src hdr payload len recv ->
  Forall msg_src (fresh next (number
    (walk (Z.to_nat (MoldHeader.msg_count hdr)) payload kMoldHeaderSize len)
    (MoldHeader.seq_num hdr) recv)).
Proof.
  intros Hlen Hsrc. apply Forall_forall. intros m Hm.
  unfold fresh in Hm. apply list_elem_of_filter in Hm as [_ Hm].
  apply list_elem_of_lookup in Hm as [i Hm].
  apply number_lookup in Hm as ([l b] & Hw & Hc & Hl & Hb & Hq & Hr).
  unfold msg_src. rewrite Hc, Hl, Hb, Hq, Hr. split.
  - apply Hsrc. unfold bodies. by rewrite list_lookup_fmap, Hw.
  - apply list_elem_of_lookup_2 in Hw. apply walk_in_bounds in Hw; done.
Qed.

Lemma control_session g g' : control g' = control g -> session_ g' = session_ g.
Proof. unfold control. congruence. Qed.
Lemma control_gap_start g g' : control g' = control g -> gap_start_ g' = gap_start_ g.
Proof. unfold control. congruence. Qed.

Lemma delivers_inv g g' evs c :
  inv g -> delivers g g' evs c -> is_u64 (next_expected_ g') ->
  length (slots_ g') = Z.to_nat kCapacity ->
  (forall i s, slots_ g' !! i = Some s -> slot_ok i s) -> inv g'.
Proof.
  intros [] [] Hn Hl Hs. split; try done.
  - by rewrite (control_session g g').
  - by rewrite (control_gap_start g g').
  - rewrite dl_stat0. auto with feed.
Qed.

Lemma deliver_delivers g hdr payload len recv :
  inv g -> MoldHeader.wf hdr -> no_wrap hdr -> len <= blen payload ->
  MoldHeader.seq_num hdr <= next_expected_ g -> packet_src hdr payload len recv ->
  let w := walk (Z.to_nat (MoldHeader.msg_count hdr)) payload kMoldHeaderSize len in
  exists g' evs c,
    deliver_packet g hdr payload len recv = Ok (g', evs, c) /\
    delivers g g' evs c /\ inv g' /\ slots_ g' = slots_ g /\
    next_expected_ g' = Z.max (next_expected_ g) (MoldHeader.seq_num hdr + blen w).
Proof.
  intros Hi (_ & Hq & Hc) Hnw Hlen Hle Hsrc w. unfold no_wrap in Hnw.
  rewrite deliver_packet_eq by width. fold w.
  set (d := fresh _ _). eexists _, _, _. split; [done|].
  pose proof (fresh_length w (MoldHeader.seq_num hdr) recv _ Hle) as Hd. fold d in Hd.
  destruct (iter_inc_delivered_frame (length d) g) as [Fs Fc].
  pose proof (walk_length (Z.to_nat (MoldHeader.msg_count hdr)) payload kMoldHeaderSize len) as Hw.
  fold w in Hw. pose proof (inv_next g Hi) as Hn.
  assert (Hdel : delivers g (set_next_expected (Nat.iter (length d) inc_delivered g)
      (Z.max (next_expected_ g) (MoldHeader.seq_num hdr + blen w))) (emit g d) (blen d)).
  { split; try (cbn; lia).
    - rewrite messages_emit. destruct (on_message_ g); [|done].
      unfold d at 1. rewrite fresh_seqs by done. f_equal. lia.
    - rewrite messages_emit. destruct (on_message_ g); [|done]. by apply fresh_msg_src.
    - rewrite messages_emit. unfold emit. by destruct (on_message_ g).
    - cbn. by apply iter_inc_delivered_stat, inv_stat.
    - exact Fc. }
  split; [done|]. split; [|split; [exact Fs | done]].
  eapply delivers_inv; [done.. | | |]; cbn.
  - width.
  - rewrite Fs. apply (inv_slots g Hi).
  - rewrite Fs. apply (inv_slot_ok g Hi).
Qed.

(** *** Flushing the buffer *)

Definition slot_hdr (g : t) (sl : BufferedPacket) : MoldHeader.t :=
  MoldHeader.mk (session_ g) (BufferedPacket.seq_num sl) (BufferedPacket.msg_count sl).

Definition slot_payload (g : t) (sl : BufferedPacket) : list byte :=
  MoldHeader.wire (slot_hdr g sl)
  ++ slice (BufferedPacket.data sl) 0 (BufferedPacket.data_len sl).

Lemma slot_hdr_wf g i sl : inv g -> slot_ok i sl -> MoldHeader.wf (slot_hdr g sl).
Proof. intros Hi []. split; [apply (inv_session g Hi) | done]. Qed.

Lemma rebuild_eq g i sl :
  inv g -> slot_ok i sl -> rebuild g sl = Ok (slot_hdr g sl, slot_payload g sl).
Proof.
  intros Hi Hs. pose proof (slot_hdr_wf g i sl Hi Hs) as Hwf.
  pose proof (wire_length _ (proj1 Hwf)) as Hw. destruct Hs.
  unfold rebuild. fold (slot_hdr g sl).
  rewrite MoldHeader_serialise_Ok by (rewrite ?length_replicate; first [apply Hwf | done]).
  rewrite bind_Ok, mem_read_Ok, bind_Ok by (unfold kMaxPacketBytes in *; lia).
  unfold slot_payload. rewrite splice_0, drop_ge; [by rewrite app_nil_r|].
  rewrite length_replicate. unfold kMoldHeaderSize in *. lia.
Qed.

Lemma slot_payload_length g i sl :
  inv g -> slot_ok i sl ->
  blen (slot_payload g sl) = kMoldHeaderSize + BufferedPacket.data_len sl.
Proof.
  intros Hi Hs. pose proof (wire_length _ (proj1 (slot_hdr_wf g i sl Hi Hs))) as Hw. destruct Hs.
  unfold slot_payload. rewrite length_app, length_slice by (unfold kMaxPacketBytes in *; lia).
  lia.
Qed.

Lemma slot_payload_bodies g i sl n :
  inv g -> slot_ok i sl ->
  bodies n (slot_payload g sl) kMoldHeaderSize (kMoldHeaderSize + BufferedPacket.data_len sl)
  = bodies n (BufferedPacket.data sl) 0 (BufferedPacket.data_len sl).
Proof.
  intros Hi Hs. pose proof (wire_length _ (proj1 (slot_hdr_wf g i sl Hi Hs))) as Hw. destruct Hs.
  apply bodies_same; [unfold kMoldHeaderSize; lia | lia | lia |].
  intros o k ? ? ?. unfold slot_payload. rewrite slice_app_r by lia. rewrite Hw.
  unfold slice at 2. rewrite drop_0, slice_take by lia. f_equal. lia.
Qed.

(** One turn of the flush loop, on a [ready] state. *)
Definition flush_turn (g : t) : res (t * list event * Z) :=
  let sl := slot g (next_expected_ g) in
  '(hdr, buf) ← rebuild g sl;
  '(g1, evs, n) ← deliver_packet g hdr buf (kMoldHeaderSize + BufferedPacket.data_len sl)
                    (BufferedPacket.recv_ns sl);
  mret (put_slot g1 (next_expected_ g)
          (BufferedPacket.release (slot g1 (next_expected_ g))), evs, n).

Lemma slot_frame g g' s : slots_ g' = slots_ g -> slot g' s = slot g s.
Proof. unfold slot. congruence. Qed.

Lemma release_ok i s : slot_ok i s -> slot_ok i (BufferedPacket.release s).
Proof. intros []. by split. Qed.

Lemma delivers_put_slot g g' evs c seq s :
  delivers g g' evs c -> delivers g (put_slot g' seq s) evs c.
Proof. intros []. by split. Qed.

Lemma flush_turn_delivers g :
  inv g -> ready g ->
  let sl := slot g (next_expected_ g) in
  exists g' evs c,
    flush_turn g = Ok (g', evs, c) /\ delivers g g' evs c /\ inv g' /\
    slots_ g' = <[slot_idx (next_expected_ g) := BufferedPacket.release sl]> (slots_ g) /\
    c = blen (bodies (Z.to_nat (BufferedPacket.msg_count sl))
                (BufferedPacket.data sl) 0 (BufferedPacket.data_len sl)).
Proof.
  intros Hi [Hocc Hseq] sl. pose proof (slot_slot_ok g (next_expected_ g) Hi) as Hok.
  fold sl in Hok, Hocc, Hseq. destruct (so_occupied _ _ Hok Hocc) as (_ & Hnw & Hsrc).
  pose proof (slot_payload_bodies g _ sl (Z.to_nat (BufferedPacket.msg_count sl)) Hi Hok) as Hb.
  destruct (deliver_delivers g (slot_hdr g sl) (slot_payload g sl)
     (kMoldHeaderSize + BufferedPacket.data_len sl) (BufferedPacket.recv_ns sl))
    as (g1 & evs & c & Hd & Hdl & Hi1 & Hs1 & Hn1).
  - done.
  - by eapply slot_hdr_wf.
  - done.
  - by rewrite (slot_payload_length g _ sl Hi Hok).
  - simpl. lia.
  - intros k b Hk. simpl in *. rewrite Hb in Hk. by apply Hsrc.
  - unfold flush_turn. fold sl. rewrite (rebuild_eq g _ sl Hi Hok), bind_Ok, Hd, bind_Ok.
    eexists _, _, _. split; [done|]. rewrite (slot_frame g g1) by done. fold sl.
    split; [by apply delivers_put_slot|]. split; [|split].
    + apply inv_put_slot; [done|]. by apply release_ok.
    + cbn. by rewrite Hs1.
    + pose proof (dl_next _ _ _ _ Hdl). unfold slot_hdr in *. simpl in *.
      rewrite <-Hb, length_bodies. lia.
Qed.

Lemma flush_loop_step fuel g count :
  flush_loop (S fuel) g count =
  if negb (BufferedPacket.occupied (slot g (next_expected_ g)))
     || negb (BufferedPacket.seq_num (slot g (next_expected_ g)) =? next_expected_ g)
  then Ok (g, [], count)
  else '(g2, evs, n) ← flush_turn g;
       '(g3, evs', count') ← flush_loop fuel g2 (count + n);
       mret (g3, evs ++ evs', count').
Proof.
  cbn [flush_loop]. destruct (negb _ || negb _); [done|]. unfold flush_turn.
  destruct (rebuild g (slot g (next_expected_ g))) as [[hdr buf]|]; [|done].
  rewrite !bind_Ok. by destruct (deliver_packet _ _ _ _ _) as [[[? ?] ?]|].
Qed.

Lemma ready_dec g :
  {ready g /\ negb (BufferedPacket.occupied (slot g (next_expected_ g)))
     || negb (BufferedPacket.seq_num (slot g (next_expected_ g)) =? next_expected_ g) = false}
  + {~ ready g /\ negb (BufferedPacket.occupied (slot g (next_expected_ g)))
     || negb (BufferedPacket.seq_num (slot g (next_expected_ g)) =? next_expected_ g) = true}.
Proof.
  unfold ready. destruct (BufferedPacket.occupied _); simpl.
  - destruct (Z.eqb_spec (BufferedPacket.seq_num (slot g (next_expected_ g)))
                (next_expected_ g)); [left | right]; (split; [|done]); intuition.
  - right. split; [|done]. intros [? _]. done.
Qed.

Lemma flush_turn_occupied g sl :
  inv g -> ready g -> sl = slot g (next_expected_ g) ->
  occupied_slots g =
  S (length (filter (fun s => BufferedPacket.occupied s = true)
       (<[slot_idx (next_expected_ g) := BufferedPacket.release sl]> (slots_ g)))).
Proof.
  intros Hi [Hocc _] ->. unfold occupied_slots.
  apply length_filter_insert with (x := slot g (next_expected_ g)); [by apply slot_lookup | done | done].
Qed.

(** The flush ends, delivers a consecutive run and leaves nothing ready. *)
Lemma flush_loop_delivers fuel g count :
  inv g -> (occupied_slots g < fuel)%nat ->
  exists g' evs c,
    flush_loop fuel g count = Ok (g', evs, count + c) /\
    delivers g g' evs c /\ inv g' /\ ~ ready g'.
Proof.
  revert g count. induction fuel as [|fuel IH]; intros g count Hi Hf; [lia|].
  rewrite flush_loop_step. destruct (ready_dec g) as [[Hr ->]|[Hr ->]].
  - destruct (flush_turn_delivers g Hi Hr) as (g1 & e1 & c1 & Ht & Hd1 & Hi1 & Hs1 & _).
    pose proof (flush_turn_occupied g _ Hi Hr eq_refl) as Ho. rewrite <-Hs1 in Ho.
    destruct (IH g1 (count + c1) Hi1) as (g2 & e2 & c2 & Hl & Hd2 & Hi2 & Hr2).
    { unfold occupied_slots at 1. lia. }
    rewrite Ht, bind_Ok, Hl, bind_Ok. exists g2, (e1 ++ e2), (c1 + c2).
    split; [by rewrite Z.add_assoc|]. split; [by eapply delivers_trans | done].
  - exists g, [], 0. split; [by rewrite Z.add_0_r|]. split; [|done].
    split; try done; try lia.
    + by destruct (on_message_ g).
    + rewrite Z.add_0_r, u64_small; [done|]. apply (inv_stat g Hi).
Qed.

Lemma occupied_slots_bound g : inv g -> (occupied_slots g <= Z.to_nat kCapacity)%nat.
Proof.
  intros Hi. unfold occupied_slots. rewrite <-(inv_slots g Hi). apply length_filter.
Qed.

Lemma flush_buffer_delivers g :
  inv g -> exists g' evs c,
    flush_buffer g = Ok (g', evs, c) /\ delivers g g' evs c /\ inv g' /\ ~ ready g'.
Proof.
  intros Hi. destruct (flush_loop_delivers (S (Z.to_nat kCapacity)) g 0 Hi)
    as (g' & evs & c & H & ?).
  - pose proof (occupied_slots_bound g Hi). lia.
  - by exists g', evs, c.
Qed.

End Inv.
