(* ===== verification/GapStep.v ===== *)
(** * GapStep: every entry point of the gap buffer

    [ingest] and [tick] are total on the states the invariant describes, deliver
    a consecutive run, keep the invariant, and drive the gap tracker and the
    retransmit requests as specified. *)

From stdpp Require Import base gmap list strings fin_maps.
From Stdlib Require Import ZArith Lia.
From S2P Require Import Prelude WireFormat WireLemmas GapBuf GapWalk GapInv.

#[local] Open Scope Z_scope.
Import GapBuffer.

(** The slot of [s] holds the packet that starts at [s]. *)
Definition present (g : t) (s : Z) : bool :=
  BufferedPacket.occupied (slot g s) && (BufferedPacket.seq_num (slot g s) =? s).

Lemma ready_present g : ready g <-> present g (next_expected_ g) = true.
Proof. unfold ready, present. rewrite andb_true_iff, Z.eqb_eq. done. Qed.

(** The tracked gap starts at the next expected sequence; before the first
    packet nothing is buffered; nothing deliverable is ever left waiting. *)
Record settled (g : t) : Prop := {
  st_quiet : ~ ready g;
  st_gap : gap_start_ g <> 0 -> gap_start_ g = next_expected_ g;
  st_fresh : session_synced_ g = false ->
    next_expected_ g = 0 /\ gap_start_ g = 0 /\ occupied_slots g = O
}.

(** ** The retransmit scan *)

(** The [j] sequences from [s] are missing, and something ends the run there. *)
Definition scan_result (g : t) (s bound k j : Z) : Prop :=
  0 <= j /\
  (forall i, 0 <= i < j -> present g (s + i) = false /\ s + i < bound /\
     (1 <= i -> k + i < max_retransmit_count (cfg_ g))) /\
  (bound <= s + j \/ present g (s + j) = true \/
   (1 <= j /\ max_retransmit_count (cfg_ g) <= k + j)).

Lemma scan_missing_spec fuel g s bound k :
  0 <= s -> bound < 2 ^ 64 -> bound - s < Z.of_nat fuel -> (0 < fuel)%nat ->
  exists j, scan_missing fuel g s bound k = Ok (k + j) /\ scan_result g s bound k j.
Proof.
  revert s k. induction fuel as [|fuel IH]; intros s k Hs Hb Hf Hpos; [lia|].
  cbn [scan_missing].
  assert (Stop : forall (P : Prop), P ->
     (P -> bound <= s + 0 \/ present g (s + 0) = true \/
           (1 <= 0 /\ max_retransmit_count (cfg_ g) <= k + 0)) ->
     exists j, mret k = Ok (k + j) /\ scan_result g s bound k j).
  { intros P HP Hend. exists 0. split; [by rewrite Z.add_0_r|].
    split; [lia|]. split; [lia | auto]. }
  destruct (Z.ltb_spec s bound); [|apply (Stop (bound <= s)); [done | lia]].
  fold (present g s). destruct (present g s) eqn:Hp.
  { apply (Stop (present g s = true)); [done|]. rewrite Z.add_0_r. auto. }
  destruct (Z.leb_spec (max_retransmit_count (cfg_ g)) (k + 1)) as [Hm|Hm].
  - exists 1. split; [done|]. split; [lia|]. split; [|lia].
    intros i Hi. assert (i = 0) as -> by lia. rewrite !Z.add_0_r. split; [done | lia].
  - rewrite u64_small by width.
    destruct (IH (s + 1) (k + 1)) as (j & Hsc & Hj0 & Hj & Hend); [lia..|].
    exists (1 + j). split; [rewrite Hsc; f_equal; lia|]. split; [lia|]. split.
    + intros i Hi. destruct (decide (i = 0)) as [->|Hi0].
      * rewrite !Z.add_0_r. split; [done | lia].
      * destruct (Hj (i - 1)) as (H1 & H2 & H3); [lia|].
        replace (s + 1 + (i - 1)) with (s + i) in * by lia. split; [done | lia].
    + replace (s + (1 + j)) with (s + 1 + j) by lia.
      destruct Hend as [?|[?|?]]; [left; lia | by right; left | right; right; lia].
Qed.

(** ** The retransmit timer *)

(** The condition under which [check_gap_timeout] gets past its early returns. *)
Definition request_due (g : t) (now_ns : Z) : bool :=
  negb (gap_start_ g =? 0) && on_retx_ g &&
  if gap_last_retx_ns g =? 0
  then gap_timeout_ns (cfg_ g) <=? u64 (now_ns - gap_detected_at_ns g)
  else retry_interval_ns (cfg_ g) <=? u64 (now_ns - gap_last_retx_ns g).

Lemma check_gap_timeout_idle g now :
  request_due g now = false -> check_gap_timeout g now = Ok (g, []).
Proof.
  unfold request_due, check_gap_timeout. destruct (gap_start_ g =? 0); [done|].
  cbn [negb andb].
  destruct (gap_last_retx_ns g =? 0); destruct (on_retx_ g); cbn [negb andb].
  - by intros ->.
  - by destruct (gap_timeout_ns (cfg_ g) <=? _).
  - by intros ->.
  - by destruct (retry_interval_ns (cfg_ g) <=? _).
Qed.

Lemma check_gap_timeout_due g now :
  request_due g now = true -> is_u64 (gap_start_ g) ->
  exists j,
    scan_result g (gap_start_ g) (u64 (gap_start_ g + kCapacity)) 0 j /\
    check_gap_timeout g now =
      if j =? 0 then Ok (set_gap_start g 0, [])
      else Ok (inc_retx (set_gap_last_retx g now),
               [OnRetransmitRequest (RetransmitRequest.mk (session_ g) (gap_start_ g) (u16 j))]).
Proof.
  unfold request_due. rewrite !andb_true_iff. intros [[Hg Hon] Htime] Hr.
  destruct (scan_missing_spec (S (Z.to_nat kCapacity)) g (gap_start_ g)
              (u64 (gap_start_ g + kCapacity)) 0) as (j & Hsc & Hj).
  - width.
  - pose proof (u64_range (gap_start_ g + kCapacity)). width.
  - assert (u64 (gap_start_ g + kCapacity) <= gap_start_ g + kCapacity).
    { unfold u64. apply Z.mod_le; unfold kCapacity; width. }
    unfold kCapacity in *. lia.
  - lia.
  - exists j. split; [done|]. unfold check_gap_timeout.
    destruct (gap_start_ g =? 0); [done|]. rewrite Hon.
    destruct (gap_last_retx_ns g =? 0); cbn [andb negb orb] in *; rewrite Htime;
      cbn [negb andb]; rewrite Hsc, bind_Ok, Z.add_0_l; by destruct (j =? 0).
Qed.

(** A timer check touches neither the ring nor [next_expected_]. *)
Record timer_frame (g g' : t) (evs : list event) : Prop := {
  tf_slots : slots_ g' = slots_ g;
  tf_next : next_expected_ g' = next_expected_ g;
  tf_messages : messages evs = [];
  tf_stat : stat_delivered_ g' = stat_delivered_ g;
  tf_session : session_ g' = session_ g;
  tf_synced : session_synced_ g' = session_synced_ g;
  tf_on : on_message_ g' = on_message_ g;
  tf_gap : gap_start_ g' = 0 \/ gap_start_ g' = gap_start_ g;
  tf_req : forall req, OnRetransmitRequest req ∈ evs ->
    RetransmitRequest.first_seq req = gap_start_ g /\ gap_start_ g <> 0
}.

Lemma check_gap_timeout_frame g now :
  is_u64 (gap_start_ g) ->
  exists g' evs, check_gap_timeout g now = Ok (g', evs) /\ timer_frame g g' evs.
Proof.
  intros Hr. destruct (request_due g now) eqn:Hd.
  - destruct (check_gap_timeout_due g now Hd Hr) as (j & _ & ->).
    assert (gap_start_ g <> 0).
    { unfold request_due in Hd. rewrite !andb_true_iff, negb_true_iff, Z.eqb_neq in Hd. tauto. }
    destruct (j =? 0); eexists _, _; (split; [done|]); split; cbn; auto.
    + intros req Hin. by apply elem_of_nil in Hin.
    + intros req Hin. apply list_elem_of_singleton in Hin. by injection Hin as ->.
  - rewrite check_gap_timeout_idle by done. exists g, []. split; [done|].
    split; auto. intros req Hin. by apply elem_of_nil in Hin.
Qed.

(** ** Buffering an out-of-order packet *)

(** The stored prefix of a payload of [len] bytes. *)
Definition stored_len (len : Z) : Z := Z.min (len - kMoldHeaderSize) kMaxPacketBytes.

Definition stored (g : t) (hdr : MoldHeader.t) (payload : list byte) (len now : Z)
    : BufferedPacket :=
  BufferedPacket.mk (MoldHeader.seq_num hdr) (MoldHeader.msg_count hdr) true
    (stored_len len) now
    (splice (BufferedPacket.data (slot g (MoldHeader.seq_num hdr))) 0
            (slice payload kMoldHeaderSize (stored_len len))).

(** The slot is taken by another sequence. *)
Definition collides (g : t) (seq : Z) : bool :=
  BufferedPacket.occupied (slot g seq) && negb (BufferedPacket.seq_num (slot g seq) =? seq).

Lemma stored_len_range len :
  kMoldHeaderSize <= len -> 0 <= stored_len len <= kMaxPacketBytes.
Proof. unfold stored_len, kMaxPacketBytes. lia. Qed.

Section Step.
Context (Src : Z -> list byte -> Z -> Prop).
Local Abbreviation inv := (inv Src).
Local Abbreviation packet_src := (packet_src Src).

Lemma buffer_packet_eq g hdr payload len now :
  inv g -> kMoldHeaderSize <= len <= blen payload ->
  buffer_packet g hdr payload len now =
  Ok (if collides g (MoldHeader.seq_num hdr) then inc_buffer_overflows g
      else put_slot g (MoldHeader.seq_num hdr) (stored g hdr payload len now)).
Proof.
  intros Hi Hlen. unfold buffer_packet.
  fold (collides g (MoldHeader.seq_num hdr)).
  destruct (collides g (MoldHeader.seq_num hdr)); [done|].
  pose proof (slot_slot_ok Src g (MoldHeader.seq_num hdr) Hi) as Hok. destruct Hok.
  assert (Hd : u16 (Z.min (if kMoldHeaderSize <? len then len - kMoldHeaderSize else 0)
                 kMaxPacketBytes) = stored_len len).
  { unfold stored_len, kMaxPacketBytes in *.
    destruct (Z.ltb_spec kMoldHeaderSize len); rewrite u16_small; width. }
  rewrite Hd. pose proof (stored_len_range len (proj1 Hlen)) as Hr.
  assert (stored_len len <= len - kMoldHeaderSize) by (unfold stored_len; lia).
  assert (Hs : blen (slice payload kMoldHeaderSize (stored_len len)) = stored_len len)
    by (rewrite length_slice; unfold kMoldHeaderSize in *; lia).
  rewrite mem_read_Ok, bind_Ok by (unfold kMoldHeaderSize in *; lia).
  rewrite mem_write_splice, bind_Ok by lia. done.
Qed.

Lemma stored_ok g hdr payload len now :
  inv g -> MoldHeader.wf hdr -> no_wrap hdr -> kMoldHeaderSize <= len <= blen payload ->
  packet_src hdr payload len now ->
  slot_ok Src (slot_idx (MoldHeader.seq_num hdr)) (stored g hdr payload len now).
Proof.
  intros Hi (_ & Hq & Hc) Hnw Hlen Hsrc.
  pose proof (stored_len_range len (proj1 Hlen)) as Hr.
  destruct (slot_slot_ok Src g (MoldHeader.seq_num hdr) Hi) as [Hd _ _ _ _].
  assert (Hl : stored_len len <= len - kMoldHeaderSize) by (unfold stored_len; lia).
  assert (Hs : blen (slice payload kMoldHeaderSize (stored_len len)) = stored_len len)
    by (rewrite length_slice; unfold kMoldHeaderSize in *; lia).
  split; try done; cbn.
  - rewrite length_splice by lia. done.
  - intros _. split; [done|]. split; [done|]. intros k b Hk. apply Hsrc.
    eapply prefix_lookup_Some; [exact Hk|].
    apply bodies_prefix; [lia | unfold kMoldHeaderSize; lia | lia |].
    intros o n ? ? ?. rewrite splice_0, slice_app_l by lia.
    unfold slice at 2. rewrite slice_take by lia.
    rewrite slice_drop by (unfold kMoldHeaderSize; lia). f_equal.
Qed.

(** A payload that fits its slot is stored without loss. *)
Lemma stored_bodies g hdr payload len now n :
  inv g -> kMoldHeaderSize <= len <= blen payload -> len <= kMoldHeaderSize + kMaxPacketBytes ->
  bodies n (BufferedPacket.data (stored g hdr payload len now)) 0
    (BufferedPacket.data_len (stored g hdr payload len now))
  = bodies n payload kMoldHeaderSize len.
Proof.
  intros Hi Hlen Hmax. cbn.
  assert (Hl : stored_len len = len - kMoldHeaderSize) by (unfold stored_len; lia).
  rewrite Hl.
  assert (Hs : blen (slice payload kMoldHeaderSize (len - kMoldHeaderSize)) = len - kMoldHeaderSize)
    by (rewrite length_slice; unfold kMoldHeaderSize in *; lia).
  apply bodies_same; [lia | unfold kMoldHeaderSize; lia | lia |].
  intros o k ? ? ?. rewrite splice_0, slice_app_l by lia.
  unfold slice at 2. rewrite slice_take by lia.
  rewrite slice_drop by (unfold kMoldHeaderSize; lia). f_equal.
Qed.

Lemma present_slots g g' s : slots_ g' = slots_ g -> present g' s = present g s.
Proof. intros H. unfold present. by rewrite (slot_frame g g') by done. Qed.

Lemma slot_put_slot_eq g seq s : inv g -> slot (put_slot g seq s) seq = s.
Proof.
  intros Hi. unfold slot, put_slot. cbn. rewrite list_lookup_insert_eq; [done|].
  rewrite (inv_slots _ _ Hi). apply slot_idx_lt.
Qed.

Lemma slot_put_slot_ne g seq s x :
  slot_idx x <> slot_idx seq -> slot (put_slot g seq s) x = slot g x.
Proof. intros Hne. unfold slot, put_slot. cbn. by rewrite list_lookup_insert_ne. Qed.

(** Storing a packet that starts later leaves nothing ready that was not. *)
Lemma put_slot_not_ready g seq s :
  inv g -> ~ ready g -> BufferedPacket.seq_num s = seq -> seq <> next_expected_ g ->
  ~ ready (put_slot g seq s).
Proof.
  intros Hi Hq Hs Hne [Hocc Hseq]. cbn [next_expected_ put_slot set_slots] in *.
  destruct (decide (slot_idx (next_expected_ g) = slot_idx seq)) as [E|E].
  - unfold slot in Hseq. rewrite E in Hseq. fold (slot (put_slot g seq s) seq) in Hseq.
    rewrite slot_put_slot_eq in Hseq by done. congruence.
  - rewrite slot_put_slot_ne in Hocc, Hseq by done. by apply Hq.
Qed.

Lemma buffer_packet_inv g hdr payload len now :
  inv g -> MoldHeader.wf hdr -> no_wrap hdr -> kMoldHeaderSize <= len <= blen payload ->
  packet_src hdr payload len now -> ~ ready g ->
  MoldHeader.seq_num hdr <> next_expected_ g ->
  exists g', buffer_packet g hdr payload len now = Ok g' /\ inv g' /\ ~ ready g' /\
    next_expected_ g' = next_expected_ g /\ gap_start_ g' = gap_start_ g /\
    session_synced_ g' = session_synced_ g /\ stat_delivered_ g' = stat_delivered_ g /\
    on_message_ g' = on_message_ g.
Proof.
  intros Hi Hwf Hnw Hlen Hsrc Hq Hne. rewrite buffer_packet_eq by done.
  eexists. split; [done|].
  destruct (collides g (MoldHeader.seq_num hdr)).
  - split; [destruct Hi; by split | done].
  - split; [apply inv_put_slot; [done | by apply stored_ok]|].
    split; [by apply put_slot_not_ready | done].
Qed.

(** ** The timer keeps the invariant *)

Lemma timer_inv g g' evs : inv g -> timer_frame g g' evs -> inv g'.
Proof.
  intros [] []. split; try congruence.
  - destruct tf_gap0 as [->| ->]; [unfold is_u64; lia | done].
  - by rewrite tf_slots0.
Qed.

Lemma timer_settled g g' evs : settled g -> timer_frame g g' evs -> settled g'.
Proof.
  intros [Hq Hg Hf] []. split.
  - rewrite ready_present, (present_slots g), tf_next0, <-ready_present by done. done.
  - intros Hn. rewrite tf_next0. destruct tf_gap0 as [E|E]; rewrite E in *; [done | by apply Hg].
  - rewrite tf_synced0, tf_next0. intros Hs. destruct (Hf Hs) as (? & H0 & ?).
    split; [done|]. split; [destruct tf_gap0; congruence|].
    unfold occupied_slots. by rewrite tf_slots0.
Qed.

(** ** Session synchronisation *)

Lemma no_occupied g s :
  inv g -> occupied_slots g = O -> BufferedPacket.occupied (slot g s) = false.
Proof.
  intros Hi H0. destruct (BufferedPacket.occupied (slot g s)) eqn:E; [|done].
  exfalso. apply nil_length_inv in H0.
  assert (Hin : slot g s ∈ filter (fun s => BufferedPacket.occupied s = true) (slots_ g)).
  { apply list_elem_of_filter. split; [done|].
    eapply list_elem_of_lookup_2. by apply (slot_lookup Src). }
  rewrite H0 in Hin. by apply elem_of_nil in Hin.
Qed.

Lemma sync_session_inv g hdr :
  inv g -> settled g -> MoldHeader.wf hdr ->
  let g' := sync_session g hdr in
  inv g' /\ settled g' /\ session_synced_ g' = true /\
  next_expected_ g' = (if session_synced_ g then next_expected_ g else MoldHeader.seq_num hdr) /\
  stat_delivered_ g' = stat_delivered_ g /\ on_message_ g' = on_message_ g.
Proof.
  intros Hi [Hq Hg Hf] (Hs & Hn & _). unfold sync_session.
  destruct (session_synced_ g) eqn:E; simpl.
  - rewrite andb_false_r. split; [done|]. split; [|done]. by split; [..|rewrite E].
  - destruct (Hf eq_refl) as (H0 & Hg0 & Ho). rewrite H0. simpl.
    split; [destruct Hi; by split|]. split; [|done]. split; cbn.
    + intros [Hocc _]. cbn in Hocc.
      by rewrite (slot_frame g), no_occupied in Hocc by done.
    + done.
    + done.
Qed.

(** ** Delivery of an in-order packet, flush included *)

Definition clear_gap (g : t) : t :=
  if negb (gap_start_ g =? 0) && (gap_start_ g <? next_expected_ g)
  then set_gap_start g 0 else g.

Lemma clear_gap_frame g :
  next_expected_ (clear_gap g) = next_expected_ g /\
  stat_delivered_ (clear_gap g) = stat_delivered_ g /\
  session_synced_ (clear_gap g) = session_synced_ g /\
  on_message_ (clear_gap g) = on_message_ g.
Proof. unfold clear_gap. by destruct (_ && _). Qed.

Lemma clear_gap_inv g :
  inv g -> inv (clear_gap g) /\ (~ ready g -> ~ ready (clear_gap g)) /\
  (gap_start_ (clear_gap g) = 0 \/ gap_start_ (clear_gap g) = gap_start_ g) /\
  (gap_start_ g < next_expected_ g -> gap_start_ (clear_gap g) = 0).
Proof.
  intros Hi. unfold clear_gap.
  destruct (Z.eqb_spec (gap_start_ g) 0) as [E|E]; simpl.
  { auto 10. }
  destruct (Z.ltb_spec (gap_start_ g) (next_expected_ g)).
  - split; [destruct Hi; split; cbn; try done; unfold is_u64; lia|]. cbn. auto 10.
  - split; [done|]. split; [done|]. split; [by right | lia].
Qed.

Lemma ingest_deliver g hdr payload len now :
  inv g -> settled g -> session_synced_ g = true ->
  MoldHeader.wf hdr -> no_wrap hdr -> len <= blen payload ->
  MoldHeader.seq_num hdr <= next_expected_ g -> packet_src hdr payload len now ->
  exists g1 e1 c1 g2 e2 c2,
    deliver_packet g hdr payload len now = Ok (g1, e1, c1) /\
    flush_buffer g1 = Ok (g2, e2, c2) /\
    delivers Src g g2 (e1 ++ e2) (c1 + c2) /\
    inv (clear_gap g2) /\ settled (clear_gap g2).
Proof.
  intros Hi Hst Hsy Hwf Hnw Hlen Hle Hsrc.
  destruct (deliver_delivers Src g hdr payload len now) as (g1 & e1 & c1 & H1 & D1 & I1 & _); [done..|].
  destruct (flush_buffer_delivers Src g1 I1) as (g2 & e2 & c2 & H2 & D2 & I2 & R2).
  pose proof (delivers_trans Src _ _ _ _ _ _ _ D1 D2) as D.
  exists g1, e1, c1, g2, e2, c2. do 2 (split; [done|]). split; [done|].
  destruct (clear_gap_inv g2 I2) as (I3 & R3 & G3 & G3'). split; [done|].
  destruct (clear_gap_frame g2) as (N3 & _ & S3 & _).
  pose proof (control_gap_start g g2 (dl_control _ _ _ _ _ D)) as Hgs.
  pose proof (dl_next _ _ _ _ _ D) as Hnx. pose proof (dl_count _ _ _ _ _ D) as Hc.
  assert (Hs2 : session_synced_ g2 = true).
  { pose proof (dl_control _ _ _ _ _ D) as Hctl. unfold control in Hctl. congruence. }
  destruct Hst as [_ Hg _]. split.
  - auto.
  - rewrite N3. intros Hn0.
    destruct (Z.lt_ge_cases (gap_start_ g2) (next_expected_ g2)) as [Hl|Hl].
    { by rewrite (G3' Hl) in Hn0. }
    destruct G3 as [E|E]; rewrite E in *; [done|].
    rewrite Hgs in *. rewrite (Hg Hn0) in *. lia.
  - rewrite S3, Hs2. done.
Qed.

End Step.
