(* ===== verification/GapRun.v ===== *)
(** * GapRun: sequences of datagrams and ticks

    Every [ingest] is classified by its branch; runs of inputs deliver one
    consecutive, duplicate-free run of messages. *)

From stdpp Require Import base gmap list strings fin_maps.
From Stdlib Require Import ZArith Lia.
From S2P Require Import Prelude WireFormat WireLemmas GapBuf GapWalk GapInv GapStep.

#[local] Open Scope Z_scope.
Import GapBuffer.

(** What a caller does to the buffer. *)
Inductive input :=
| Datagram (payload : list byte) (len now_ns : Z)
| Tick (now_ns : Z).

Definition apply_input (g : t) (i : input) : res (t * list event) :=
  match i with
  | Datagram payload len now =>
      '(g', evs, _) ← ingest g payload len now; mret (g', evs)
  | Tick now => tick g now
  end.

Fixpoint run (g : t) (ins : list input) : res (t * list event) :=
  match ins with
  | [] => mret (g, [])
  | i :: ins' =>
      '(g1, e1) ← apply_input g i;
      '(g2, e2) ← run g1 ins';
      mret (g2, e1 ++ e2)
  end.

(** A constructed buffer with its callbacks installed or not. *)
Definition listening (c : Config) (on_message on_gap on_retransmit : bool) : t :=
  set_on_retransmit (set_on_gap (set_on_message (create c) on_message) on_gap) on_retransmit.

(** The header [ingest] parses. *)
Definition header (payload : list byte) : MoldHeader.t :=
  MoldHeader.mk (slice payload 0 10) (be_val (slice payload 10 8)) (be_val (slice payload 18 2)).

(** Where delivery resumes: a fresh session starts at the packet it sees. *)
Definition resume (g : t) (payload : list byte) : Z :=
  if session_synced_ g then next_expected_ g else MoldHeader.seq_num (header payload).

Lemma header_wf payload : kMoldHeaderSize <= blen payload -> MoldHeader.wf (header payload).
Proof.
  intros H. apply (MoldHeader_parse_wf hdr_uninit payload kMoldHeaderSize); [done|].
  by apply MoldHeader_parse_Ok.
Qed.

Section Run.
Context (Src : Z -> list byte -> Z -> Prop).
Local Abbreviation inv := (inv Src).

Definition datagram_ok (payload : list byte) (len now : Z) : Prop :=
  len <= blen payload /\
  (kMoldHeaderSize <= len ->
     no_wrap (header payload) /\ packet_src Src (header payload) payload len now).

Definition input_ok (i : input) : Prop :=
  match i with Datagram payload len now => datagram_ok payload len now | Tick _ => True end.

(** [g'] follows [g], having delivered messages [n0], ..., [next_expected_ g' - 1]. *)
Record follows (g g' : t) (evs : list event) (n0 : Z) : Prop := {
  fo_inv : inv g';
  fo_settled : settled g';
  fo_le : n0 <= next_expected_ g';
  fo_seqs : MoldMessage.seq_num <$> messages evs
            = if on_message_ g then seqZ n0 (next_expected_ g' - n0) else [];
  fo_src : Forall (msg_src Src) (messages evs);
  fo_stat : stat_delivered_ g' = u64 (stat_delivered_ g + (next_expected_ g' - n0));
  fo_on : on_message_ g' = on_message_ g
}.

Lemma follows_refl g : inv g -> settled g -> follows g g [] (next_expected_ g).
Proof.
  intros Hi Hs. split; try done.
  - rewrite Z.sub_diag. by destruct (on_message_ g).
  - rewrite Z.sub_diag, Z.add_0_r, u64_small; [done|]. apply (inv_stat _ g Hi).
Qed.

Lemma follows_trans g1 g2 g3 e1 e2 n0 :
  follows g1 g2 e1 n0 -> follows g2 g3 e2 (next_expected_ g2) -> follows g1 g3 (e1 ++ e2) n0.
Proof.
  intros [] []. split; try done; try lia.
  - rewrite messages_app, fmap_app, fo_seqs0, fo_seqs1, fo_on0.
    destruct (on_message_ g1); [|done].
    replace (next_expected_ g3 - n0)
      with ((next_expected_ g2 - n0) + (next_expected_ g3 - next_expected_ g2)) by lia.
    rewrite seqZ_app by lia. by rewrite Zplus_minus.
  - rewrite messages_app. by apply Forall_app.
  - rewrite fo_stat1, fo_stat0, u64_add_idemp_l. f_equal. lia.
  - congruence.
Qed.

(** A state whose visible part did not move. *)
Lemma follows_frame g g' evs :
  inv g' -> settled g' -> next_expected_ g' = next_expected_ g ->
  is_u64 (stat_delivered_ g) -> stat_delivered_ g' = stat_delivered_ g ->
  on_message_ g' = on_message_ g -> messages evs = [] ->
  follows g g' evs (next_expected_ g).
Proof.
  intros ? ? Hn Hr Hs ? Hm. split; try done; try lia.
  - rewrite Hm, Hn, Z.sub_diag. by destruct (on_message_ g).
  - by rewrite Hm.
  - by rewrite Hs, Hn, Z.sub_diag, Z.add_0_r, u64_small.
Qed.

Lemma timer_follows g g' evs :
  inv g -> settled g -> timer_frame g g' evs -> follows g g' evs (next_expected_ g).
Proof.
  intros Hi Hs Hf. pose proof (timer_inv Src _ _ _ Hi Hf). pose proof (timer_settled _ _ _ Hs Hf).
  destruct Hf. apply follows_frame; try done. apply (inv_stat _ _ Hi).
Qed.

Lemma timer_step g now :
  inv g -> settled g ->
  exists g' evs, check_gap_timeout g now = Ok (g', evs) /\ timer_frame g g' evs /\
    follows g g' evs (next_expected_ g).
Proof.
  intros Hi Hs. destruct (check_gap_timeout_frame g now) as (g' & evs & He & Hf).
  - apply (inv_gap _ _ Hi).
  - exists g', evs. split; [done|]. split; [done|]. by apply timer_follows.
Qed.

(** Changes of counters alone. *)
Lemma inv_counters g g' :
  slots_ g' = slots_ g -> session_ g' = session_ g -> next_expected_ g' = next_expected_ g ->
  gap_start_ g' = gap_start_ g -> stat_delivered_ g' = stat_delivered_ g ->
  session_synced_ g' = session_synced_ g ->
  inv g /\ settled g -> inv g' /\ settled g'.
Proof.
  intros Hs Hse Hn Hg Hst Hsy [[] [Hq Hgap Hf]]. split.
  - split; rewrite ?Hs, ?Hse, ?Hn, ?Hg, ?Hst; done.
  - split.
    + rewrite ready_present, (present_slots g), Hn, <-ready_present by done. done.
    + by rewrite Hg, Hn.
    + rewrite Hsy, Hn, Hg. unfold occupied_slots. rewrite Hs. done.
Qed.

(** [handle_gap] starts tracking at [next_expected_]. *)
Lemma handle_gap_inv g rcv now g' evs :
  inv g -> settled g -> session_synced_ g = true -> handle_gap g rcv now = (g', evs) ->
  inv g' /\ settled g' /\ slots_ g' = slots_ g /\ next_expected_ g' = next_expected_ g /\
  session_synced_ g' = true /\ stat_delivered_ g' = stat_delivered_ g /\
  on_message_ g' = on_message_ g /\ messages evs = [] /\ gap_start_ g' = next_expected_ g.
Proof.
  intros Hi Hst Hsy. unfold handle_gap. destruct (Z.eqb_spec (gap_start_ g) 0) as [E|E].
  - intros [= <- <-]. split; [destruct Hi; by split|]. split.
    + destruct Hst as [Hq ? ?]. split; cbn; [exact Hq | done | by rewrite Hsy].
    + cbn. rewrite Hsy. by destruct (on_gap_ g).
  - intros [= <- <-]. repeat (split; [done|]). by apply (st_gap g Hst).
Qed.

(** *** The constructed buffer *)

Lemma init_slot_ok i : slot_ok Src i BufferedPacket.init.
Proof.
  split; cbn -[replicate Z.to_nat kMaxPacketBytes]; try (unfold is_u64, is_u16, kMaxPacketBytes; lia).
  rewrite length_replicate. unfold kMaxPacketBytes. lia.
Qed.

Lemma filter_replicate_none {A} (P : A -> Prop) `{!forall x, Decision (P x)} n x :
  ~ P x -> filter P (replicate n x) = [].
Proof. intros Hx. induction n; [done|]. cbn [replicate]. by rewrite filter_cons_False. Qed.

Lemma listening_inv c m a r :
  length (cfg_session c) = 10%nat -> inv (listening c m a r).
Proof.
  intros Hc. split; cbn -[replicate Z.to_nat kCapacity]; try (unfold is_u64; lia).
  - apply length_replicate.
  - intros i s Hs. apply lookup_replicate in Hs as [-> _]. apply init_slot_ok.
Qed.

Lemma listening_settled c m a r :
  length (cfg_session c) = 10%nat -> settled (listening c m a r).
Proof.
  intros Hc. assert (Ho : occupied_slots (listening c m a r) = O).
  { unfold occupied_slots. cbn -[replicate Z.to_nat kCapacity filter].
    by rewrite filter_replicate_none. }
  split.
  - intros [Hocc _]. rewrite (no_occupied Src) in Hocc; [done | by apply listening_inv | done].
  - done.
  - done.
Qed.

(** *** The branches of [ingest] *)

Lemma ingest_short g payload len now :
  len < kMoldHeaderSize -> ingest g payload len now = Ok (g, [], -1).
Proof. intros H. unfold ingest. by rewrite MoldHeader_parse_short, bind_Ok. Qed.

(** [ingest] after the header is parsed and the session synchronised. *)
Definition ingest_synced (g : t) (hdr : MoldHeader.t) (payload : list byte) (len now_ns : Z)
    : res (t * list event * Z) :=
  if MoldHeader.is_heartbeat hdr then
    '(g, evs) ← check_gap_timeout (inc_heartbeats g) now_ns; mret (g, evs, 0)
  else
  let g := add_messages (inc_packets g) (MoldHeader.msg_count hdr) in
  if u64 (MoldHeader.seq_num hdr + MoldHeader.msg_count hdr - 1) <? next_expected_ g
  then mret (inc_duplicates g, [], 0)
  else if next_expected_ g <? MoldHeader.seq_num hdr then
    let '(g, evs) := handle_gap g (MoldHeader.seq_num hdr) now_ns in
    g ← buffer_packet g hdr payload len now_ns;
    '(g, evs') ← check_gap_timeout g now_ns; mret (g, evs ++ evs', 0)
  else
    '(g, evs, delivered) ← deliver_packet g hdr payload len now_ns;
    '(g, evs', flushed) ← flush_buffer g;
    mret (clear_gap g, evs ++ evs', delivered + flushed).

Lemma ingest_long g payload len now :
  kMoldHeaderSize <= len <= blen payload ->
  ingest g payload len now =
  ingest_synced (sync_session g (header payload)) (header payload) payload len now.
Proof.
  intros H. unfold ingest. rewrite MoldHeader_parse_Ok, bind_Ok by lia. done.
Qed.

(** A step that delivers [r] messages and returns [r]. *)
Definition step_result (g : t) (o : res (t * list event * Z)) : Prop :=
  exists g' evs r, o = Ok (g', evs, r) /\ follows g g' evs (next_expected_ g) /\
    r = next_expected_ g' - next_expected_ g /\ session_synced_ g' = true.

Lemma synced_heartbeat g hdr payload len now :
  inv g -> settled g -> session_synced_ g = true -> MoldHeader.is_heartbeat hdr = true ->
  step_result g (ingest_synced g hdr payload len now).
Proof.
  intros Hi Hs Hsy Hh. unfold ingest_synced. rewrite Hh.
  destruct (inv_counters g (inc_heartbeats g)) as [Hi1 Hs1]; [done..|].
  destruct (timer_step (inc_heartbeats g) now Hi1 Hs1) as (g' & evs & -> & Ht & Hf).
  rewrite bind_Ok. exists g', evs, 0. split; [done|].
  destruct Ht. cbn in *. split; [by destruct Hf|]. split; [lia | congruence].
Qed.

Lemma synced_duplicate g hdr payload len now :
  inv g -> settled g -> session_synced_ g = true -> MoldHeader.is_heartbeat hdr = false ->
  u64 (MoldHeader.seq_num hdr + MoldHeader.msg_count hdr - 1) < next_expected_ g ->
  step_result g (ingest_synced g hdr payload len now).
Proof.
  intros Hi Hs Hsy Hh Hd. unfold ingest_synced. rewrite Hh. cbv zeta.
  rewrite (proj2 (Z.ltb_lt _ _)) by done.
  set (g' := inc_duplicates _). exists g', [], 0. split; [done|].
  destruct (inv_counters g g') as [Hi1 Hs1]; [done..|].
  split; [|split; [cbn; lia | done]].
  apply follows_frame; try done. apply (inv_stat _ _ Hi).
Qed.

Lemma synced_out_of_order g hdr payload len now :
  inv g -> settled g -> session_synced_ g = true -> MoldHeader.is_heartbeat hdr = false ->
  MoldHeader.wf hdr -> no_wrap hdr -> kMoldHeaderSize <= len <= blen payload ->
  packet_src Src hdr payload len now -> next_expected_ g < MoldHeader.seq_num hdr ->
  step_result g (ingest_synced g hdr payload len now).
Proof.
  intros Hi Hs Hsy Hh Hwf Hnw Hlen Hsrc Hgt. unfold ingest_synced. rewrite Hh.
  set (g0 := add_messages _ _). cbv zeta.
  destruct (inv_counters g g0) as [Hi0 Hs0]; [done..|].
  assert (N0 : next_expected_ g0 = next_expected_ g) by done.
  assert (St0 : stat_delivered_ g0 = stat_delivered_ g) by done.
  assert (On0 : on_message_ g0 = on_message_ g) by done.
  pose proof Hwf as (_ & Hq & Hc). unfold no_wrap, MoldHeader.is_heartbeat in *.
  apply Z.eqb_neq in Hh.
  rewrite u64_small by width. rewrite N0.
  destruct (Z.ltb_spec (MoldHeader.seq_num hdr + MoldHeader.msg_count hdr - 1)
              (next_expected_ g)); [width|].
  rewrite (proj2 (Z.ltb_lt _ _)) by done.
  destruct (handle_gap g0 (MoldHeader.seq_num hdr) now) as [g1 e1] eqn:E1.
  destruct (handle_gap_inv g0 _ _ _ _ Hi0 Hs0 Hsy E1)
    as (Hi1 & Hs1 & _ & N1 & Y1 & St1 & On1 & M1 & G1).
  destruct (buffer_packet_inv Src g1 hdr payload len now)
    as (g2 & -> & Hi2 & R2 & N2 & G2 & Y2 & St2 & On2); [try done; try lia..|].
  { apply (st_quiet _ Hs1). }
  assert (Hs2 : settled g2).
  { split; [done | | by rewrite Y2, Y1]. rewrite G2, N2, G1, N1. done. }
  rewrite bind_Ok. destruct (timer_step g2 now Hi2 Hs2) as (g3 & e3 & -> & Ht & Hf).
  rewrite bind_Ok. exists g3, (e1 ++ e3), 0. split; [done|].
  destruct Ht. split; [|split; [lia | congruence]].
  destruct Hf. apply follows_frame; try done; try congruence.
  - apply (inv_stat _ _ Hi).
  - rewrite messages_app, M1. done.
Qed.

Lemma synced_in_order g hdr payload len now :
  inv g -> settled g -> session_synced_ g = true -> MoldHeader.is_heartbeat hdr = false ->
  MoldHeader.wf hdr -> no_wrap hdr -> len <= blen payload ->
  packet_src Src hdr payload len now ->
  MoldHeader.seq_num hdr <= next_expected_ g
    <= u64 (MoldHeader.seq_num hdr + MoldHeader.msg_count hdr - 1) ->
  step_result g (ingest_synced g hdr payload len now).
Proof.
  intros Hi Hs Hsy Hh Hwf Hnw Hlen Hsrc [Hle Hlast]. unfold ingest_synced. rewrite Hh.
  set (g0 := add_messages _ _). cbv zeta.
  destruct (inv_counters g g0) as [Hi0 Hs0]; [done..|].
  assert (N0 : next_expected_ g0 = next_expected_ g) by done.
  rewrite N0, (proj2 (Z.ltb_ge _ _)), (proj2 (Z.ltb_ge _ _)) by done.
  destruct (ingest_deliver Src g0 hdr payload len now)
    as (g1 & e1 & c1 & g2 & e2 & c2 & E1 & E2 & D & Hi2 & Hs2); [done..|].
  rewrite E1, bind_Ok, E2, bind_Ok. eexists _, _, _. split; [done|].
  destruct (clear_gap_frame g2) as (N3 & St3 & Y3 & On3).
  assert (Hctl : session_synced_ g2 = true /\ on_message_ g2 = on_message_ g).
  { pose proof (dl_control _ _ _ _ _ D) as Hctl. unfold control in Hctl.
    split; [transitivity (session_synced_ g0) | transitivity (on_message_ g0)];
      [congruence | done | congruence | done]. }
  destruct Hctl as [Y2 On2]. destruct D. rewrite N0 in *.
  split; [|split; [lia | congruence]].
  assert (Hr : next_expected_ g2 - next_expected_ g = c1 + c2) by lia.
  split; rewrite ?N3, ?St3, ?On3, ?Hr; try done. lia.
Qed.

Lemma ingest_follows g payload len now :
  inv g -> settled g -> datagram_ok payload len now ->
  exists g' evs r, ingest g payload len now = Ok (g', evs, r) /\
    if decide (len < kMoldHeaderSize)
    then g' = g /\ evs = [] /\ r = -1
    else follows g g' evs (resume g payload) /\
         r = next_expected_ g' - resume g payload /\ session_synced_ g' = true.
Proof.
  intros Hi Hs [Hlen Hd]. destruct (decide (len < kMoldHeaderSize)) as [Hsh|Hsh].
  { exists g, [], (-1). by rewrite ingest_short. }
  destruct (Hd ltac:(lia)) as [Hnw Hsrc]. rewrite ingest_long by lia.
  set (hdr := header payload) in *.
  assert (Hwf : MoldHeader.wf hdr) by (apply header_wf; lia).
  destruct (sync_session_inv Src g hdr Hi Hs Hwf) as (Hi1 & Hs1 & Y1 & N1 & St1 & On1).
  set (g1 := sync_session g hdr) in *. change (next_expected_ g1 = resume g payload) in N1.
  assert (Hstep : step_result g1 (ingest_synced g1 hdr payload len now)).
  { destruct (MoldHeader.is_heartbeat hdr) eqn:Hh; [by apply synced_heartbeat|].
    destruct (Z.lt_ge_cases (u64 (MoldHeader.seq_num hdr + MoldHeader.msg_count hdr - 1))
                (next_expected_ g1)); [by apply synced_duplicate|].
    destruct (Z.lt_ge_cases (next_expected_ g1) (MoldHeader.seq_num hdr)).
    - apply synced_out_of_order; try done. lia.
    - by apply synced_in_order. }
  destruct Hstep as (g' & evs & r & -> & [] & -> & Y'). exists g', evs, (next_expected_ g' - next_expected_ g1).
  split; [done|]. rewrite <-N1. split; [|done]. by split; rewrite <-?On1, <-?St1.
Qed.

(** *** Runs *)

Lemma apply_input_follows g i :
  inv g -> settled g -> input_ok i ->
  exists g' evs n0, apply_input g i = Ok (g', evs) /\ follows g g' evs n0 /\
    (session_synced_ g = true -> n0 = next_expected_ g /\ session_synced_ g' = true) /\
    (session_synced_ g = false ->
       match i with
       | Datagram payload len _ =>
           if len <? kMoldHeaderSize then g' = g /\ n0 = next_expected_ g
           else session_synced_ g' = true /\ n0 = MoldHeader.seq_num (header payload)
       | Tick _ => session_synced_ g' = false /\ next_expected_ g' = next_expected_ g
                   /\ n0 = next_expected_ g
       end).
Proof.
  intros Hi Hs Hok. destruct i as [payload len now|now].
  - destruct (ingest_follows g payload len now Hi Hs Hok) as (g' & evs & r & He & Hr).
    simpl. rewrite He, bind_Ok. exists g', evs.
    destruct (decide (len < kMoldHeaderSize)).
    + destruct Hr as (-> & -> & _). exists (next_expected_ g). split; [done|].
      split; [by apply follows_refl|]. split; [done|].
      intros _. by rewrite (proj2 (Z.ltb_lt _ _)).
    + destruct Hr as (Hf & _ & Hy). exists (resume g payload). split; [done|].
      split; [done|]. unfold resume. split; intros Hsy; rewrite Hsy; [done|].
      by rewrite (proj2 (Z.ltb_ge _ _)) by lia.
  - destruct (timer_step g now Hi Hs) as (g' & evs & He & Ht & Hf).
    exists g', evs, (next_expected_ g). simpl. unfold tick. split; [done|]. split; [done|].
    destruct Ht. split; intros Hsy; [split; congruence|]. split; [congruence | done].
Qed.

(** The first sequence number the run can deliver: the one of the first datagram
    a fresh session accepts. *)
Fixpoint session_start (g : t) (ins : list input) : Z :=
  if session_synced_ g then next_expected_ g else
  match ins with
  | [] => next_expected_ g
  | Datagram payload len _ :: ins' =>
      if len <? kMoldHeaderSize then session_start g ins'
      else MoldHeader.seq_num (header payload)
  | Tick _ :: ins' => session_start g ins'
  end.

Lemma session_start_synced g ins :
  session_synced_ g = true -> session_start g ins = next_expected_ g.
Proof. intros Hy. destruct ins as [|[] ?]; simpl; by rewrite Hy. Qed.

Lemma session_start_frame g g' ins :
  session_synced_ g' = session_synced_ g -> next_expected_ g' = next_expected_ g ->
  session_start g' ins = session_start g ins.
Proof.
  intros Hy Hn. induction ins as [|[] ins IH]; simpl; rewrite Hy, Hn; try done;
    by rewrite IH.
Qed.

Lemma follows_quiet g1 g2 g3 e1 e2 n :
  follows g1 g2 e1 (next_expected_ g1) -> next_expected_ g2 = next_expected_ g1 ->
  follows g2 g3 e2 n -> follows g1 g3 (e1 ++ e2) n.
Proof.
  intros F1 Hn F2. destruct F1, F2. rewrite Hn, Z.sub_diag in fo_seqs0, fo_stat0.
  assert (Hm : messages e1 = []).
  { apply (fmap_nil_inv MoldMessage.seq_num). rewrite fo_seqs0. by destruct (on_message_ g1). }
  split; rewrite ?messages_app, ?Hm, <-?fo_on0; try done.
  by rewrite fo_stat1, fo_stat0, Z.add_0_r, u64_add_idemp_l.
Qed.

(** A run is total and delivers consecutive messages from the session start. *)
Lemma run_follows g ins :
  inv g -> settled g -> Forall input_ok ins ->
  exists g' evs, run g ins = Ok (g', evs) /\ follows g g' evs (session_start g ins).
Proof.
  revert g. induction ins as [|i ins IH]; intros g Hi Hs Hok.
  { exists g, []. split; [done|]. simpl. destruct (session_synced_ g); by apply follows_refl. }
  apply Forall_cons in Hok as [Hok1 Hok2].
  destruct (apply_input_follows g i Hi Hs Hok1) as (g1 & e1 & n0 & H1 & F1 & Hn & Hu).
  destruct (IH g1 (fo_inv _ _ _ _ F1) (fo_settled _ _ _ _ F1) Hok2) as (g2 & e2 & H2 & F2).
  cbn [run]. rewrite H1, bind_Ok, H2, bind_Ok. exists g2, (e1 ++ e2). split; [done|].
  cbn [session_start]. destruct (session_synced_ g) eqn:Hy.
  { destruct (Hn eq_refl) as [-> Hy1]. rewrite session_start_synced in F2 by done.
    by eapply follows_trans. }
  specialize (Hu eq_refl). destruct i as [payload len now|now].
  - destruct (len <? kMoldHeaderSize).
    + destruct Hu as [-> ->]. by eapply follows_quiet.
    + destruct Hu as [Hy1 ->]. rewrite session_start_synced in F2 by done.
      by eapply follows_trans.
  - destruct Hu as (Hy1 & Hn1 & ->). rewrite (session_start_frame g g1) in F2 by congruence.
    by eapply follows_quiet.
Qed.

End Run.
