(* ===== verification/GapProps.v ===== *)
(** * GapProps: what the gap buffer promises its consumer

    Delivery is in order, gap-free and duplicate-free, carries the exchange's
    bytes and the arrival time of the packet they came in, whatever the network
    loses, duplicates or reorders. *)

From stdpp Require Import base gmap list strings fin_maps.
From Stdlib Require Import ZArith Lia.
From S2P Require Import Prelude WireFormat WireLemmas GapBuf GapWalk Framing.
From S2P Require Import GapInv GapStep GapRun.

#[local] Open Scope Z_scope.
Import GapBuffer.

(** The messages a datagram carries, in order. *)
Definition packet_messages (payload : list byte) (len : Z) : list (list byte) :=
  bodies (Z.to_nat (MoldHeader.msg_count (header payload))) payload kMoldHeaderSize len.

(** A datagram is what its own bytes say, whatever is behind it in the buffer. *)
Lemma header_prefix p m : kMoldHeaderSize <= blen p -> p `prefix_of` m -> header m = header p.
Proof.
  intros Hp [k ->]. unfold header. unfold kMoldHeaderSize in Hp.
  by rewrite !slice_app_l by lia.
Qed.

Lemma packet_messages_prefix p m :
  kMoldHeaderSize <= blen p -> p `prefix_of` m -> packet_messages m (blen p) = packet_messages p (blen p).
Proof.
  intros Hp Hm. unfold packet_messages. rewrite (header_prefix p m) by done.
  destruct Hm as [k ->]. apply bodies_same; try done.
  intros o n Ho Hn Hb. apply slice_app_l; unfold kMoldHeaderSize in *; lia.
Qed.

(** The datagram lies in readable memory and its sequence numbers do not wrap. *)
Definition sane (payload : list byte) (len : Z) : Prop :=
  len <= blen payload /\ (kMoldHeaderSize <= len -> no_wrap (header payload)).

(** Its messages are those of the stream [S]. *)
Definition carries (S : Z -> list byte) (i : input) : Prop :=
  match i with
  | Datagram payload len _ =>
      sane payload len /\
      (kMoldHeaderSize <= len -> forall k b, packet_messages payload len !! k = Some b ->
         b = S (MoldHeader.seq_num (header payload) + Z.of_nat k))
  | Tick _ => True
  end.

Lemma sane_prefix p m : p `prefix_of` m -> sane p (blen p) -> sane m (blen p).
Proof.
  intros Hm [_ Hw]. pose proof (prefix_length _ _ Hm). split; [lia|].
  intros Hl. rewrite (header_prefix p m) by done. auto.
Qed.

Lemma carries_prefix S p m t t' :
  p `prefix_of` m -> carries S (Datagram p (blen p) t) -> carries S (Datagram m (blen p) t').
Proof.
  intros Hm [Hs Hc]. split; [by eapply sane_prefix|]. intros Hl k b.
  rewrite (packet_messages_prefix p m), (header_prefix p m) by done. by apply Hc.
Qed.

(** *** The reference encoder *)

Lemma header_packet_wire session seq msgs :
  length session = 10%nat -> is_u64 seq -> blen msgs < 2 ^ 16 ->
  header (packet_wire session seq msgs) = packet_hdr session seq msgs.
Proof.
  intros Hs Hq Hc. assert (Hwf : MoldHeader.wf (packet_hdr session seq msgs))
    by (split; [done|]; split; [done | split; cbn; lia]).
  pose proof (MoldHeader_parse_wire hdr_uninit _ (frame msgs) kMoldHeaderSize Hwf ltac:(lia)) as Hp.
  rewrite MoldHeader_parse_Ok in Hp by (rewrite ?length_app, ?Nat2Z.inj_add, ?wire_length by done; lia).
  unfold header, packet_wire. by injection Hp as -> -> ->.
Qed.

Lemma length_packet_wire session seq msgs :
  length session = 10%nat ->
  blen (packet_wire session seq msgs) = kMoldHeaderSize + blen (frame msgs).
Proof. intros Hs. unfold packet_wire. rewrite length_app, Nat2Z.inj_add, wire_length; done. Qed.

Lemma packet_messages_wire session seq msgs :
  length session = 10%nat -> is_u64 seq -> blen msgs < 2 ^ 16 -> fits msgs ->
  packet_messages (packet_wire session seq msgs) (blen (packet_wire session seq msgs)) = msgs.
Proof.
  intros Hs Hq Hc Hf. unfold packet_messages. rewrite header_packet_wire by done.
  cbn [MoldHeader.msg_count packet_hdr]. rewrite Nat2Z.id, length_packet_wire by done.
  pose proof (wire_length (packet_hdr session seq msgs) Hs) as Hw.
  pose proof (bodies_frame (MoldHeader.wire (packet_hdr session seq msgs)) msgs [] Hf) as Hb.
  rewrite Hw, app_nil_r in Hb. exact Hb.
Qed.

Lemma carries_input_ok S ins :
  Forall (carries S) ins -> Forall (input_ok (fun k b _ => b = S k)) ins.
Proof.
  intros Hall. eapply Forall_impl; [exact Hall|]. intros [payload len now|now]; [|done].
  intros [[Hl Hw] Hc]. split; [done|]. intros Hlen. split; [auto|]. exact (Hc Hlen).
Qed.

(** Datagrams of one test session. *)
Definition session_bytes : list byte := replicate 10 Corelib.Init.Byte.x41.
Definition test_config : Config := mk_Config 500 1000 100 session_bytes.
Definition datagram (seq : Z) (msgs : list (list byte)) (now : Z) : input :=
  Datagram (packet_wire session_bytes seq msgs) (blen (packet_wire session_bytes seq msgs)) now.

(** The stream of the tests: message [k] is the two bytes [k], [k + 1]. *)
Definition test_stream (k : Z) : list byte := [z2b k; z2b (k + 1)].

Ltac check_carries :=
  repeat (apply Forall_cons; split); [.. | by apply Forall_nil];
  first [ split; [ by vm_compute
                 | intros _ k b H; vm_compute in H;
                   repeat (destruct k as [|k]; [injection H as <-; by vm_compute | ]); discriminate H ]
        | exact I ].

(** Every faultless run hands over a segment of the stream. *)
Lemma run_delivers (S : Z -> list byte) (c : Config) (on_gap on_retx : bool)
    (ins : list input) :
  length (cfg_session c) = 10%nat -> Forall (carries S) ins ->
  let g0 := listening c true on_gap on_retx in
  exists g evs,
    run g0 ins = Ok (g, evs) /\ session_start g0 ins <= next_expected_ g /\
    (fun m => (MoldMessage.seq_num m, msg_content m)) <$> messages evs
      = (fun k => (k, S k)) <$> seqZ (session_start g0 ins)
                                     (next_expected_ g - session_start g0 ins).
Proof.
  intros Hc Hins g0. set (n0 := session_start g0 ins).
  destruct (run_follows _ g0 ins (listening_inv _ c true on_gap on_retx Hc)
              (listening_settled (fun k b _ => b = S k) c true on_gap on_retx Hc)
              (carries_input_ok S ins Hins))
    as (g & evs & Hr & [_ _ Hle Hseq Hsrc _ _]).
  fold n0 in Hle, Hseq. exists g, evs. split; [done|]. split; [done|].
  cbn [on_message_ listening set_on_retransmit set_on_gap set_on_message g0] in Hseq.
  rewrite <-Hseq, <-list_fmap_compose. apply list_fmap_ext. intros i m Hm. simpl.
  rewrite Forall_lookup in Hsrc. destruct (Hsrc i m Hm) as [-> _]. done.
Qed.

(** C1.  Refinement of the exchange's stream: from a constructed buffer, every
    run of datagrams that carry messages of the stream [S] is free of faults and
    hands the consumer exactly the stream's messages [n0], [n0 + 1], ...,
    [next_expected_ - 1], each once and in order, where [n0] is the first
    sequence number the session sees. *)
Theorem delivers_stream (S : Z -> list byte) (c : Config) (on_gap on_retx : bool)
    (ins : list input) :
  length (cfg_session c) = 10%nat ->
  Forall (carries S) ins ->
  let g0 := listening c true on_gap on_retx in
  let n0 := session_start g0 ins in
  exists g evs,
    run g0 ins = Ok (g, evs) /\
    n0 <= next_expected_ g /\
    (fun m => (MoldMessage.seq_num m, msg_content m)) <$> messages evs
      = (fun k => (k, S k)) <$> seqZ n0 (next_expected_ g - n0).
Proof. intros. by apply run_delivers. Qed.

Lemma delivers_stream_witness :
  exists g evs,
    run (listening test_config true true true)
      [datagram 1 [test_stream 1] 10; datagram 3 [test_stream 3; test_stream 4] 20;
       datagram 3 [test_stream 3; test_stream 4] 30; datagram 2 [test_stream 2] 40] = Ok (g, evs) /\
    1 <= next_expected_ g /\
    (fun m => (MoldMessage.seq_num m, msg_content m)) <$> messages evs
      = (fun k => (k, test_stream k)) <$> seqZ 1 (next_expected_ g - 1).
Proof.
  apply (delivers_stream test_stream test_config true true
    [datagram 1 [test_stream 1] 10; datagram 3 [test_stream 3; test_stream 4] 20;
     datagram 3 [test_stream 3; test_stream 4] 30; datagram 2 [test_stream 2] 40]).
  - reflexivity.
  - check_carries.
Defined.

(** [b] is message [k] of a datagram of [ins] that arrived at [t]. *)
Definition arrived (ins : list input) (k : Z) (b : list byte) (t : Z) : Prop :=
  exists payload len i,
    Datagram payload len t ∈ ins /\ packet_messages payload len !! i = Some b /\
    k = MoldHeader.seq_num (header payload) + Z.of_nat i.

Definition sane_input (i : input) : Prop :=
  match i with Datagram payload len _ => sane payload len | Tick _ => True end.

Lemma sane_input_ok ins all :
  Forall sane_input ins -> (forall i, i ∈ ins -> i ∈ all) ->
  Forall (input_ok (arrived all)) ins.
Proof.
  rewrite !Forall_forall. intros Hs Hsub i Hi. specialize (Hs i Hi).
  destruct i as [payload len now|now]; [|done]. destruct Hs as [Hl Hw].
  split; [done|]. intros Hlen. split; [auto|].
  intros k b Hk. exists payload, len, k. auto.
Qed.

(** C29.  Provenance: every message handed to the consumer is, byte for byte, a
    message of some ingested datagram, its length field is the number of its
    bytes, and its [recv_ns] is the arrival time of that very datagram, even when
    it waited in the out-of-order buffer. *)
Theorem delivered_from_datagrams (c : Config) (on_gap on_retx : bool) (ins : list input) :
  length (cfg_session c) = 10%nat ->
  Forall sane_input ins ->
  exists g evs,
    run (listening c true on_gap on_retx) ins = Ok (g, evs) /\
    forall m, m ∈ messages evs ->
      arrived ins (MoldMessage.seq_num m) (msg_content m) (MoldMessage.recv_ns m) /\
      blen (msg_content m) = MoldMessage.length m.
Proof.
  intros Hc Hins.
  destruct (run_follows (arrived ins) (listening c true on_gap on_retx) ins)
    as (g & evs & Hr & F); [by apply listening_inv | by eapply (listening_settled (arrived ins)) | |].
  { by apply sane_input_ok. }
  exists g, evs. split; [done|]. intros m Hm.
  pose proof (fo_src _ _ _ _ _ F) as Hsrc. rewrite Forall_forall in Hsrc.
  destruct (Hsrc m Hm) as (Ha & Hl & Hb). split; [done|].
  unfold msg_content. rewrite length_take. width.
Qed.

Lemma delivered_from_datagrams_witness :
  exists g evs,
    run (listening test_config true true true)
      [datagram 1 [test_stream 1] 10; datagram 3 [test_stream 3] 20;
       Tick 25; datagram 2 [test_stream 2] 30] = Ok (g, evs) /\
    forall m, m ∈ messages evs ->
      arrived [datagram 1 [test_stream 1] 10; datagram 3 [test_stream 3] 20;
               Tick 25; datagram 2 [test_stream 2] 30]
              (MoldMessage.seq_num m) (msg_content m) (MoldMessage.recv_ns m) /\
      blen (msg_content m) = MoldMessage.length m.
Proof.
  apply delivered_from_datagrams; [reflexivity|].
  repeat (apply Forall_cons; split); [.. | by apply Forall_nil]; by vm_compute.
Defined.

(** C30.  Quiescence: after any run nothing deliverable is left behind (the slot of
    [next_expected_] never holds the packet that starts there), and a tracked gap
    always starts exactly at [next_expected_]. *)
Theorem nothing_left_waiting (c : Config) (on_gap on_retx : bool) (ins : list input) :
  length (cfg_session c) = 10%nat ->
  Forall sane_input ins ->
  exists g evs,
    run (listening c true on_gap on_retx) ins = Ok (g, evs) /\
    ~ (BufferedPacket.occupied (slot g (next_expected_ g)) = true /\
       BufferedPacket.seq_num (slot g (next_expected_ g)) = next_expected_ g) /\
    (in_gap g = true -> gap_start_ g = next_expected_ g).
Proof.
  intros Hc Hins.
  destruct (run_follows (arrived ins) (listening c true on_gap on_retx) ins)
    as (g & evs & Hr & F); [by apply listening_inv | by eapply (listening_settled (arrived ins)) | |].
  { by apply sane_input_ok. }
  exists g, evs. split; [done|]. destruct (fo_settled _ _ _ _ _ F) as [Hq Hg _].
  split; [exact Hq|]. unfold in_gap. rewrite negb_true_iff, Z.eqb_neq. done.
Qed.

Lemma nothing_left_waiting_witness :
  exists g evs,
    run (listening test_config true true true)
      [datagram 1 [test_stream 1] 10; datagram 4 [test_stream 4] 20; Tick 600] = Ok (g, evs) /\
    ~ (BufferedPacket.occupied (slot g (next_expected_ g)) = true /\
       BufferedPacket.seq_num (slot g (next_expected_ g)) = next_expected_ g) /\
    (in_gap g = true -> gap_start_ g = next_expected_ g).
Proof.
  apply nothing_left_waiting; [reflexivity|].
  repeat (apply Forall_cons; split); [.. | by apply Forall_nil]; by vm_compute.
Defined.
