(* ===== verification/Codec.v ===== *)
(** * Codec: what is encoded is decoded

    Round trips of the wire format: the MoldUDP64 header and framing, and the
    five ITCH book messages. *)

From stdpp Require Import base gmap list strings fin_maps.
From Stdlib Require Import ZArith Lia.
From S2P Require Import Prelude WireFormat WireLemmas GapBuf GapWalk Framing.
From S2P Require Import GapInv GapStep GapRun GapProps.

#[local] Open Scope Z_scope.

(** MoldUDP64 round trip: [serialise] writes the twenty bytes of the layout over
    whatever the buffer held and touches nothing behind them, [parse] reads the
    same header back, and the message loop finds exactly the framed messages,
    with any bytes behind the datagram. *)
Theorem mold_round_trip (h0 : MoldHeader.t) (session : list byte) (seq : Z)
    (msgs : list (list byte)) (buf rest : list byte) :
  length session = 10%nat -> is_u64 seq -> blen msgs < 2 ^ 16 -> fits msgs ->
  kMoldHeaderSize <= blen buf ->
  let h := packet_hdr session seq msgs in
  let p := packet_wire session seq msgs in
  MoldHeader.serialise h buf = Ok (MoldHeader.wire h ++ drop 20 buf) /\
  MoldHeader.parse h0 (p ++ rest) (blen p) = Ok (true, h) /\
  packet_messages (p ++ rest) (blen p) = msgs.
Proof.
  intros Hs Hq Hc Hf Hb h p.
  assert (Hw : blen (MoldHeader.wire h) = kMoldHeaderSize) by (by apply wire_length).
  assert (Hlen : kMoldHeaderSize <= blen p) by (unfold p; rewrite length_packet_wire; [lia | done]).
  split; [|split].
  - rewrite MoldHeader_serialise_Ok, splice_0 by done. unfold kMoldHeaderSize in Hw. do 3 f_equal. lia.
  - unfold p, packet_wire. fold h. rewrite <-app_assoc. apply MoldHeader_parse_wire.
    + split; [done|]. split; [done|]. split; cbn; lia.
    + rewrite !length_app. lia.
  - rewrite (packet_messages_prefix p (p ++ rest)) by (done || by eexists). by apply packet_messages_wire.
Qed.

Lemma mold_round_trip_witness :
  let h := packet_hdr session_bytes 7 [test_stream 1; []; test_stream 3] in
  let p := packet_wire session_bytes 7 [test_stream 1; []; test_stream 3] in
  MoldHeader.serialise h (replicate 25 (z2b 9)) = Ok (MoldHeader.wire h ++ drop 20 (replicate 25 (z2b 9))) /\
  MoldHeader.parse GapBuffer.hdr_uninit (p ++ [z2b 3]) (blen p) = Ok (true, h) /\
  packet_messages (p ++ [z2b 3]) (blen p) = [test_stream 1; []; test_stream 3].
Proof.
  apply mold_round_trip; [reflexivity | by vm_compute | by vm_compute | | by vm_compute].
  repeat (apply Forall_cons; split); [.. | by apply Forall_nil]; by vm_compute.
Defined.

(** The fields of the five book messages, by the tables of the ITCH 5.0
    specification, with their ranges. *)
Inductive book_fields :=
| FAdd (mpid : bool) (loc trk ts oref : Z) (sd : byte) (sh : Z) (stk : list byte) (pr : Z)
| FDelete (loc trk ts oref : Z)
| FExecuted (loc trk ts oref sh mn : Z)
| FCancel (loc trk ts oref sh : Z)
| FReplace (loc trk ts orig new sh pr : Z).

Definition fields_wire (f : book_fields) : list byte :=
  match f with
  | FAdd mpid loc trk ts oref sd sh stk pr =>
      itch_add_wire (if mpid then 70 else 65) loc trk ts oref sd sh stk pr
  | FDelete loc trk ts oref => itch_delete_wire loc trk ts oref
  | FExecuted loc trk ts oref sh mn => itch_executed_wire loc trk ts oref sh mn
  | FCancel loc trk ts oref sh => itch_cancel_wire loc trk ts oref sh
  | FReplace loc trk ts orig new sh pr => itch_replace_wire loc trk ts orig new sh pr
  end.

Definition fields_ok (f : book_fields) : Prop :=
  match f with
  | FAdd _ loc trk ts oref _ sh stk pr =>
      is_u16 loc /\ is_u48 ts /\ is_u64 oref /\ is_u32 sh /\ length stk = 8%nat /\ is_u32 pr
  | FDelete _ _ ts oref => is_u48 ts /\ is_u64 oref
  | FExecuted _ _ ts oref sh mn => is_u48 ts /\ is_u64 oref /\ is_u32 sh /\ is_u64 mn
  | FCancel _ _ ts oref sh => is_u48 ts /\ is_u64 oref /\ is_u32 sh
  | FReplace _ _ ts orig new sh pr =>
      is_u48 ts /\ is_u64 orig /\ is_u64 new /\ is_u32 sh /\ is_u32 pr
  end.

(** What the parser of its type makes of it. *)
Definition decodes (f : book_fields) (body : list byte) (len : Z) : Prop :=
  match f with
  | FAdd mpid loc _ ts oref sd sh stk pr => forall out,
      ItchAddOrder.parse body len out =
      Ok (true, ItchAddOrder.mk (ItchAddOrder.seq_num out) ts loc oref sh pr
                  (stk ++ [Corelib.Init.Byte.x00]) sd mpid)
  | FDelete _ _ ts oref => forall out,
      ItchDeleteOrder.parse body len out =
      Ok (true, ItchDeleteOrder.mk (ItchDeleteOrder.seq_num out) ts oref)
  | FExecuted _ _ ts oref sh mn => forall out,
      ItchOrderExecuted.parse body len out =
      Ok (true, ItchOrderExecuted.mk (ItchOrderExecuted.seq_num out) ts oref sh mn)
  | FCancel _ _ ts oref sh => forall out,
      ItchOrderCancel.parse body len out =
      Ok (true, ItchOrderCancel.mk (ItchOrderCancel.seq_num out) ts oref sh)
  | FReplace _ _ ts orig new sh pr => forall out,
      ItchOrderReplace.parse body len out =
      Ok (true, ItchOrderReplace.mk (ItchOrderReplace.seq_num out) ts orig new sh pr)
  end.

(** ITCH round trip: every book message encoded by the specification's layout
    (type at 0, locate at 1, tracking at 3, 48-bit timestamp at 5, fields from 11)
    is decoded to its fields, whatever follows it, at every width up to its
    largest value. *)
Theorem itch_round_trip (f : book_fields) (rest : list byte) (len : Z) :
  fields_ok f -> blen (fields_wire f) <= len <= blen (fields_wire f) + blen rest ->
  decodes f (fields_wire f ++ rest) len.
Proof.
  destruct f as [mpid loc trk ts oref sd sh stk pr|loc trk ts oref|loc trk ts oref sh mn
    |loc trk ts oref sh|loc trk ts orig new sh pr]; cbn [fields_ok fields_wire decodes].
  - intros (? & ? & ? & ? & Hstk & ?) Hl out.
    assert (blen (itch_add_wire (if mpid then 70 else 65) loc trk ts oref sd sh stk pr) = 36)
      by (unfold itch_add_wire, itch_prefix; rewrite !length_app, !length_be_bytes, Hstk; done).
    rewrite itch_add_decode; try done; [by destruct mpid | destruct mpid; tauto | lia].
  - intros (? & ?) Hl out.
    assert (blen (itch_delete_wire loc trk ts oref) = 19)
      by (unfold itch_delete_wire, itch_prefix; by rewrite !length_app, !length_be_bytes).
    rewrite itch_delete_decode; try done; lia.
  - intros (? & ? & ? & ?) Hl out.
    assert (blen (itch_executed_wire loc trk ts oref sh mn) = 31)
      by (unfold itch_executed_wire, itch_prefix; by rewrite !length_app, !length_be_bytes).
    rewrite itch_executed_decode; try done; lia.
  - intros (? & ? & ?) Hl out.
    assert (blen (itch_cancel_wire loc trk ts oref sh) = 23)
      by (unfold itch_cancel_wire, itch_prefix; by rewrite !length_app, !length_be_bytes).
    rewrite itch_cancel_decode; try done; lia.
  - intros (? & ? & ? & ? & ?) Hl out.
    assert (blen (itch_replace_wire loc trk ts orig new sh pr) = 35)
      by (unfold itch_replace_wire, itch_prefix; by rewrite !length_app, !length_be_bytes).
    rewrite itch_replace_decode; try done; lia.
Qed.

Lemma itch_round_trip_witness :
  let f := FReplace 1 0 281474976710655 18446744073709551615 2 4294967295 10000 in
  decodes f (fields_wire f ++ [z2b 1; z2b 2]) 36.
Proof. intros f. apply itch_round_trip; by vm_compute. Defined.
