(* ===== verification/GapSafety.v ===== *)
(** * GapSafety: memory safety and termination on arbitrary bytes

    No hypothesis on what the network sends: whatever the header fields and
    message lengths claim, no access leaves its object and every loop ends. *)

From stdpp Require Import base gmap list strings fin_maps.
From Stdlib Require Import ZArith Lia.
From S2P Require Import Prelude WireFormat WireLemmas GapBuf GapWalk Framing.
From S2P Require Import GapInv GapStep GapRun GapProps.

#[local] Open Scope Z_scope.
Import GapBuffer.

Record slot_mem (s : BufferedPacket) : Prop := {
  sm_data : blen (BufferedPacket.data s) = kMaxPacketBytes;
  sm_len : 0 <= BufferedPacket.data_len s <= kMaxPacketBytes;
  sm_seq : is_u64 (BufferedPacket.seq_num s)
}.

(** The object's layout: array sizes and integer widths. *)
Record mem_inv (g : t) : Prop := {
  mi_slots : length (slots_ g) = Z.to_nat kCapacity;
  mi_session : length (session_ g) = 10%nat;
  mi_next : is_u64 (next_expected_ g);
  mi_gap : is_u64 (gap_start_ g);
  mi_slot : Forall slot_mem (slots_ g)
}.

(** A total step that keeps the layout and reports at least [lo]. *)
Definition safe (lo : Z) (o : res (t * list event * Z)) : Prop :=
  exists g' evs r, o = Ok (g', evs, r) /\ mem_inv g' /\ lo <= r.

Lemma slot_slot_mem g s : mem_inv g -> slot_mem (slot g s).
Proof.
  intros Hi. unfold slot. destruct (slots_ g !! slot_idx s) as [x|] eqn:E; simpl.
  - apply (Forall_lookup_1 _ _ _ _ (mi_slot g Hi) E).
  - apply lookup_ge_None in E. rewrite (mi_slots g Hi) in E. pose proof (slot_idx_lt s). lia.
Qed.

Lemma mem_inv_put_slot g seq s : mem_inv g -> slot_mem s -> mem_inv (put_slot g seq s).
Proof.
  intros [] Hs. split; cbn; try done.
  - by rewrite length_insert.
  - by apply Forall_insert.
Qed.

(** The message loop, whatever the sequence numbers do. *)
Lemma deliver_loop_total n g payload cursor end_ seq recv count :
  0 <= cursor -> end_ <= blen payload -> is_u64 seq -> 0 <= count ->
  exists g' evs c s,
    deliver_loop n g payload cursor end_ seq recv count = Ok (g', evs, c, s) /\
    slots_ g' = slots_ g /\ session_ g' = session_ g /\ next_expected_ g' = next_expected_ g /\
    gap_start_ g' = gap_start_ g /\ is_u64 s /\ 0 <= c.
Proof.
  revert g cursor seq count. induction n as [|n IH]; intros g cursor seq count Hc He Hs Hn.
  { by exists g, [], count, seq. }
  cbn [deliver_loop]. destruct (Z.leb_spec (cursor + 2) end_); [|by exists g, [], count, seq].
  rewrite be16_Ok, bind_Ok by lia. pose proof (be_val_2_range payload cursor) as Hr.
  destruct (Z.ltb_spec end_ (cursor + 2 + be_val (slice payload cursor 2)));
    [by exists g, [], count, seq|].
  destruct (next_expected_ g <=? seq).
  - edestruct (IH (inc_delivered g)) as (g' & evs & c & s & -> & H'); cycle -1.
    + rewrite bind_Ok. eexists g', _, c, s. split; [done | exact H'].
    + width.
    + done.
    + apply u64_range.
    + lia.
  - apply IH; [width | done | apply u64_range | done].
Qed.

Lemma deliver_packet_safe g hdr payload len recv :
  mem_inv g -> len <= blen payload -> is_u64 (MoldHeader.seq_num hdr) ->
  exists g' evs c, deliver_packet g hdr payload len recv = Ok (g', evs, c) /\
    mem_inv g' /\ slots_ g' = slots_ g /\ 0 <= c.
Proof.
  intros Hi Hlen Hs. unfold deliver_packet.
  edestruct (deliver_loop_total (Z.to_nat (MoldHeader.msg_count hdr)) g payload
    kMoldHeaderSize len (MoldHeader.seq_num hdr) recv 0)
    as (g' & evs & c & s & -> & S1 & S2 & S3 & S4 & Hs' & Hc); [done | done | done | done |].
  rewrite bind_Ok. eexists _, evs, c. split; [done|].
  assert (Hi' : mem_inv g') by (destruct Hi; split; congruence).
  destruct (next_expected_ g' <? s); [|done].
  split; [destruct Hi'; by split | done].
Qed.

Lemma rebuild_safe g sl :
  mem_inv g -> slot_mem sl ->
  exists hdr buf, rebuild g sl = Ok (hdr, buf) /\
    blen buf = kMoldHeaderSize + BufferedPacket.data_len sl /\
    MoldHeader.seq_num hdr = BufferedPacket.seq_num sl.
Proof.
  intros Hi []. pose proof (mi_session g Hi) as Hses. unfold rebuild.
  rewrite MoldHeader_serialise_Ok, bind_Ok by (rewrite ?length_replicate; done).
  rewrite mem_read_Ok, bind_Ok by (unfold kMaxPacketBytes in *; lia).
  eexists _, _. split; [done|]. split; [|done].
  pose proof (wire_length (slot_hdr g sl) Hses) as Hw. unfold slot_hdr in Hw.
  rewrite length_app, length_splice by (rewrite ?length_replicate; unfold kMoldHeaderSize in *; lia).
  rewrite length_replicate, length_slice by (unfold kMaxPacketBytes in *; lia).
  unfold kMoldHeaderSize in *. lia.
Qed.

Lemma flush_loop_safe fuel g count :
  mem_inv g -> (occupied_slots g < fuel)%nat -> 0 <= count -> safe 0 (flush_loop fuel g count).
Proof.
  revert g count. induction fuel as [|fuel IH]; intros g count Hi Hf Hc; [lia|].
  rewrite flush_loop_step. destruct (ready_dec g) as [[[Hocc _] ->]|[_ ->]].
  2:{ by exists g, [], count. }
  unfold flush_turn.
  destruct (rebuild_safe g (slot g (next_expected_ g)) Hi) as (hdr & buf & -> & Hb & Hq);
    [by apply slot_slot_mem|]. rewrite bind_Ok.
  destruct (deliver_packet_safe g hdr buf (kMoldHeaderSize +
      BufferedPacket.data_len (slot g (next_expected_ g)))
      (BufferedPacket.recv_ns (slot g (next_expected_ g)))) as (g1 & e1 & c1 & -> & Hi1 & S1 & Hc1).
  { done. } { lia. } { rewrite Hq. by apply sm_seq, slot_slot_mem. }
  rewrite !bind_Ok. rewrite (slot_frame g g1) by done.
  set (g2 := put_slot _ _ _).
  assert (Hi2 : mem_inv g2).
  { apply mem_inv_put_slot; [done|]. destruct (slot_slot_mem g (next_expected_ g) Hi). by split. }
  destruct (IH g2 (count + c1) Hi2) as (g3 & e3 & c3 & -> & Hi3 & Hc3); [|lia|].
  - apply Nat.succ_lt_mono. eapply Nat.le_lt_trans; [|exact Hf].
    unfold occupied_slots at 2. erewrite length_filter_insert; [| |exact Hocc|].
    + unfold g2, occupied_slots. cbn. rewrite S1. apply le_n.
    + unfold slot. destruct (slots_ g !! slot_idx (next_expected_ g)) eqn:E; [done|].
      apply lookup_ge_None in E. rewrite (mi_slots g Hi) in E.
      pose proof (slot_idx_lt (next_expected_ g)). lia.
    + done.
  - rewrite bind_Ok. by eexists g3, _, c3.
Qed.

Lemma flush_buffer_safe g : mem_inv g -> safe 0 (flush_buffer g).
Proof.
  intros Hi. apply flush_loop_safe; [done | | done].
  unfold occupied_slots. apply Nat.lt_succ_r. rewrite <-(mi_slots g Hi). apply length_filter.
Qed.

Lemma timer_mem_inv g g' evs : mem_inv g -> timer_frame g g' evs -> mem_inv g'.
Proof.
  intros [Hl Hs Hn Hg Hsl] [Ts Tn _ _ Tse _ _ [Tg|Tg] _]; split;
    rewrite ?Ts, ?Tn, ?Tse, ?Tg; done.
Qed.

Lemma check_gap_timeout_safe g now :
  mem_inv g -> exists g' evs, check_gap_timeout g now = Ok (g', evs) /\ mem_inv g'.
Proof.
  intros Hi. destruct (check_gap_timeout_frame g now (mi_gap g Hi)) as (g' & evs & H & Ht).
  exists g', evs. split; [done|]. by eapply timer_mem_inv.
Qed.

Lemma buffer_packet_safe g hdr payload len now :
  mem_inv g -> kMoldHeaderSize <= len <= blen payload -> is_u64 (MoldHeader.seq_num hdr) ->
  exists g', buffer_packet g hdr payload len now = Ok g' /\ mem_inv g'.
Proof.
  intros Hi Hlen Hq. unfold buffer_packet. destruct (_ && _).
  { eexists. split; [done|]. destruct Hi. by split. }
  destruct (slot_slot_mem g (MoldHeader.seq_num hdr) Hi) as [Hd _ _].
  set (dl := u16 _).
  assert (Hdl : 0 <= dl <= kMaxPacketBytes /\ dl <= len - kMoldHeaderSize).
  { unfold dl, kMaxPacketBytes. destruct (Z.ltb_spec kMoldHeaderSize len);
      rewrite u16_small; width. }
  rewrite mem_read_Ok, bind_Ok by (unfold kMoldHeaderSize in *; lia).
  assert (Hs : blen (slice payload kMoldHeaderSize dl) = dl)
    by (rewrite length_slice; unfold kMoldHeaderSize in *; lia).
  rewrite mem_write_splice, bind_Ok by lia.
  eexists. split; [done|]. apply mem_inv_put_slot; [done|]. split; cbn; [|lia|done].
  by rewrite length_splice by lia.
Qed.

(** *** The entry point *)

Lemma safe_weaken lo lo' o : lo' <= lo -> safe lo o -> safe lo' o.
Proof. intros Hle (g & evs & r & ? & ? & ?). exists g, evs, r. split; [done|]. split; [done | lia]. Qed.

Lemma ingest_synced_safe g hdr payload len now :
  mem_inv g -> kMoldHeaderSize <= len <= blen payload -> is_u64 (MoldHeader.seq_num hdr) ->
  safe 0 (ingest_synced g hdr payload len now).
Proof.
  intros Hi Hlen Hq. unfold ingest_synced.
  destruct (MoldHeader.is_heartbeat hdr).
  { destruct (check_gap_timeout_safe (inc_heartbeats g) now) as (g' & evs & -> & Hi');
      [destruct Hi; by split|]. rewrite bind_Ok. by exists g', evs, 0. }
  set (g0 := add_messages _ _). assert (Hi0 : mem_inv g0) by (destruct Hi; by split).
  cbv zeta. destruct (_ <? next_expected_ g0).
  { eexists _, _, 0. split; [done|]. split; [destruct Hi0; by split | done]. }
  destruct (next_expected_ g0 <? _).
  - assert (Hg : mem_inv (handle_gap g0 (MoldHeader.seq_num hdr) now).1).
    { unfold handle_gap. destruct (gap_start_ g0 =? 0); [destruct Hi0; by split | done]. }
    destruct (handle_gap g0 (MoldHeader.seq_num hdr) now) as [g1 e1]. simpl in Hg.
    destruct (buffer_packet_safe g1 hdr payload len now) as (g2 & -> & Hi2); [done..|].
    rewrite bind_Ok.
    destruct (check_gap_timeout_safe g2 now Hi2) as (g3 & e3 & -> & Hi3).
    rewrite bind_Ok. by eexists g3, _, 0.
  - destruct (deliver_packet_safe g0 hdr payload len now) as (g1 & e1 & c1 & -> & Hi1 & _ & Hc1);
      [done | lia | done |]. rewrite bind_Ok.
    destruct (flush_buffer_safe g1 Hi1) as (g2 & e2 & c2 & -> & Hi2 & Hc2).
    rewrite bind_Ok. eexists _, _, _. split; [done|]. split; [|lia].
    unfold clear_gap. destruct (_ && _); [|done]. destruct Hi2. by split.
Qed.

Lemma ingest_safe g payload len now :
  mem_inv g -> len <= blen payload -> safe (-1) (ingest g payload len now).
Proof.
  intros Hi Hlen. destruct (Z.lt_ge_cases len kMoldHeaderSize).
  { rewrite ingest_short by done. by exists g, [], (-1). }
  rewrite ingest_long by done. apply (safe_weaken 0); [lia|].
  destruct (header_wf payload) as (Hs & Hq & _); [lia|].
  apply ingest_synced_safe; [|done|done].
  unfold sync_session. destruct (_ && _); [|done]. destruct Hi. by split.
Qed.

Lemma run_safe g ins :
  mem_inv g ->
  Forall (fun i => match i with Datagram payload len _ => len <= blen payload | Tick _ => True end) ins ->
  exists g' evs, run g ins = Ok (g', evs) /\ mem_inv g'.
Proof.
  intros Hi Hins. revert g Hi. induction Hins as [|i ins Hlen _ IH]; intros g Hi.
  { by exists g, []. }
  assert (Hstep : exists g1 e1, apply_input g i = Ok (g1, e1) /\ mem_inv g1).
  { destruct i as [payload len now|now]; simpl.
    - destruct (ingest_safe g payload len now Hi Hlen) as (g1 & e1 & r & -> & Hi1 & _).
      rewrite bind_Ok. by exists g1, e1.
    - by apply check_gap_timeout_safe. }
  destruct Hstep as (g1 & e1 & H1 & Hi1). destruct (IH g1 Hi1) as (g2 & e2 & H2 & Hi2).
  cbn [run]. rewrite H1, bind_Ok, H2, bind_Ok. by exists g2, (e1 ++ e2).
Qed.

Lemma listening_mem_inv c m a r :
  length (cfg_session c) = 10%nat -> mem_inv (listening c m a r).
Proof.
  intros Hc. destruct (listening_inv (fun _ _ _ => True) c m a r Hc) as [? ? ? ? _ Hs].
  split; try done. apply Forall_lookup. intros i s Hi. destruct (Hs i s Hi). by split.
Qed.

(** C11.  Memory safety and termination on arbitrary input: for any bytes whatever
    (headers, counts and lengths included) a constructed buffer processes any run
    of datagrams and ticks without an out-of-bounds access and without exhausting
    the loops' fuel; the ring keeps its 4096 slots of 1500 bytes. *)
Theorem run_memory_safe (c : Config) (on_message on_gap on_retx : bool) (ins : list input) :
  length (cfg_session c) = 10%nat ->
  (forall payload len now, Datagram payload len now ∈ ins -> len <= blen payload) ->
  exists g evs,
    run (listening c on_message on_gap on_retx) ins = Ok (g, evs) /\
    length (slots_ g) = Z.to_nat kCapacity /\
    Forall (fun s => blen (BufferedPacket.data s) = kMaxPacketBytes /\
                     0 <= BufferedPacket.data_len s <= kMaxPacketBytes) (slots_ g).
Proof.
  intros Hc Hins.
  destruct (run_safe (listening c on_message on_gap on_retx) ins) as (g & evs & Hr & Hi).
  - by apply listening_mem_inv.
  - apply Forall_forall. intros [payload len now|now] Hi; [by eapply Hins | done].
  - exists g, evs. split; [done|]. split; [apply (mi_slots g Hi)|].
    eapply Forall_impl; [exact (mi_slot g Hi)|]. by intros s [].
Qed.

Lemma run_memory_safe_witness :
  exists g evs,
    run (listening test_config true true true)
      [Datagram (replicate 64 Corelib.Init.Byte.xff) 64 10;
       Datagram (replicate 30 Corelib.Init.Byte.xff) 30 20; Tick 900] = Ok (g, evs) /\
    length (slots_ g) = Z.to_nat kCapacity /\
    Forall (fun s => blen (BufferedPacket.data s) = kMaxPacketBytes /\
                     0 <= BufferedPacket.data_len s <= kMaxPacketBytes) (slots_ g).
Proof.
  apply run_memory_safe; [reflexivity|].
  intros payload len now Hin. repeat (apply elem_of_cons in Hin as [Hin|Hin];
    [first [injection Hin as -> -> ->; by vm_compute | discriminate Hin]|]).
  by apply elem_of_nil in Hin.
Defined.
