(* ===== verification/GapType.v ===== *)
(** * GapType: every value stays in its C++ type

    The model computes in [Z] and writes each wrap out; that no member, event or
    result ever leaves the range of its C++ type is a theorem, preserved by every
    entry point on arbitrary bytes. *)

From stdpp Require Import base gmap list strings fin_maps.
From Stdlib Require Import ZArith Lia.
From S2P Require Import Prelude WireFormat WireLemmas GapBuf GapWalk Framing.
From S2P Require Import GapInv GapStep GapRun GapProps GapSafety.

#[local] Open Scope Z_scope.
Import GapBuffer.

Lemma inc_range x : is_u64 (inc x).
Proof. apply u64_range. Qed.

#[export] Hint Resolve inc_range : feed.

Record slot_vals (s : BufferedPacket) : Prop := {
  sv_count : is_u16 (BufferedPacket.msg_count s);
  sv_recv : is_u64 (BufferedPacket.recv_ns s)
}.

(** The members that [mem_inv] says nothing about. *)
Record vals (g : t) : Prop := {
  v_slots : Forall slot_vals (slots_ g);
  v_detected : is_u64 (gap_detected_at_ns g);
  v_retx_ns : is_u64 (gap_last_retx_ns g);
  v_packets : is_u64 (stat_packets_ g);
  v_messages : is_u64 (stat_messages_ g);
  v_gaps : is_u64 (stat_gaps_ g);
  v_duplicates : is_u64 (stat_duplicates_ g);
  v_delivered : is_u64 (stat_delivered_ g);
  v_retx : is_u64 (stat_retx_ g);
  v_heartbeats : is_u64 (stat_heartbeats_ g);
  v_overflows : is_u64 (stat_buffer_overflows_ g)
}.

(** Every member in the range of its type. *)
Definition typed (g : t) : Prop := mem_inv g /\ vals g.

Definition event_typed (ev : event) : Prop :=
  match ev with
  | OnMessage m =>
      is_u16 (MoldMessage.length m) /\ MoldMessage.length m <= blen (MoldMessage.body m) /\
      is_u64 (MoldMessage.seq_num m) /\ is_u64 (MoldMessage.recv_ns m)
  | OnGap e => is_u64 (first_missing_seq e) /\ is_u64 (last_missing_seq e) /\ is_u64 (detected_at_ns e)
  | OnRetransmitRequest r =>
      length (RetransmitRequest.session r) = 10%nat /\
      is_u64 (RetransmitRequest.first_seq r) /\ is_u16 (RetransmitRequest.count r)
  end.

(** Both halves, after an update that touches no array. *)
Ltac retype :=
  match goal with
  | H : typed ?g |- typed _ =>
      let M := fresh in let V := fresh in
      destruct H as [M V]; split; [destruct M; split; cbn; auto with feed
                                  | destruct V; split; cbn; auto with feed]
  end.

Lemma slot_slot_vals g s : mem_inv g -> vals g -> slot_vals (slot g s).
Proof.
  intros Hi Hv. unfold slot. destruct (slots_ g !! slot_idx s) as [x|] eqn:E; simpl.
  - apply (Forall_lookup_1 _ _ _ _ (v_slots g Hv) E).
  - apply lookup_ge_None in E. rewrite (mi_slots g Hi) in E. pose proof (slot_idx_lt s). lia.
Qed.

Lemma put_slot_typed g seq s : typed g -> slot_mem s -> slot_vals s -> typed (put_slot g seq s).
Proof.
  intros [Hi Hv] Hm Hs. split; [by apply mem_inv_put_slot|].
  destruct Hv. split; cbn; auto. by apply Forall_insert.
Qed.

(** ** The parts *)

Lemma deliver_loop_typed n g payload cursor end_ seq recv count g' evs c s :
  deliver_loop n g payload cursor end_ seq recv count = Ok (g', evs, c, s) ->
  0 <= cursor -> end_ <= blen payload -> is_u64 seq -> is_u64 recv -> vals g ->
  vals g' /\ Forall event_typed evs /\ c <= count + Z.of_nat n.
Proof.
  revert g cursor seq count evs c. induction n as [|n IH]; intros g cursor seq count evs c E Hc He Hs Hr Hv.
  { injection E as <- <- <- <-. split; [done|]. split; [done | lia]. }
  cbn [deliver_loop] in E. destruct (Z.leb_spec (cursor + 2) end_).
  2:{ injection E as <- <- <- <-. split; [done|]. split; [done | lia]. }
  rewrite be16_Ok, bind_Ok in E by lia. pose proof (be_val_2_range payload cursor) as Hl.
  set (l := be_val _) in *. cbv zeta in E. specialize (Hl Hc ltac:(lia)). unfold is_u16 in Hl.
  destruct (Z.ltb_spec end_ (cursor + 2 + l)).
  { injection E as <- <- <- <-. split; [done|]. split; [done | lia]. }
  destruct (next_expected_ g <=? seq).
  - destruct (deliver_loop n (inc_delivered g) _ _ _ _ _ _) as [[[[g1 e1] c1] s1]|] eqn:E1; [|done].
    rewrite bind_Ok in E. injection E as <- <- <- <-.
    destruct (IH _ _ _ _ _ _ E1) as (V & F & B); try done; try lia.
    + apply u64_range.
    + destruct Hv. split; cbn; auto with feed.
    + split; [done|]. split; [|lia]. apply Forall_app. split; [|done].
      destruct (on_message_ g); [|done]. apply Forall_singleton. cbn.
      rewrite length_drop. repeat split; first [done | width].
  - destruct (IH _ _ _ _ _ _ E) as (V & F & B); try done; try lia; [apply u64_range|].
    split; [done|]. split; [done | lia].
Qed.

Definition hdr_typed (hdr : MoldHeader.t) : Prop :=
  is_u64 (MoldHeader.seq_num hdr) /\ is_u16 (MoldHeader.msg_count hdr).

Lemma deliver_packet_typed g hdr payload len recv :
  typed g -> len <= blen payload -> hdr_typed hdr -> is_u64 recv ->
  exists g' evs c, deliver_packet g hdr payload len recv = Ok (g', evs, c) /\
    typed g' /\ Forall event_typed evs /\ 0 <= c < 2 ^ 16 /\ slots_ g' = slots_ g.
Proof.
  intros [Hi Hv] Hl [Hq Hn] Hr.
  destruct (deliver_packet_safe g hdr payload len recv Hi Hl Hq) as (g' & evs & c & E & Hi' & Hs & Hc).
  exists g', evs, c. split; [done|]. unfold deliver_packet in E.
  destruct (deliver_loop _ _ _ _ _ _ _ _) as [[[[g1 e1] c1] s1]|] eqn:E1; [|done].
  rewrite bind_Ok in E. injection E as <- <- <-.
  destruct (deliver_loop_typed _ _ _ _ _ _ _ _ _ _ _ _ E1) as (V & F & B); try done.
  split; [|split; [done|]; split; [|done]; width].
  split; [done|]. destruct (_ <? _); [|done]. destruct V. by split.
Qed.

Lemma rebuild_hdr g sl hdr buf :
  rebuild g sl = Ok (hdr, buf) ->
  hdr = MoldHeader.mk (session_ g) (BufferedPacket.seq_num sl) (BufferedPacket.msg_count sl).
Proof.
  unfold rebuild. destruct (MoldHeader.serialise _ _) as [b|]; [|done]. rewrite bind_Ok.
  destruct (mem_read _ _ _) as [d|]; [|done]. rewrite bind_Ok. by intros [= <- _].
Qed.

Lemma flush_loop_typed fuel g count g' evs c :
  flush_loop fuel g count = Ok (g', evs, c) -> typed g ->
  typed g' /\ Forall event_typed evs /\ c <= count + Z.of_nat fuel * 65535.
Proof.
  revert g count evs c. induction fuel as [|fuel IH]; intros g count evs c E Hg; [done|].
  rewrite flush_loop_step in E. destruct (ready_dec g) as [[_ Hd]|[_ Hd]]; rewrite Hd in E.
  2:{ injection E as <- <- <-. split; [done|]. split; [done | lia]. }
  unfold flush_turn in E. destruct Hg as [Hi Hv].
  pose proof (slot_slot_mem g (next_expected_ g) Hi) as Hm.
  pose proof (slot_slot_vals g (next_expected_ g) Hi Hv) as [Hs1 Hs2].
  destruct (rebuild_safe g (slot g (next_expected_ g)) Hi Hm) as (hdr & buf & Er & Hb & Hq).
  rewrite Er, bind_Ok in E. pose proof (rebuild_hdr _ _ _ _ Er) as Eh.
  destruct (deliver_packet_typed g hdr buf (kMoldHeaderSize + BufferedPacket.data_len (slot g (next_expected_ g)))
    (BufferedPacket.recv_ns (slot g (next_expected_ g)))) as (g1 & e1 & c1 & E1 & T1 & F1 & B1 & S1);
    [by split | lia | | done |].
  { split; [rewrite Hq; apply Hm | by rewrite Eh]. }
  rewrite E1, !bind_Ok in E.
  destruct (flush_loop fuel _ _) as [[[g3 e3] c3]|] eqn:E3; [|done].
  rewrite bind_Ok in E. injection E as <- <- <-.
  destruct (IH _ _ _ _ E3) as (T3 & F3 & B3).
  { rewrite (slot_frame g g1) by done. apply put_slot_typed; [done | |].
    - destruct Hm. by split.
    - by split. }
  split; [done|]. split; [by apply Forall_app | lia].
Qed.

Lemma check_gap_timeout_typed g now g' evs :
  check_gap_timeout g now = Ok (g', evs) -> typed g -> is_u64 now ->
  typed g' /\ Forall event_typed evs.
Proof.
  unfold check_gap_timeout. intros E Hg Hn.
  destruct (gap_start_ g =? 0); [by injection E as <- <-|]. cbv zeta in E.
  destruct (_ && _); [by injection E as <- <-|].
  destruct (negb (on_retx_ g)); [by injection E as <- <-|].
  destruct (scan_missing _ _ _ _ _) as [k|]; [|done]. rewrite bind_Ok in E.
  destruct (k =? 0).
  - injection E as <- <-. split; [|done]. retype; width.
  - injection E as <- <-. split; [retype|]. apply Forall_singleton. cbn.
    destruct Hg as [[] _]. auto with feed.
Qed.

Lemma handle_gap_typed g seq now :
  typed g -> is_u64 now ->
  typed (handle_gap g seq now).1 /\ Forall event_typed (handle_gap g seq now).2.
Proof.
  intros Hg Hn. unfold handle_gap. destruct (gap_start_ g =? 0); [|done]. cbv zeta. cbn [fst snd].
  pose proof Hg as [[] _]. split.
  - retype; width.
  - destruct (on_gap_ _); [|done]. apply Forall_singleton. cbn. auto with feed.
Qed.

Lemma buffer_packet_typed g hdr payload len now :
  typed g -> kMoldHeaderSize <= len <= blen payload -> hdr_typed hdr -> is_u64 now ->
  exists g', buffer_packet g hdr payload len now = Ok g' /\ typed g'.
Proof.
  intros Hg Hl [Hq Hc] Hn. pose proof Hg as [Hi Hv].
  destruct (buffer_packet_safe g hdr payload len now Hi Hl Hq) as (g' & E & Hi').
  exists g'. split; [done|]. split; [done|]. unfold buffer_packet in E.
  destruct (_ && _); [injection E as <-; destruct Hv; split; cbn; auto with feed|].
  cbv zeta in E. destruct (mem_read _ _ _) as [src|]; [|done]. rewrite bind_Ok in E.
  destruct (mem_write _ _ _) as [data|]; [|done]. rewrite bind_Ok in E. injection E as <-.
  destruct Hv. split; cbn; auto. apply Forall_insert; [done|]. by split.
Qed.

(** ** The entry points *)

(** The value [ingest] returns is an [int]. *)
Definition is_int (r : Z) : Prop := - 2 ^ 31 <= r < 2 ^ 31.

Lemma ingest_synced_typed g hdr payload len now :
  typed g -> kMoldHeaderSize <= len <= blen payload -> hdr_typed hdr -> is_u64 now ->
  forall g' evs r, ingest_synced g hdr payload len now = Ok (g', evs, r) ->
  typed g' /\ Forall event_typed evs /\ is_int r.
Proof.
  intros Hg Hl Hh Hn g' evs r. unfold ingest_synced, is_int.
  destruct (MoldHeader.is_heartbeat hdr).
  { destruct (check_gap_timeout _ now) as [[g1 e1]|] eqn:E1; [|done]. rewrite bind_Ok. intros [= <- <- <-].
    destruct (check_gap_timeout_typed _ _ _ _ E1) as [T F]; [retype | done|]. split; [done | split; [done | lia]]. }
  set (g0 := add_messages _ _). assert (H0 : typed g0) by retype.
  cbv zeta. destruct (_ <? next_expected_ g0).
  { intros [= <- <- <-]. split; [retype|]. split; [done | lia]. }
  destruct (next_expected_ g0 <? _).
  - destruct (handle_gap_typed g0 (MoldHeader.seq_num hdr) now H0 Hn) as [T1 F1].
    destruct (handle_gap g0 _ now) as [g1 e1]. cbn [fst snd] in *.
    destruct (buffer_packet_typed g1 hdr payload len now T1 Hl Hh Hn) as (g2 & -> & T2). rewrite bind_Ok.
    destruct (check_gap_timeout g2 now) as [[g3 e3]|] eqn:E3; [|done]. rewrite bind_Ok. intros [= <- <- <-].
    destruct (check_gap_timeout_typed _ _ _ _ E3) as [T3 F3]; [done | done|].
    split; [done|]. split; [by apply Forall_app | lia].
  - destruct (deliver_packet_typed g0 hdr payload len now H0) as (g1 & e1 & c1 & -> & T1 & F1 & B1 & _);
      [lia | done | done |]. rewrite bind_Ok.
    destruct (flush_buffer g1) as [[[g2 e2] c2]|] eqn:E2; [|done]. rewrite bind_Ok. intros [= <- <- <-].
    destruct (flush_buffer_safe g1 (proj1 T1)) as (? & ? & ? & E2' & _ & Hc2).
    rewrite E2 in E2'. injection E2' as <- <- <-.
    destruct (flush_loop_typed _ _ _ _ _ _ E2 T1) as (T2 & F2 & B2).
    rewrite Nat2Z.inj_succ, Z2Nat.id in B2 by done. unfold kCapacity in B2.
    split; [unfold clear_gap; destruct (_ && _); [retype; width | done]|].
    split; [by apply Forall_app | lia].
Qed.

(** Type preservation: on any bytes whatever, [ingest] and [tick] take an object
    whose members are in the range of their C++ types, arrays included, to such an
    object; all they hand to the callbacks is in range (a message no longer than
    the memory behind it, a request of a 16-bit count), and the [int] sum
    [delivered + flushed] cannot overflow. *)
Theorem gap_buffer_preserves_types (g : t) (payload : list byte) (len now : Z) :
  typed g -> len <= blen payload -> is_u64 now ->
  (exists g' evs r,
     ingest g payload len now = Ok (g', evs, r) /\ typed g' /\ Forall event_typed evs /\ is_int r) /\
  (exists g' evs, tick g now = Ok (g', evs) /\ typed g' /\ Forall event_typed evs).
Proof.
  intros Hg Hl Hn. pose proof Hg as [Hi Hv]. split.
  - destruct (ingest_safe g payload len now Hi Hl) as (g' & evs & r & E & _ & _).
    exists g', evs, r. split; [done|]. destruct (Z.lt_ge_cases len kMoldHeaderSize).
    { rewrite ingest_short in E by done. injection E as <- <- <-. split; [done|]. split; [done|].
      unfold is_int. lia. }
    rewrite ingest_long in E by done. destruct (header_wf payload) as (Hs & Hq & Hc); [lia|].
    eapply ingest_synced_typed; [| | | |exact E]; try done.
    unfold sync_session. destruct (_ && _); [|done]. retype.
  - destruct (check_gap_timeout_safe g now Hi) as (g' & evs & E & _).
    exists g', evs. split; [done|]. by eapply check_gap_timeout_typed.
Qed.

Lemma listening_typed c m a r : length (cfg_session c) = 10%nat -> typed (listening c m a r).
Proof.
  intros Hc. split; [by apply listening_mem_inv|].
  split; cbn; try (by split); try (apply Forall_replicate; by split).
Qed.

Lemma gap_buffer_preserves_types_witness :
  let g := listening test_config true true true in
  let p := replicate 64 Corelib.Init.Byte.xff in
  (exists g' evs r,
     ingest g p 64 5 = Ok (g', evs, r) /\ typed g' /\ Forall event_typed evs /\ is_int r) /\
  (exists g' evs, tick g 5 = Ok (g', evs) /\ typed g' /\ Forall event_typed evs).
Proof.
  intros g p. apply gap_buffer_preserves_types; [by apply listening_typed | reflexivity | by vm_compute].
Defined.
