(* ===== verification/GapComplete.v ===== *)
(** * GapComplete: arrival order does not matter

    If every packet of a window of the stream arrives at least once, in any
    order and with any repetitions, everything is delivered.  This is the fact
    the A/B arbitration relies on. *)

From stdpp Require Import base gmap list strings fin_maps.
From Stdlib Require Import ZArith Lia.
From S2P Require Import Prelude WireFormat WireLemmas GapBuf GapWalk Framing.
From S2P Require Import GapInv GapStep GapRun GapProps.

#[local] Open Scope Z_scope.
Import GapBuffer.

(** The publisher cuts messages [n0], ..., [N - 1] into packets: [start f] says
    that a packet begins at [f], and [cnt f] is its number of messages. *)
Record packetization (n0 N : Z) (start : Z -> Prop) (cnt : Z -> Z) : Prop := {
  pz_first : start n0;
  pz_range : forall f, start f -> n0 <= f /\ 0 < cnt f < 2 ^ 16 /\ f + cnt f <= N;
  pz_next : forall f, start f -> f + cnt f = N \/ start (f + cnt f);
  pz_disjoint : forall f f', start f -> start f' -> f < f' -> f + cnt f <= f'
}.

(** A datagram is one of these packets, complete and of a size a slot holds. *)
Definition whole_packet (start : Z -> Prop) (cnt : Z -> Z) (payload : list byte) (len : Z) : Prop :=
  kMoldHeaderSize <= len <= kMoldHeaderSize + kMaxPacketBytes /\ len <= blen payload /\
  start (MoldHeader.seq_num (header payload)) /\
  MoldHeader.msg_count (header payload) = cnt (MoldHeader.seq_num (header payload)) /\
  blen (packet_messages payload len) = cnt (MoldHeader.seq_num (header payload)).

Definition whole_input (start : Z -> Prop) (cnt : Z -> Z) (i : input) : Prop :=
  match i with Datagram payload len _ => whole_packet start cnt payload len | Tick _ => True end.

(** A packet beginning at [f] is among the inputs. *)
Definition received (ins : list input) (f : Z) : Prop :=
  exists payload len now,
    Datagram payload len now ∈ ins /\ MoldHeader.seq_num (header payload) = f.

Section Complete.
Context (n0 N : Z) (start : Z -> Prop) (cnt : Z -> Z).
Context (PZ : packetization n0 N start cnt).
Context (Hn0 : 0 <= n0) (HN : N < 2 ^ 64) (Hwin : N - n0 <= kCapacity).

Local Abbreviation any := (fun (_ : Z) (_ : list byte) (_ : Z) => True).
Local Abbreviation inv := (inv any).

(** The ring holds only whole packets that are still ahead. *)
Record ring (g : t) : Prop := {
  rg_inv : inv g;
  rg_synced : session_synced_ g = true;
  rg_next : n0 <= next_expected_ g /\ (next_expected_ g = N \/ start (next_expected_ g));
  rg_slot : forall i s, slots_ g !! i = Some s -> BufferedPacket.occupied s = true ->
    start (BufferedPacket.seq_num s) /\ next_expected_ g <= BufferedPacket.seq_num s /\
    blen (bodies (Z.to_nat (BufferedPacket.msg_count s)) (BufferedPacket.data s) 0
            (BufferedPacket.data_len s)) = cnt (BufferedPacket.seq_num s)
}.

(** Everything received is delivered or waits in its slot. *)
Definition covers (R : Z -> Prop) (g : t) : Prop :=
  forall f, R f -> start f /\ (f < next_expected_ g \/ present g f = true).

Lemma start_window f f' : start f -> start f' -> slot_idx f = slot_idx f' -> f = f'.
Proof using PZ Hn0 HN Hwin.
  intros H H' He. destruct (pz_range _ _ _ _ PZ f H) as (? & ? & ?).
  destruct (pz_range _ _ _ _ PZ f' H') as (? & ? & ?).
  apply slot_idx_inj; [lia..|done].
Qed.

Lemma present_occupied g f :
  present g f = true ->
  BufferedPacket.occupied (slot g f) = true /\ BufferedPacket.seq_num (slot g f) = f.
Proof. unfold present. by rewrite andb_true_iff, Z.eqb_eq. Qed.

Lemma present_put_slot_ne g seq s f :
  slot_idx f <> slot_idx seq -> present (put_slot g seq s) f = present g f.
Proof. intros Hne. unfold present. by rewrite slot_put_slot_ne. Qed.

(** Transfer along a change of the state outside the ring. *)
Lemma ring_frame g g' :
  ring g -> inv g' -> slots_ g' = slots_ g -> next_expected_ g' = next_expected_ g ->
  session_synced_ g' = true -> ring g'.
Proof.
  intros [] Hi Hs Hn Hy. split; rewrite ?Hs, ?Hn; done.
Qed.

Lemma covers_frame R g g' :
  covers R g -> slots_ g' = slots_ g -> next_expected_ g' = next_expected_ g -> covers R g'.
Proof.
  intros Hc Hs Hn f Hf. rewrite (present_slots g g'), Hn by done. by apply Hc.
Qed.

(** One flush turn moves past the packet at [next_expected_]. *)
Lemma flush_turn_ring R g :
  ring g -> covers R g -> ready g ->
  exists g' evs c, flush_turn g = Ok (g', evs, c) /\ ring g' /\ covers R g' /\
    occupied_slots g = S (occupied_slots g').
Proof using PZ Hn0 HN Hwin.
  intros [Hi Hy [Hlo Hnx] Hsl] Hc Hr. pose proof Hr as [Hocc Hseq].
  destruct (flush_turn_delivers any g Hi Hr) as (g' & evs & c & Ht & D & Hi' & Hs' & Hcnt).
  pose proof (slot_lookup any g (next_expected_ g) Hi) as Hlk.
  pose proof (inv_slots _ _ Hi) as Hlen. pose proof (slot_idx_lt (next_expected_ g)) as Hlt.
  set (sl := slot g (next_expected_ g)) in *.
  destruct (Hsl _ _ Hlk Hocc) as (Hst & _ & Hb). rewrite Hseq in Hst, Hb.
  rewrite Hb in Hcnt. destruct (pz_range _ _ _ _ PZ _ Hst) as (_ & Hpos & Hend).
  pose proof (dl_next _ _ _ _ _ D) as Hn'. rewrite Hcnt in Hn'.
  exists g', evs, c. split; [done|]. split; [|split].
  - split; [done | | |].
    + pose proof (dl_control _ _ _ _ _ D) as Hctl. unfold control in Hctl. congruence.
    + split; [lia|]. rewrite Hn'. apply (pz_next _ _ _ _ PZ), Hst.
    + intros i s Hs Ho. rewrite Hs' in Hs.
      destruct (decide (slot_idx (next_expected_ g) = i)) as [<-|Hne].
      { rewrite list_lookup_insert_eq in Hs by lia. by injection Hs as <-. }
      rewrite list_lookup_insert_ne in Hs by done.
      destruct (Hsl _ _ Hs Ho) as (Hst' & Hle & Hb'). split; [done|]. split; [|done].
      destruct (decide (BufferedPacket.seq_num s = next_expected_ g)) as [E|E].
      { exfalso. apply Hne. rewrite <-E.
        by apply (so_occupied _ _ _ (inv_slot_ok _ _ Hi _ _ Hs)). }
      rewrite Hn'. apply (pz_disjoint _ _ _ _ PZ); [done | done | lia].
  - intros f Hf. destruct (Hc f Hf) as [Hsf Hor]. split; [done|].
    destruct Hor as [Hlt'|Hpr]; [left; lia|].
    destruct (decide (f = next_expected_ g)) as [->|Hne]; [left; lia|]. right.
    rewrite <-Hpr. unfold present, slot. rewrite Hs', list_lookup_insert_ne; [done|].
    intros He. by apply Hne, start_window.
  - rewrite (flush_turn_occupied any g sl Hi Hr eq_refl). unfold occupied_slots. by rewrite Hs'.
Qed.

Lemma flush_loop_ring fuel R g count :
  ring g -> covers R g -> (occupied_slots g < fuel)%nat ->
  exists g' evs c, flush_loop fuel g count = Ok (g', evs, c) /\ ring g' /\ covers R g'.
Proof using PZ Hn0 HN Hwin.
  revert g count. induction fuel as [|fuel IH]; intros g count Hg Hc Hf; [lia|].
  rewrite flush_loop_step. destruct (ready_dec g) as [[Hr ->]|[Hr ->]].
  - destruct (flush_turn_ring R g Hg Hc Hr) as (g1 & e1 & c1 & -> & Hg1 & Hc1 & Ho).
    rewrite bind_Ok. destruct (IH g1 (count + c1) Hg1 Hc1) as (g2 & e2 & c2 & -> & Hg2 & Hc2); [lia|].
    rewrite bind_Ok. by eexists g2, _, c2.
  - by exists g, [], count.
Qed.

(** *** One whole packet *)

Lemma any_packet_src hdr payload len now : packet_src any hdr payload len now.
Proof. by intros i b _. Qed.

Lemma whole_header payload len :
  whole_packet start cnt payload len ->
  let hdr := header payload in
  MoldHeader.wf hdr /\ no_wrap hdr /\ MoldHeader.is_heartbeat hdr = false /\
  u64 (MoldHeader.seq_num hdr + MoldHeader.msg_count hdr - 1)
    = MoldHeader.seq_num hdr + cnt (MoldHeader.seq_num hdr) - 1.
Proof using PZ Hn0 HN.
  intros (Hlen & Hb & Hst & Hc & _) hdr.
  fold hdr in Hst, Hc. destruct (pz_range _ _ _ _ PZ _ Hst) as (? & ? & ?).
  assert (MoldHeader.wf hdr) as Hwf by (apply header_wf; lia).
  split; [done|]. unfold no_wrap, MoldHeader.is_heartbeat. rewrite Hc.
  split; [lia|]. split; [apply Z.eqb_neq; lia|]. rewrite u64_small; [done|]. width.
Qed.

(** A packet at [next_expected_] is delivered whole. *)
Lemma deliver_ring R g payload len now :
  ring g -> ~ ready g -> covers R g -> whole_packet start cnt payload len ->
  let hdr := header payload in
  MoldHeader.seq_num hdr = next_expected_ g ->
  exists g' evs c, deliver_packet g hdr payload len now = Ok (g', evs, c) /\
    ring g' /\ covers (fun f => f = MoldHeader.seq_num hdr \/ R f) g'.
Proof using PZ Hn0 HN.
  intros [Hi Hy [Hlo Hnx] Hsl] Hq Hc Hw hdr Hseq.
  destruct (whole_header _ _ Hw) as (Hwf & Hnw & _ & _). fold hdr in Hwf, Hnw.
  pose proof Hw as (Hlen & Hb & Hst & Hcn & Hbd). fold hdr in Hst, Hcn, Hbd.
  destruct (deliver_delivers any g hdr payload len now Hi Hwf Hnw Hb)
    as (g' & evs & c & He & D & Hi' & Hs' & Hn'); [lia | by apply any_packet_src |].
  rewrite <-length_bodies in Hn'. fold (packet_messages payload len) in Hbd.
  unfold packet_messages in Hbd. fold hdr in Hbd. rewrite Hbd, Hseq in Hn'. rewrite Hseq in Hst.
  destruct (pz_range _ _ _ _ PZ _ Hst) as (_ & Hpos & Hend).
  rewrite Z.max_r in Hn' by lia.
  exists g', evs, c. split; [done|]. split.
  - split; [done | | |].
    + pose proof (dl_control _ _ _ _ _ D) as Hctl. unfold control in Hctl. congruence.
    + split; [lia|]. rewrite Hn'. apply (pz_next _ _ _ _ PZ), Hst.
    + intros i s Hs Ho. rewrite Hs' in Hs. destruct (Hsl i s Hs Ho) as (Hst' & Hle & Hb').
      split; [done|]. split; [|done]. rewrite Hn'. apply (pz_disjoint _ _ _ _ PZ); [done..|].
      assert (BufferedPacket.seq_num s <> next_expected_ g) as Hne; [|lia]. intros E. apply Hq.
      destruct (so_occupied _ _ _ (inv_slot_ok _ _ Hi _ _ Hs) Ho) as (Hix & _).
      unfold ready, slot. rewrite <-E, Hix, Hs. done.
  - intros f [->|Hf].
    + rewrite Hseq. split; [done|]. left. lia.
    + destruct (Hc f Hf) as [Hsf [Hlt|Hpr]]; (split; [done|]); [left; lia | right].
      by rewrite (present_slots g).
Qed.

(** A packet ahead of [next_expected_] is stored whole. *)
Lemma buffer_ring R g payload len now :
  ring g -> ~ ready g -> covers R g -> whole_packet start cnt payload len ->
  let hdr := header payload in
  next_expected_ g < MoldHeader.seq_num hdr ->
  exists g', buffer_packet g hdr payload len now = Ok g' /\
    ring g' /\ covers (fun f => f = MoldHeader.seq_num hdr \/ R f) g'.
Proof using PZ Hn0 HN Hwin.
  intros [Hi Hy [Hlo Hnx] Hsl] Hq Hc Hw hdr Hgt.
  destruct (whole_header _ _ Hw) as (Hwf & Hnw & _ & _). fold hdr in Hwf, Hnw.
  pose proof Hw as (Hlen & Hb & Hst & Hcn & Hbd). fold hdr in Hst, Hcn, Hbd.
  set (q := MoldHeader.seq_num hdr) in *.
  assert (Hcol : collides g q = false).
  { unfold collides. destruct (BufferedPacket.occupied (slot g q)) eqn:Ho; [|done]. simpl.
    pose proof (slot_lookup any g q Hi) as Hlk. destruct (Hsl _ _ Hlk Ho) as (Hst' & _).
    destruct (so_occupied _ _ _ (inv_slot_ok _ _ Hi _ _ Hlk) Ho) as (Hix & _).
    apply negb_false_iff, Z.eqb_eq. by apply start_window. }
  pose proof (stored_ok any g hdr payload len now Hi Hwf Hnw ltac:(lia)
                (any_packet_src hdr payload len now)) as Hok. fold q in Hok.
  rewrite (buffer_packet_eq any) by (done || lia). fold q. rewrite Hcol.
  set (s0 := stored g hdr payload len now) in *.
  assert (Hs0 : blen (bodies (Z.to_nat (BufferedPacket.msg_count s0)) (BufferedPacket.data s0) 0
                  (BufferedPacket.data_len s0)) = cnt q).
  { rewrite <-Hbd. unfold packet_messages. fold hdr. do 2 f_equal.
    apply (stored_bodies any); [done | lia | lia]. }
  eexists. split; [done|]. split.
  - split; cbn; [by apply inv_put_slot | done | done |].
    intros i s Hs Ho. destruct (decide (slot_idx q = i)) as [<-|Hne].
    + rewrite list_lookup_insert_eq in Hs
        by (rewrite (inv_slots _ _ Hi); apply slot_idx_lt).
      injection Hs as <-. split; [done|]. split; [change (next_expected_ g <= q); lia | exact Hs0].
    + rewrite list_lookup_insert_ne in Hs by done. by apply (Hsl i s).
  - intros f Hf. destruct (decide (f = q)) as [->|Hne].
    + split; [done|]. right. unfold present. rewrite (slot_put_slot_eq any) by done.
      simpl. by rewrite Z.eqb_refl.
    + destruct Hf as [?|Hf]; [done|]. destruct (Hc f Hf) as [Hsf Hor]. split; [done|].
      rewrite present_put_slot_ne; [done|]. intros He. by apply Hne, start_window.
Qed.

(** *** One input *)

Definition quiet_ring (R : Z -> Prop) (g : t) : Prop :=
  ring g /\ settled g /\ covers R g.

Lemma counters_ring g g' R :
  slots_ g' = slots_ g -> session_ g' = session_ g -> next_expected_ g' = next_expected_ g ->
  gap_start_ g' = gap_start_ g -> stat_delivered_ g' = stat_delivered_ g ->
  session_synced_ g' = session_synced_ g -> quiet_ring R g -> quiet_ring R g'.
Proof.
  intros Hs Hse Hn Hg Hst Hy (Hr & Hset & Hc).
  destruct (inv_counters any g g') as [Hi' Hs']; [done..| by split; [apply rg_inv|]|].
  split; [|split; [done | by eapply covers_frame]].
  eapply ring_frame; try done. rewrite Hy. apply (rg_synced _ Hr).
Qed.

Lemma timer_ring R g now :
  quiet_ring R g ->
  exists g' evs, check_gap_timeout g now = Ok (g', evs) /\ quiet_ring R g'.
Proof.
  intros (Hr & Hset & Hc). pose proof (rg_inv _ Hr) as Hi.
  destruct (timer_step any g now Hi Hset) as (g' & evs & -> & Ht & Hf).
  exists g', evs. split; [done|].
  pose proof (tf_slots _ _ _ Ht) as Ts. pose proof (tf_next _ _ _ Ht) as Tn.
  split; [|split; [apply (fo_settled _ _ _ _ _ Hf) | by eapply covers_frame]].
  eapply ring_frame; try done; [apply (fo_inv _ _ _ _ _ Hf)|].
  rewrite (tf_synced _ _ _ Ht). apply (rg_synced _ Hr).
Qed.

Lemma in_order_ring R g payload len now :
  quiet_ring R g -> whole_packet start cnt payload len ->
  let q := MoldHeader.seq_num (header payload) in
  q <= next_expected_ g <= q + cnt q - 1 ->
  exists g' evs r,
    ('(g1, e1, c1) ← deliver_packet g (header payload) payload len now;
     '(g2, e2, c2) ← flush_buffer g1;
     mret (clear_gap g2, e1 ++ e2, c1 + c2)) = Ok (g', evs, r) /\
    quiet_ring (fun f => f = q \/ R f) g'.
Proof using PZ Hn0 HN Hwin.
  intros (Hr & Hs & Hc) Hw q [Hle Hd].
  destruct (whole_header _ _ Hw) as (Hwf & Hnw & _ & _). pose proof Hw as (Hlen & Hb & Hst & _).
  fold q in Hst. destruct (pz_range _ _ _ _ PZ _ Hst) as (_ & Hpos & Hend).
  assert (Hqe : q = next_expected_ g).
  { destruct (rg_next _ Hr) as [_ [HnN|Hns]]; [lia|].
    destruct (decide (q = next_expected_ g)); [done|].
    pose proof (pz_disjoint _ _ _ _ PZ _ _ Hst Hns). lia. }
  destruct (deliver_ring R g payload len now Hr (st_quiet _ Hs) Hc Hw Hqe)
    as (g1 & e1 & c1 & E1 & Hr1 & Hc1). fold q in Hc1.
  destruct (ingest_deliver any g (header payload) payload len now)
    as (g1' & e1' & c1' & g2 & e2 & c2 & E1' & E2 & _ & Hi2 & Hs2); try done;
    [apply (rg_inv _ Hr) | apply (rg_synced _ Hr) |].
  rewrite E1 in E1'. injection E1' as <- <- <-.
  destruct (flush_loop_ring (S (Z.to_nat kCapacity)) _ g1 0 Hr1 Hc1) as (g2' & e2' & c2' & E2' & Hr2 & Hc2).
  { pose proof (occupied_slots_bound any g1 (rg_inv _ Hr1)). lia. }
  unfold flush_buffer in E2. rewrite E2 in E2'. injection E2' as <- <- <-.
  unfold flush_buffer. rewrite E1, bind_Ok, E2, bind_Ok. eexists _, _, _. split; [done|].
  destruct (clear_gap_frame g2) as (N3 & _ & Y3 & _).
  assert (S3 : slots_ (clear_gap g2) = slots_ g2) by (unfold clear_gap; by destruct (_ && _)).
  split; [|split; [done | by eapply covers_frame]].
  eapply ring_frame; try done. rewrite Y3. apply (rg_synced _ Hr2).
Qed.

Lemma synced_ring R g payload len now :
  quiet_ring R g -> whole_packet start cnt payload len ->
  exists g' evs r, ingest_synced g (header payload) payload len now = Ok (g', evs, r) /\
    quiet_ring (fun f => f = MoldHeader.seq_num (header payload) \/ R f) g'.
Proof using PZ Hn0 HN Hwin.
  intros Hq Hw. destruct (whole_header _ _ Hw) as (_ & _ & Hh & Hlast).
  pose proof Hw as (Hlen & Hb & Hst & _). set (q := MoldHeader.seq_num (header payload)) in *.
  unfold ingest_synced. fold q. rewrite Hh, Hlast. set (g0 := add_messages _ _). cbv zeta.
  assert (Hq0 : quiet_ring R g0) by (by apply (counters_ring g)).
  destruct (pz_range _ _ _ _ PZ _ Hst) as (_ & Hpos & Hend).
  destruct Hq0 as (Hr0 & Hs0 & Hc0).
  destruct (Z.ltb_spec (q + cnt q - 1) (next_expected_ g0)) as [Hd|Hd].
  - eexists _, _, 0. split; [done|].
    apply (counters_ring g0); [done..|]. split; [done|]. split; [done|].
    intros f [->|Hf]; [|by apply Hc0]. split; [done | left; lia].
  - destruct (Z.ltb_spec (next_expected_ g0) q) as [Hgt|Hle].
    + destruct (handle_gap g0 q now) as [g1 e1] eqn:E1.
      destruct (handle_gap_inv any g0 _ _ _ _ (rg_inv _ Hr0) Hs0 (rg_synced _ Hr0) E1)
        as (Hi1 & Hs1 & S1 & N1 & Y1 & _ & _ & _ & G1).
      assert (Hr1 : ring g1) by (by eapply ring_frame).
      assert (Hc1 : covers R g1) by (by eapply covers_frame).
      destruct (buffer_ring R g1 payload len now Hr1 (st_quiet _ Hs1) Hc1 Hw)
        as (g2 & E2 & Hr2 & Hc2); [fold q; lia|]. rewrite E2, bind_Ok.
      destruct (whole_header _ _ Hw) as (Hwf & Hnw & _ & _).
      destruct (buffer_packet_inv any g1 (header payload) payload len now)
        as (g2' & E2' & Hi2 & R2 & N2 & G2 & Y2 & _); try done.
      { lia. } { apply (st_quiet _ Hs1). } { fold q. lia. }
      rewrite E2 in E2'. injection E2' as <-.
      assert (Hs2 : settled g2).
      { split; [done | | by rewrite Y2, Y1]. rewrite G2, N2, G1, N1. done. }
      destruct (timer_ring _ g2 now (conj Hr2 (conj Hs2 Hc2))) as (g3 & e3 & -> & Hq3).
      rewrite bind_Ok. by eexists g3, _, 0.
    + by apply (in_order_ring R g0).
Qed.

(** *** Runs *)

Lemma quiet_ring_ext R R' g : (forall f, R' f -> R f) -> quiet_ring R g -> quiet_ring R' g.
Proof. intros Hsub (Hr & Hs & Hc). split; [done|]. split; [done|]. intros f Hf. auto. Qed.

Lemma sync_synced g hdr : session_synced_ g = true -> sync_session g hdr = g.
Proof. intros Hy. unfold sync_session. by rewrite Hy, andb_false_r. Qed.

Lemma run_ring R g ins :
  quiet_ring R g -> Forall (whole_input start cnt) ins ->
  exists g' evs, run g ins = Ok (g', evs) /\
    quiet_ring (fun f => R f \/ received ins f) g'.
Proof using PZ Hn0 HN Hwin.
  intros Hq Hins. revert R g Hq. induction Hins as [|i ins Hi _ IH]; intros R g Hq.
  { exists g, []. split; [done|]. eapply quiet_ring_ext; [|exact Hq].
    intros f [?|(? & ? & ? & Hin & _)]; [done|]. by apply elem_of_nil in Hin. }
  destruct i as [payload len now|now]; cbn [run apply_input].
  - pose proof Hi as (Hlen & Hb & _).
    rewrite ingest_long, sync_synced by (try lia; apply (rg_synced _ (proj1 Hq))).
    destruct (synced_ring R g payload len now Hq Hi) as (g1 & e1 & r & -> & Hq1).
    rewrite !bind_Ok. destruct (IH _ g1 Hq1) as (g2 & e2 & -> & Hq2).
    rewrite bind_Ok. eexists g2, _. split; [done|]. eapply quiet_ring_ext; [|exact Hq2].
    intros f [Hf|(p & l & t & Hin & Hf)]; [left; by right|].
    apply elem_of_cons in Hin as [[= -> -> ->]|Hin]; [left; by left|].
    right. by exists p, l, t.
  - unfold tick. destruct (timer_ring R g now Hq) as (g1 & e1 & -> & Hq1).
    rewrite bind_Ok. destruct (IH _ g1 Hq1) as (g2 & e2 & -> & Hq2).
    rewrite bind_Ok. eexists g2, _. split; [done|]. eapply quiet_ring_ext; [|exact Hq2].
    intros f [Hf|(p & l & t & Hin & Hf)]; [by left|].
    apply elem_of_cons in Hin as [[=]|Hin]. right. by exists p, l, t.
Qed.

(** When every packet was received, delivery has reached the end. *)
Lemma all_received R g :
  quiet_ring R g -> (forall f, start f -> R f) -> next_expected_ g = N.
Proof.
  intros (Hr & Hs & Hc) Hall. destruct (rg_next _ Hr) as [_ [?|Hst]]; [done|].
  destruct (Hc _ (Hall _ Hst)) as [_ [?|Hp]]; [lia|].
  exfalso. apply (st_quiet _ Hs). by apply ready_present.
Qed.

(** The first packet of a fresh session. *)
Lemma first_ring g payload len now :
  inv g -> settled g -> session_synced_ g = false ->
  whole_packet start cnt payload len -> MoldHeader.seq_num (header payload) = n0 ->
  exists g' evs r, ingest g payload len now = Ok (g', evs, r) /\
    quiet_ring (fun f => f = MoldHeader.seq_num (header payload)) g'.
Proof using PZ Hn0 HN Hwin.
  intros Hi Hs Hy Hw Hseq. pose proof Hw as (Hlen & Hb & _).
  rewrite ingest_long by lia. destruct (whole_header _ _ Hw) as (Hwf & _).
  destruct (sync_session_inv any g (header payload) Hi Hs Hwf) as (Hi1 & Hs1 & Y1 & N1 & _).
  rewrite Hy, Hseq in N1. set (g1 := sync_session g (header payload)) in *.
  destruct (synced_ring (fun _ => False) g1 payload len now) as (g2 & e2 & r & -> & Hq2); [|done|].
  - split; [|split; [done | by intros f]]. split; [done | done | |].
    + rewrite N1. split; [lia|]. right. apply (pz_first _ _ _ _ PZ).
    + intros i s Hlk Ho. exfalso.
      assert (Hs' : slots_ g1 = slots_ g) by (unfold g1, sync_session; by destruct (_ && _)).
      rewrite Hs' in Hlk. destruct (st_fresh _ Hs Hy) as (_ & _ & H0).
      apply nil_length_inv in H0. apply list_elem_of_lookup_2 in Hlk.
      assert (Hin : s ∈ filter (fun s => BufferedPacket.occupied s = true) (slots_ g))
        by (by apply list_elem_of_filter).
      rewrite H0 in Hin. by apply elem_of_nil in Hin.
  - exists g2, e2, r. split; [done|]. eapply quiet_ring_ext; [|exact Hq2].
    intros f ->. by left.
Qed.

Lemma run_first g ins :
  inv g -> settled g -> session_synced_ g = false -> gap_start_ g = 0 ->
  Forall (whole_input start cnt) ins -> session_start g ins = n0 ->
  (exists f, received ins f) ->
  exists g' evs, run g ins = Ok (g', evs) /\ quiet_ring (received ins) g'.
Proof using PZ Hn0 HN Hwin.
  intros Hi Hs Hy Hg Hins. induction Hins as [|i ins Hw Hins IH]; intros Hstart Hex.
  { destruct Hex as (? & ? & ? & ? & Hin & _). by apply elem_of_nil in Hin. }
  cbn [session_start] in Hstart. rewrite Hy in Hstart.
  destruct i as [payload len now|now]; cbn [run apply_input].
  - pose proof Hw as (Hlen & _). rewrite (proj2 (Z.ltb_ge _ _)) in Hstart by lia.
    destruct (first_ring g payload len now Hi Hs Hy Hw Hstart) as (g1 & e1 & r & -> & Hq1).
    rewrite !bind_Ok. destruct (run_ring _ g1 ins Hq1 Hins) as (g2 & e2 & -> & Hq2).
    rewrite bind_Ok. eexists g2, _. split; [done|]. eapply quiet_ring_ext; [|exact Hq2].
    intros f (p & l & t & Hin & Hf). apply elem_of_cons in Hin as [[= -> -> ->]|Hin]; [by left|].
    right. by exists p, l, t.
  - unfold tick, check_gap_timeout. rewrite Hg. cbn [Z.eqb].
    unfold mret, res_ret. rewrite bind_Ok.
    destruct IH as (g2 & e2 & -> & Hq2); [done | |].
    + destruct Hex as (f & p & l & t & Hin & Hf).
      apply elem_of_cons in Hin as [[=]|Hin]. by exists f, p, l, t.
    + rewrite bind_Ok. eexists g2, _. split; [done|]. eapply quiet_ring_ext; [|exact Hq2].
      intros f (p & l & t & Hin & Hf). apply elem_of_cons in Hin as [[=]|Hin]. by exists p, l, t.
Qed.

End Complete.

(** Whole packets of the stream [S]. *)
Definition whole_carries (S : Z -> list byte) (start : Z -> Prop) (cnt : Z -> Z) (i : input) : Prop :=
  whole_input start cnt i /\ carries S i.

(** The run of a complete set of packets reaches the end of the window. *)
Lemma run_complete (S : Z -> list byte) (c : Config) (on_gap on_retx : bool)
    (n0 N : Z) (start : Z -> Prop) (cnt : Z -> Z) (ins : list input) :
  length (cfg_session c) = 10%nat ->
  packetization n0 N start cnt -> 0 <= n0 -> N < 2 ^ 64 -> N - n0 <= kCapacity ->
  Forall (whole_carries S start cnt) ins ->
  (forall f, start f -> received ins f) ->
  let g0 := listening c true on_gap on_retx in
  session_start g0 ins = n0 ->
  exists g evs,
    run g0 ins = Ok (g, evs) /\ next_expected_ g = N /\
    (fun m => (MoldMessage.seq_num m, msg_content m)) <$> messages evs
      = (fun k => (k, S k)) <$> seqZ n0 (N - n0).
Proof.
  intros Hc PZ Hn0 HN Hwin Hins Hall g0 Hstart.
  destruct (run_first n0 N start cnt PZ Hn0 HN Hwin g0 ins) as (g & evs & Hr & Hq).
  - by apply listening_inv.
  - by apply (listening_settled (fun _ _ _ => True)).
  - done.
  - done.
  - eapply Forall_impl; [exact Hins | by intros i []].
  - done.
  - exists n0. apply Hall, (pz_first _ _ _ _ PZ).
  - destruct (run_delivers S c on_gap on_retx ins) as (g' & evs' & Hr' & _ & Hm); [done| |].
    { eapply Forall_impl; [exact Hins | by intros i []]. }
    fold g0 in Hr', Hm. rewrite Hr in Hr'. injection Hr' as <- <-.
    exists g, evs. split; [done|].
    assert (next_expected_ g = N) as HgN by (by eapply all_received).
    split; [done|]. by rewrite Hm, Hstart, HgN.
Qed.

(** C3.  Completeness under loss-free but arbitrarily reordered and repeated arrival:
    if the publisher's packets of messages [n0 .. N-1] (a window of at most 4096)
    each arrive at least once, the one at [n0] first, then in whatever order and
    with whatever repetitions and ticks in between, the whole window is delivered:
    [next_expected_] reaches [N], and the consumer has seen exactly the messages
    [n0 .. N-1] of the stream, in order. *)
Theorem any_order_delivers_all (S : Z -> list byte) (c : Config) (on_gap on_retx : bool)
    (n0 N : Z) (start : Z -> Prop) (cnt : Z -> Z) (ins : list input) :
  length (cfg_session c) = 10%nat ->
  packetization n0 N start cnt -> 0 <= n0 -> N < 2 ^ 64 -> N - n0 <= kCapacity ->
  Forall (whole_carries S start cnt) ins ->
  (forall f, start f -> received ins f) ->
  let g0 := listening c true on_gap on_retx in
  session_start g0 ins = n0 ->
  exists g evs,
    run g0 ins = Ok (g, evs) /\ next_expected_ g = N /\
    (fun m => (MoldMessage.seq_num m, msg_content m)) <$> messages evs
      = (fun k => (k, S k)) <$> seqZ n0 (N - n0).
Proof. intros. by apply (run_complete S c on_gap on_retx n0 N start cnt). Qed.

(** Packets of [1], [2 3], [4] in the order [1], [4], [4], [2 3]. *)
Definition test_start (f : Z) : Prop := f = 1 \/ f = 2 \/ f = 4.
Definition test_cnt (f : Z) : Z := if f =? 2 then 2 else 1.
Definition test_reordered : list input :=
  [Tick 5; datagram 1 [test_stream 1] 10; datagram 4 [test_stream 4] 20;
   datagram 4 [test_stream 4] 21; datagram 2 [test_stream 2; test_stream 3] 30].

Lemma test_packetization : packetization 1 5 test_start test_cnt.
Proof.
  unfold test_start, test_cnt. split.
  - by left.
  - intros f [->|[->| ->]]; by vm_compute.
  - intros f [->|[->| ->]]; vm_compute; auto.
  - intros f f' [->|[->| ->]] [->|[->| ->]] H; vm_compute in H |- *; done.
Qed.

Lemma any_order_delivers_all_witness :
  exists g evs,
    run (listening test_config true true true) test_reordered = Ok (g, evs) /\
    next_expected_ g = 5 /\
    (fun m => (MoldMessage.seq_num m, msg_content m)) <$> messages evs
      = (fun k => (k, test_stream k)) <$> seqZ 1 (5 - 1).
Proof.
  apply (any_order_delivers_all test_stream test_config true true 1 5 test_start test_cnt).
  - reflexivity.
  - apply test_packetization.
  - done.
  - done.
  - done.
  - repeat (apply Forall_cons; split); [.. | by apply Forall_nil];
      (split; [first [exact I | split; [by vm_compute|]; split; [by vm_compute|];
                      split; [vm_compute; auto | by vm_compute]] |]);
      first [ exact I
        | split; [ by vm_compute
                 | intros _ k b H; vm_compute in H;
                   repeat (destruct k as [|k]; [by injection H as <- | ]); done ] ].
  - intros f Hf. unfold received, test_reordered, datagram.
    destruct Hf as [->|[->| ->]]; eexists _, _, _;
      [ split; [do 1 apply list_elem_of_further; apply list_elem_of_here | by vm_compute]
      | split; [do 4 apply list_elem_of_further; apply list_elem_of_here | by vm_compute]
      | split; [do 2 apply list_elem_of_further; apply list_elem_of_here | by vm_compute] ].
  - reflexivity.
Defined.
