(* ===== verification/GapInOrder.v ===== *)
(** * GapInOrder: packets in sequence are delivered at once

    The buffer holds nothing back: a packet that starts at or below
    [next_expected_] is handed over within its own [ingest] call, so a feed that
    arrives in order is delivered completely, however long it is. *)

From stdpp Require Import base gmap list strings fin_maps.
From Stdlib Require Import ZArith Lia.
From S2P Require Import Prelude WireFormat WireLemmas GapBuf GapWalk Framing.
From S2P Require Import GapInv GapStep GapRun GapProps.

#[local] Open Scope Z_scope.
Import GapBuffer.

Lemma packet_messages_bound payload len :
  kMoldHeaderSize <= blen payload ->
  blen (packet_messages payload len) <= MoldHeader.msg_count (header payload).
Proof.
  intros Hl. destruct (header_wf payload Hl) as (_ & _ & Hc). unfold packet_messages.
  rewrite length_bodies. pose proof (walk_length (Z.to_nat (MoldHeader.msg_count (header payload)))
    payload kMoldHeaderSize len). width.
Qed.

(** Nothing but messages is reported, no gap is recorded and none is counted. *)
Record silent (g g' : t) (evs : list event) : Prop := {
  si_gap : gap_start_ g' = 0;
  si_only : evs = OnMessage <$> messages evs;
  si_gaps : stat_gaps_ g' = stat_gaps_ g;
  si_retx : stat_retx_ g' = stat_retx_ g
}.

Lemma silent_refl g : gap_start_ g = 0 -> silent g g [].
Proof. by split. Qed.

Lemma silent_trans g1 g2 g3 e1 e2 : silent g1 g2 e1 -> silent g2 g3 e2 -> silent g1 g3 (e1 ++ e2).
Proof.
  intros [_ O1 S1 R1] [G2 O2 S2 R2]. split; [done | | congruence | congruence].
  by rewrite messages_app, fmap_app, <-O1, <-O2.
Qed.

(** A change of counters only. *)
Lemma silent_counters g g' :
  gap_start_ g' = 0 -> stat_gaps_ g' = stat_gaps_ g -> stat_retx_ g' = stat_retx_ g -> silent g g' [].
Proof. by split. Qed.

Lemma silent_timer g now : gap_start_ g = 0 -> check_gap_timeout g now = Ok (g, []).
Proof. intros Hg. unfold check_gap_timeout. by rewrite Hg. Qed.

Section InOrder.
Context (Src : Z -> list byte -> Z -> Prop).

Lemma delivers_silent g g' evs c : delivers Src g g' evs c -> gap_start_ g = 0 -> silent g g' evs.
Proof.
  intros D Hg. pose proof (dl_control _ _ _ _ _ D) as Hc. unfold control in Hc.
  split; [congruence | apply (dl_only _ _ _ _ _ D) | congruence | congruence].
Qed.

(** The state reached is past the packet. *)
Lemma ingest_in_order g payload len now :
  inv Src g -> settled g -> datagram_ok Src payload len now -> kMoldHeaderSize <= len ->
  MoldHeader.seq_num (header payload) <= resume g payload ->
  exists g' evs r,
    ingest g payload len now = Ok (g', evs, r) /\
    follows Src g g' evs (resume g payload) /\ session_synced_ g' = true /\
    MoldHeader.seq_num (header payload) + blen (packet_messages payload len) <= next_expected_ g' /\
    (gap_start_ g = 0 -> silent g g' evs).
Proof.
  intros Hi Hs Hok Hlen Hle.
  destruct (ingest_follows Src g payload len now Hi Hs Hok) as (g' & evs & r & E & F).
  rewrite decide_False in F by lia. destruct F as (F & _ & Y').
  exists g', evs, r. split; [done|]. split; [done|]. split; [done|].
  pose proof (fo_le _ _ _ _ _ F) as Hn'. destruct Hok as [Hbl Hok].
  destruct (Hok Hlen) as [Hnw Hsrc]. rewrite ingest_long in E by lia.
  pose proof (packet_messages_bound payload len ltac:(lia)) as Hpm.
  set (hdr := header payload) in *. assert (Hwf : MoldHeader.wf hdr) by (apply header_wf; lia).
  destruct (sync_session_inv Src g hdr Hi Hs Hwf) as (Hi1 & Hs1 & Y1 & N1 & _).
  assert (Hg1 : gap_start_ (sync_session g hdr) = gap_start_ g /\
    stat_gaps_ (sync_session g hdr) = stat_gaps_ g /\ stat_retx_ (sync_session g hdr) = stat_retx_ g)
    by (unfold sync_session; by destruct (_ && _)).
  destruct Hg1 as (Hg1 & Hc1 & Hx1).
  set (g1 := sync_session g hdr) in *. change (next_expected_ g1 = resume g payload) in N1.
  unfold ingest_synced in E. destruct (MoldHeader.is_heartbeat hdr) eqn:Hh.
  { apply Z.eqb_eq in Hh. rewrite Hh in Hpm. split; [lia|]. intros Hg.
    rewrite silent_timer, bind_Ok in E by (cbn; lia). injection E as <- <- _.
    by apply silent_counters; cbn; congruence. }
  apply Z.eqb_neq in Hh. pose proof Hwf as (_ & Hq & Hc). unfold no_wrap in Hnw.
  set (g0 := add_messages _ _) in E. change (next_expected_ g0) with (next_expected_ g1) in E.
  rewrite N1 in E. rewrite u64_small in E by width.
  destruct (Z.ltb_spec (MoldHeader.seq_num hdr + MoldHeader.msg_count hdr - 1) (resume g payload)).
  { split; [lia|]. intros Hg. injection E as <- <- _. by apply silent_counters; cbn; congruence. }
  rewrite (proj2 (Z.ltb_ge _ _)) in E by lia.
  destruct (inv_counters Src g1 g0) as [Hi0 Hs0]; [done..|].
  destruct (deliver_delivers Src g0 hdr payload len now)
    as (g2 & e2 & c2 & E2 & D2 & I2 & _ & N2); [done.. | | |].
  { change (next_expected_ g0) with (next_expected_ g1). lia. } { exact Hsrc. }
  destruct (flush_buffer_delivers Src g2 I2) as (g3 & e3 & c3 & E3 & D3 & _ & _).
  rewrite E2, bind_Ok, E3, bind_Ok in E. injection E as <- <- _.
  destruct (clear_gap_frame g3) as (N4 & _). rewrite N4.
  pose proof (dl_next _ _ _ _ _ D3). pose proof (dl_count _ _ _ _ _ D3). split.
  { unfold packet_messages in *. rewrite length_bodies in *. fold hdr. lia. }
  intros Hg. assert (S2 : silent g0 g2 e2) by (apply (delivers_silent _ _ _ _ D2); cbn; congruence).
  assert (S3 : silent g2 g3 e3) by (apply (delivers_silent _ _ _ _ D3), (si_gap _ _ _ S2)).
  assert (clear_gap g3 = g3) as -> by (unfold clear_gap; by rewrite (si_gap _ _ _ S3)).
  apply (silent_trans g g0 g3 []); [by apply silent_counters; cbn; congruence|].
  by eapply silent_trans.
Qed.

End InOrder.

(** Packets that follow each other from [n0] to [N] (repetitions of earlier ones may
    be in between). *)
Fixpoint in_sequence (n0 N : Z) (ins : list input) : Prop :=
  match ins with
  | [] => n0 = N
  | Datagram payload len _ :: ins' =>
      kMoldHeaderSize <= len /\ MoldHeader.seq_num (header payload) <= n0 /\
      in_sequence (Z.max n0 (MoldHeader.seq_num (header payload)
                             + blen (packet_messages payload len))) N ins'
  | Tick _ :: ins' => in_sequence n0 N ins'
  end.

(** Messages below [N] only. *)
Definition below (S : Z -> list byte) (N k : Z) (b : list byte) (_ : Z) : Prop := b = S k /\ k < N.

Lemma below_next S N g g' evs n0 :
  follows (below S N) g g' evs n0 -> on_message_ g = true -> next_expected_ g' <= Z.max n0 N.
Proof.
  intros [_ _ Hle Hseq Hsrc _ _] Hon. rewrite Hon in Hseq.
  destruct (decide (next_expected_ g' = n0)) as [->|Hne]; [lia|].
  assert (Hlk : (MoldMessage.seq_num <$> messages evs) !! Z.to_nat (next_expected_ g' - n0 - 1)
                = Some (next_expected_ g' - 1)).
  { rewrite Hseq. apply lookup_seqZ. lia. }
  apply list_lookup_fmap_Some in Hlk as (m & Hs & Hm).
  apply (Forall_lookup_1 _ _ _ _ Hsrc) in Hm as [[_ Hm] _]. lia.
Qed.

(** Packets that follow each other from at or below [next_expected_] bring a
    synchronised buffer at least to their end, whatever it went through before. *)
Lemma in_sequence_run Src g n0 N ins :
  inv Src g -> settled g -> session_synced_ g = true -> n0 <= next_expected_ g ->
  in_sequence n0 N ins -> Forall (input_ok Src) ins ->
  exists g' evs, run g ins = Ok (g', evs) /\ follows Src g g' evs (next_expected_ g) /\
    N <= next_expected_ g' /\ (gap_start_ g = 0 -> silent g g' evs).
Proof.
  intros Hi Hs Hy Hn Hseq Hok. revert g n0 Hi Hs Hy Hn Hseq.
  induction Hok as [|i ins Hd Hok IH]; intros g n0 Hi Hs Hy Hn Hseq.
  { cbn in Hseq. exists g, []. split; [done|]. split; [by apply follows_refl|].
    split; [lia | apply silent_refl]. }
  assert (Hstep : exists g1 e1 n1, apply_input g i = Ok (g1, e1) /\ in_sequence n1 N ins /\
    n1 <= next_expected_ g1 /\ session_synced_ g1 = true /\
    follows Src g g1 e1 (next_expected_ g) /\ (gap_start_ g = 0 -> silent g g1 e1)).
  { destruct i as [payload len now|now]; cbn [in_sequence apply_input] in *.
    - destruct Hseq as (Hlen & Hle & Hseq).
      assert (Hr : resume g payload = next_expected_ g) by (unfold resume; by rewrite Hy).
      destruct (ingest_in_order Src g payload len now Hi Hs Hd Hlen)
        as (g1 & e1 & r & E & F & Y1 & Hadv & Hsil); [lia|]. rewrite Hr in F.
      rewrite E, bind_Ok. pose proof (fo_le _ _ _ _ _ F). eexists g1, e1, _.
      split; [done|]. split; [exact Hseq|]. split; [lia | done].
    - destruct (timer_step Src g now Hi Hs) as (g1 & e1 & E & Ht & F). unfold tick.
      exists g1, e1, n0. split; [done|]. split; [done|]. split; [destruct Ht; lia|].
      split; [destruct Ht; congruence|].
      split; [done|]. intros Hg.
      rewrite silent_timer in E by done. injection E as <- <-. by apply silent_refl. }
  destruct Hstep as (g1 & e1 & n1 & E1 & Hseq1 & Hn1 & Y1 & F1 & S1).
  destruct (IH g1 n1) as (g2 & e2 & E2 & F2 & Hn2 & S2); [apply F1 | apply F1 | done..|].
  cbn [run]. rewrite E1, bind_Ok, E2, bind_Ok. eexists g2, _. split; [done|].
  split; [by eapply follows_trans|]. split; [done|].
  intros Hg. eapply silent_trans; [by apply S1|]. by apply S2, (si_gap _ _ _ (S1 Hg)).
Qed.

Lemma in_sequence_le n0 N ins : in_sequence n0 N ins -> n0 <= N.
Proof.
  revert n0. induction ins as [|[payload len now|now] ins IH]; intros n0 Hs; cbn in Hs; [lia | |auto].
  destruct Hs as (_ & _ & Hs). apply IH in Hs. lia.
Qed.

Lemma in_sequence_below S n0 N ins :
  Forall (carries S) ins -> in_sequence n0 N ins -> Forall (input_ok (below S N)) ins.
Proof.
  intros Hc. revert n0. induction Hc as [|[payload len now|now] ins Hi _ IH]; intros n0 Hs; [done| |].
  2:{ constructor; [done | by apply (IH n0)]. }
  destruct Hs as (Hlen & Hle & Hs). constructor; [|by eapply IH].
  destruct Hi as [[Hl Hw] Hcar]. split; [done|]. intros _. split; [by apply Hw|].
  intros i b Hb. split; [by apply Hcar|]. apply in_sequence_le in Hs.
  apply lookup_lt_Some in Hb. unfold packet_messages in Hs. lia.
Qed.

Lemma run_in_sequence_silent (S : Z -> list byte) (c : Config) (on_gap on_retx : bool) (n0 N : Z)
    (payload : list byte) (len now : Z) (ins : list input) :
  let all := Datagram payload len now :: ins in
  length (cfg_session c) = 10%nat -> Forall (carries S) all -> in_sequence n0 N all ->
  MoldHeader.seq_num (header payload) = n0 ->
  exists g evs,
    run (listening c true on_gap on_retx) all = Ok (g, evs) /\ next_expected_ g = N /\
    silent (listening c true on_gap on_retx) g evs /\
    (fun m => (MoldMessage.seq_num m, msg_content m)) <$> messages evs
      = (fun k => (k, S k)) <$> seqZ n0 (N - n0).
Proof.
  intros all Hc Hcar Hseq Hq. set (g0 := listening c true on_gap on_retx).
  pose proof (in_sequence_below S n0 N all Hcar Hseq) as Hok.
  destruct (run_delivers S c on_gap on_retx all Hc Hcar) as (g & evs & Hr & _ & Hm). fold g0 in Hr, Hm.
  assert (Hst : session_start g0 all = n0).
  { destruct Hseq as (Hlen & _ & _). cbn [session_start all]. cbn [session_synced_ g0 listening].
    by rewrite (proj2 (Z.ltb_ge _ _)) by lia. }
  rewrite Hst in Hm.
  enough (next_expected_ g = N /\ silent g0 g evs) as [Hn Hsil] by (rewrite Hn in Hm; by exists g, evs).
  unfold all in *. apply Forall_cons in Hok as [Hok1 Hok2]. destruct Hseq as (Hlen & Hle & Hseq).
  assert (Hre : resume g0 payload = n0) by done.
  destruct (ingest_in_order (below S N) g0 payload len now)
    as (g1 & e1 & r & E & F & Y1 & Hadv & Hs1);
    [by apply listening_inv | by apply (listening_settled (below S N)) | done | done | lia |].
  pose proof (below_next _ _ _ _ _ _ F eq_refl) as Hmax. pose proof (fo_le _ _ _ _ _ F) as Hfl.
  pose proof (in_sequence_le _ _ _ Hseq) as Hle2. rewrite Hre in *. specialize (Hs1 eq_refl).
  destruct (fun n Hle => in_sequence_run (below S N) g1 n N ins (fo_inv _ _ _ _ _ F)
              (fo_settled _ _ _ _ _ F) Y1 Hle) with (2 := Hseq) (3 := Hok2)
    as (g2 & e2 & E2 & F2 & Hn2 & Hs2); [lia|].
  pose proof (below_next _ _ _ _ _ _ F2 (fo_on _ _ _ _ _ F)) as Hmax2.
  cbn [run apply_input] in Hr. rewrite E, !bind_Ok, E2, bind_Ok in Hr. injection Hr as <- <-.
  split; [lia|]. eapply silent_trans; [done|]. apply Hs2, (si_gap _ _ _ Hs1).
Qed.

Lemma run_in_sequence (S : Z -> list byte) (c : Config) (on_gap on_retx : bool) (n0 N : Z)
    (payload : list byte) (len now : Z) (ins : list input) :
  let all := Datagram payload len now :: ins in
  length (cfg_session c) = 10%nat -> Forall (carries S) all -> in_sequence n0 N all ->
  MoldHeader.seq_num (header payload) = n0 ->
  exists g evs,
    run (listening c true on_gap on_retx) all = Ok (g, evs) /\ next_expected_ g = N /\
    (fun m => (MoldMessage.seq_num m, msg_content m)) <$> messages evs
      = (fun k => (k, S k)) <$> seqZ n0 (N - n0).
Proof.
  intros all Hc Hcar Hseq Hq.
  destruct (run_in_sequence_silent S c on_gap on_retx n0 N payload len now ins Hc Hcar Hseq Hq)
    as (g & evs & E & Hn & _ & Hm). by exists g, evs.
Qed.

(** ** A feed with a hole *)

Lemma run_split g a b g2 e :
  run g (a ++ b) = Ok (g2, e) ->
  exists g1 e1 e2, run g a = Ok (g1, e1) /\ run g1 b = Ok (g2, e2) /\ e = e1 ++ e2.
Proof.
  revert g e. induction a as [|i a IH]; intros g e Hr; [by exists g, [], e|].
  cbn [app run] in Hr |- *. destruct (apply_input g i) as [[g0 e0]|]; [|done]. rewrite bind_Ok in *.
  destruct (run g0 (a ++ b)) as [[g3 e3]|] eqn:E; [|done]. injection Hr as <- <-.
  destruct (IH g0 e3 E) as (g1 & e1 & e2 & -> & E2 & ->). rewrite bind_Ok.
  exists g1, (e0 ++ e1), e2. by rewrite app_assoc.
Qed.

(** No datagram of [ins] has message [k]. *)
Definition lacks (k : Z) (i : input) : Prop :=
  match i with
  | Datagram payload len _ =>
      k < MoldHeader.seq_num (header payload) \/
      MoldHeader.seq_num (header payload) + blen (packet_messages payload len) <= k
  | Tick _ => True
  end.

(** Delivery stops for good at a message that never comes. *)
Lemma hole_stops (S : Z -> list byte) (c : Config) (on_gap on_retx : bool) (n0 N : Z)
    (payload : list byte) (len now : Z) (ins rest : list input) :
  let start := Datagram payload len now :: ins in
  length (cfg_session c) = 10%nat -> Forall (carries S) (start ++ rest) -> in_sequence n0 N start ->
  MoldHeader.seq_num (header payload) = n0 -> Forall (lacks N) (start ++ rest) ->
  exists g evs,
    run (listening c true on_gap on_retx) (start ++ rest) = Ok (g, evs) /\ next_expected_ g = N /\
    (fun m => (MoldMessage.seq_num m, msg_content m)) <$> messages evs
      = (fun k => (k, S k)) <$> seqZ n0 (N - n0).
Proof.
  intros start Hc Hcar Hseq Hq Hlack. set (g0 := listening c true on_gap on_retx).
  apply Forall_app in Hcar as Hcar2. destruct Hcar2 as [Hcar1 _].
  destruct (run_in_sequence S c on_gap on_retx n0 N payload len now ins Hc Hcar1 Hseq Hq)
    as (g1 & e1 & Hr1 & _ & Hm1). fold g0 start in Hr1.
  pose proof (in_sequence_le _ _ _ Hseq) as Hle0.
  assert (Hok : Forall (input_ok (fun k b _ => b = S k /\ k <> N)) (start ++ rest)).
  { rewrite Forall_forall in Hcar, Hlack |- *. intros i Hi. specialize (Hcar i Hi). specialize (Hlack i Hi).
    destruct i as [p l t|t]; [|done]. destruct Hcar as [[Hl Hw] Hs]. split; [done|]. intros Hlen.
    split; [by apply Hw|]. intros k b Hb. split; [by apply Hs|]. apply lookup_lt_Some in Hb.
    unfold lacks, packet_messages in Hlack. lia. }
  destruct (run_follows _ g0 _ (listening_inv _ c true on_gap on_retx Hc)
              (listening_settled (fun k b _ => b = S k /\ k <> N) c true on_gap on_retx Hc) Hok)
    as (g & evs & Hr & F).
  assert (Hst : session_start g0 (start ++ rest) = n0).
  { destruct Hseq as (Hlen & _ & _). cbn [session_start start app]. cbn [session_synced_ g0 listening].
    change (session_synced_ (listening c true on_gap on_retx)) with false. cbn iota.
    rewrite (proj2 (Z.ltb_ge _ _)) by lia. done. }
  rewrite Hst in F. destruct F as [_ _ Hle Hs Hsrc _ _].
  change (on_message_ g0) with true in Hs. cbn iota in Hs.
  destruct (run_split _ _ _ _ _ Hr) as (g1' & e1' & e2 & Hr1' & _ & ->).
  rewrite Hr1 in Hr1'. injection Hr1' as <- <-. rewrite messages_app in Hs, Hsrc.
  assert (Hlo : N <= next_expected_ g).
  { apply (f_equal length) in Hs, Hm1. rewrite !length_fmap, length_app, ?length_fmap, length_seqZ in *. lia. }
  assert (Hhi : next_expected_ g <= N).
  { destruct (decide (next_expected_ g <= N)); [done|]. exfalso.
    assert (Hlk : (MoldMessage.seq_num <$> messages e1 ++ messages e2) !! Z.to_nat (N - n0) = Some N)
      by (rewrite Hs; apply lookup_seqZ; lia).
    apply list_lookup_fmap_Some in Hlk as (m & Hs' & Hm).
    apply (Forall_lookup_1 _ _ _ _ Hsrc) in Hm as [[_ Hm] _]. by rewrite <-Hs' in Hm. }
  exists g, (e1 ++ e2). split; [done|]. split; [lia|]. rewrite messages_app.
  replace N with (next_expected_ g) by lia. rewrite <-Hs, <-list_fmap_compose.
  apply list_fmap_ext. intros i m Hm. simpl.
  rewrite Forall_lookup in Hsrc. by destruct (Hsrc i m Hm) as [[-> _] _].
Qed.

(** C31.  No head-of-line delay and no false alarm on a healthy feed: datagrams that
    follow each other in sequence, with any ticks and repetitions between them
    (late copies of a second line included), are delivered completely, however
    many they are (no window limits them), each message once; no gap is
    recorded, reported or counted, and nothing is requested again. *)
Theorem in_order_feed_delivered (S : Z -> list byte) (c : Config) (on_gap on_retx : bool)
    (n0 N : Z) (payload : list byte) (len now : Z) (ins : list input) :
  let all := Datagram payload len now :: ins in
  length (cfg_session c) = 10%nat -> Forall (carries S) all -> in_sequence n0 N all ->
  MoldHeader.seq_num (header payload) = n0 ->
  exists g evs,
    run (listening c true on_gap on_retx) all = Ok (g, evs) /\ next_expected_ g = N /\
    evs = OnMessage <$> messages evs /\
    in_gap g = false /\ stat_gaps_ g = 0 /\ stat_retx_ g = 0 /\
    (fun m => (MoldMessage.seq_num m, msg_content m)) <$> messages evs
      = (fun k => (k, S k)) <$> seqZ n0 (N - n0).
Proof.
  intros all Hc Hcar Hseq Hq.
  destruct (run_in_sequence_silent S c on_gap on_retx n0 N payload len now ins Hc Hcar Hseq Hq)
    as (g & evs & E & Hn & [Hg Ho Hs Hr] & Hm).
  exists g, evs. unfold in_gap. by rewrite Hg, Hs, Hr.
Qed.

Lemma in_order_feed_delivered_witness :
  exists g evs,
    run (listening test_config true true true)
      [datagram 1 [test_stream 1] 10; Tick 15; datagram 2 [test_stream 2; test_stream 3] 20;
       datagram 1 [test_stream 1] 25; datagram 3 [test_stream 3; test_stream 4] 30] = Ok (g, evs) /\
    next_expected_ g = 5 /\ evs = OnMessage <$> messages evs /\
    in_gap g = false /\ stat_gaps_ g = 0 /\ stat_retx_ g = 0 /\
    (fun m => (MoldMessage.seq_num m, msg_content m)) <$> messages evs
      = (fun k => (k, test_stream k)) <$> seqZ 1 (5 - 1).
Proof.
  apply (in_order_feed_delivered test_stream test_config true true 1 5).
  - reflexivity.
  - unfold datagram. check_carries.
  - by vm_compute.
  - reflexivity.
Defined.
