(* ===== verification/GapRecover.v ===== *)
(** * GapRecover: a resend in sequence brings the buffer back

    Whatever the buffer went through (losses, overflows of the ring, a gap it no
    longer tracks, a packet cut when stored), packets sent again in sequence from
    the first missing message on are delivered: no state is beyond repair. *)

From stdpp Require Import base gmap list strings fin_maps.
From Stdlib Require Import ZArith Lia.
From S2P Require Import Prelude WireFormat WireLemmas GapBuf GapWalk Framing.
From S2P Require Import GapInv GapStep GapRun GapProps GapInOrder.

#[local] Open Scope Z_scope.
Import GapBuffer.

Lemma run_app g a b :
  run g (a ++ b) =
  '(g1, e1) ← run g a; '(g2, e2) ← run g1 b; mret (g2, e1 ++ e2).
Proof.
  revert g. induction a as [|i a IH]; intros g; cbn [app run].
  - rewrite bind_Ok. by destruct (run g b) as [[]|].
  - destruct (apply_input g i) as [[g0 e0]|]; [|done]. rewrite !bind_Ok, IH.
    destruct (run g0 a) as [[g1 e1]|]; [|done]. rewrite !bind_Ok.
    destruct (run g1 b) as [[g2 e2]|]; [|done]. by rewrite !bind_Ok, app_assoc.
Qed.

(** C24.  Recovery.  After any run [before] over datagrams of the stream (lost,
    reordered, dropped because the ring overflowed, in whatever state the gap
    tracking is), a resend of packets in sequence that starts at or below the
    first missing message and ends at [N] is enough, however long it is:
    delivery reaches at least [N], without a fault, and what was delivered in all
    is still the stream, each message once and in order. *)
Theorem resend_recovers (S : Z -> list byte) (c : Config) (on_gap on_retx : bool)
    (before resend : list input) (g1 : t) (e1 : list event) (n0 N : Z) :
  let g0 := listening c true on_gap on_retx in
  length (cfg_session c) = 10%nat -> Forall (carries S) (before ++ resend) ->
  run g0 before = Ok (g1, e1) -> session_synced_ g1 = true ->
  n0 <= next_expected_ g1 -> in_sequence n0 N resend ->
  exists g2 e2,
    run g0 (before ++ resend) = Ok (g2, e1 ++ e2) /\
    N <= next_expected_ g2 /\
    let first := session_start g0 (before ++ resend) in
    (fun m => (MoldMessage.seq_num m, msg_content m)) <$> messages (e1 ++ e2)
      = (fun k => (k, S k)) <$> seqZ first (next_expected_ g2 - first).
Proof.
  intros g0 Hc Hcar Hb Hy Hn Hseq.
  destruct (run_delivers S c on_gap on_retx (before ++ resend) Hc Hcar) as (g2 & e & Hr & _ & Hm).
  fold g0 in Hr, Hm. pose proof (carries_input_ok S _ Hcar) as Hok.
  apply Forall_app in Hok as [Hok1 Hok2].
  destruct (run_follows _ g0 before (listening_inv _ c true on_gap on_retx Hc)
              (listening_settled (fun k b _ => b = S k) c true on_gap on_retx Hc) Hok1)
    as (g1' & e1' & Hb' & F).
  rewrite Hb in Hb'. injection Hb' as <- <-.
  destruct (in_sequence_run _ g1 n0 N resend (fo_inv _ _ _ _ _ F) (fo_settled _ _ _ _ _ F) Hy Hn Hseq Hok2)
    as (g2' & e2 & E2 & _ & HN & _).
  rewrite run_app, Hb, bind_Ok, E2, bind_Ok in Hr. injection Hr as <- <-.
  exists g2', e2. split; [|done]. by rewrite run_app, Hb, bind_Ok, E2, bind_Ok.
Qed.

(** Message 2 is lost, 4099 falls on the slot of 3 and is dropped. *)
Definition overflowed : list input :=
  [datagram 1 [test_stream 1] 10; datagram 3 [test_stream 3] 20; datagram 4099 [test_stream 4099] 30].
Definition resent : list input :=
  [datagram 1 [test_stream 1] 40; Tick 45; datagram 2 [test_stream 2; test_stream 3; test_stream 4] 50].

Lemma overflowed_carries : Forall (carries test_stream) (overflowed ++ resent).
Proof. unfold overflowed, resent, datagram. cbn [app]. check_carries. Qed.

Lemma resent_in_sequence : in_sequence 1 5 resent.
Proof. by vm_compute. Qed.

Lemma resend_recovers_witness :
  let g0 := listening test_config true true true in
  exists g1 e1 g2 e2,
    run g0 overflowed = Ok (g1, e1) /\ stat_buffer_overflows_ g1 = 1 /\ next_expected_ g1 = 2 /\
    run g0 (overflowed ++ resent) = Ok (g2, e1 ++ e2) /\ 5 <= next_expected_ g2 /\
    (fun m => (MoldMessage.seq_num m, msg_content m)) <$> messages (e1 ++ e2)
      = (fun k => (k, test_stream k)) <$> seqZ 1 (next_expected_ g2 - 1).
Proof.
  intros g0.
  assert (Hp : probe (fun '(g, _) => (stat_buffer_overflows_ g, next_expected_ g, session_synced_ g))
                 (run g0 overflowed) = Some (1, 2, true)) by (by vm_compute).
  destruct (run g0 overflowed) as [[g1 e1]|] eqn:E1; [|done]. injection Hp as Ho Hn Hy.
  destruct (resend_recovers test_stream test_config true true overflowed resent g1 e1 1 5)
    as (g2 & e2 & E2 & HN & Hm).
  - reflexivity.
  - apply overflowed_carries.
  - exact E1.
  - exact Hy.
  - by rewrite Hn.
  - apply resent_in_sequence.
  - exists g1, e1, g2, e2. exact (conj eq_refl (conj Ho (conj Hn (conj E2 (conj HN Hm))))).
Defined.
