(* ===== verification/GapRetx.v ===== *)
(** * GapRetx: gap reports and retransmit requests

    What the buffer tells the outside world about a gap: whom it reports, what
    it asks for, and how often. *)

From stdpp Require Import base gmap list strings fin_maps.
From Stdlib Require Import ZArith Lia.
From S2P Require Import Prelude WireFormat WireLemmas GapBuf GapWalk Framing.
From S2P Require Import GapInv GapStep GapRun GapProps.

#[local] Open Scope Z_scope.
Import GapBuffer.

(** ** The content of a request *)

(** [j] is the length of the run of missing sequences at [s], cut at [cap]: none of
    [s .. s+j-1] is buffered, and the run ends at [cap], at the ring's end or at
    a buffered packet. *)
Definition missing_run (g : t) (s cap j : Z) : Prop :=
  1 <= j <= cap /\ j <= kCapacity /\
  (forall i, 0 <= i < j -> present g (s + i) = false) /\
  (j = cap \/ j = kCapacity \/ present g (s + j) = true).

Definition request_cap (g : t) : Z := Z.max 1 (max_retransmit_count (cfg_ g)).

Lemma scan_result_missing_run g s j :
  scan_result g s (s + kCapacity) 0 j -> present g s = false ->
  missing_run g s (request_cap g) j.
Proof.
  intros (Hj & Hall & Hend) Hp. unfold missing_run, request_cap.
  assert (1 <= j).
  { destruct (decide (j = 0)) as [->|]; [|lia].
    rewrite Z.add_0_r in Hend. destruct Hend as [?|[?|?]];
      [unfold kCapacity in *; lia | congruence | lia]. }
  destruct (Hall (j - 1)) as (_ & Hb & Hm); [lia|].
  assert (j <= Z.max 1 (max_retransmit_count (cfg_ g)))
    by (destruct (decide (j = 1)); [lia | specialize (Hm ltac:(lia)); lia]).
  split; [lia|]. split; [lia|]. split; [by intros i Hi; apply Hall|].
  destruct Hend as [?|[?|[_ ?]]]; [right; left; lia | right; right; done | left; lia].
Qed.

(** A due timer of a settled buffer always asks, for the run at [next_expected_]. *)
Lemma check_gap_timeout_asks Src g now :
  inv Src g -> settled g -> request_due g now = true ->
  next_expected_ g + kCapacity < 2 ^ 64 -> is_u16 (max_retransmit_count (cfg_ g)) ->
  exists j,
    missing_run g (next_expected_ g) (request_cap g) j /\
    check_gap_timeout g now =
      Ok (inc_retx (set_gap_last_retx g now),
          [OnRetransmitRequest (RetransmitRequest.mk (session_ g) (next_expected_ g) j)]).
Proof.
  intros Hi Hs Hd Hn Hm.
  assert (Hg : gap_start_ g = next_expected_ g).
  { apply (st_gap _ Hs). unfold request_due in Hd. intros E. by rewrite E in Hd. }
  assert (Hu : is_u64 (next_expected_ g)) by apply Hi.
  destruct (check_gap_timeout_due g now Hd) as (j & Hj & ->); [by rewrite Hg|].
  rewrite Hg in *. rewrite u64_small in Hj by (unfold kCapacity in *; width).
  apply scan_result_missing_run in Hj.
  2:{ destruct (present g (next_expected_ g)) eqn:E; [|done].
      by destruct (st_quiet _ Hs); apply ready_present. }
  exists j. split; [done|]. destruct Hj as ((? & ?) & _).
  rewrite (proj2 (Z.eqb_neq j 0)) by lia. rewrite u16_small; [done|].
  unfold request_cap in *. width.
Qed.

(** A settled state reached by a run. *)
Lemma run_settled c on_gap on_retx ins :
  length (cfg_session c) = 10%nat -> Forall sane_input ins ->
  exists g evs, run (listening c true on_gap on_retx) ins = Ok (g, evs) /\
    inv (arrived ins) g /\ settled g.
Proof.
  intros Hc Hins.
  destruct (run_follows (arrived ins) (listening c true on_gap on_retx) ins)
    as (g & evs & Hr & F);
    [by apply listening_inv | by eapply (listening_settled (arrived ins)) | |].
  { by apply sane_input_ok. }
  exists g, evs. split; [done|]. split; apply F.
Qed.

(** C10.  The retransmit timer: in every reachable state a tick either is not due,
    and then changes and emits nothing, or sends exactly one request, for the
    session of the feed, starting at [next_expected_], whose count is the
    maximal run of sequences not held in the ring, capped by
    [max_retransmit_count]; it never silently drops a due request. *)
Theorem tick_requests_missing_run (c : Config) (on_gap on_retx : bool)
    (ins : list input) (now : Z) :
  length (cfg_session c) = 10%nat -> Forall sane_input ins ->
  exists g evs,
    run (listening c true on_gap on_retx) ins = Ok (g, evs) /\
    if request_due g now then
      next_expected_ g + kCapacity < 2 ^ 64 -> is_u16 (max_retransmit_count (cfg_ g)) ->
      exists j,
        missing_run g (next_expected_ g) (request_cap g) j /\
        tick g now =
          Ok (inc_retx (set_gap_last_retx g now),
              [OnRetransmitRequest (RetransmitRequest.mk (session_ g) (next_expected_ g) j)])
    else tick g now = Ok (g, []).
Proof.
  intros Hc Hins. destruct (run_settled c on_gap on_retx ins Hc Hins) as (g & evs & Hr & Hi & Hs).
  exists g, evs. split; [done|]. destruct (request_due g now) eqn:Hd.
  - intros. by eapply check_gap_timeout_asks.
  - by apply check_gap_timeout_idle.
Qed.

Lemma tick_requests_missing_run_witness :
  exists g evs,
    run (listening test_config true true true)
      [datagram 1 [test_stream 1] 10; datagram 4 [test_stream 4] 20] = Ok (g, evs) /\
    if request_due g 600 then
      next_expected_ g + kCapacity < 2 ^ 64 -> is_u16 (max_retransmit_count (cfg_ g)) ->
      exists j,
        missing_run g (next_expected_ g) (request_cap g) j /\
        tick g 600 =
          Ok (inc_retx (set_gap_last_retx g 600),
              [OnRetransmitRequest (RetransmitRequest.mk (session_ g) (next_expected_ g) j)])
    else tick g 600 = Ok (g, []).
Proof.
  apply tick_requests_missing_run; [reflexivity|].
  repeat (apply Forall_cons; split); [.. | by apply Forall_nil]; by vm_compute.
Defined.

(** The request of the witness: sequences 2 and 3. *)
Example tick_requests_two :
  ('(g, _) ← run (listening test_config true true true)
     [datagram 1 [test_stream 1] 10; datagram 4 [test_stream 4] 20];
   '(_, evs) ← tick g 600; mret evs)
  = Ok [OnRetransmitRequest (RetransmitRequest.mk session_bytes 2 2)].
Proof. by vm_compute. Qed.
