(* ===== verification/GapTrack.v ===== *)
(** * GapTrack: the gap tracker as an abstract state machine

    The tracker's promises concern few of the buffer's fields.  [track_step] is
    their abstract specification; [GapTrackRun] shows that the buffer refines it.
    The rate limit and the uniqueness of gap reports are proved here, by
    induction on its runs. *)

From stdpp Require Import base gmap list strings fin_maps sorting.
From Stdlib Require Import ZArith Lia.
From S2P Require Import Prelude WireFormat GapBuf GapWalk.

#[local] Open Scope Z_scope.
Import GapBuffer.

Record track := Track {
  tk_next : Z; tk_start : Z; tk_detected : Z; tk_retx : Z
}.

(** The configured delay has passed since the detection (no request sent yet) or
    since the last request. *)
Definition due (c : Config) (now : Z) (t : track) : Prop :=
  if tk_retx t =? 0 then gap_timeout_ns c <= now - tk_detected t
  else retry_interval_ns c <= now - tk_retx t.

Inductive track_step (c : Config) (now : Z) : track -> list event -> track -> Prop :=
| ts_advance n n' s d r ms :
    n <= n' ->
    track_step c now (Track n s d r) (OnMessage <$> ms) (Track n' s d r)
| ts_open n d r rcv evs :
    1 <= n -> n < rcv ->
    evs = [] \/ evs = [OnGap (mk_GapEvent n (rcv - 1) now)] ->
    track_step c now (Track n 0 d r) evs (Track n n now 0)
| ts_close n s d r :
    s < n -> track_step c now (Track n s d r) [] (Track n 0 d r)
| ts_request n s d r req :
    s <> 0 -> due c now (Track n s d r) -> RetransmitRequest.first_seq req = s ->
    track_step c now (Track n s d r) [OnRetransmitRequest req] (Track n s d now).

(** Steps tagged with their time. *)
Inductive track_run (c : Config) : track -> list (Z * list event) -> track -> Prop :=
| tr_done t : track_run c t [] t
| tr_step t1 now evs t2 steps t3 :
    track_step c now t1 evs t2 -> track_run c t2 steps t3 ->
    track_run c t1 ((now, evs) :: steps) t3.

Definition stamped (steps : list (Z * list event)) : list (Z * event) :=
  steps ≫= (fun '(now, evs) => (fun e => (now, e)) <$> evs).

Definition request_times (tl : list (Z * event)) : list Z :=
  omap (fun '(now, e) => match e with OnRetransmitRequest _ => Some now | _ => None end) tl.

Definition gap_reports (tl : list (Z * event)) : list GapEvent :=
  omap (fun '(_, e) => match e with OnGap ev => Some ev | _ => None end) tl.

Lemma track_run_app c t1 s1 t2 s2 t3 :
  track_run c t1 s1 t2 -> track_run c t2 s2 t3 -> track_run c t1 (s1 ++ s2) t3.
Proof. induction 1; intros; cbn; [done | econstructor; eauto]. Qed.

Lemma track_run_one c now t1 evs t2 :
  track_step c now t1 evs t2 -> track_run c t1 [(now, evs)] t2.
Proof. intros H. econstructor; [exact H | constructor]. Qed.

Lemma stamped_app s1 s2 : stamped (s1 ++ s2) = stamped s1 ++ stamped s2.
Proof. apply bind_app. Qed.

Lemma stamped_cons now evs steps :
  stamped ((now, evs) :: steps) = ((fun e => (now, e)) <$> evs) ++ stamped steps.
Proof. done. Qed.

Lemma request_times_messages now ms :
  request_times ((fun e => (now, e)) <$> (OnMessage <$> ms)) = [].
Proof. by induction ms. Qed.
Lemma gap_reports_messages now ms :
  gap_reports ((fun e => (now, e)) <$> (OnMessage <$> ms)) = [].
Proof. by induction ms. Qed.

Lemma request_times_app a b : request_times (a ++ b) = request_times a ++ request_times b.
Proof. apply omap_app. Qed.
Lemma gap_reports_app a b : gap_reports (a ++ b) = gap_reports a ++ gap_reports b.
Proof. apply omap_app. Qed.

(** ** Requests are rate-limited *)

(** Every element is at least [d] after the one before it ([last] comes first). *)
Fixpoint spaced (d : Z) (last : option Z) (ts : list Z) : Prop :=
  match ts with
  | [] => True
  | t :: ts' => (forall l, last = Some l -> l + d <= t) /\ spaced d (Some t) ts'
  end.

(** The clock never goes back behind [from]. *)
Fixpoint clocked (from : Z) (ts : list Z) : Prop :=
  match ts with
  | [] => True
  | t :: ts' => from <= t /\ clocked t ts'
  end.

(** At time [now], with [last] the time of the last request. *)
Record paced (t : track) (now : Z) (last : option Z) : Prop := {
  pc_detected : tk_start t <> 0 -> tk_detected t <= now;
  pc_last : forall l, last = Some l ->
    0 < l <= now /\
    (tk_start t <> 0 -> tk_retx t = l \/ (tk_retx t = 0 /\ l <= tk_detected t));
  pc_none : last = None -> tk_start t <> 0 -> tk_retx t = 0
}.

Definition spacing (c : Config) : Z := Z.min (gap_timeout_ns c) (retry_interval_ns c).

Lemma track_step_paced c t0 now t evs t' last :
  paced t t0 last -> t0 <= now -> 0 < now -> track_step c now t evs t' ->
  exists ts, request_times ((fun e => (now, e)) <$> evs) = ts /\
    spaced (spacing c) last ts /\
    paced t' now (match ts with [] => last | r :: _ => Some r end) /\
    (ts = [] \/ ts = [now]).
Proof.
  intros [Hd Hl Hn] Hle Hpos Hstep. destruct Hstep as
    [n n' s d r ms Hnn | n d r rcv evs Hn1 Hrcv Hev | n s d r Hsn | n s d r req Hs Hdue Hreq].
  - exists []. rewrite request_times_messages. split; [done|]. split; [done|]. split; [|by left].
    split; cbn in *; [intros; specialize (Hd ltac:(done)); lia | | done].
    intros l E. destruct (Hl l E). split; [lia | done].
  - exists []. assert (request_times ((fun e => (now, e)) <$> evs) = []) as ->
      by (by destruct Hev as [-> | ->]). split; [done|]. split; [done|]. split; [|by left].
    split; cbn in *; [lia | | done]. intros l E. destruct (Hl l E).
    split; [lia|]. intros _. right. split; [done | lia].
  - exists []. split; [done|]. split; [done|]. split; [|by left].
    split; cbn in *; [done | | done]. intros l E. destruct (Hl l E). split; [lia | done].
  - exists [now]. split; [done|]. split; [|split; [|by right]].
    + split; [|done]. intros l E. destruct (Hl l E) as [Hl1 Hl2]. cbn in *.
      unfold due, spacing in *. cbn in *.
      destruct (Hl2 Hs) as [-> | [-> Hl3]].
      * rewrite (proj2 (Z.eqb_neq l 0)) in Hdue by lia. lia.
      * cbn in Hdue. lia.
    + split; cbn in *; [intros; specialize (Hd Hs); lia | | done].
      intros l [= <-]. split; [lia|]. by left.
Qed.

Lemma track_run_spaced c t0 t steps t' last :
  paced t t0 last -> 0 < t0 -> clocked t0 (steps.*1) -> track_run c t steps t' ->
  spaced (spacing c) last (request_times (stamped steps)).
Proof.
  intros Hp Hpos Hcl Hrun. revert t0 last Hp Hpos Hcl.
  induction Hrun as [t|t1 now evs t2 steps t3 Hstep _ IH]; intros t0 last Hp Hpos Hcl; [done|].
  cbn [fmap list_fmap fst clocked] in Hcl. destruct Hcl as [Hle Hcl].
  rewrite stamped_cons, request_times_app.
  destruct (track_step_paced c t0 now t1 evs t2 last Hp) as (ts & -> & Hs & Hp2 & Hts);
    [done | lia | done |].
  destruct Hts as [-> | ->]; cbn in *; [|split; [tauto|]]; (apply (IH now); [done | lia | done]).
Qed.

(** ** Gap reports are never repeated *)

(** [last] is where the last reported gap started, 0 before the first report. *)
Record past (t : track) (last : Z) : Prop := {
  pa_next : last <= tk_next t;
  pa_closed : tk_start t = 0 -> last < tk_next t \/ last = 0;
  pa_open : tk_start t <> 0 -> last <= tk_start t
}.

(** Strictly increasing positions above [last], each report a proper range. *)
Fixpoint ascending (last : Z) (l : list GapEvent) : Prop :=
  match l with
  | [] => True
  | ev :: l' => last < first_missing_seq ev <= last_missing_seq ev
                /\ ascending (first_missing_seq ev) l'
  end.

Lemma track_run_ascending c t steps t' last :
  past t last -> track_run c t steps t' -> ascending last (gap_reports (stamped steps)).
Proof.
  intros Hp Hrun. revert last Hp.
  induction Hrun as [t|t1 now evs t2 steps t3 Hstep _ IH]; intros last [Hle H0 Ho]; [done|].
  rewrite stamped_cons, gap_reports_app. destruct Hstep as
    [n n' s d r ms Hnn | n d r rcv evs Hn1 Hrcv Hev | n s d r Hsn | n s d r req Hs Hdue Hreq];
    cbn in *.
  - rewrite gap_reports_messages. apply IH. split; cbn; [lia | lia | done].
  - destruct Hev as [-> | ->]; cbn; [|split; [lia|]]; apply IH; split; cbn; lia.
  - apply IH. split; cbn; lia.
  - apply IH. split; cbn; lia.
Qed.
