(* ===== verification/GapTrackRun.v ===== *)
(** * GapTrackRun: the buffer refines the gap tracker

    Every input of a run is a sequence of [track_step]s that emits the same
    events at the same times; the rate limit and the uniqueness of reports
    follow for the buffer. *)

From stdpp Require Import base gmap list strings fin_maps.
From Stdlib Require Import ZArith Lia.
From S2P Require Import Prelude WireFormat WireLemmas GapBuf GapWalk Framing.
From S2P Require Import GapInv GapStep GapRun GapProps GapRetx GapTrack.

#[local] Open Scope Z_scope.
Import GapBuffer.

Definition track_of (g : t) : track :=
  Track (next_expected_ g) (gap_start_ g) (gap_detected_at_ns g) (gap_last_retx_ns g).

(** The stored times are not ahead of the clock. *)
Definition clock_ok (g : t) (now : Z) : Prop :=
  0 <= gap_detected_at_ns g <= now /\ 0 <= gap_last_retx_ns g <= now.

(** [g] goes to [g'] at time [now] by tracker steps that emit [evs]. *)
Definition tracks (g g' : t) (evs : list event) (now : Z) : Prop :=
  cfg_ g' = cfg_ g /\ clock_ok g' now /\
  exists steps,
    track_run (cfg_ g) (track_of g) steps (track_of g') /\
    stamped steps = (fun e => (now, e)) <$> evs /\ Forall (fun n => n = now) steps.*1.

Lemma tracks_refl g g' now :
  cfg_ g' = cfg_ g -> track_of g' = track_of g -> clock_ok g now -> tracks g g' [] now.
Proof.
  intros Hc Ht Hk. injection Ht as Hn Hs Hd Hr. split; [done|].
  split; [unfold clock_ok in *; lia|].
  exists []. unfold track_of. rewrite Hn, Hs, Hd, Hr. split; [constructor | done].
Qed.

Lemma tracks_one g g' evs now :
  cfg_ g' = cfg_ g -> clock_ok g' now ->
  track_step (cfg_ g) now (track_of g) evs (track_of g') -> tracks g g' evs now.
Proof.
  intros Hc Hk Hs. split; [done|]. split; [done|]. exists [(now, evs)].
  split; [by apply track_run_one|]. split; [by rewrite stamped_cons, app_nil_r|].
  by constructor.
Qed.

Lemma tracks_trans g1 g2 g3 e1 e2 now :
  tracks g1 g2 e1 now -> tracks g2 g3 e2 now -> tracks g1 g3 (e1 ++ e2) now.
Proof.
  intros (C1 & _ & s1 & R1 & S1 & F1) (C2 & K2 & s2 & R2 & S2 & F2).
  split; [congruence|]. split; [done|]. exists (s1 ++ s2). rewrite C1 in R2.
  split; [by eapply track_run_app|]. split; [by rewrite stamped_app, S1, S2, fmap_app|].
  rewrite fmap_app. by apply Forall_app.
Qed.

(** A silent first leg. *)
Lemma tracks_quiet g1 g2 g3 e now :
  tracks g1 g2 [] now -> tracks g2 g3 e now -> tracks g1 g3 e now.
Proof. apply (tracks_trans g1 g2 g3 []). Qed.

Lemma tracks_clock g g' e now : tracks g g' e now -> clock_ok g' now.
Proof. by intros (_ & ? & _). Qed.

(** ** The operations *)

Section Ops.
Context (Src : Z -> list byte -> Z -> Prop).

Lemma timer_tracks g now :
  inv Src g -> settled g -> clock_ok g now -> is_u64 now ->
  next_expected_ g + kCapacity < 2 ^ 64 ->
  exists g' evs, check_gap_timeout g now = Ok (g', evs) /\ tracks g g' evs now.
Proof.
  intros Hi Hs Hk Hu Hn. destruct (request_due g now) eqn:Hd.
  2:{ exists g, []. rewrite check_gap_timeout_idle by done. by split; [|apply tracks_refl]. }
  pose proof Hd as Hd0. unfold request_due in Hd.
  rewrite !andb_true_iff, negb_true_iff, Z.eqb_neq in Hd. destruct Hd as [[Hg _] Hd].
  destruct (check_gap_timeout_due g now Hd0 (inv_gap _ _ Hi)) as (j & Hj & ->).
  assert (Eg := st_gap _ Hs Hg). rewrite Eg, u64_small in Hj
    by (pose proof (inv_next _ _ Hi); unfold kCapacity in *; width).
  apply scan_result_missing_run in Hj as [[Hj0 _] _].
  2:{ destruct (present g (next_expected_ g)) eqn:E; [|done].
      by destruct (st_quiet _ Hs); apply ready_present. }
  rewrite (proj2 (Z.eqb_neq j 0)) by lia. eexists _, _. split; [done|].
  unfold clock_ok in *. apply tracks_one; [done | unfold clock_ok; cbn; lia |].
  constructor; [done | | done]. unfold due. cbn.
  destruct (gap_last_retx_ns g =? 0); apply Z.leb_le in Hd; rewrite u64_small in Hd; width.
Qed.

Lemma handle_gap_tracks g rcv now g' evs :
  handle_gap g rcv now = (g', evs) -> clock_ok g now -> 0 <= now ->
  1 <= next_expected_ g < rcv -> is_u64 rcv -> tracks g g' evs now.
Proof.
  intros H Hk Hp Hn Hr. unfold handle_gap in H. destruct (Z.eqb_spec (gap_start_ g) 0) as [E|E].
  - injection H as <- <-. apply tracks_one; [done | unfold clock_ok; cbn; lia |].
    unfold track_of. cbn. rewrite E. apply ts_open with rcv; [lia | lia |].
    rewrite u64_small by width. destruct (on_gap_ g); auto.
  - injection H as <- <-. by apply tracks_refl.
Qed.

Lemma deliver_tracks g g2 evs c now :
  delivers Src g g2 evs c -> clock_ok g now -> tracks g (clear_gap g2) evs now.
Proof.
  intros D Hk. pose proof (dl_control _ _ _ _ _ D) as Hctl. unfold control in Hctl.
  assert (Hf : cfg_ g2 = cfg_ g /\ gap_start_ g2 = gap_start_ g /\
    gap_detected_at_ns g2 = gap_detected_at_ns g /\ gap_last_retx_ns g2 = gap_last_retx_ns g)
    by (repeat split; congruence). destruct Hf as (F1 & F2 & F3 & F4).
  assert (Hk2 : clock_ok g2 now) by (unfold clock_ok in *; rewrite F3, F4; done).
  rewrite <-(app_nil_r evs). apply tracks_trans with g2.
  - apply tracks_one; [done | done|]. unfold track_of. rewrite F2, F3, F4.
    rewrite (dl_only _ _ _ _ _ D). constructor.
    pose proof (dl_next _ _ _ _ _ D). pose proof (dl_count _ _ _ _ _ D). lia.
  - unfold clear_gap. destruct (Z.eqb_spec (gap_start_ g2) 0); [by apply tracks_refl|].
    destruct (Z.ltb_spec (gap_start_ g2) (next_expected_ g2)); [|by apply tracks_refl].
    apply tracks_one; [done | done | by constructor].
Qed.

Lemma sync_tracks g hdr now :
  0 <= MoldHeader.seq_num hdr -> clock_ok g now -> tracks g (sync_session g hdr) [] now.
Proof.
  intros Hq Hk. unfold sync_session. destruct (Z.eqb_spec (next_expected_ g) 0) as [E|]; cbn.
  2:{ by apply tracks_refl. }
  destruct (session_synced_ g); [by apply tracks_refl|].
  apply tracks_one; [done | done|]. unfold track_of. cbn.
  apply (ts_advance _ _ _ _ _ _ _ []). lia.
Qed.

Lemma synced_tracks g hdr payload len now :
  inv Src g -> settled g -> session_synced_ g = true -> clock_ok g now -> is_u64 now ->
  1 <= next_expected_ g -> next_expected_ g + kCapacity < 2 ^ 64 ->
  MoldHeader.wf hdr -> no_wrap hdr -> kMoldHeaderSize <= len <= blen payload ->
  packet_src Src hdr payload len now ->
  exists g' evs r, ingest_synced g hdr payload len now = Ok (g', evs, r) /\ tracks g g' evs now.
Proof.
  intros Hi Hs Hy Hk Hu Hn1 Hn Hwf Hw Hlen Hsrc. unfold ingest_synced.
  destruct (MoldHeader.is_heartbeat hdr).
  { destruct (inv_counters Src g (inc_heartbeats g)) as [Hi0 Hs0]; [done..|].
    destruct (timer_tracks (inc_heartbeats g) now Hi0 Hs0 Hk Hu Hn) as (g' & evs & -> & Ht).
    rewrite bind_Ok. eexists g', _, _. split; [done|].
    eapply tracks_quiet; [|exact Ht]. by apply tracks_refl. }
  set (g0 := add_messages _ _). cbv zeta.
  destruct (inv_counters Src g g0) as [Hi0 Hs0]; [done..|].
  assert (Ht0 : tracks g g0 [] now) by (by apply tracks_refl).
  destruct (_ <? next_expected_ g0).
  { eexists _, _, _. split; [done|]. by apply tracks_refl. }
  destruct (Z.ltb_spec (next_expected_ g0) (MoldHeader.seq_num hdr)) as [Hgt|Hle].
  - destruct (handle_gap g0 (MoldHeader.seq_num hdr) now) as [g1 e1] eqn:E1.
    destruct (handle_gap_inv Src g0 _ _ _ _ Hi0 Hs0 Hy E1)
      as (Hi1 & Hs1 & _ & N1 & Y1 & _ & _ & _ & G1).
    assert (Ht1 : tracks g0 g1 e1 now).
    { eapply handle_gap_tracks; try done; [width|]. apply Hwf. }
    destruct (buffer_packet_inv Src g1 hdr payload len now)
      as (g2 & E2 & Hi2 & R2 & N2 & G2 & Y2 & _); [try done; try lia..|].
    { apply (st_quiet _ Hs1). }
    assert (Hs2 : settled g2).
    { split; [done | | by rewrite Y2, Y1]. rewrite G2, N2, G1, N1. done. }
    assert (Ht2 : tracks g1 g2 [] now).
    { rewrite (buffer_packet_eq Src) in E2 by done. injection E2 as <-.
      pose proof (tracks_clock _ _ _ _ Ht1). destruct (collides _ _); by apply tracks_refl. }
    rewrite E2, bind_Ok.
    destruct (timer_tracks g2 now) as (g3 & e3 & -> & Ht3); try done.
    { by eapply tracks_clock. } { rewrite N2, N1. done. }
    rewrite bind_Ok. eexists g3, _, 0. split; [done|].
    eapply tracks_quiet; [exact Ht0|]. eapply tracks_trans; [exact Ht1|].
    by eapply tracks_quiet.
  - destruct (ingest_deliver Src g0 hdr payload len now)
      as (g1 & e1 & c1 & g2 & e2 & c2 & -> & E2 & D & _); [try done; try lia..|].
    rewrite bind_Ok, E2, bind_Ok. eexists _, _, _. split; [done|].
    eapply tracks_quiet; [exact Ht0|]. by eapply deliver_tracks.
Qed.

End Ops.

(** ** Runs *)

Definition input_time (i : input) : Z :=
  match i with Datagram _ _ now => now | Tick now => now end.

(** The events of a run with the time of the input that caused them. *)
Fixpoint timeline (g : t) (ins : list input) : list (Z * event) :=
  match ins with
  | [] => []
  | i :: ins' =>
      match apply_input g i with
      | Ok (g1, evs) => ((fun e => (input_time i, e)) <$> evs) ++ timeline g1 ins'
      | Fault _ => []
      end
  end.

(** Sequence numbers as exchanges number them: from 1, a ring below the wrap. *)
Definition numbered (i : input) : Prop :=
  match i with
  | Datagram payload len _ =>
      len <= blen payload /\
      (kMoldHeaderSize <= len ->
         1 <= MoldHeader.seq_num (header payload) /\
         MoldHeader.seq_num (header payload) + MoldHeader.msg_count (header payload)
           + kCapacity < 2 ^ 64)
  | Tick _ => True
  end.

(** A delivered message leaves room for the ring above it. *)
Definition room (k : Z) (_ : list byte) (_ : Z) : Prop := k + 1 + kCapacity < 2 ^ 64.

Lemma bodies_bound n payload cursor end_ i b :
  bodies n payload cursor end_ !! i = Some b -> (i < n)%nat.
Proof.
  revert cursor i. induction n as [|n IH]; intros cursor i H; [done|].
  unfold bodies in *. cbn [walk] in H.
  destruct (cursor + 2 <=? end_); [|done]. cbv zeta in H.
  destruct (_ <? _) in H; [done|].
  destruct i as [|i]; [lia|]. cbn in H. apply IH in H. lia.
Qed.

Lemma numbered_input_ok i : numbered i -> input_ok room i.
Proof.
  destruct i as [payload len now|now]; [|done]. intros [Hl Hn]. split; [done|].
  intros Hlen. destruct (Hn Hlen) as [H1 H2]. split.
  - unfold no_wrap, kCapacity in *. lia.
  - intros k b Hk. apply bodies_bound in Hk. unfold room. lia.
Qed.

(** What the run keeps true of the tracker's fields. *)
Record tracked (g : t) : Prop := {
  td_inv : inv room g;
  td_settled : settled g;
  td_on : on_message_ g = true;
  td_low : next_expected_ g + kCapacity < 2 ^ 64;
  td_start : session_synced_ g = true -> 1 <= next_expected_ g
}.

Lemma follows_low g g' evs n0 :
  follows room g g' evs n0 -> on_message_ g = true -> n0 + kCapacity < 2 ^ 64 ->
  next_expected_ g' + kCapacity < 2 ^ 64.
Proof.
  intros [_ _ Hle Hseq Hsrc _ _] Hon Hn. rewrite Hon in Hseq.
  destruct (decide (next_expected_ g' = n0)) as [->|Hne]; [done|].
  assert (Hlk : (MoldMessage.seq_num <$> messages evs) !! Z.to_nat (next_expected_ g' - n0 - 1)
                = Some (next_expected_ g' - 1)).
  { rewrite Hseq. apply lookup_seqZ. lia. }
  apply list_lookup_fmap_Some in Hlk as (m & Hs & Hm).
  apply (Forall_lookup_1 _ _ _ _ Hsrc) in Hm as [Hm _]. unfold room in Hm. lia.
Qed.

Lemma ingest_tracks g payload len now :
  tracked g -> numbered (Datagram payload len now) -> clock_ok g now -> is_u64 now ->
  exists g' evs r,
    ingest g payload len now = Ok (g', evs, r) /\ tracks g g' evs now /\ tracked g'.
Proof.
  intros Htd Hnum Hk Hu. pose proof (numbered_input_ok _ Hnum) as Hok. destruct Htd.
  destruct (ingest_follows room g payload len now) as (g' & evs & r & E & F); [done..|].
  destruct (decide (len < kMoldHeaderSize)) as [Hlt|Hge].
  { destruct F as (-> & -> & ->). exists g, [], (-1).
    split; [done|]. split; [by apply tracks_refl | done]. }
  destruct F as (F & _ & Y'). destruct Hnum as [Hlen Hn].
  destruct (Hn ltac:(lia)) as [Hn1 Hn2]. destruct Hok as [_ Hok].
  destruct (Hok ltac:(lia)) as [Hw Hsrc].
  assert (Hr : 1 <= resume g payload /\ resume g payload + kCapacity < 2 ^ 64).
  { unfold resume. destruct (session_synced_ g) eqn:Y; [auto|].
    pose proof (header_wf payload ltac:(lia)) as (_ & _ & ?). width. }
  exists g', evs, r. split; [done|]. split.
  - rewrite ingest_long in E by lia.
    assert (Hwf : MoldHeader.wf (header payload)) by (apply header_wf; lia).
    destruct (sync_session_inv room g (header payload)) as (Hi1 & Hs1 & Y1 & N1 & _); [done..|].
    set (g1 := sync_session g (header payload)) in *. change (next_expected_ g1 = resume g payload) in N1.
    assert (Ht1 : tracks g g1 [] now) by (by apply sync_tracks; [width|]).
    destruct (synced_tracks room g1 (header payload) payload len now)
      as (g2 & e2 & r2 & E2 & Ht2); try done.
    { by eapply tracks_clock. } { lia. } { lia. } { lia. }
    rewrite E2 in E. injection E as -> -> ->. by eapply tracks_quiet.
  - split; [apply F | apply F | | | ].
    + rewrite (fo_on _ _ _ _ _ F). done.
    + eapply follows_low; [exact F | done | lia].
    + intros _. pose proof (fo_le _ _ _ _ _ F). lia.
Qed.

Lemma apply_input_tracks g i :
  tracked g -> numbered i -> clock_ok g (input_time i) -> is_u64 (input_time i) ->
  exists g' evs,
    apply_input g i = Ok (g', evs) /\ tracks g g' evs (input_time i) /\ tracked g'.
Proof.
  intros Htd Hn Hk Hu. destruct i as [payload len now|now]; cbn [apply_input input_time] in *.
  - destruct (ingest_tracks g payload len now) as (g' & evs & r & -> & Ht & Htd'); [done..|].
    rewrite bind_Ok. by exists g', evs.
  - unfold tick. destruct Htd.
    destruct (timer_tracks room g now) as (g' & evs & E & Ht); [done..|].
    exists g', evs. split; [done|]. split; [done|].
    destruct (timer_step room g now) as (g2 & e2 & E2 & Hf & F); [done..|].
    rewrite E in E2. injection E2 as <- <-. destruct Hf.
    split; [apply F | apply F | congruence | congruence |].
    rewrite tf_synced, tf_next. done.
Qed.

Lemma clocked_app from a now :
  Forall (fun n => n = now) a -> from <= now -> forall b, clocked now b -> clocked from (a ++ b).
Proof.
  intros Ha. revert from. induction Ha as [|x a -> _ IH]; intros from Hf b Hb; cbn.
  - destruct b; cbn in *; [done | split; [lia | tauto]].
  - split; [done|]. by apply IH.
Qed.

Lemma run_tracks g from ins :
  tracked g -> Forall numbered ins -> clock_ok g from ->
  clocked from (input_time <$> ins) -> Forall is_u64 (input_time <$> ins) ->
  exists steps t',
    track_run (cfg_ g) (track_of g) steps t' /\ stamped steps = timeline g ins /\
    clocked from steps.*1.
Proof.
  revert g from. induction ins as [|i ins IH]; intros g from Htd Hnum Hk Hc Hu.
  { exists [], (track_of g). split; [constructor | done]. }
  cbn [fmap list_fmap clocked] in Hc, Hu. destruct Hc as [Hle Hc].
  apply Forall_cons in Hnum as [Hn Hnum]. apply Forall_cons in Hu as [Hu1 Hu].
  destruct (apply_input_tracks g i) as (g1 & e1 & E & (C1 & K1 & s1 & R1 & S1 & F1) & Htd1);
    [done | done | unfold clock_ok in *; lia | done |].
  destruct (IH g1 (input_time i)) as (s2 & t' & R2 & S2 & K2); [done..|].
  exists (s1 ++ s2), t'. rewrite C1 in R2. split; [by eapply track_run_app|].
  cbn [timeline]. rewrite E, stamped_app, S1, S2. split; [done|].
  rewrite fmap_app. by eapply clocked_app.
Qed.

Lemma listening_tracked c on_gap on_retx :
  length (cfg_session c) = 10%nat -> tracked (listening c true on_gap on_retx).
Proof.
  intros Hc. split; [by apply listening_inv | by apply (listening_settled room) | done..].
Qed.

(** C7.  Requests are rate-limited: however packets and ticks are interleaved, on a
    clock that does not go back two successive retransmit requests are at least
    [min(gap_timeout_ns, retry_interval_ns)] apart (never a request per packet
    while a gap is open). *)
Theorem requests_rate_limited (c : Config) (on_gap on_retx : bool) (ins : list input) :
  length (cfg_session c) = 10%nat -> Forall numbered ins ->
  clocked 1 (input_time <$> ins) -> Forall is_u64 (input_time <$> ins) ->
  spaced (Z.min (gap_timeout_ns c) (retry_interval_ns c)) None
         (request_times (timeline (listening c true on_gap on_retx) ins)).
Proof.
  intros Hc Hnum Hk Hu.
  destruct (run_tracks (listening c true on_gap on_retx) 1 ins)
    as (steps & t' & R & <- & Hcl); [by apply listening_tracked | done | done | done | done |].
  by eapply track_run_spaced; [| |exact Hcl|exact R].
Qed.

(** Requests at 600 (first), 1700 (retry), none at 1650 or 1000. *)
Definition test_pending : list input :=
  [datagram 1 [test_stream 1] 10; datagram 4 [test_stream 4] 20; Tick 600; Tick 1000;
   datagram 5 [test_stream 5] 1550; Tick 1700; datagram 2 [test_stream 2; test_stream 3] 1800;
   datagram 7 [test_stream 7] 1900; Tick 2500].

Lemma requests_rate_limited_witness :
  spaced (Z.min (gap_timeout_ns test_config) (retry_interval_ns test_config)) None
         (request_times (timeline (listening test_config true true true) test_pending)).
Proof.
  apply requests_rate_limited; [reflexivity | ..];
    repeat (apply Forall_cons; split); try (by apply Forall_nil); by vm_compute.
Defined.

Example test_pending_requests :
  request_times (timeline (listening test_config true true true) test_pending) = [600; 1700; 2500].
Proof. by vm_compute. Qed.

(** Gaps are reported once: over any run the reported gaps start at strictly
    increasing sequence numbers, each a non-empty range of missing sequences
    below the packet that revealed it. *)
Theorem gaps_reported_once (c : Config) (on_gap on_retx : bool) (ins : list input) :
  length (cfg_session c) = 10%nat -> Forall numbered ins ->
  clocked 0 (input_time <$> ins) -> Forall is_u64 (input_time <$> ins) ->
  ascending 0 (gap_reports (timeline (listening c true on_gap on_retx) ins)).
Proof.
  intros Hc Hnum Hk Hu.
  destruct (run_tracks (listening c true on_gap on_retx) 0 ins)
    as (steps & t' & R & <- & Hcl); [by apply listening_tracked | done | done | done | done |].
  eapply track_run_ascending; [|exact R]. split; cbn; [lia | by right | done].
Qed.

Lemma gaps_reported_once_witness :
  ascending 0 (gap_reports (timeline (listening test_config true true true) test_pending)).
Proof.
  apply gaps_reported_once; [reflexivity | ..];
    repeat (apply Forall_cons; split); try (by apply Forall_nil); by vm_compute.
Defined.

Example test_pending_gaps :
  gap_reports (timeline (listening test_config true true true) test_pending)
  = [mk_GapEvent 2 3 20; mk_GapEvent 6 6 1900].
Proof. by vm_compute. Qed.
