(* ===== verification/GapEdge.v ===== *)
(** * GapEdge: behaviour at the edges of the buffer's design

    What the code does where its sentinels and its ring run out: sequence 0 as
    the first sequence, a gap filled only in part, and slots that are passed
    over without being delivered. *)

From stdpp Require Import base gmap list strings fin_maps.
From Stdlib Require Import ZArith Lia.
From S2P Require Import Prelude WireFormat WireLemmas GapBuf GapWalk Framing.
From S2P Require Import GapInv GapStep GapRun GapProps.

#[local] Open Scope Z_scope.
Import GapBuffer.

(** ** A session that starts with sequence 0 *)

(** The buffer is synchronised at sequence 0, which is also the "no gap" sentinel. *)
Record wedged (Src : Z -> list byte -> Z -> Prop) (g : t) : Prop := {
  wd_inv : inv Src g;
  wd_synced : session_synced_ g = true;
  wd_next : next_expected_ g = 0;
  wd_gap : gap_start_ g = 0
}.

(** Anything but a packet of sequence 0 that has messages. *)
Definition after_zero (i : input) : Prop :=
  match i with
  | Datagram payload len _ =>
      sane payload len /\
      (kMoldHeaderSize <= len -> MoldHeader.is_heartbeat (header payload) = false ->
         1 <= MoldHeader.seq_num (header payload))
  | Tick _ => True
  end.

Lemma wedged_frame Src g g' :
  slots_ g' = slots_ g -> session_ g' = session_ g -> next_expected_ g' = next_expected_ g ->
  gap_start_ g' = gap_start_ g -> stat_delivered_ g' = stat_delivered_ g ->
  session_synced_ g' = session_synced_ g -> wedged Src g -> wedged Src g'.
Proof.
  intros Hs Hse Hn Hg Hd Hy [Hi Y N G]. split; [|congruence..].
  destruct Hi. split; rewrite ?Hs, ?Hse, ?Hn, ?Hg, ?Hd; done.
Qed.

Lemma timer_wedged Src g now : wedged Src g -> check_gap_timeout g now = Ok (g, []).
Proof. intros []. unfold check_gap_timeout. by rewrite wd_gap0. Qed.

Lemma wedged_step Src g i :
  wedged Src g -> after_zero i -> input_ok Src i ->
  exists g' evs, apply_input g i = Ok (g', evs) /\ wedged Src g' /\ messages evs = [].
Proof.
  intros Hw Hz Hok. destruct i as [payload len now|now]; cbn [apply_input].
  2:{ exists g, []. unfold tick. by rewrite (timer_wedged Src). }
  destruct (decide (len < kMoldHeaderSize)).
  { exists g, []. by rewrite ingest_short. }
  destruct Hok as [Hlen Hok]. destruct (Hok ltac:(lia)) as [Hnw Hsrc].
  destruct Hz as [_ Hz]. specialize (Hz ltac:(lia)).
  rewrite ingest_long by lia.
  assert (sync_session g (header payload) = g) as ->
    by (unfold sync_session; by rewrite (wd_synced _ _ Hw), andb_false_r).
  unfold ingest_synced. destruct (MoldHeader.is_heartbeat (header payload)) eqn:Hh.
  { rewrite (timer_wedged Src) by (by apply (wedged_frame Src g)).
    rewrite !bind_Ok. eexists _, _. split; [done|]. split; [|done].
    by apply (wedged_frame Src g). }
  specialize (Hz eq_refl). pose proof (header_wf payload ltac:(lia)) as (_ & Hq & Hc).
  set (g0 := add_messages _ _). cbv zeta.
  assert (Hw0 : wedged Src g0) by (by apply (wedged_frame Src g)).
  rewrite (wd_next _ _ Hw0).
  rewrite (proj2 (Z.ltb_ge (u64 _) 0)) by apply u64_range.
  rewrite (proj2 (Z.ltb_lt 0 _)) by lia.
  unfold handle_gap. rewrite (wd_gap _ _ Hw0), Z.eqb_refl. cbv zeta. cbn [fst snd].
  set (g1 := inc_gaps _).
  assert (Hw1 : wedged Src g1).
  { apply (wedged_frame Src g0); try done. cbn. by rewrite (wd_gap _ _ Hw), (wd_next _ _ Hw). }
  rewrite (buffer_packet_eq Src) by (try lia; apply Hw1).
  rewrite bind_Ok. set (g2 := if collides g1 _ then inc_buffer_overflows g1 else _).
  assert (Hw2 : wedged Src g2).
  { unfold g2. destruct (collides _ _); [by apply (wedged_frame Src g1)|].
    destruct Hw1 as [Hi1 ? ? ?]. split; [|done..]. apply inv_put_slot; [done|].
    apply stored_ok; try done; [by apply header_wf; lia | lia]. }
  rewrite (timer_wedged Src g2), !bind_Ok by done.
  eexists _, _. split; [done|]. split; [done|].
  rewrite messages_app. by destruct (on_gap_ g1).
Qed.

Lemma wedged_run Src g ins :
  wedged Src g -> Forall after_zero ins -> Forall (input_ok Src) ins ->
  exists g' evs, run g ins = Ok (g', evs) /\ wedged Src g' /\ messages evs = [].
Proof.
  intros Hw Hz. revert g Hw. induction Hz as [|i ins Hi _ IH]; intros g Hw Hok; [by exists g, []|].
  apply Forall_cons in Hok as [Hok1 Hok].
  destruct (wedged_step Src g i) as (g1 & e1 & E1 & Hw1 & M1); [done..|].
  destruct (IH g1 Hw1 Hok) as (g2 & e2 & E2 & Hw2 & M2).
  cbn [run]. rewrite E1, bind_Ok, E2, bind_Ok. exists g2, (e1 ++ e2).
  split; [done|]. split; [done|]. by rewrite messages_app, M1, M2.
Qed.

(** Sequence 0 wedges the receiver: when the first datagram is a heartbeat
    whose sequence number is 0 (what an idle publisher may send), the session
    is synchronised at 0, the sentinel [gap_start_ == 0] can no longer record
    the gap, and no message of any later packet is ever delivered, nor
    [next_expected_] moved. *)
Theorem zero_heartbeat_wedges (c : Config) (on_gap on_retx : bool)
    (payload : list byte) (len now : Z) (ins : list input) :
  length (cfg_session c) = 10%nat ->
  kMoldHeaderSize <= len <= blen payload ->
  MoldHeader.is_heartbeat (header payload) = true ->
  MoldHeader.seq_num (header payload) = 0 ->
  Forall after_zero ins ->
  exists g evs,
    run (listening c true on_gap on_retx) (Datagram payload len now :: ins) = Ok (g, evs) /\
    messages evs = [] /\ next_expected_ g = 0.
Proof.
  intros Hc Hlen Hh Hq Hz. set (Src := fun (_ : Z) (_ : list byte) (_ : Z) => True).
  assert (Hi0 : inv Src (listening c true on_gap on_retx)) by (by apply listening_inv).
  assert (Hs0 : settled (listening c true on_gap on_retx)) by (by apply (listening_settled Src)).
  destruct (sync_session_inv Src _ (header payload) Hi0 Hs0) as (Hi1 & _ & Y1 & N1 & _);
    [by apply header_wf; lia|]. rewrite Hq in N1.
  set (g0 := sync_session _ _) in *.
  assert (Hw : wedged Src (inc_heartbeats g0))
    by (split; [destruct Hi1; by split | done | done | done]).
  destruct (wedged_run Src _ ins Hw Hz) as (g & evs & E & Hw' & M).
  { eapply Forall_impl; [exact Hz|]. intros [p l t|t]; [|done]. intros [[Hl Hn] _].
    split; [done|]. intros Hge. split; [by apply Hn|]. by intros ???. }
  exists g, evs. cbn [run apply_input]. rewrite ingest_long by done. fold g0.
  unfold ingest_synced. rewrite Hh, (timer_wedged Src), !bind_Ok, E, bind_Ok by done.
  split; [done|]. split; [done | apply Hw'].
Qed.

Definition test_heartbeat : list byte := packet_wire session_bytes 0 [].

Lemma zero_heartbeat_wedges_witness :
  exists g evs,
    run (listening test_config true true true)
      [Datagram test_heartbeat 20 5; datagram 1 [test_stream 1] 10; Tick 20;
       datagram 2 [test_stream 2] 30] = Ok (g, evs) /\
    messages evs = [] /\ next_expected_ g = 0.
Proof.
  apply (zero_heartbeat_wedges test_config true true test_heartbeat 20 5);
    [by vm_compute | by vm_compute | by vm_compute | by vm_compute |].
  repeat (apply Forall_cons; split); [.. | by apply Forall_nil]; by vm_compute.
Defined.

(** ** A gap that is filled in part *)

Definition partial_fill : list input :=
  [datagram 1 [test_stream 1] 10; datagram 4 [test_stream 4] 20; datagram 2 [test_stream 2] 30].

(** A partial fill forgets the rest of the gap: after 1, 4 and then 2, sequence
    3 is still missing and 4 still waits for it, yet the buffer is no longer in a
    gap and no later tick, at whatever time, asks for a retransmission. *)
Theorem partial_fill_forgets_gap :
  exists g evs,
    run (listening test_config true true true) partial_fill = Ok (g, evs) /\
    next_expected_ g = 3 /\ present g 4 = true /\ in_gap g = false /\
    forall now, tick g now = Ok (g, []).
Proof.
  destruct (probe_ok (fun '(g, _) => (next_expected_ g, present g 4, in_gap g, gap_start_ g))
              (run (listening test_config true true true) partial_fill) (3, true, false, 0))
    as ([g evs] & E & [= Hn Hp Hg Hs]); [by vm_compute|].
  exists g, evs. split; [done|]. split; [done|]. split; [done|]. split; [done|].
  intros now. unfold tick, check_gap_timeout. by rewrite Hs.
Qed.

(** ** A slot that is passed over *)

(** 3 waits, then 2-3 arrive together: 3 is delivered from the second packet and
    its slot stays occupied; 4099 has the same slot. *)
Definition passed_over : list input :=
  [datagram 1 [test_stream 1] 10; datagram 3 [test_stream 3] 20;
   datagram 2 [test_stream 2; test_stream 3] 30].

Definition passed_over_ring : list byte := packet_wire session_bytes 4099 [test_stream 4099].

(** A passed-over slot is never reclaimed: the slot of a buffered packet whose
    messages were delivered from an overlapping packet stays occupied, and a
    later packet of the same slot, well inside the 4096-sequence window, is
    counted as an overflow and dropped. *)
Theorem stale_slot_drops_packet :
  exists g evs g' evs' r,
    run (listening test_config true true true) passed_over = Ok (g, evs) /\
    next_expected_ g = 4 /\ occupied_slots g = 1%nat /\
    ingest g passed_over_ring (blen passed_over_ring) 40 = Ok (g', evs', r) /\
    4099 - next_expected_ g < kCapacity /\
    stat_buffer_overflows_ g' = 1 /\ present g' 4099 = false.
Proof.
  destruct (probe_ok (fun '(g, _) =>
      (next_expected_ g, occupied_slots g,
       probe (fun '(g', _, _) => (stat_buffer_overflows_ g', present g' 4099))
             (ingest g passed_over_ring (blen passed_over_ring) 40)))
    (run (listening test_config true true true) passed_over)
    (4, 1%nat, Some (1, false))) as ([g evs] & E & [= Hn Ho Hp]); [by vm_compute|].
  apply probe_ok in Hp as ([[g' evs'] r] & E' & [= Hs Hq]).
  exists g, evs, g', evs', r. rewrite Hn. repeat (split; [done|]). done.
Qed.
