(* ===== verification/Sink.v ===== *)
(** * Sink: what a packet consumer promises to the layers that feed it

    The arbitrator and the receiver forward datagrams to a gap buffer and read
    its return value.  They are modelled over this interface; [GapBuffer] is an
    instance. *)

From stdpp Require Import base gmap list strings fin_maps.
From Stdlib Require Import ZArith Lia.
From S2P Require Import Prelude WireFormat WireLemmas GapBuf GapWalk Framing.
From S2P Require Import GapInv GapStep GapRun GapProps.

#[local] Open Scope Z_scope.

(** The operations a packet consumer has. *)
Class PacketSink (T : Type) := {
  sink_ingest : T -> list byte -> Z -> Z -> res (T * list event * Z);
  sink_tick : T -> Z -> res (T * list event)
}.

(** What the result of one call says: [-1] for a datagram that is no packet, else
    the number of messages the call handed over. *)
Definition counts (evs : list event) (r : Z) : Prop :=
  (r = -1 /\ messages evs = []) \/ (0 <= r /\ r = Z.of_nat (length (messages evs))).

(** Its contract, for states satisfying [sink_ok] and acceptable datagrams. *)
Class PacketSinkLaws (T : Type) `{PacketSink T} := {
  sink_ok : T -> Prop;
  sink_accepts : list byte -> Z -> Prop;
  sink_ingest_law s payload len now :
    sink_ok s -> sink_accepts payload len ->
    exists s' evs r,
      sink_ingest s payload len now = Ok (s', evs, r) /\ sink_ok s' /\ counts evs r;
  sink_tick_law s now :
    sink_ok s ->
    exists s' evs, sink_tick s now = Ok (s', evs) /\ sink_ok s' /\ messages evs = []
}.

#[export] Instance GapBuffer_sink : PacketSink GapBuffer.t := {
  sink_ingest := GapBuffer.ingest;
  sink_tick := GapBuffer.tick
}.

(** No constraint on the messages. *)
Definition unconstrained : Z -> list byte -> Z -> Prop := fun _ _ _ => True.

(** A buffer with a consumer, between two calls. *)
Record buffer_ok (g : GapBuffer.t) : Prop := {
  bo_inv : inv unconstrained g;
  bo_settled : settled g;
  bo_on : GapBuffer.on_message_ g = true
}.

Lemma sane_unconstrained payload len now :
  sane payload len -> datagram_ok unconstrained payload len now.
Proof.
  intros [Hl Hw]. split; [done|]. intros Hlen. split; [by apply Hw|]. by intros ???.
Qed.

Lemma listening_ok c on_gap on_retx :
  length (GapBuffer.cfg_session c) = 10%nat -> buffer_ok (listening c true on_gap on_retx).
Proof. intros. split; [by apply listening_inv | by apply (listening_settled unconstrained) | done]. Qed.

Lemma ingest_count g payload len now :
  buffer_ok g -> sane payload len ->
  exists g' evs r,
    GapBuffer.ingest g payload len now = Ok (g', evs, r) /\ buffer_ok g' /\ counts evs r.
Proof.
  intros [Hi Hs Hon] Hok. apply (sane_unconstrained _ _ now) in Hok.
  destruct (ingest_follows unconstrained g payload len now Hi Hs Hok) as (g' & evs & r & E & F).
  exists g', evs, r. split; [done|]. destruct (decide (len < kMoldHeaderSize)).
  - destruct F as (-> & -> & ->). split; [done|]. by left.
  - destruct F as ([] & -> & _). split; [split; congruence|]. right. split; [lia|].
    rewrite Hon in fo_seqs. apply (f_equal length) in fo_seqs.
    rewrite length_fmap, length_seqZ in fo_seqs. lia.
Qed.

Lemma tick_count g now :
  buffer_ok g ->
  exists g' evs, GapBuffer.tick g now = Ok (g', evs) /\ buffer_ok g' /\ messages evs = [].
Proof.
  intros [Hi Hs Hon]. destruct (timer_step unconstrained g now Hi Hs) as (g' & evs & E & Ht & F).
  exists g', evs. split; [done|]. destruct Ht, F. split; [split; congruence | done].
Qed.

#[export] Instance GapBuffer_laws : PacketSinkLaws GapBuffer.t := {
  sink_ok := buffer_ok;
  sink_accepts := sane;
  sink_ingest_law := ingest_count;
  sink_tick_law := tick_count
}.
