(* ===== verification/Stats.v ===== *)
(** * Stats: latency and throughput recorders

    Models [include/feed/stats.hpp].  A method runs its atomic operations
    uninterrupted here, a [fetch_add] being a wrapped addition; [SharedHistogram]
    interleaves those of the histogram between threads.  [double] is
    binary64 and [long double] the 64-bit-mantissa format of x86-64, both as
    the Standard Library's [spec_float]; [print] is reduced to the values it
    formats. *)

From stdpp Require Import base gmap list strings fin_maps sorting.
From Stdlib Require Import ZArith Lia.
From Stdlib Require Import Floats.SpecFloat.
From S2P Require Import Prelude GapBuf.

#[local] Open Scope Z_scope.

(** ** Floating point *)

Abbreviation double := spec_float.

(** [double(n)] of an unsigned integer: round to nearest even. *)
Definition double_of (n : Z) : double := binary_normalize 53 1024 n 0 false.
Definition double_mul : double -> double -> double := SFmul 53 1024.
Definition double_div : double -> double -> double := SFdiv 53 1024.

(** The value of a non-negative finite double, rounded down or up. *)
Definition floor_of (x : double) : Z :=
  match x with
  | S754_finite false m e => Z.shiftl (Zpos m) e
  | _ => 0
  end.
Definition ceil_of (x : double) : Z :=
  match x with
  | S754_finite false m e => - Z.shiftl (- Zpos m) e
  | _ => 0
  end.

(** The literals 0.50, 0.90, 0.99 and 0.999. *)
Definition kP50 : double := S754_finite false 4503599627370496 (-53).
Definition kP90 : double := S754_finite false 8106479329266893 (-53).
Definition kP99 : double := S754_finite false 8917127262193582 (-53).
Definition kP999 : double := S754_finite false 8998192055486251 (-53).

(** [long double] *)
Definition extended_of (n : Z) : spec_float := binary_normalize 64 16384 n 0 false.
Definition double_of_extended (x : spec_float) : double :=
  match x with
  | S754_finite s m e => binary_round 53 1024 s m e
  | x => x
  end.

Module LatencyHistogram.

Definition kBuckets : Z := 64.

Record t := mk { counts_ : list Z; total_ : Z; sum_ : Z }.

Definition init : t := mk (replicate (Z.to_nat kBuckets) 0) 0 0.

(** [__builtin_clzll(ns)] for [ns <> 0]: leading zeros of 64 bits. *)
Definition clzll (ns : Z) : Z := 63 - Z.log2 ns.

Definition bucket (ns : Z) : Z := if ns =? 0 then 0 else Z.min (63 - clzll ns) (kBuckets - 1).

Definition fetch_add (l : list Z) (i : nat) (n : Z) : list Z :=
  <[i := u64 (default 0 (l !! i) + n)]> l.

Definition record (h : t) (ns : Z) : t :=
  mk (fetch_add (counts_ h) (Z.to_nat (bucket ns)) 1) (u64 (total_ h + 1)) (u64 (sum_ h + ns)).

Definition max_u64 : Z := 2 ^ 64 - 1.    (* ~0ULL *)

Fixpoint percentile_loop (counts : list Z) (i cum target : Z) : Z :=
  match counts with
  | [] => max_u64
  | c :: counts' =>
      let cum := u64 (cum + c) in
      if target <? cum then (if 63 <=? i then max_u64 else Z.shiftl 1 (i + 1))
      else percentile_loop counts' (i + 1) cum target
  end.

Definition target_of (p : double) (n : Z) : Z := floor_of (double_mul p (double_of n)).

Definition percentile (h : t) (p : double) : Z :=
  let n := total_ h in
  if n =? 0 then 0 else percentile_loop (counts_ h) 0 0 (target_of p n).

Definition mean_ns (h : t) : double :=
  let n := total_ h in
  if n =? 0 then S754_zero false else double_div (double_of (sum_ h)) (double_of n).

Definition count (h : t) : Z := total_ h.

(** The values [print] formats. *)
Definition print (h : t) : Z * double * Z * Z * Z :=
  (count h, mean_ns h, percentile h kP50, percentile h kP99, percentile h kP999).

End LatencyHistogram.

Module SampleRecorder.

(** [samples_]; [reserve] only allocates. *)
Definition t : Type := list Z.
Definition init : t := [].
Definition record (r : t) (ns : Z) : t := r ++ [ns].
Definition count (r : t) : Z := blen r.

Record Summary := mk_Summary {
  n : Z; mean : double; min : Z; p50 : Z; p90 : Z; p99 : Z; p999 : Z; max : Z
}.

(** [at(p)] on the sorted copy; out of range is a fault. *)
Definition rank (p : double) (size : Z) : Z := ceil_of (double_mul p (double_of size)).
Definition at_rank (v : list Z) (p : double) : res Z :=
  let k := rank p (blen v) in
  match v !! Z.to_nat (if k =? 0 then 0 else k - 1) with
  | Some x => mret x
  | None => Fault OutOfBounds
  end.

Definition mean_of (v : list Z) : double :=
  let sum := fold_left (fun s x => SFadd 64 16384 s (extended_of x)) v (S754_zero false) in
  double_of_extended (SFdiv 64 16384 sum (extended_of (blen v))).

Definition summarize (r : t) : res Summary :=
  match r with
  | [] => mret (mk_Summary 0 (S754_zero false) 0 0 0 0 0 0)
  | _ =>
      let v := merge_sort Z.le r in
      a50 ← at_rank v kP50;
      a90 ← at_rank v kP90;
      a99 ← at_rank v kP99;
      a999 ← at_rank v kP999;
      mret (mk_Summary (blen r) (mean_of v) (default 0 (head v)) a50 a90 a99 a999
                       (default 0 (list.last v)))
  end.

(** [print] formats all of the summary. *)
Definition print (r : t) : res Summary := summarize r.

End SampleRecorder.

Module ThroughputTracker.

Definition kWindowSec : Z := 5.
Definition kBuckets : Z := kWindowSec * 10.

Record Bucket := mk_Bucket { ts_100ms : Z; bucket_count : Z }.
Record t := mk { ring_ : list Bucket; total_ : Z }.

Definition init : t := mk (replicate (Z.to_nat kBuckets) (mk_Bucket 0 0)) 0.

Definition window_of (now_ns : Z) : Z := now_ns / 100000000.

Definition record (t0 : t) (now_ns count : Z) : t :=
  let slot := Z.to_nat (window_of now_ns mod kBuckets) in
  let b := default (mk_Bucket 0 0) (ring_ t0 !! slot) in
  let cur_window := window_of now_ns in
  let b := if ts_100ms b =? cur_window then b else mk_Bucket cur_window 0 in
  mk (<[slot := mk_Bucket (ts_100ms b) (u64 (bucket_count b + count))]> (ring_ t0))
     (u64 (total_ t0 + count)).

Definition msgs_per_sec (t0 : t) (now_ns : Z) : Z :=
  let cur := window_of now_ns in
  let sum := fold_left (fun sum b =>
      if cur <? u64 (ts_100ms b + kBuckets) then u64 (sum + bucket_count b) else sum) (ring_ t0) 0 in
  sum / kWindowSec.

Definition total (t0 : t) : Z := total_ t0.

End ThroughputTracker.
