(* ===== verification/FloatRank.v ===== *)
(** * FloatRank: the binary64 rounding behind the percentile ranks

    [stats.hpp] computes a rank as [p * double(n)] rounded up or down.  The
    lemmas here open the Standard Library's [spec_float] rounding (a shift to 53
    bits that keeps a round and a sticky bit, then round to nearest even), show
    that it stays within half a unit of the last kept bit, and conclude that
    for the literals of the source and [n < 2^43] the computed rank is the
    rational one, [num * n / den] rounded up or down. *)

From stdpp Require Import base list.
From Stdlib Require Import ZArith Lia.
From Stdlib Require Import Floats.SpecFloat.
From S2P Require Import Prelude GapBuf Stats.

#[local] Open Scope Z_scope.

(** ** Shifting right with a round and a sticky bit *)

(** [mrs] is [x] shifted right by [k]: [rest] is what the shift dropped. *)
Record shifted (x k : Z) (mrs : shr_record) : Prop := {
  sh_pos : 0 <= shr_m mrs;
  sh_rest : 0 <= x - shr_m mrs * 2 ^ k < 2 ^ k;
  sh_loc : match loc_of_shr_record mrs with
           | loc_Exact => x - shr_m mrs * 2 ^ k = 0
           | loc_Inexact c => (2 * (x - shr_m mrs * 2 ^ k) ?= 2 ^ k) = c
                              /\ 0 < x - shr_m mrs * 2 ^ k
           end
}.

Lemma shr_1_shifted x k mrs : 0 <= k -> shifted x k mrs -> shifted x (k + 1) (shr_1 mrs).
Proof.
  intros Hk [Hp Hr Hl]. destruct mrs as [m r s]. cbn [shr_m] in *.
  assert (Hk2 : 2 ^ (k + 1) = 2 * 2 ^ k) by (rewrite Z.pow_add_r by lia; lia).
  assert (H0 : 0 < 2 ^ k) by lia.
  destruct m as [|[p|p|]|p]; [..|lia]; destruct r, s; cbn [shr_1 orb];
    (split; cbn [shr_m loc_of_shr_record] in *; rewrite ?Z.compare_lt_iff, ?Z.compare_eq_iff, ?Z.compare_gt_iff in *;
      rewrite ?Hk2; generalize dependent (2 ^ k); intros; nia).
Qed.

Lemma iter_shifted p x k mrs :
  0 <= k -> shifted x k mrs -> shifted x (k + Zpos p) (iter_pos shr_1 p mrs).
Proof.
  revert x k mrs. induction p as [p IH|p IH|]; intros x k mrs Hk H; cbn [iter_pos].
  - replace (k + Zpos p~1) with (k + 1 + Zpos p + Zpos p) by lia.
    apply IH, IH, shr_1_shifted; [lia | lia | done | done].
  - replace (k + Zpos p~0) with (k + Zpos p + Zpos p) by lia. apply IH, IH; [lia | done | done].
  - by apply shr_1_shifted.
Qed.

Lemma shr_shifted x e d :
  0 <= x ->
  exists mrs, shr (shr_record_of_loc x loc_Exact) e d = (mrs, e + Z.max 0 d) /\ shifted x (Z.max 0 d) mrs.
Proof.
  intros Hx. assert (H0 : shifted x 0 (shr_record_of_loc x loc_Exact)) by (split; cbn; lia).
  destruct d as [|p|p]; cbn [shr].
  - eexists. split; [by rewrite Z.max_id, Z.add_0_r | done].
  - eexists. split; [done|]. exact (iter_shifted p x 0 _ ltac:(lia) H0).
  - rewrite Z.max_l by lia. eexists. split; [by rewrite Z.add_0_r | done].
Qed.

Lemma nearest_half x k mrs :
  shifted x k mrs ->
  let m := round_nearest_even (shr_m mrs) (loc_of_shr_record mrs) in
  shr_m mrs <= m <= shr_m mrs + 1 /\ 2 * Z.abs (m * 2 ^ k - x) <= 2 ^ k.
Proof.
  intros [Hp Hr Hl]. unfold round_nearest_even.
  destruct (loc_of_shr_record mrs) as [|[]];
    rewrite ?Z.compare_lt_iff, ?Z.compare_eq_iff, ?Z.compare_gt_iff in Hl;
    [|destruct (Z.even (shr_m mrs))|..]; generalize dependent (2 ^ k); intros; lia.
Qed.

Lemma digits_log2 p : Zpos (digits2_pos p) = Z.log2 (Zpos p) + 1.
Proof.
  induction p as [p IH|p IH|]; cbn [digits2_pos]; [..|done].
  - rewrite Pos2Z.inj_succ, IH, (Pos2Z.inj_xI p), Z.log2_succ_double by lia. lia.
  - rewrite Pos2Z.inj_succ, IH, (Pos2Z.inj_xO p), Z.log2_double by lia. lia.
Qed.

(** ** Rounding to 53 bits *)

(** How many bits of [x] are dropped. *)
Definition dropped (x : Z) : Z := Z.max 0 (Z.log2 x + 1 - 53).

Lemma max_fexp x e :
  0 < x -> -1074 <= e -> Z.max 0 (fexp 53 1024 (Z.log2 x + 1 + e) - e) = dropped x.
Proof. intros Hx He. unfold fexp, emin, dropped. pose proof (Z.log2_nonneg x). lia. Qed.

(** The mantissa after the first shift and the rounding: at most [2^53]. *)
Lemma rounded_mantissa x mrs :
  0 < x -> shifted x (dropped x) mrs ->
  let m := round_nearest_even (shr_m mrs) (loc_of_shr_record mrs) in
  0 < m <= 2 ^ 53 /\ 2 * Z.abs (m * 2 ^ dropped x - x) <= 2 ^ dropped x.
Proof.
  intros Hx Hs. destruct (nearest_half _ _ _ Hs) as [Hm Hd]. destruct Hs as [Hp Hr _].
  cbn zeta in *. split; [|done]. set (m := round_nearest_even _ _) in *.
  pose proof (Z.log2_spec x Hx) as [Hlo Hhi]. pose proof (Z.log2_nonneg x).
  unfold dropped in *. destruct (Z.le_gt_cases (Z.log2 x + 1) 53).
  - rewrite Z.max_l in * by lia. pose proof (Z.pow_le_mono_r 2 (Z.succ (Z.log2 x)) 53). lia.
  - rewrite Z.max_r in * by lia. set (k := Z.log2 x + 1 - 53) in *.
    replace (Z.succ (Z.log2 x)) with (53 + k) in Hhi by lia.
    replace (Z.log2 x) with (52 + k) in Hlo by lia.
    rewrite Z.pow_add_r in Hhi, Hlo by lia. generalize dependent (2 ^ k). intros. nia.
Qed.

(** A mantissa of at most [2^53] is shifted again without loss. *)
Lemma reshift_exact m mrs :
  0 < m <= 2 ^ 53 -> shifted m (dropped m) mrs -> shr_m mrs * 2 ^ dropped m = m /\ dropped m <= 1.
Proof.
  intros Hm [Hp Hr _]. destruct (Z.eq_dec m (2 ^ 53)) as [->|Hne].
  - change (dropped (2 ^ 53)) with 1 in *. lia.
  - assert (Z.log2 m < 53) by (apply Z.log2_lt_pow2; lia).
    replace (dropped m) with 0 in * by (unfold dropped; lia). lia.
Qed.

(** Rounding succeeds and moves [x * 2^e] by at most half of its last kept bit;
    the result is a multiple of that bit. *)
Lemma round_spec x e :
  0 < x -> -1074 <= e -> e + dropped x <= 970 ->
  exists m e', binary_round_aux 53 1024 false x e loc_Exact = S754_finite false m e' /\
    e <= e' /\ (2 ^ dropped x | Zpos m * 2 ^ (e' - e)) /\
    2 * Z.abs (Zpos m * 2 ^ (e' - e) - x) <= 2 ^ dropped x.
Proof.
  intros Hx He Hmax.
  assert (Hdig : forall y, 0 < y -> Zdigits2 y = Z.log2 y + 1) by (intros [|p|p] ?; [lia|apply digits_log2|lia]).
  assert (Hd0 : forall y, 0 <= dropped y) by (intros; unfold dropped; lia).
  unfold binary_round_aux, shr_fexp. rewrite Hdig by done.
  destruct (shr_shifted x e (fexp 53 1024 (Z.log2 x + 1 + e) - e)) as (mrs & -> & Hs); [lia|].
  rewrite (max_fexp x e) in * by lia. pose proof (rounded_mantissa x mrs Hx Hs) as [Hm Hhalf].
  set (m := round_nearest_even _ _) in *. pose proof (Hd0 x). pose proof (Hd0 m). rewrite Hdig by lia.
  destruct (shr_shifted m (e + dropped x) (fexp 53 1024 (Z.log2 m + 1 + (e + dropped x)) - (e + dropped x)))
    as (mrs2 & -> & Hs2); [lia|].
  rewrite (max_fexp m) in * by lia. pose proof (reshift_exact m mrs2 Hm Hs2) as [E H1].
  destruct (shr_m mrs2) as [|q|q]; [lia| |nia].
  rewrite (proj2 (Z.leb_le _ _)) by lia. exists q, (e + dropped x + dropped m).
  replace (e + dropped x + dropped m - e) with (dropped m + dropped x) by lia.
  rewrite Z.pow_add_r, Z.mul_assoc, E by lia. repeat split; [lia | by exists m | done].
Qed.

(** A mantissa below [2^53] is kept. *)
Lemma round_exact p e :
  Zpos p < 2 ^ 53 -> -1074 <= e <= 970 ->
  binary_round_aux 53 1024 false (Zpos p) e loc_Exact = S754_finite false p e.
Proof.
  intros Hp He. assert (Hlog : Z.log2 (Zpos p) < 53) by (apply Z.log2_lt_pow2; lia).
  assert (Hshr : forall mrs, shr mrs e (fexp 53 1024 (Zpos (digits2_pos p) + e) - e) = (mrs, e)).
  { intros mrs. rewrite digits_log2. unfold shr. destruct (_ - e) eqn:E; [done| |done].
    unfold fexp, emin in E. lia. }
  unfold binary_round_aux, shr_fexp. cbn [Zdigits2]. rewrite Hshr.
  cbn [shr_record_of_loc shr_m loc_of_shr_record round_nearest_even Zdigits2]. rewrite Hshr.
  cbn [shr_m]. by rewrite (proj2 (Z.leb_le _ _)) by lia.
Qed.

Lemma iter_xO d p : Zpos (Pos.iter xO p d) = Zpos p * 2 ^ Zpos d.
Proof.
  induction d as [|d IH] using Pos.peano_ind; [cbn; lia|].
  rewrite Pos.iter_succ, Pos2Z.inj_xO, IH, Pos2Z.inj_succ, Z.pow_succ_r by lia. lia.
Qed.

(** ** [double(n)] is exact below [2^53] *)

(** The bits by which the mantissa of [n] is shifted left. *)
Definition spare (n : Z) : Z := 52 - Z.log2 n.

Lemma spare_bounds n : 0 < n < 2 ^ 53 -> 0 <= spare n <= 52 /\ 2 ^ 52 <= n * 2 ^ spare n < 2 ^ 53.
Proof.
  intros Hn. unfold spare. pose proof (Z.log2_nonneg n). pose proof (Z.log2_spec n ltac:(lia)) as [Hlo Hhi].
  assert (Z.log2 n < 53) by (apply Z.log2_lt_pow2; lia). split; [lia|].
  replace 52 with (Z.log2 n + (52 - Z.log2 n)) at 1 by lia.
  replace 53 with (Z.succ (Z.log2 n) + (52 - Z.log2 n)) by lia.
  rewrite !Z.pow_add_r by lia.
  assert (0 < 2 ^ (52 - Z.log2 n)) by (apply Z.pow_pos_nonneg; lia). nia.
Qed.

Lemma double_of_exact n :
  0 < n < 2 ^ 53 ->
  exists m, double_of n = S754_finite false m (- spare n) /\ Zpos m = n * 2 ^ spare n.
Proof.
  intros Hn. pose proof (spare_bounds n Hn) as [Hs Hm]. destruct n as [|p|p]; [lia| |lia].
  unfold double_of, binary_normalize, binary_round. rewrite digits_log2.
  replace (fexp 53 1024 (Z.log2 (Zpos p) + 1 + 0)) with (- spare (Zpos p))
    by (unfold fexp, emin, spare in *; lia).
  set (s := spare (Zpos p)) in *. unfold shl_align. rewrite Z.sub_0_r.
  assert (E : exists m z, match - s with Zneg d => (Pos.iter xO p d, - s) | _ => (p, 0) end = (m, z)
              /\ z = - s /\ Zpos m = Zpos p * 2 ^ s).
  { clear Hm. clearbody s. destruct s as [|d|d]; [by exists p, 0; rewrite Z.mul_1_r | | lia]. eexists _, _. split; [done|].
    split; [done|]. apply iter_xO. }
  destruct E as (m & z & -> & -> & Em). exists m. split; [|done]. apply round_exact; lia.
Qed.

(** ** The product with a literal *)

(** ** The product with a literal *)

(** The literal [pm * 2^-53] lies in [1/2, 1), within a quarter of its last bit
    of [num / den]. *)
Definition literal_ok (pm num den : Z) : bool :=
  (2 ^ 52 <=? pm) && (pm <? 2 ^ 53) && (0 <? den) && (den <=? 2 ^ 10) && (4 * Z.abs (pm * den - num * 2 ^ 53) <? den).

(** The percentiles of the source as fractions. *)
Definition percentiles : list (double * Z * Z) :=
  [(kP50, 1, 2); (kP90, 9, 10); (kP99, 99, 100); (kP999, 999, 1000)].

Lemma percentiles_literal p num den :
  (p, num, den) ∈ percentiles ->
  exists pm, p = S754_finite false pm (-53) /\ literal_ok (Zpos pm) num den = true.
Proof.
  unfold percentiles. rewrite !elem_of_cons, elem_of_nil.
  intros [H|[H|[H|[H|[]]]]]; injection H as -> -> ->; eexists; by split.
Qed.

(** The arithmetic of it: [x] is the exact product and [U] its last kept bit. *)
Lemma near_fraction x v U W den K rho D m0 :
  0 < den -> den * x = D * m0 + (den * K + rho) * W -> 4 * Z.abs D < den -> 0 < m0 ->
  2 ^ 52 <= U <= 2 ^ 53 -> m0 < 2 ^ 53 -> (U | v) -> (U | W) -> 2 * Z.abs (v - x) <= U ->
  0 <= rho < den -> 2 ^ 53 * den <= W ->
  if rho =? 0 then v = K * W else K * W < v < (K + 1) * W.
Proof.
  intros Hden Hx HD Hm HU Hm0 [c Hc] [w Hw] Hhalf Hrho HW.
  assert (HDm : 4 * Z.abs (D * m0) < den * m0) by (rewrite Z.abs_mul; nia).
  destruct (Z.eqb_spec rho 0) as [->|Hne].
  - assert (Hxk : den * (4 * Z.abs (x - K * W)) < den * m0).
    { replace (den * (4 * Z.abs (x - K * W))) with (4 * Z.abs (den * (x - K * W)))
        by (rewrite Z.abs_mul, (Z.abs_eq den) by lia; lia).
      replace (den * (x - K * W)) with (D * m0) by lia. done. }
    apply Z.mul_lt_mono_pos_l in Hxk; [|done].
    assert (Hv : Z.abs (v - K * W) < U) by lia. subst v W.
    replace (c * U - K * (w * U)) with ((c - K * w) * U) in Hv by lia.
    assert (c - K * w = 0) by nia. nia.
  - assert (Hlo : den * (v - K * W) > 0) by nia.
    assert (Hhi : den * ((K + 1) * W - v) > 0) by nia. nia.
Qed.

(** The product in units of [2^-(53 + spare n)]: it is between [K] and [K + 1]
    when [num * n / den] is, and equal to [K] when that is. *)
Lemma product_bounds pm num den n :
  literal_ok (Zpos pm) num den = true -> 0 < n < 2 ^ 43 ->
  exists m e, double_mul (S754_finite false pm (-53)) (double_of n) = S754_finite false m e /\
    let E := 53 + spare n in
    let v := Zpos m * 2 ^ (e + E) in
    0 <= e + E /\
    if (num * n) mod den =? 0 then v = num * n / den * 2 ^ E
    else num * n / den * 2 ^ E < v < (num * n / den + 1) * 2 ^ E.
Proof.
  unfold literal_ok. rewrite !andb_true_iff, !Z.leb_le, !Z.ltb_lt. intros [[[[Hlo Hhi] Hd0] Hd] Hnear] Hn.
  destruct (double_of_exact n) as (m0 & -> & Em0); [lia|].
  pose proof (spare_bounds n ltac:(lia)) as [Hs Hm0]. rewrite <-Em0 in Hm0.
  cbn [double_mul SFmul]. unfold double_mul, SFmul. cbn [xorb].
  set (x := Zpos (pm * m0)). assert (Ex : x = Zpos pm * Zpos m0) by (unfold x; lia).
  assert (Hlog : 104 <= Z.log2 x < 106).
  { split; [apply Z.log2_le_pow2; nia | apply Z.log2_lt_pow2; nia]. }
  destruct (round_spec x (-53 + - spare n)) as (m & e & -> & He & [c Hc] & Hhalf);
    [lia | lia | unfold dropped; lia |].
  exists m, e. split; [done|]. cbn zeta. replace (e + (53 + spare n)) with (e - (-53 + - spare n)) by lia.
  split; [lia|]. set (v := Zpos m * 2 ^ (e - (-53 + - spare n))) in *.
  assert (HU : 2 ^ 52 <= 2 ^ dropped x <= 2 ^ 53)
    by (split; apply Z.pow_le_mono_r; unfold dropped; lia).
  assert (Hs10 : 2 ^ 10 <= 2 ^ spare n).
  { apply Z.pow_le_mono_r; [lia|]. unfold spare. assert (Z.log2 n < 43) by (apply Z.log2_lt_pow2; lia). lia. }
  apply (near_fraction x v (2 ^ dropped x) (2 ^ (53 + spare n)) den _ ((num * n) mod den)
           (Zpos pm * den - num * 2 ^ 53) (Zpos m0)); try done.
  - rewrite Ex, <-Z.div_mod, Em0, Z.pow_add_r by lia. lia.
  - lia.
  - by exists c.
  - exists (2 ^ (53 + spare n - dropped x)). rewrite <-Z.pow_add_r by (unfold dropped; lia). f_equal. lia.
  - by apply Z.mod_pos_bound.
  - rewrite Z.pow_add_r by lia. apply Z.mul_le_mono_nonneg_l; lia.
Qed.

Lemma shiftl_scaled a e E : 0 <= E -> 0 <= e + E -> Z.shiftl a e = a * 2 ^ (e + E) / 2 ^ E.
Proof.
  intros HE He. destruct (Z.le_gt_cases 0 e).
  - rewrite Z.shiftl_mul_pow2, Z.pow_add_r, Z.mul_assoc, Z.div_mul by (try apply Z.pow_nonzero; lia). done.
  - rewrite Z.shiftl_div_pow2 by lia. replace E with (- e + (e + E)) at 2 by lia.
    rewrite (Z.pow_add_r 2 (- e)), Z.div_mul_cancel_r by (try apply Z.pow_nonzero; lia). done.
Qed.

(** ** The ranks of the source *)

(** The nearest rank of the percentile [num / den]: [num * n / den] rounded up. *)
Definition nearest_rank (num den n : Z) : Z := (num * n + den - 1) / den.

Lemma nearest_rank_cases num den n :
  0 < den ->
  nearest_rank num den n = if (num * n) mod den =? 0 then num * n / den else num * n / den + 1.
Proof.
  intros Hd. pose proof (Z.div_mod (num * n) den) as Hdm. pose proof (Z.mod_pos_bound (num * n) den Hd) as Hm.
  unfold nearest_rank. destruct (Z.eqb_spec ((num * n) mod den) 0); symmetry.
  - apply (Z.div_unique _ _ _ (den - 1)); lia.
  - apply (Z.div_unique _ _ _ ((num * n) mod den - 1)); lia.
Qed.

Section Ranks.
Context (p : double) (num den n : Z).
Context (Hp : (p, num, den) ∈ percentiles) (Hn : 0 < n < 2 ^ 43).

(** The double [p * n], rounded down, is the rational one rounded down... *)
Lemma target_exact : LatencyHistogram.target_of p n = num * n / den.
Proof using Hp Hn.
  destruct (percentiles_literal _ _ _ Hp) as (pm & -> & Hok).
  destruct (product_bounds _ _ _ _ Hok Hn) as (m & e & E & He & Hv). cbn zeta in *.
  pose proof (spare_bounds n ltac:(lia)) as [Hs _].
  unfold LatencyHistogram.target_of, floor_of. rewrite E.
  rewrite (shiftl_scaled _ _ (53 + spare n)) by lia.
  assert (0 < 2 ^ (53 + spare n)) by (apply Z.pow_pos_nonneg; lia).
  destruct (_ =? 0); [by rewrite Hv, Z.div_mul by lia|].
  symmetry. apply (Z.div_unique _ _ _ (Zpos m * 2 ^ (e + (53 + spare n)) - num * n / den * 2 ^ (53 + spare n))); lia.
Qed.

(** ... and rounded up, the rational one rounded up. *)
Lemma rank_exact : SampleRecorder.rank p n = nearest_rank num den n.
Proof using Hp Hn.
  destruct (percentiles_literal _ _ _ Hp) as (pm & -> & Hok).
  destruct (product_bounds _ _ _ _ Hok Hn) as (m & e & E & He & Hv). cbn zeta in *.
  pose proof (spare_bounds n ltac:(lia)) as [Hs _].
  assert (0 < den) by (unfold literal_ok in Hok; rewrite !andb_true_iff, !Z.ltb_lt in Hok; lia).
  rewrite nearest_rank_cases by done. unfold SampleRecorder.rank, ceil_of. rewrite E.
  rewrite (shiftl_scaled _ _ (53 + spare n)) by lia.
  assert (0 < 2 ^ (53 + spare n)) by (apply Z.pow_pos_nonneg; lia).
  rewrite Z.mul_opp_l. destruct (_ =? 0).
  - by rewrite Hv, <-Z.mul_opp_l, Z.div_mul, Z.opp_involutive by lia.
  - rewrite <-(Z.div_unique _ _ (- (num * n / den + 1))
      ((num * n / den + 1) * 2 ^ (53 + spare n) - Zpos m * 2 ^ (e + (53 + spare n)))); lia.
Qed.

Lemma target_range : 0 <= num * n / den < n.
Proof using Hp Hn.
  clear - Hp Hn. unfold percentiles in Hp. rewrite !elem_of_cons, elem_of_nil in Hp.
  destruct Hp as [H|[H|[H|[H|[]]]]]; injection H as -> -> ->; Z.to_euclidean_division_equations; lia.
Qed.

Lemma nearest_rank_range : 1 <= nearest_rank num den n <= n.
Proof using Hp Hn.
  clear - Hp Hn. unfold percentiles in Hp. rewrite !elem_of_cons, elem_of_nil in Hp. unfold nearest_rank.
  destruct Hp as [H|[H|[H|[H|[]]]]]; injection H as -> -> ->; Z.to_euclidean_division_equations; lia.
Qed.
End Ranks.
