(* ===== verification/Arbitrator.v ===== *)
(** * Arbitrator: A/B line arbitration

    Models [include/feed/feed_arbitrator.hpp], over any packet consumer that the
    two lines share.  The reference to the shared [GapBuffer] is the [gap_buf_]
    component of the state: all its updates go through the arbitrator. *)

From stdpp Require Import base gmap list strings fin_maps.
From Stdlib Require Import ZArith Lia.
From Stdlib Require Import Floats.SpecFloat.
From S2P Require Import Prelude WireFormat GapBuf GapWalk Sink Stats.

#[local] Open Scope Z_scope.

Inductive FeedLine := LineA | LineB.

#[export] Instance FeedLine_eq_dec : EqDecision FeedLine.
Proof. solve_decision. Defined.

(** [std::array<uint64_t, 2>]. *)
Abbreviation counters := (list Z).
Definition at_idx (a : counters) (i : nat) : Z := default 0 (a !! i).

Module FeedArbitrator.

Record t (T : Type) := mk {
  gap_buf_ : T;
  stat_packets_ : counters;
  stat_seq_won_ : counters;
  stat_redundant_ : counters;
  last_win_ns_ : counters
}.
Arguments mk {T} _ _ _ _ _.
Arguments gap_buf_ {T} _.
Arguments stat_packets_ {T} _.
Arguments stat_seq_won_ {T} _.
Arguments stat_redundant_ {T} _.
Arguments last_win_ns_ {T} _.

Definition idx (l : FeedLine) : nat := match l with LineA => 0 | LineB => 1 end.

Section Ops.
Context {T : Type} `{PacketSink T}.

(** [FeedArbitrator(shared_gap_buf)] *)
Definition create (shared_gap_buf : T) : t T :=
  mk shared_gap_buf [0; 0] [0; 0] [0; 0] [0; 0].

Definition ingest_line (a : t T) (line : FeedLine) (payload : list byte) (len now_ns : Z)
    : res (t T * list event * Z) :=
  let i := idx line in
  let packets := <[i := inc (at_idx (stat_packets_ a) i)]> (stat_packets_ a) in
  '(buf, evs, delivered) ← sink_ingest (gap_buf_ a) payload len now_ns;
  let a' :=
    if 0 <? delivered then
      mk buf packets
         (<[i := u64 (at_idx (stat_seq_won_ a) i + delivered)]> (stat_seq_won_ a))
         (stat_redundant_ a)
         (<[i := now_ns]> (last_win_ns_ a))
    else if delivered =? 0 then
      mk buf packets (stat_seq_won_ a)
         (<[i := inc (at_idx (stat_redundant_ a) i)]> (stat_redundant_ a))
         (last_win_ns_ a)
    else mk buf packets (stat_seq_won_ a) (stat_redundant_ a) (last_win_ns_ a) in
  mret (a', evs, delivered).

Definition ingest_a (a : t T) := ingest_line a LineA.
Definition ingest_b (a : t T) := ingest_line a LineB.

Definition tick (a : t T) (now_ns : Z) : res (t T * list event) :=
  '(buf, evs) ← sink_tick (gap_buf_ a) now_ns;
  mret (mk buf (stat_packets_ a) (stat_seq_won_ a) (stat_redundant_ a) (last_win_ns_ a), evs).

Definition stat_packets (a : t T) (l : FeedLine) : Z := at_idx (stat_packets_ a) (idx l).
Definition stat_seq_won (a : t T) (l : FeedLine) : Z := at_idx (stat_seq_won_ a) (idx l).
Definition stat_redundant (a : t T) (l : FeedLine) : Z := at_idx (stat_redundant_ a) (idx l).

Definition a_win_share (a : t T) : double :=
  let total := u64 (stat_seq_won a LineA + stat_seq_won a LineB) in
  if total =? 0 then S754_zero false
  else double_div (double_of (stat_seq_won a LineA)) (double_of total).

Definition line_looks_dark (a : t T) (l : FeedLine) (now_ns stale_after_ns : Z) : bool :=
  let i := idx l in
  if at_idx (stat_packets_ a) i =? 0 then false
  else if at_idx (last_win_ns_ a) i =? 0 then stale_after_ns <? now_ns
  else stale_after_ns <? u64 (now_ns - at_idx (last_win_ns_ a) i).

Definition gap_buffer (a : t T) : T := gap_buf_ a.

End Ops.
End FeedArbitrator.

(** ** Runs: what arrives on the two lines, merged by arrival *)

Inductive line_input :=
| OnLine (l : FeedLine) (payload : list byte) (len now_ns : Z)
| LineTick (now_ns : Z).

Section Runs.
Context {T : Type} `{PacketSink T}.

Definition arb_step (a : FeedArbitrator.t T) (i : line_input)
    : res (FeedArbitrator.t T * list event) :=
  match i with
  | OnLine LineA payload len now =>
      '(a', evs, _) ← FeedArbitrator.ingest_a a payload len now; mret (a', evs)
  | OnLine LineB payload len now =>
      '(a', evs, _) ← FeedArbitrator.ingest_b a payload len now; mret (a', evs)
  | LineTick now => FeedArbitrator.tick a now
  end.

Fixpoint arb_run (a : FeedArbitrator.t T) (ins : list line_input)
    : res (FeedArbitrator.t T * list event) :=
  match ins with
  | [] => mret (a, [])
  | i :: ins' =>
      '(a1, e1) ← arb_step a i;
      '(a2, e2) ← arb_run a1 ins';
      mret (a2, e1 ++ e2)
  end.

(** The same consumer fed directly, the line forgotten. *)
Definition sink_step (s : T) (i : line_input) : res (T * list event) :=
  match i with
  | OnLine _ payload len now =>
      '(s', evs, _) ← sink_ingest s payload len now; mret (s', evs)
  | LineTick now => sink_tick s now
  end.

Fixpoint sink_run (s : T) (ins : list line_input) : res (T * list event) :=
  match ins with
  | [] => mret (s, [])
  | i :: ins' =>
      '(s1, e1) ← sink_step s i;
      '(s2, e2) ← sink_run s1 ins';
      mret (s2, e1 ++ e2)
  end.

(** Forget the statistics. *)
Definition erase (r : res (FeedArbitrator.t T * list event)) : res (T * list event) :=
  '(a, evs) ← r; mret (FeedArbitrator.gap_buf_ a, evs).

Lemma arb_step_erase a i : erase (arb_step a i) = sink_step (FeedArbitrator.gap_buf_ a) i.
Proof.
  destruct i as [[] payload len now|now]; cbn;
    unfold FeedArbitrator.ingest_a, FeedArbitrator.ingest_b, FeedArbitrator.ingest_line,
      FeedArbitrator.tick.
  1,2: destruct (sink_ingest (FeedArbitrator.gap_buf_ a) payload len now) as [[[s evs] r]|e];
    [|done]; cbn; by repeat case_match.
  by destruct (sink_tick (FeedArbitrator.gap_buf_ a) now) as [[s evs]|e].
Qed.

Lemma arb_run_erase a ins : erase (arb_run a ins) = sink_run (FeedArbitrator.gap_buf_ a) ins.
Proof.
  revert a. induction ins as [|i ins IH]; intros a; [done|].
  cbn [arb_run sink_run]. rewrite <-arb_step_erase.
  destruct (arb_step a i) as [[a1 e1]|e]; [|done]. cbn. rewrite <-IH.
  by destruct (arb_run a1 ins) as [[a2 e2]|e].
Qed.

End Runs.
