(* ===== verification/ArbProps.v ===== *)
(** * ArbProps: arbitration is the merged stream, with exact attribution

    Stated over any [PacketSink]; the last theorems instantiate it with the gap
    buffer. *)

From stdpp Require Import base gmap list strings fin_maps.
From Stdlib Require Import ZArith Lia.
From S2P Require Import Prelude WireFormat GapBuf GapWalk Framing.
From S2P Require Import GapInv GapRun GapProps GapComplete Sink Arbitrator.

#[local] Open Scope Z_scope.
Import FeedArbitrator.

(** ** The merged stream *)

(** Arbitration adds nothing to the data path: for any packet consumer, feeding
    both lines through the arbitrator is the same computation as feeding their
    merged packets to the consumer directly: same final consumer state, same
    callbacks in the same order, same faults. *)
Theorem arbitration_transparent (T : Type) `{PacketSink T} (s : T) (ins : list line_input) :
  erase (arb_run (create s) ins) = sink_run s ins.
Proof. apply (arb_run_erase (create s)). Qed.

(** ** Attribution *)

(** The calls of a run: line and result. *)
Fixpoint arb_log {T} `{PacketSink T} (s : T) (ins : list line_input) : list (FeedLine * Z) :=
  match ins with
  | [] => []
  | i :: ins' =>
      match i with
      | OnLine l payload len now =>
          match sink_ingest s payload len now with
          | Ok (s', _, r) => (l, r) :: arb_log s' ins'
          | Fault _ => []
          end
      | LineTick now =>
          match sink_tick s now with Ok (s', _) => arb_log s' ins' | Fault _ => [] end
      end
  end.

Definition tally (f : Z -> Z) (l : FeedLine) (log : list (FeedLine * Z)) : Z :=
  foldr (fun '(l', r) acc => (if decide (l' = l) then f r else 0) + acc) 0 log.

Definition one_call (r : Z) : Z := 1.
Definition won_messages (r : Z) : Z := if 0 <? r then r else 0.
Definition one_redundant (r : Z) : Z := if r =? 0 then 1 else 0.

(** The statistics of [a] are those of [a0] plus the log. *)
Record accounts {T} (a0 a : t T) (log : list (FeedLine * Z)) : Prop := {
  ac_packets l : stat_packets a l = u64 (stat_packets a0 l + tally one_call l log);
  ac_won l : stat_seq_won a l = u64 (stat_seq_won a0 l + tally won_messages l log);
  ac_redundant l : stat_redundant a l = u64 (stat_redundant a0 l + tally one_redundant l log)
}.

Definition two (c : counters) : Prop := length c = 2%nat /\ Forall is_u64 c.

Record counters_ok {T} (a : t T) : Prop := {
  co_packets : two (stat_packets_ a);
  co_won : two (stat_seq_won_ a);
  co_redundant : two (stat_redundant_ a);
  co_last : length (last_win_ns_ a) = 2%nat
}.

Lemma at_idx_insert c l l' v :
  two c -> at_idx (<[idx l := v]> c) (idx l') = if decide (l = l') then v else at_idx c (idx l').
Proof.
  intros [Hc _]. destruct c as [|x [|y [|]]]; try done.
  by destruct l, l'.
Qed.

Lemma two_insert c l v : two c -> is_u64 v -> two (<[idx l := v]> c).
Proof. intros [H1 H2] Hv. split; [by rewrite length_insert | by apply Forall_insert]. Qed.

Lemma at_idx_u64 c l : two c -> u64 (at_idx c (idx l)) = at_idx c (idx l).
Proof.
  intros [Hc Hf]. destruct c as [|x [|y [|]]]; try done.
  apply Forall_cons in Hf as [? Hf]. apply Forall_cons in Hf as [? _].
  destruct l; cbn; by apply u64_small.
Qed.

Section Attribution.
Context {T : Type} `{PacketSinkLaws T}.

Definition acceptable (i : line_input) : Prop :=
  match i with OnLine _ payload len _ => sink_accepts payload len | LineTick _ => True end.

Definition logged (l : FeedLine) (r : Z) : list (FeedLine * Z) := [(l, r)].

Lemma ingest_line_accounts (a : t T) l payload len now :
  sink_ok (gap_buf_ a) -> counters_ok a -> sink_accepts payload len ->
  exists a' evs r,
    ingest_line a l payload len now = Ok (a', evs, r) /\ sink_ok (gap_buf_ a') /\
    counters_ok a' /\ counts evs r /\ accounts a a' [(l, r)] /\
    exists r', sink_ingest (gap_buf_ a) payload len now = Ok (gap_buf_ a', r', r).
Proof.
  intros Hok [C1 C2 C3 C4] Hacc.
  destruct (sink_ingest_law (gap_buf_ a) payload len now Hok Hacc) as (s' & evs & r & E & Hs & Hr).
  unfold ingest_line. rewrite E, bind_Ok. eexists _, evs, r. split; [done|].
  assert (Hu : forall c k, two c -> two (<[idx l := u64 k]> c))
    by (intros; apply two_insert; [done | apply u64_range]).
  split; [by repeat case_match|]. split.
  { unfold inc. destruct (0 <? r); [|destruct (r =? 0)]; split; cbn;
      rewrite ?length_insert; auto. }
  split; [done|]. split; [|by exists evs; repeat case_match].
  unfold inc. split; intros l'; unfold stat_packets, stat_seq_won, stat_redundant, tally;
    cbn [foldr]; unfold one_call, won_messages, one_redundant;
    destruct (Z.ltb_spec 0 r); [| destruct (Z.eqb_spec r 0) | | destruct (Z.eqb_spec r 0)
      | | destruct (Z.eqb_spec r 0)]; cbn; rewrite ?at_idx_insert by done;
    destruct (decide (l = l')) as [->|]; rewrite ?Z.add_0_r, ?at_idx_u64; try done; try lia.
  all: rewrite (proj2 (Z.eqb_neq r 0)) by lia; by rewrite ?Z.add_0_r, ?at_idx_u64.
Qed.

Lemma tally_app f l log1 log2 : tally f l (log1 ++ log2) = tally f l log1 + tally f l log2.
Proof.
  unfold tally. induction log1 as [|[l' r] log1 IH]; [done|]. cbn. rewrite IH. lia.
Qed.

Lemma accounts_trans (a1 a2 a3 : t T) l1 l2 :
  accounts a1 a2 l1 -> accounts a2 a3 l2 -> accounts a1 a3 (l1 ++ l2).
Proof.
  intros [P1 W1 R1] [P2 W2 R2].
  split; intros l; rewrite ?P2, ?W2, ?R2, ?P1, ?W1, ?R1, tally_app, u64_add_idemp_l;
    f_equal; lia.
Qed.

Lemma accounts_refl (a a' : t T) :
  counters_ok a -> stat_packets_ a' = stat_packets_ a -> stat_seq_won_ a' = stat_seq_won_ a ->
  stat_redundant_ a' = stat_redundant_ a -> accounts a a' [].
Proof.
  intros [] E1 E2 E3.
  split; intros l; unfold stat_packets, stat_seq_won, stat_redundant, tally; cbn [foldr];
    rewrite Z.add_0_r, at_idx_u64 by done; congruence.
Qed.

(** The messages of a call, by its result. *)
Lemma counts_won evs r :
  counts evs r -> won_messages r = Z.of_nat (length (messages evs)).
Proof.
  unfold won_messages. intros [[-> ->]|[? ?]]; [done|]. destruct (Z.ltb_spec 0 r); lia.
Qed.

Lemma arb_step_accounts (a : t T) i :
  sink_ok (gap_buf_ a) -> counters_ok a -> acceptable i ->
  exists a' evs log,
    arb_step a i = Ok (a', evs) /\ sink_ok (gap_buf_ a') /\ counters_ok a' /\
    accounts a a' log /\
    tally won_messages LineA log + tally won_messages LineB log
      = Z.of_nat (length (messages evs)) /\
    forall ins, arb_log (gap_buf_ a) (i :: ins) = log ++ arb_log (gap_buf_ a') ins.
Proof.
  intros Hok Hc Hi. destruct i as [l payload len now|now].
  - destruct (ingest_line_accounts a l payload len now Hok Hc Hi)
      as (a' & evs & r & E & Hok' & Hc' & Hr & Hac & r' & Es).
    exists a', evs, [(l, r)]. split.
    { destruct l; cbn; unfold ingest_a, ingest_b; by rewrite E. }
    split; [done|]. split; [done|]. split; [done|]. split.
    + rewrite <-(counts_won evs r) by done. unfold tally. cbn.
      destruct l; repeat case_decide; try done; lia.
    + intros ins. cbn [arb_log]. by rewrite Es.
  - destruct (sink_tick_law (gap_buf_ a) now Hok) as (s' & evs & E & Hok' & Hm).
    cbn [arb_step]. unfold tick. rewrite E, bind_Ok.
    eexists _, evs, []. split; [done|]. split; [done|].
    split; [by destruct Hc|]. split; [by apply accounts_refl|]. rewrite Hm. split; [done|].
    intros ins. cbn [arb_log]. by rewrite E.
Qed.

Lemma arb_run_accounts (a : t T) ins :
  sink_ok (gap_buf_ a) -> counters_ok a -> Forall acceptable ins ->
  exists a' evs,
    arb_run a ins = Ok (a', evs) /\ sink_ok (gap_buf_ a') /\
    accounts a a' (arb_log (gap_buf_ a) ins) /\
    tally won_messages LineA (arb_log (gap_buf_ a) ins)
      + tally won_messages LineB (arb_log (gap_buf_ a) ins)
      = Z.of_nat (length (messages evs)).
Proof.
  intros Hok Hc Hins. revert a Hok Hc.
  induction Hins as [|i ins Hi _ IH]; intros a Hok Hc.
  { exists a, []. split; [done|]. split; [done|]. split; [by apply accounts_refl | done]. }
  destruct (arb_step_accounts a i Hok Hc Hi) as (a1 & e1 & log & E1 & Hok1 & Hc1 & A1 & M1 & Hlog).
  destruct (IH a1 Hok1 Hc1) as (a2 & e2 & E2 & Hok2 & A2 & M2).
  cbn [arb_run]. rewrite E1, bind_Ok, E2, bind_Ok. exists a2, (e1 ++ e2).
  rewrite Hlog. split; [done|]. split; [done|]. split; [by eapply accounts_trans|].
  rewrite !tally_app, messages_app, length_app. lia.
Qed.

Lemma create_counters_ok (s : T) : counters_ok (create s).
Proof.
  assert (Hz : two [0; 0]).
  { split; [done|]. apply Forall_cons. split; [done|]. by apply Forall_singleton. }
  split; done.
Qed.

End Attribution.

(** The counters of a run of a fresh arbitrator. *)
Lemma create_accounts (T : Type) `{PacketSinkLaws T} (s : T) (ins : list line_input) :
  sink_ok s -> Forall acceptable ins ->
  exists a evs,
    arb_run (create s) ins = Ok (a, evs) /\
    (forall l,
      stat_packets a l = u64 (tally one_call l (arb_log s ins)) /\
      stat_seq_won a l = u64 (tally won_messages l (arb_log s ins)) /\
      stat_redundant a l = u64 (tally one_redundant l (arb_log s ins))) /\
    u64 (stat_seq_won a LineA + stat_seq_won a LineB)
      = u64 (Z.of_nat (length (messages evs))).
Proof.
  intros Hs Hins.
  destruct (arb_run_accounts (create s) ins Hs (create_counters_ok s) Hins)
    as (a & evs & E & _ & [P W R] & M).
  exists a, evs. split; [done|].
  assert (Hz : forall l, stat_packets (create s) l = 0 /\ stat_seq_won (create s) l = 0 /\
    stat_redundant (create s) l = 0) by (by intros []). cbn [gap_buf_ create] in *.
  split.
  - intros l. rewrite P, W, R. destruct (Hz l) as (-> & -> & ->). done.
  - rewrite !W. destruct (Hz LineA) as (_ & -> & _), (Hz LineB) as (_ & -> & _).
    rewrite !Z.add_0_l. rewrite u64_add_idemp_l, Z.add_comm, u64_add_idemp_l, Z.add_comm, M. done.
Qed.

(** C26.  Attribution is exact, for any lawful consumer: each line's counters are the
    number of its calls, the messages its calls delivered and its calls that
    delivered none, and the two lines' won counts together are exactly the
    messages handed downstream (all modulo the 64-bit counters). *)
Theorem attribution_exact (T : Type) `{PacketSinkLaws T} (s : T) (ins : list line_input) :
  sink_ok s -> Forall acceptable ins ->
  exists a evs,
    arb_run (create s) ins = Ok (a, evs) /\
    (forall l,
      stat_packets a l = u64 (tally one_call l (arb_log s ins)) /\
      stat_seq_won a l = u64 (tally won_messages l (arb_log s ins)) /\
      stat_redundant a l = u64 (tally one_redundant l (arb_log s ins))) /\
    u64 (stat_seq_won a LineA + stat_seq_won a LineB)
      = u64 (Z.of_nat (length (messages evs))).
Proof. apply create_accounts. Qed.

(** Line A loses 2, line B loses 3 and repeats 1. *)
Definition on_line (l : FeedLine) (seq : Z) (msgs : list (list byte)) (now : Z) : line_input :=
  OnLine l (packet_wire session_bytes seq msgs) (blen (packet_wire session_bytes seq msgs)) now.
Definition test_lines : list line_input :=
  [on_line LineA 1 [test_stream 1] 10; on_line LineB 1 [test_stream 1] 11;
   on_line LineA 3 [test_stream 3; test_stream 4] 20; LineTick 25;
   on_line LineB 2 [test_stream 2] 30; on_line LineB 5 [test_stream 5] 40].

Lemma attribution_exact_witness :
  exists a evs,
    arb_run (create (listening test_config true true true)) test_lines = Ok (a, evs) /\
    (forall l,
      stat_packets a l = u64 (tally one_call l (arb_log (listening test_config true true true) test_lines)) /\
      stat_seq_won a l = u64 (tally won_messages l (arb_log (listening test_config true true true) test_lines)) /\
      stat_redundant a l = u64 (tally one_redundant l (arb_log (listening test_config true true true) test_lines))) /\
    u64 (stat_seq_won a LineA + stat_seq_won a LineB)
      = u64 (Z.of_nat (length (messages evs))).
Proof.
  apply (attribution_exact GapBuffer.t).
  - by apply listening_ok.
  - repeat (apply Forall_cons; split); [.. | by apply Forall_nil]; by vm_compute.
Defined.

Example test_lines_won :
  ('(a, _) ← arb_run (create (listening test_config true true true)) test_lines;
   mret (stat_seq_won a LineA, stat_seq_won a LineB, stat_redundant a LineA)) = Ok (1, 4, 1).
Proof. by vm_compute. Qed.

(** ** Redundancy *)

(** What the shared buffer sees of a line input. *)
Definition forget_line (i : line_input) : input :=
  match i with OnLine _ payload len now => Datagram payload len now | LineTick now => Tick now end.

Lemma sink_run_GapBuffer g ins : sink_run g ins = run g (forget_line <$> ins).
Proof.
  revert g. induction ins as [|i ins IH]; intros g; [done|].
  cbn [sink_run fmap list_fmap run]. destruct i; cbn [sink_step forget_line apply_input sink_ingest
    sink_tick GapBuffer_sink];
    (match goal with |- (?m ≫= _) = _ => destruct m as [[g1 e1]|] end; [|done]);
    rewrite !bind_Ok; by rewrite IH.
Qed.

(** The packet starting at [f] arrives on line [l]. *)
Definition on (l : FeedLine) (ins : list line_input) (f : Z) : Prop :=
  exists payload len now, OnLine l payload len now ∈ ins /\ MoldHeader.seq_num (header payload) = f.

Lemma on_received l ins f : on l ins f -> received (forget_line <$> ins) f.
Proof.
  intros (p & len & now & Hin & Hf). exists p, len, now. split; [|done].
  apply list_elem_of_fmap. by exists (OnLine l p len now).
Qed.

(** A loss on one line is invisible: if every packet of the window arrives on
    line A or on line B (in any order and interleaving after the first packet),
    the whole window is delivered, in order, each message once. *)
Theorem either_line_suffices (S : Z -> list byte) (c : GapBuffer.Config) (on_gap on_retx : bool)
    (n0 N : Z) (start : Z -> Prop) (cnt : Z -> Z) (ins : list line_input) :
  length (GapBuffer.cfg_session c) = 10%nat ->
  packetization n0 N start cnt -> 0 <= n0 -> N < 2 ^ 64 -> N - n0 <= GapBuffer.kCapacity ->
  Forall (whole_carries S start cnt) (forget_line <$> ins) ->
  (forall f, start f -> on LineA ins f \/ on LineB ins f) ->
  let g0 := listening c true on_gap on_retx in
  session_start g0 (forget_line <$> ins) = n0 ->
  exists a evs,
    arb_run (create g0) ins = Ok (a, evs) /\
    GapBuffer.next_expected_ (gap_buf_ a) = N /\
    (fun m => (MoldMessage.seq_num m, msg_content m)) <$> messages evs
      = (fun k => (k, S k)) <$> seqZ n0 (N - n0).
Proof.
  intros Hc PZ Hn0 HN Hw Hins Hon g0 Hst.
  destruct (run_complete S c on_gap on_retx n0 N start cnt (forget_line <$> ins))
    as (g & evs & E & Hn & Hm); [done..| |done|].
  { intros f Hf. by destruct (Hon f Hf); eapply on_received. }
  fold g0 in E. rewrite <-sink_run_GapBuffer in E.
  pose proof (arb_run_erase (create g0) ins) as He. cbn [gap_buf_ create] in He.
  rewrite E in He. destruct (arb_run (create g0) ins) as [[a evs']|]; [|done].
  injection He as <- <-. by exists a, evs'.
Qed.

Lemma either_line_suffices_witness :
  exists a evs,
    arb_run (create (listening test_config true true true)) test_lines = Ok (a, evs) /\
    GapBuffer.next_expected_ (gap_buf_ a) = 6 /\
    (fun m => (MoldMessage.seq_num m, msg_content m)) <$> messages evs
      = (fun k => (k, test_stream k)) <$> seqZ 1 (6 - 1).
Proof.
  apply (either_line_suffices test_stream test_config true true 1 6
           (fun f => f = 1 \/ f = 2 \/ f = 3 \/ f = 5) (fun f => if f =? 3 then 2 else 1)).
  - reflexivity.
  - split.
    + by left.
    + intros f [->|[->|[->| ->]]]; by vm_compute.
    + intros f [->|[->|[->| ->]]]; vm_compute; auto 6.
    + intros f f' [->|[->|[->| ->]]] [->|[->|[->| ->]]] H; vm_compute in H |- *; done.
  - done.
  - done.
  - done.
  - repeat (apply Forall_cons; split); [.. | by apply Forall_nil];
      (split; [first [exact I | split; [by vm_compute|]; split; [by vm_compute|];
                      split; [vm_compute; auto 6 | by vm_compute]] |]);
      first [ exact I
        | split; [ by vm_compute
                 | intros _ k b H; vm_compute in H;
                   repeat (destruct k as [|k]; [by injection H as <- | ]); done ] ].
  - intros f Hf. unfold on, test_lines, on_line.
    destruct Hf as [->|[->|[->| ->]]];
      [ left; eexists _, _, _; split; [apply list_elem_of_here | by vm_compute]
      | right; eexists _, _, _;
        split; [do 4 apply list_elem_of_further; apply list_elem_of_here | by vm_compute]
      | left; eexists _, _, _;
        split; [do 2 apply list_elem_of_further; apply list_elem_of_here | by vm_compute]
      | right; eexists _, _, _;
        split; [do 5 apply list_elem_of_further; apply list_elem_of_here | by vm_compute] ].
  - reflexivity.
Defined.

(** ** Dark lines *)

(** [line_looks_dark] tells how long ago line [l] last supplied messages (its
    start counting as time 0), once it has supplied any packet; on a clock that
    is not behind the last win no wrap-around makes a live line look dark.  It
    reads nothing of the other line, although its comment requires that one to
    be active. *)
Theorem line_looks_dark_spec (T : Type) (a : t T) (l : FeedLine) (now stale : Z) :
  0 <= at_idx (last_win_ns_ a) (idx l) <= now -> is_u64 now ->
  line_looks_dark a l now stale = true <->
  stat_packets a l <> 0 /\ stale < now - at_idx (last_win_ns_ a) (idx l).
Proof.
  intros Hw Hn. unfold line_looks_dark. fold (stat_packets a l).
  destruct (Z.eqb_spec (stat_packets a l) 0) as [->|]; [naive_solver|].
  destruct (Z.eqb_spec (at_idx (last_win_ns_ a) (idx l)) 0) as [->|].
  - rewrite Z.ltb_lt, Z.sub_0_r. naive_solver.
  - rewrite Z.ltb_lt, u64_small by width. naive_solver.
Qed.

Lemma line_looks_dark_spec_witness :
  let a := mk tt [3; 0] [2; 0] [1; 0] [100; 0] in
  line_looks_dark a LineA 6000000 5000000 = true <->
  stat_packets a LineA <> 0 /\ 5000000 < 6000000 - at_idx (last_win_ns_ a) (idx LineA).
Proof. intros a. apply (line_looks_dark_spec unit); by vm_compute. Defined.
