(* ===== verification/Book.v ===== *)
(** * Book: order-book reconstruction

    Models [include/feed/order_book.hpp]: [OrderBook], the book of one symbol,
    and [MultiSymbolBook], which routes a decoded stream to per-symbol books.
    [std::map] and [std::unordered_map] are [gmap]s; [begin()] of an ordered map
    is [begin_of] with the map's comparison. *)

From stdpp Require Import base gmap list strings fin_maps.
From Stdlib Require Import ZArith Lia.
From S2P Require Import Prelude WireFormat GapBuf.

#[local] Open Scope Z_scope.

Record OrderRecord := mk_OrderRecord { side : byte; price : Z; shares : Z }.

Record PriceLevel := mk_PriceLevel { pl_price : Z; pl_shares : Z; pl_orders : Z }.

Record TopOfBook := mk_TopOfBook { bid : option PriceLevel; ask : option PriceLevel }.

Definition crossed (t : TopOfBook) : bool :=
  match bid t, ask t with
  | Some b, Some a => pl_price a <=? pl_price b
  | _, _ => false
  end.

Definition kBuy : byte := Corelib.Init.Byte.x42.    (* 'B' *)

(** [begin()] of a map ordered by [before]. *)
Definition begin_of {A} (before : Z -> Z -> bool) (m : gmap Z A) : option (Z * A) :=
  map_fold (fun p a acc =>
      match acc with
      | None => Some (p, a)
      | Some (q, b) => if before p q then Some (p, a) else Some (q, b)
      end) None m.

Module OrderBook.

Record LevelAgg := mk_LevelAgg { agg_shares : Z; order_count : Z }.

Record t := mk {
  bids_ : gmap Z LevelAgg;          (* std::greater: begin() is the highest price *)
  asks_ : gmap Z LevelAgg;          (* begin() is the lowest price *)
  orders_ : gmap Z OrderRecord;
  on_top_change_ : bool;
  last_top_ : TopOfBook;
  last_top_valid_ : bool;
  stat_adds_ : Z;
  stat_deletes_ : Z;
  stat_cancels_ : Z;
  stat_executes_ : Z;
  stat_replaces_ : Z;
  stat_unknown_order_ : Z;
  stat_duplicate_add_ : Z
}.

Definition init : t :=
  mk ∅ ∅ ∅ false (mk_TopOfBook None None) false 0 0 0 0 0 0 0.

Definition set_on_top_change (b : t) (installed : bool) : t :=
  mk (bids_ b) (asks_ b) (orders_ b) installed (last_top_ b) (last_top_valid_ b)
     (stat_adds_ b) (stat_deletes_ b) (stat_cancels_ b) (stat_executes_ b)
     (stat_replaces_ b) (stat_unknown_order_ b) (stat_duplicate_add_ b).

Definition set_levels (b : t) (bids asks : gmap Z LevelAgg) : t :=
  mk bids asks (orders_ b) (on_top_change_ b) (last_top_ b) (last_top_valid_ b)
     (stat_adds_ b) (stat_deletes_ b) (stat_cancels_ b) (stat_executes_ b)
     (stat_replaces_ b) (stat_unknown_order_ b) (stat_duplicate_add_ b).

Definition set_orders (b : t) (o : gmap Z OrderRecord) : t :=
  mk (bids_ b) (asks_ b) o (on_top_change_ b) (last_top_ b) (last_top_valid_ b)
     (stat_adds_ b) (stat_deletes_ b) (stat_cancels_ b) (stat_executes_ b)
     (stat_replaces_ b) (stat_unknown_order_ b) (stat_duplicate_add_ b).

Definition set_last_top (b : t) (top : TopOfBook) : t :=
  mk (bids_ b) (asks_ b) (orders_ b) (on_top_change_ b) top true
     (stat_adds_ b) (stat_deletes_ b) (stat_cancels_ b) (stat_executes_ b)
     (stat_replaces_ b) (stat_unknown_order_ b) (stat_duplicate_add_ b).

(** The counters [++]ed by the operations. *)
Inductive stat := Adds | Deletes | Cancels | Executes | Replaces | UnknownOrder | DuplicateAdd.

Definition bump (b : t) (s : stat) : t :=
  let on x := fun c => match s, x with
    | Adds, Adds | Deletes, Deletes | Cancels, Cancels | Executes, Executes
    | Replaces, Replaces | UnknownOrder, UnknownOrder | DuplicateAdd, DuplicateAdd => inc c
    | _, _ => c end in
  mk (bids_ b) (asks_ b) (orders_ b) (on_top_change_ b) (last_top_ b) (last_top_valid_ b)
     (on Adds (stat_adds_ b)) (on Deletes (stat_deletes_ b)) (on Cancels (stat_cancels_ b))
     (on Executes (stat_executes_ b)) (on Replaces (stat_replaces_ b))
     (on UnknownOrder (stat_unknown_order_ b)) (on DuplicateAdd (stat_duplicate_add_ b)).

(** ** Levels *)

(** [(side == 'B') ? bids_ : asks_], updated by [f]. *)
Definition on_side (b : t) (sd : byte) (f : gmap Z LevelAgg -> gmap Z LevelAgg) : t :=
  if decide (sd = kBuy) then set_levels b (f (bids_ b)) (asks_ b)
  else set_levels b (bids_ b) (f (asks_ b)).

Definition add_level (pr sh : Z) (book : gmap Z LevelAgg) : gmap Z LevelAgg :=
  let agg := default (mk_LevelAgg 0 0) (book !! pr) in
  <[pr := mk_LevelAgg (u64 (agg_shares agg + sh)) (u32 (order_count agg + 1))]> book.

Definition add_to_level (b : t) (sd : byte) (pr sh : Z) : t := on_side b sd (add_level pr sh).

Definition reduce_level (pr sh : Z) (book : gmap Z LevelAgg) : gmap Z LevelAgg :=
  match book !! pr with
  | None => book
  | Some agg =>
      let left := agg_shares agg - Z.min sh (agg_shares agg) in
      if (left =? 0) && (order_count agg =? 0) then delete pr book
      else <[pr := mk_LevelAgg left (order_count agg)]> book
  end.

Definition reduce_level_shares (b : t) (sd : byte) (pr sh : Z) : t :=
  on_side b sd (reduce_level pr sh).

Definition remove_level (pr : Z) (book : gmap Z LevelAgg) : gmap Z LevelAgg :=
  match book !! pr with
  | None => book
  | Some agg =>
      let n := if 0 <? order_count agg then order_count agg - 1 else order_count agg in
      if (n =? 0) && (agg_shares agg =? 0) then delete pr book
      else <[pr := mk_LevelAgg (agg_shares agg) n]> book
  end.

Definition remove_order_from_level (b : t) (sd : byte) (pr : Z) : t :=
  on_side b sd (remove_level pr).

(** ** Queries *)

Definition as_level (e : Z * LevelAgg) : PriceLevel :=
  mk_PriceLevel e.1 (agg_shares e.2) (order_count e.2).

Definition top (b : t) : TopOfBook :=
  mk_TopOfBook (as_level <$> begin_of Z.gtb (bids_ b)) (as_level <$> begin_of Z.ltb (asks_ b)).

Definition resting_order_count (b : t) : Z := Z.of_nat (size (orders_ b)).
Definition bid_level_count (b : t) : Z := Z.of_nat (size (bids_ b)).
Definition ask_level_count (b : t) : Z := Z.of_nat (size (asks_ b)).

(** ** Notification *)

Definition has_value {A} (o : option A) : bool := match o with Some _ => true | None => false end.

Definition level_changed (x y : option PriceLevel) : bool :=
  match x, y with
  | Some a, Some b => negb (pl_price a =? pl_price b) || negb (pl_shares a =? pl_shares b)
  | _, _ => false
  end.

Definition top_changed (b : t) (t0 : TopOfBook) : bool :=
  negb (last_top_valid_ b)
  || negb (Bool.eqb (has_value (bid t0)) (has_value (bid (last_top_ b))))
  || negb (Bool.eqb (has_value (ask t0)) (has_value (ask (last_top_ b))))
  || level_changed (bid t0) (bid (last_top_ b))
  || level_changed (ask t0) (ask (last_top_ b)).

Definition notify_if_top_changed (b : t) (recv_ns : Z) : t * list (TopOfBook * Z) :=
  if negb (on_top_change_ b) then (b, [])
  else
    let t0 := top b in
    if top_changed b t0 then (set_last_top b t0, [(t0, recv_ns)]) else (b, []).

(** ** The five book messages *)

Definition apply_add (b : t) (m : ItchAddOrder.t) (recv_ns : Z) : t * list (TopOfBook * Z) :=
  match orders_ b !! ItchAddOrder.order_ref m with
  | Some _ => (bump b DuplicateAdd, [])
  | None =>
      let o := mk_OrderRecord (ItchAddOrder.side m) (ItchAddOrder.price m) (ItchAddOrder.shares m) in
      let b := set_orders b (<[ItchAddOrder.order_ref m := o]> (orders_ b)) in
      let b := add_to_level b (side o) (price o) (shares o) in
      notify_if_top_changed (bump b Adds) recv_ns
  end.

Definition apply_delete (b : t) (m : ItchDeleteOrder.t) (recv_ns : Z) : t * list (TopOfBook * Z) :=
  match orders_ b !! ItchDeleteOrder.order_ref m with
  | None => (bump b UnknownOrder, [])
  | Some o =>
      let b := reduce_level_shares b (side o) (price o) (shares o) in
      let b := remove_order_from_level b (side o) (price o) in
      let b := set_orders b (delete (ItchDeleteOrder.order_ref m) (orders_ b)) in
      notify_if_top_changed (bump b Deletes) recv_ns
  end.

(** Cancel and Executed share their body: [n] shares leave order [ref]. *)
Definition reduce_order (b : t) (ref n : Z) (s : stat) (recv_ns : Z) : t * list (TopOfBook * Z) :=
  match orders_ b !! ref with
  | None => (bump b UnknownOrder, [])
  | Some o =>
      let fill := Z.min n (shares o) in
      let b := reduce_level_shares b (side o) (price o) fill in
      let o' := mk_OrderRecord (side o) (price o) (shares o - fill) in
      let b := bump (set_orders b (<[ref := o']> (orders_ b))) s in
      let b := if shares o' =? 0
               then set_orders (remove_order_from_level b (side o) (price o)) (delete ref (orders_ b))
               else b in
      notify_if_top_changed b recv_ns
  end.

Definition apply_cancel (b : t) (m : ItchOrderCancel.t) (recv_ns : Z) : t * list (TopOfBook * Z) :=
  reduce_order b (ItchOrderCancel.order_ref m) (ItchOrderCancel.cancelled_shares m) Cancels recv_ns.

Definition apply_executed (b : t) (m : ItchOrderExecuted.t) (recv_ns : Z)
    : t * list (TopOfBook * Z) :=
  reduce_order b (ItchOrderExecuted.order_ref m) (ItchOrderExecuted.executed_shares m) Executes
    recv_ns.

Definition apply_replace (b : t) (m : ItchOrderReplace.t) (recv_ns : Z)
    : t * list (TopOfBook * Z) :=
  match orders_ b !! ItchOrderReplace.orig_order_ref m with
  | None => (bump b UnknownOrder, [])
  | Some o =>
      let b := reduce_level_shares b (side o) (price o) (shares o) in
      let b := remove_order_from_level b (side o) (price o) in
      let b := set_orders b (delete (ItchOrderReplace.orig_order_ref m) (orders_ b)) in
      let o' := mk_OrderRecord (side o) (ItchOrderReplace.price m) (ItchOrderReplace.shares m) in
      let b := set_orders b (<[ItchOrderReplace.new_order_ref m := o']> (orders_ b)) in
      let b := add_to_level b (side o) (ItchOrderReplace.price m) (ItchOrderReplace.shares m) in
      notify_if_top_changed (bump b Replaces) recv_ns
  end.

(** The statistics. *)
Definition stat_adds (b : t) : Z := stat_adds_ b.
Definition stat_deletes (b : t) : Z := stat_deletes_ b.
Definition stat_cancels (b : t) : Z := stat_cancels_ b.
Definition stat_executes (b : t) : Z := stat_executes_ b.
Definition stat_replaces (b : t) : Z := stat_replaces_ b.
Definition stat_unknown_order (b : t) : Z := stat_unknown_order_ b.
Definition stat_duplicate_add (b : t) : Z := stat_duplicate_add_ b.

End OrderBook.

(** ** The multi-symbol book *)

#[export] Instance byte_countable : Countable byte :=
  inj_countable Stdlib.Strings.Byte.to_N Stdlib.Strings.Byte.of_N Stdlib.Strings.Byte.of_to_N.

(** [std::string_view sym(m.stock)] stops at the first NUL. *)
Fixpoint c_string (s : list byte) : list byte :=
  match s with
  | [] => []
  | c :: s' => if decide (c = Corelib.Init.Byte.x00) then [] else c :: c_string s'
  end.

(** [while (!sym.empty() && sym.back() == ' ') sym.remove_suffix(1)] *)
Fixpoint drop_spaces (rev_sym : list byte) : list byte :=
  match rev_sym with
  | [] => []
  | c :: s' => if decide (c = Corelib.Init.Byte.x20) then drop_spaces s' else rev_sym
  end.
Definition trim (sym : list byte) : list byte := reverse (drop_spaces (reverse sym)).

Definition symbol_key (stock : list byte) : list byte := trim (c_string stock).

Module MultiSymbolBook.

(** What [on_top_change_] observes: symbol, top, arrival time. *)
Definition top_event : Type := list byte * TopOfBook * Z.

Record t := mk {
  books_ : gmap (list byte) OrderBook.t;
  order_symbol_ : gmap Z (list byte);
  wired_ : gset (list byte);
  on_top_change_ : bool;
  stat_unrouted_ : Z
}.

Definition init : t := mk ∅ ∅ ∅ false 0.

Definition set_on_top_change (s : t) (installed : bool) : t :=
  mk (books_ s) (order_symbol_ s) (wired_ s) installed (stat_unrouted_ s).

Definition set_index (s : t) (i : gmap Z (list byte)) : t :=
  mk (books_ s) i (wired_ s) (on_top_change_ s) (stat_unrouted_ s).

Definition put_book (s : t) (sym : list byte) (b : OrderBook.t) : t :=
  mk (<[sym := b]> (books_ s)) (order_symbol_ s) (wired_ s) (on_top_change_ s) (stat_unrouted_ s).

Definition inc_unrouted (s : t) : t :=
  mk (books_ s) (order_symbol_ s) (wired_ s) (on_top_change_ s) (inc (stat_unrouted_ s)).

(** [books_[sym]] *)
Definition book_at (s : t) (sym : list byte) : OrderBook.t :=
  default OrderBook.init (books_ s !! sym).

(** The symbol and the book an order is routed to. *)
Definition route (s : t) (ref : Z) : option (list byte * OrderBook.t) :=
  sym ← order_symbol_ s !! ref;
  b ← books_ s !! sym;
  Some (sym, b).

Definition book_order_gone (b : OrderBook.t) (ref : Z) : bool := false.

(** The book [sym] after [wire_book], created if it was absent. *)
Definition wire_book (s : t) (sym : list byte) : t :=
  let b := book_at s sym in
  if decide (sym ∈ wired_ s) then put_book s sym b
  else
    let b := if on_top_change_ s then OrderBook.set_on_top_change b true else b in
    mk (<[sym := b]> (books_ s)) (order_symbol_ s) ({[sym]} ∪ wired_ s)
       (on_top_change_ s) (stat_unrouted_ s).

(** A book's callback reports under the book's symbol. *)
Definition report (sym : list byte) (tops : list (TopOfBook * Z)) : list top_event :=
  (fun '(t0, ns) => (sym, t0, ns)) <$> tops.

Definition update_book (s : t) (sym : list byte)
    (r : OrderBook.t * list (TopOfBook * Z)) : t * list top_event :=
  (put_book s sym r.1, report sym r.2).

Definition add_uninit : ItchAddOrder.t := ItchAddOrder.mk 0 0 0 0 0 0 [] Corelib.Init.Byte.x00 false.
Definition delete_uninit : ItchDeleteOrder.t := ItchDeleteOrder.mk 0 0 0.
Definition cancel_uninit : ItchOrderCancel.t := ItchOrderCancel.mk 0 0 0 0.
Definition executed_uninit : ItchOrderExecuted.t := ItchOrderExecuted.mk 0 0 0 0 0.
Definition replace_uninit : ItchOrderReplace.t := ItchOrderReplace.mk 0 0 0 0 0 0.

Definition ingest_add (s : t) (m : ItchAddOrder.t) (recv_ns : Z) : t * list top_event :=
  let sym := symbol_key (ItchAddOrder.stock m) in
  let s := set_index s (<[ItchAddOrder.order_ref m := sym]> (order_symbol_ s)) in
  let s := wire_book s sym in
  update_book s sym (OrderBook.apply_add (book_at s sym) m recv_ns).

Definition ingest_delete (s : t) (m : ItchDeleteOrder.t) (recv_ns : Z) : t * list top_event :=
  match route s (ItchDeleteOrder.order_ref m) with
  | Some (sym, b) =>
      let '(s, evs) := update_book s sym (OrderBook.apply_delete b m recv_ns) in
      (set_index s (delete (ItchDeleteOrder.order_ref m) (order_symbol_ s)), evs)
  | None => (inc_unrouted s, [])
  end.

Definition ingest_cancel (s : t) (m : ItchOrderCancel.t) (recv_ns : Z) : t * list top_event :=
  match route s (ItchOrderCancel.order_ref m) with
  | Some (sym, b) => update_book s sym (OrderBook.apply_cancel b m recv_ns)
  | None => (inc_unrouted s, [])
  end.

Definition ingest_executed (s : t) (m : ItchOrderExecuted.t) (recv_ns : Z) : t * list top_event :=
  match route s (ItchOrderExecuted.order_ref m) with
  | Some (sym, b) =>
      let '(s, evs) := update_book s sym (OrderBook.apply_executed b m recv_ns) in
      (if book_order_gone (book_at s sym) (ItchOrderExecuted.order_ref m)
       then set_index s (delete (ItchOrderExecuted.order_ref m) (order_symbol_ s)) else s, evs)
  | None => (inc_unrouted s, [])
  end.

Definition ingest_replace (s : t) (m : ItchOrderReplace.t) (recv_ns : Z) : t * list top_event :=
  match order_symbol_ s !! ItchOrderReplace.orig_order_ref m with
  | None => (inc_unrouted s, [])
  | Some sym =>
      let '(s, evs) := update_book s sym (OrderBook.apply_replace (book_at s sym) m recv_ns) in
      let index := delete (ItchOrderReplace.orig_order_ref m) (order_symbol_ s) in
      (set_index s (<[ItchOrderReplace.new_order_ref m := sym]> index), evs)
  end.

(** [ingest(msg)]: new state, callbacks, and whether the message was taken. *)
Definition ingest (s : t) (msg : MoldMessage.t) : res (t * list top_event * bool) :=
  let body := MoldMessage.body msg in
  let len := MoldMessage.length msg in
  let ns := MoldMessage.recv_ns msg in
  if len =? 0 then mret (s, [], false) else
  ty ← itch_type body;
  match ty with
  | AddOrderNoMpid | AddOrderMpid =>
      '(ok, m) ← ItchAddOrder.parse body len add_uninit;
      if negb ok then mret (s, [], false) else mret (ingest_add s m ns, true)
  | OrderDelete =>
      '(ok, m) ← ItchDeleteOrder.parse body len delete_uninit;
      if negb ok then mret (s, [], false) else mret (ingest_delete s m ns, true)
  | OrderCancel =>
      '(ok, m) ← ItchOrderCancel.parse body len cancel_uninit;
      if negb ok then mret (s, [], false) else mret (ingest_cancel s m ns, true)
  | OrderExecuted =>
      '(ok, m) ← ItchOrderExecuted.parse body len executed_uninit;
      if negb ok then mret (s, [], false) else mret (ingest_executed s m ns, true)
  | OrderReplace =>
      '(ok, m) ← ItchOrderReplace.parse body len replace_uninit;
      if negb ok then mret (s, [], false) else mret (ingest_replace s m ns, true)
  | _ => mret (s, [], false)
  end.

Definition book_for (s : t) (symbol : list byte) : option OrderBook.t := books_ s !! symbol.
Definition symbol_count (s : t) : Z := Z.of_nat (size (books_ s)).

Definition stat_unrouted (s : t) : Z := stat_unrouted_ s.

End MultiSymbolBook.
