(* ===== verification/BookInv.v ===== *)
(** * BookInv: the levels of a book are the aggregate of its orders

    The abstract book is the map of resting orders; [tracks] says that a map of
    levels is its aggregate on one side, and every level operation keeps it. *)

From stdpp Require Import base gmap list strings fin_maps.
From Stdlib Require Import ZArith Lia.
From S2P Require Import Prelude WireFormat GapBuf Book.

#[local] Open Scope Z_scope.
Import OrderBook.

Abbreviation orders := (gmap Z OrderRecord).

(** ** Sums over the resting orders *)

Definition total (f : OrderRecord -> Z) (m : orders) : Z := map_fold (fun _ o acc => f o + acc) 0 m.

Lemma total_empty f : total f ∅ = 0.
Proof. apply map_fold_empty. Qed.

Lemma total_insert f m k o : m !! k = None -> total f (<[k := o]> m) = f o + total f m.
Proof. intros H. unfold total. rewrite map_fold_insert_L; [done | lia | done]. Qed.

Lemma total_delete f m k o : m !! k = Some o -> total f m = f o + total f (delete k m).
Proof.
  intros H. rewrite <-(total_insert f _ k) by apply lookup_delete_eq. by rewrite insert_delete_id.
Qed.

Lemma total_replace f m k o o' :
  m !! k = Some o -> total f (<[k := o']> m) = f o' - f o + total f m.
Proof.
  intros H. rewrite (total_delete f m k o H), <-insert_delete_eq.
  rewrite total_insert by apply lookup_delete_eq. lia.
Qed.

Lemma total_bounds f m B :
  0 <= B -> (forall k o, m !! k = Some o -> 0 <= f o <= B) -> 0 <= total f m <= B * Z.of_nat (size m).
Proof.
  intros HB. induction m as [|k o m Hk IH] using map_ind; intros H.
  - rewrite total_empty, map_size_empty. lia.
  - rewrite total_insert, map_size_insert_None by done.
    assert (0 <= f o <= B) by (apply (H k); apply lookup_insert_eq).
    assert (0 <= total f m <= B * Z.of_nat (size m)).
    { apply IH. intros k' o' Hk'. apply (H k'). rewrite lookup_insert_ne; congruence. }
    lia.
Qed.

Lemma total_pos f m k o :
  (forall k' o', m !! k' = Some o' -> 0 <= f o') -> m !! k = Some o -> f o <= total f m.
Proof.
  intros H Hk. rewrite (total_delete f m k o Hk).
  enough (0 <= total f (delete k m)) by lia.
  clear o Hk. assert (Hd : forall k' o', delete k m !! k' = Some o' -> 0 <= f o').
  { intros k' o'. rewrite lookup_delete_Some. intros [_ ?]. by eapply H. }
  revert Hd. generalize (delete k m). clear. intros m.
  induction m as [|k o m Hk IH] using map_ind; intros H; [by rewrite total_empty|].
  rewrite total_insert by done. assert (0 <= f o) by (eapply H; apply lookup_insert_eq).
  enough (0 <= total f m) by lia. apply IH. intros k' o' Hk'. apply (H k').
  rewrite lookup_insert_ne; congruence.
Qed.

(** ** The aggregate of a side *)

Definition is_buy (o : OrderRecord) : bool := bool_decide (side o = kBuy).
Definition here (buy : bool) (pr : Z) (o : OrderRecord) : bool :=
  Bool.eqb (is_buy o) buy && (price o =? pr).

Definition count_at (m : orders) (buy : bool) (pr : Z) : Z :=
  total (fun o => if here buy pr o then 1 else 0) m.
Definition shares_at (m : orders) (buy : bool) (pr : Z) : Z :=
  total (fun o => if here buy pr o then shares o else 0) m.

Definition level_at (m : orders) (buy : bool) (pr : Z) : option LevelAgg :=
  if count_at m buy pr =? 0 then None
  else Some (mk_LevelAgg (shares_at m buy pr) (count_at m buy pr)).

Definition tracks (buy : bool) (levels : gmap Z LevelAgg) (m : orders) : Prop :=
  forall pr, levels !! pr = level_at m buy pr.

(** Orders as the feed can have them: 32-bit sizes, fewer than 2^32 at a time. *)
Definition sized (m : orders) : Prop :=
  (forall k o, m !! k = Some o -> is_u32 (shares o)) /\ Z.of_nat (size m) < 2 ^ 32.

Lemma count_at_bounds m buy pr : 0 <= count_at m buy pr <= Z.of_nat (size m).
Proof.
  unfold count_at. pose proof (total_bounds (fun o => if here buy pr o then 1 else 0) m 1) as H.
  rewrite Z.mul_1_l in H. apply H; [lia|]. intros k o _. destruct (here _ _ _); lia.
Qed.

Lemma shares_at_bounds m buy pr : sized m -> 0 <= shares_at m buy pr < 2 ^ 64.
Proof.
  intros [Hu Hs]. unfold shares_at.
  pose proof (total_bounds (fun o => if here buy pr o then shares o else 0) m (2 ^ 32 - 1)) as H.
  enough (0 <= total (fun o => if here buy pr o then shares o else 0) m
          <= (2 ^ 32 - 1) * Z.of_nat (size m)) by nia.
  apply H; [lia|]. intros k o Hk. specialize (Hu k o Hk). destruct (here _ _ _); width.
Qed.

(** A resting order shows in its level. *)
Lemma order_in_level m k o :
  sized m -> m !! k = Some o ->
  1 <= count_at m (is_buy o) (price o) /\ shares o <= shares_at m (is_buy o) (price o).
Proof.
  intros [Hu _] Hk. unfold count_at, shares_at.
  assert (Hh : here (is_buy o) (price o) o = true)
    by (unfold here; by rewrite eqb_reflx, Z.eqb_refl).
  split.
  - pose proof (total_pos (fun o' => if here (is_buy o) (price o) o' then 1 else 0) m k o) as H.
    cbv beta in H. rewrite Hh in H. apply H; [|done]. intros. case_match; lia.
  - pose proof (total_pos (fun o' => if here (is_buy o) (price o) o' then shares o' else 0) m k o) as H.
    cbv beta in H. rewrite Hh in H. apply H; [|done]. intros k' o' Hk'.
    specialize (Hu k' o' Hk'). case_match; width.
Qed.

(** An empty level has no shares. *)
Lemma empty_level_shares m buy pr : count_at m buy pr = 0 -> shares_at m buy pr = 0.
Proof.
  unfold count_at, shares_at. induction m as [|k o m Hk IH] using map_ind; [done|].
  rewrite !total_insert by done.
  pose proof (count_at_bounds m buy pr) as Hb. unfold count_at in Hb.
  destruct (here buy pr o); intros; [lia|]. rewrite IH; lia.
Qed.

Lemma sized_delete m k : sized m -> sized (delete k m).
Proof.
  intros [Hu Hs]. split.
  - intros k' o. rewrite lookup_delete_Some. intros [_ ?]. by eapply Hu.
  - rewrite map_size_delete. destruct (m !! k); cbn; lia.
Qed.

Lemma sized_insert m k o :
  sized m -> is_u32 (shares o) -> Z.of_nat (size m) + 1 < 2 ^ 32 -> sized (<[k := o]> m).
Proof.
  intros [Hu _] Ho Hs. split.
  - intros k' o'. rewrite lookup_insert_Some. intros [[_ <-]|[_ ?]]; [done | by eapply Hu].
  - rewrite map_size_insert. destruct (m !! k); cbn; lia.
Qed.

Lemma sized_replace m k o o' :
  sized m -> m !! k = Some o -> is_u32 (shares o') -> sized (<[k := o']> m).
Proof.
  intros [Hu Hs] Hk Ho. split.
  - intros k' o2. rewrite lookup_insert_Some. intros [[_ <-]|[_ ?]]; [done | by eapply Hu].
  - rewrite map_size_insert, Hk. done.
Qed.

(** ** How the aggregate moves with the orders *)

Section Moves.
Context (m : orders) (k : Z) (buy : bool) (pr : Z).

Lemma level_insert o :
  m !! k = None ->
  count_at (<[k := o]> m) buy pr = (if here buy pr o then 1 else 0) + count_at m buy pr /\
  shares_at (<[k := o]> m) buy pr = (if here buy pr o then shares o else 0) + shares_at m buy pr.
Proof. intros H. unfold count_at, shares_at. by rewrite !total_insert. Qed.

Lemma level_delete o :
  m !! k = Some o ->
  count_at m buy pr = (if here buy pr o then 1 else 0) + count_at (delete k m) buy pr /\
  shares_at m buy pr = (if here buy pr o then shares o else 0) + shares_at (delete k m) buy pr.
Proof.
  intros H. unfold count_at, shares_at.
  split; [exact (total_delete _ m k o H) | exact (total_delete _ m k o H)].
Qed.

Lemma level_resize o n :
  m !! k = Some o ->
  let o' := mk_OrderRecord (side o) (price o) (shares o - n) in
  count_at (<[k := o']> m) buy pr = count_at m buy pr /\
  shares_at (<[k := o']> m) buy pr = shares_at m buy pr - (if here buy pr o then n else 0).
Proof.
  intros H o'. unfold count_at, shares_at. rewrite !(total_replace _ m k o o' H).
  unfold here, is_buy, o'. cbn. destruct (_ && _); cbn; lia.
Qed.

End Moves.

Lemma here_eq buy pr o : here buy pr o = true <-> is_buy o = buy /\ price o = pr.
Proof. unfold here. rewrite andb_true_iff, eqb_true_iff, Z.eqb_eq. done. Qed.

Lemma here_other buy pr o : is_buy o <> buy \/ price o <> pr -> here buy pr o = false.
Proof. intros H. apply not_true_iff_false. rewrite here_eq. tauto. Qed.

(** ** The level operations *)

(** The side an order is not on. *)
Lemma tracks_other_side buy levels m m' :
  (forall pr, count_at m' buy pr = count_at m buy pr /\ shares_at m' buy pr = shares_at m buy pr) ->
  tracks buy levels m -> tracks buy levels m'.
Proof. intros He Ht pr. rewrite Ht. unfold level_at. by destruct (He pr) as [-> ->]. Qed.

Lemma add_level_tracks levels m k o :
  sized m -> sized (<[k := o]> m) -> m !! k = None -> tracks (is_buy o) levels m ->
  tracks (is_buy o) (add_level (price o) (shares o) levels) (<[k := o]> m).
Proof.
  intros Hs Hs' Hk Ht pr. unfold add_level.
  destruct (level_insert m k (is_buy o) pr o Hk) as [Hc Hsh].
  unfold level_at. rewrite Hc, Hsh. destruct (decide (pr = price o)) as [->|Hne].
  - rewrite lookup_insert_eq, (proj2 (here_eq _ _ _)) in * by done.
    pose proof (count_at_bounds m (is_buy o) (price o)).
    pose proof (shares_at_bounds (<[k := o]> m) (is_buy o) (price o) Hs').
    pose proof (count_at_bounds (<[k := o]> m) (is_buy o) (price o)).
    destruct Hs' as [_ Hs']. rewrite (proj2 (Z.eqb_neq _ _)) by lia.
    rewrite Ht. unfold level_at.
    destruct (Z.eqb_spec (count_at m (is_buy o) (price o)) 0) as [E|]; cbn;
      rewrite ?(empty_level_shares _ _ _ E), ?E in *; unwrap; do 2 f_equal; lia.
  - rewrite lookup_insert_ne, Ht by done. unfold level_at.
    rewrite here_other by auto. by rewrite !Z.add_0_l.
Qed.

Lemma reduce_level_tracks levels m k o n :
  sized m -> m !! k = Some o -> 0 <= n < shares o -> tracks (is_buy o) levels m ->
  tracks (is_buy o) (reduce_level (price o) n levels)
         (<[k := mk_OrderRecord (side o) (price o) (shares o - n)]> m).
Proof.
  intros Hs Hk Hn Ht pr. destruct (order_in_level m k o Hs Hk) as [Hc1 Hs1].
  unfold level_at. destruct (level_resize m k (is_buy o) pr o n Hk) as [-> ->].
  unfold reduce_level. rewrite (Ht (price o)). unfold level_at at 1.
  rewrite (proj2 (Z.eqb_neq _ _)) by lia. cbn [agg_shares order_count].
  rewrite (proj2 (Z.eqb_neq _ 0)), andb_false_l by lia.
  destruct (decide (pr = price o)) as [->|Hne].
  - rewrite lookup_insert_eq, (proj2 (here_eq _ _ _)) by done.
    rewrite (proj2 (Z.eqb_neq _ _)) by lia. do 2 f_equal. lia.
  - rewrite lookup_insert_ne, Ht by done. unfold level_at.
    rewrite here_other by auto. by rewrite Z.sub_0_r.
Qed.

(** An order leaves its level: first its shares, then itself. *)
Lemma leave_level_tracks levels m k o :
  sized m -> m !! k = Some o -> tracks (is_buy o) levels m ->
  tracks (is_buy o) (remove_level (price o) (reduce_level (price o) (shares o) levels)) (delete k m).
Proof.
  intros Hs Hk Ht pr. destruct (order_in_level m k o Hs Hk) as [Hc1 Hs1].
  pose proof (proj1 Hs k o Hk) as Hu.
  destruct (level_delete m k (is_buy o) (price o) o Hk) as [Hc Hsh].
  rewrite (proj2 (here_eq _ _ _)) in * by done.
  pose proof (shares_at_bounds _ (is_buy o) (price o) (sized_delete m k Hs)).
  assert (Hr : reduce_level (price o) (shares o) levels !! price o
    = Some (mk_LevelAgg (shares_at (delete k m) (is_buy o) (price o)) (count_at m (is_buy o) (price o)))).
  { unfold reduce_level. rewrite (Ht (price o)). unfold level_at.
    rewrite (proj2 (Z.eqb_neq _ _)) by lia. cbn [agg_shares order_count].
    rewrite (proj2 (Z.eqb_neq (count_at m _ _) 0)), andb_false_r by lia.
    rewrite lookup_insert_eq. do 2 f_equal. lia. }
  unfold remove_level. rewrite Hr. cbn [agg_shares order_count].
  rewrite (proj2 (Z.ltb_lt _ _)) by lia.
  destruct (decide (pr = price o)) as [->|Hne].
  - unfold level_at. rewrite Hc, Z.add_simpl_l.
    destruct (Z.eqb_spec (count_at (delete k m) (is_buy o) (price o)) 0) as [E|E]; cbn.
    + rewrite (empty_level_shares _ _ _ E), Z.eqb_refl. apply lookup_delete_eq.
    + by rewrite lookup_insert_eq.
  - assert (levels !! pr = level_at (delete k m) (is_buy o) pr) as <-.
    { rewrite Ht. unfold level_at. destruct (level_delete m k (is_buy o) pr o Hk) as [-> ->].
      by rewrite here_other, !Z.add_0_l by auto. }
    assert (Hne' : reduce_level (price o) (shares o) levels !! pr = levels !! pr).
    { unfold reduce_level. destruct (levels !! price o); [|done].
      destruct (_ && _); [by rewrite lookup_delete_ne | by rewrite lookup_insert_ne]. }
    destruct (_ && _); [rewrite lookup_delete_ne by done | rewrite lookup_insert_ne by done]; done.
Qed.
