(* ===== verification/BookProps.v ===== *)
(** * BookProps: the order book refines the map of resting orders

    One lemma per book message: it keeps the correspondence with the map the ITCH
    rules give. *)

From stdpp Require Import base gmap list strings fin_maps.
From Stdlib Require Import ZArith Lia.
From S2P Require Import Prelude WireFormat GapBuf Book BookInv.

#[local] Open Scope Z_scope.
Import OrderBook.

(** ** Messages and the abstract book *)

Inductive book_msg :=
| MAdd (m : ItchAddOrder.t)
| MDelete (m : ItchDeleteOrder.t)
| MCancel (m : ItchOrderCancel.t)
| MExecuted (m : ItchOrderExecuted.t)
| MReplace (m : ItchOrderReplace.t).

Definition apply_msg (b : t) (msg : book_msg) (ns : Z) : t * list (TopOfBook * Z) :=
  match msg with
  | MAdd m => apply_add b m ns
  | MDelete m => apply_delete b m ns
  | MCancel m => apply_cancel b m ns
  | MExecuted m => apply_executed b m ns
  | MReplace m => apply_replace b m ns
  end.

Definition spec_reduce (m : orders) (ref n : Z) : orders :=
  match m !! ref with
  | None => m
  | Some o => if shares o <=? n then delete ref m
              else <[ref := mk_OrderRecord (side o) (price o) (shares o - n)]> m
  end.

(** What a message means for the resting orders. *)
Definition spec_step (m : orders) (msg : book_msg) : orders :=
  match msg with
  | MAdd a =>
      if decide (is_Some (m !! ItchAddOrder.order_ref a)) then m
      else <[ItchAddOrder.order_ref a :=
               mk_OrderRecord (ItchAddOrder.side a) (ItchAddOrder.price a) (ItchAddOrder.shares a)]> m
  | MDelete d => delete (ItchDeleteOrder.order_ref d) m
  | MCancel c => spec_reduce m (ItchOrderCancel.order_ref c) (ItchOrderCancel.cancelled_shares c)
  | MExecuted e => spec_reduce m (ItchOrderExecuted.order_ref e) (ItchOrderExecuted.executed_shares e)
  | MReplace r =>
      match m !! ItchOrderReplace.orig_order_ref r with
      | None => m
      | Some o =>
          <[ItchOrderReplace.new_order_ref r :=
              mk_OrderRecord (side o) (ItchOrderReplace.price r) (ItchOrderReplace.shares r)]>
            (delete (ItchOrderReplace.orig_order_ref r) m)
      end
  end.

(** Messages of a correct feed: 32-bit sizes, room for one more order, and a
    replacement reference that is not resting. *)
Definition msg_ok (m : orders) (msg : book_msg) : Prop :=
  match msg with
  | MAdd a => is_u32 (ItchAddOrder.shares a) /\ Z.of_nat (size m) + 1 < 2 ^ 32
  | MDelete _ => True
  | MCancel c => 0 <= ItchOrderCancel.cancelled_shares c
  | MExecuted e => 0 <= ItchOrderExecuted.executed_shares e
  | MReplace r =>
      is_u32 (ItchOrderReplace.shares r) /\ Z.of_nat (size m) + 1 < 2 ^ 32 /\
      delete (ItchOrderReplace.orig_order_ref r) m !! ItchOrderReplace.new_order_ref r = None
  end.

Definition levels_of (b : t) (buy : bool) : gmap Z LevelAgg := if buy then bids_ b else asks_ b.

(** The refinement relation. *)
Record book_ok (b : t) (m : orders) : Prop := {
  bk_orders : orders_ b = m;
  bk_levels : forall buy, tracks buy (levels_of b buy) m;
  bk_sized : sized m
}.

Lemma init_ok on : book_ok (set_on_top_change init on) ∅.
Proof.
  split; [done | | split; [done | by rewrite map_size_empty]].
  intros [] pr; unfold level_at, count_at; by rewrite total_empty.
Qed.

(** ** The levels after an update of one side *)

Lemma levels_on_side b sd f buy :
  levels_of (on_side b sd f) buy =
  if decide (bool_decide (sd = kBuy) = buy) then f (levels_of b buy) else levels_of b buy.
Proof.
  unfold on_side. destruct (decide (sd = kBuy)) as [E|E].
  - rewrite (bool_decide_eq_true_2 _ E). by destruct buy.
  - rewrite (bool_decide_eq_false_2 _ E). by destruct buy.
Qed.

Lemma orders_on_side b sd f : orders_ (on_side b sd f) = orders_ b.
Proof. unfold on_side. by destruct (decide _). Qed.

Lemma levels_bump b s buy : levels_of (bump b s) buy = levels_of b buy.
Proof. by destruct buy. Qed.
Lemma levels_set_orders b m buy : levels_of (set_orders b m) buy = levels_of b buy.
Proof. by destruct buy. Qed.

Lemma notify_ok b m ns : book_ok b m -> book_ok (notify_if_top_changed b ns).1 m.
Proof.
  unfold notify_if_top_changed. destruct (negb _); [done|]. cbv zeta.
  destruct (top_changed _ _); [|done]. by intros [].
Qed.

Lemma bump_ok b s m : book_ok b m -> book_ok (bump b s) m.
Proof. by intros []. Qed.

Lemma other_side_delete m k o buy levels :
  m !! k = Some o -> is_buy o <> buy -> tracks buy levels m -> tracks buy levels (delete k m).
Proof.
  intros Hk Hb. apply tracks_other_side. intros pr.
  destruct (level_delete m k buy pr o Hk) as [-> ->].
  by rewrite here_other, !Z.add_0_l by auto.
Qed.

Lemma other_side_insert m k o buy levels :
  m !! k = None -> is_buy o <> buy -> tracks buy levels m -> tracks buy levels (<[k := o]> m).
Proof.
  intros Hk Hb. apply tracks_other_side. intros pr.
  destruct (level_insert m k buy pr o Hk) as [-> ->].
  by rewrite here_other, !Z.add_0_l by auto.
Qed.

Lemma other_side_resize m k o n buy levels :
  m !! k = Some o -> is_buy o <> buy -> tracks buy levels m ->
  tracks buy levels (<[k := mk_OrderRecord (side o) (price o) (shares o - n)]> m).
Proof.
  intros Hk Hb. apply tracks_other_side. intros pr.
  destruct (level_resize m k buy pr o n Hk) as [-> ->].
  by rewrite here_other, Z.sub_0_r by auto.
Qed.

(** ** The three ways a book moves *)

(** An order enters. *)
Lemma enter_ok b m k o :
  book_ok b m -> m !! k = None -> sized (<[k := o]> m) ->
  book_ok (add_to_level (set_orders b (<[k := o]> (orders_ b))) (side o) (price o) (shares o))
          (<[k := o]> m).
Proof.
  intros [<- Ht Hs] Hk Hs'. split; [unfold add_to_level; by rewrite orders_on_side | | done].
  intros buy. unfold add_to_level. rewrite levels_on_side, levels_set_orders.
  destruct (decide _) as [<-|Hne].
  - by apply add_level_tracks.
  - by apply other_side_insert.
Qed.

(** An order leaves: its shares, then the order, then its record. *)
Definition leave (b : t) (o : OrderRecord) : t :=
  remove_order_from_level (reduce_level_shares b (side o) (price o) (shares o)) (side o) (price o).

Lemma leave_ok b m k o :
  book_ok b m -> m !! k = Some o ->
  book_ok (set_orders (leave b o) (delete k (orders_ (leave b o)))) (delete k m).
Proof.
  intros [<- Ht Hs] Hk. unfold leave, remove_order_from_level, reduce_level_shares.
  split; [cbn; by rewrite !orders_on_side | | by apply sized_delete].
  intros buy. rewrite levels_set_orders, !levels_on_side.
  destruct (decide (bool_decide (side o = kBuy) = buy)) as [<-|Hne].
  - by apply leave_level_tracks.
  - by eapply other_side_delete.
Qed.

(** An order shrinks and stays. *)
Lemma shrink_ok b m k o n :
  book_ok b m -> m !! k = Some o -> 0 <= n < shares o ->
  let o' := mk_OrderRecord (side o) (price o) (shares o - n) in
  book_ok (set_orders (reduce_level_shares b (side o) (price o) n) (<[k := o']> (orders_ b)))
          (<[k := o']> m).
Proof.
  intros [<- Ht Hs] Hk Hn o'. pose proof (proj1 Hs k o Hk) as Hu.
  split; [done | | eapply sized_replace; [done | done | cbn; width]].
  intros buy. unfold reduce_level_shares. rewrite levels_set_orders, levels_on_side.
  destruct (decide _) as [<-|Hne].
  - by apply reduce_level_tracks.
  - by apply other_side_resize.
Qed.

(** ** The operations *)

Lemma reduce_order_ok b m ref n s ns :
  book_ok b m -> 0 <= n -> book_ok (reduce_order b ref n s ns).1 (spec_reduce m ref n).
Proof.
  intros Hb Hn. unfold reduce_order, spec_reduce. rewrite (bk_orders _ _ Hb).
  destruct (m !! ref) as [o|] eqn:Hk; [|by apply bump_ok].
  pose proof (proj1 (bk_sized _ _ Hb) ref o Hk) as Hu. apply notify_ok. cbn [shares].
  destruct (Z.leb_spec (shares o) n) as [Hle|Hgt].
  - rewrite Z.min_r, Z.sub_diag by done. cbn [Z.eqb].
    destruct (leave_ok b m ref o Hb Hk) as [E Ht Hs].
    split; [cbn | intros buy | done].
    + unfold reduce_level_shares. rewrite orders_on_side, (bk_orders _ _ Hb). apply delete_insert_eq.
    + rewrite levels_set_orders. specialize (Ht buy). rewrite levels_set_orders in Ht.
      unfold leave, remove_order_from_level in *. rewrite levels_on_side in *.
      rewrite levels_bump, levels_set_orders. exact Ht.
  - rewrite Z.min_l by lia. rewrite (proj2 (Z.eqb_neq _ 0)) by lia.
    apply bump_ok. unfold reduce_level_shares at 2. rewrite orders_on_side.
    by apply shrink_ok.
Qed.

Lemma apply_msg_ok b m msg ns :
  book_ok b m -> msg_ok m msg -> book_ok (apply_msg b msg ns).1 (spec_step m msg).
Proof.
  intros Hb Hok. destruct msg as [a|d|c|e|r]; cbn [apply_msg spec_step msg_ok] in *.
  - destruct Hok as [Hu Hsz]. unfold apply_add. rewrite (bk_orders _ _ Hb).
    destruct (m !! ItchAddOrder.order_ref a) as [o|] eqn:Hk.
    + rewrite decide_True by eauto. by apply bump_ok.
    + rewrite decide_False by (by intros [? [=]]). apply notify_ok, bump_ok.
      rewrite <-(bk_orders _ _ Hb) at 1. apply enter_ok; [done | done |].
      apply sized_insert; [apply Hb | done | done].
  - unfold apply_delete. rewrite (bk_orders _ _ Hb).
    destruct (m !! ItchDeleteOrder.order_ref d) as [o|] eqn:Hk.
    + by apply notify_ok, bump_ok, leave_ok.
    + rewrite delete_id by done. by apply bump_ok.
  - by apply reduce_order_ok.
  - by apply reduce_order_ok.
  - destruct Hok as (Hu & Hsz & Hnew). unfold apply_replace. rewrite (bk_orders _ _ Hb).
    destruct (m !! ItchOrderReplace.orig_order_ref r) as [o|] eqn:Hk; [|by apply bump_ok].
    apply notify_ok, bump_ok.
    apply (enter_ok (set_orders (leave b o) (delete (ItchOrderReplace.orig_order_ref r) (orders_ (leave b o)))) _ _
             (mk_OrderRecord (side o) (ItchOrderReplace.price r) (ItchOrderReplace.shares r)));
      [by apply leave_ok | done |].
    apply sized_insert; [by apply sized_delete, Hb | done|].
    rewrite map_size_delete, Hk. cbn. lia.
Qed.
