(* ===== verification/BookTop.v ===== *)
(** * BookTop: what a book reports

    Runs of book messages, and the top of book against the resting orders. *)

From stdpp Require Import base gmap list strings fin_maps.
From Stdlib Require Import ZArith Lia.
From S2P Require Import Prelude WireFormat GapBuf Book BookInv BookProps.

#[local] Open Scope Z_scope.
Import OrderBook.

(** ** Runs *)

Fixpoint apply_all (b : t) (msgs : list (book_msg * Z)) : t * list (TopOfBook * Z) :=
  match msgs with
  | [] => (b, [])
  | (msg, ns) :: msgs' =>
      let '(b1, e1) := apply_msg b msg ns in
      let '(b2, e2) := apply_all b1 msgs' in
      (b2, e1 ++ e2)
  end.

Definition spec_all (m : orders) (msgs : list (book_msg * Z)) : orders :=
  foldl (fun m '(msg, _) => spec_step m msg) m msgs.

Fixpoint msgs_ok (m : orders) (msgs : list (book_msg * Z)) : Prop :=
  match msgs with
  | [] => True
  | (msg, _) :: msgs' => msg_ok m msg /\ msgs_ok (spec_step m msg) msgs'
  end.

Lemma apply_all_ok b m msgs :
  book_ok b m -> msgs_ok m msgs -> book_ok (apply_all b msgs).1 (spec_all m msgs).
Proof.
  revert b m. induction msgs as [|[msg ns] msgs IH]; intros b m Hb Hok; [done|].
  destruct Hok as [Hok1 Hok]. pose proof (apply_msg_ok b m msg ns Hb Hok1) as H1.
  cbn [apply_all spec_all foldl]. destruct (apply_msg b msg ns) as [b1 e1].
  specialize (IH b1 _ H1 Hok). by destruct (apply_all b1 msgs) as [b2 e2].
Qed.

(** ** [begin()] *)

Section Begin.
Context {A : Type} (before : Z -> Z -> bool).
Context (Htrans : forall x y z, before x y = true -> before y z = true -> before x z = true).
Context (Htotal : forall x y, before x y = false -> x = y \/ before y x = true).

Lemma begin_of_spec (m : gmap Z A) :
  match begin_of before m with
  | None => m = ∅
  | Some (p, a) => m !! p = Some a /\
      forall q x, m !! q = Some x -> q = p \/ before p q = true
  end.
Proof using Htrans Htotal.
  unfold begin_of.
  apply (map_fold_weak_ind (fun acc m => match acc with
    | None => m = ∅
    | Some (p, a) => m !! p = Some a /\
        forall q x, m !! q = Some x -> q = p \/ before p q = true end)); [done|].
  intros i x m' acc Hi IH. destruct acc as [[q b]|].
  - destruct IH as [Hq Hmin]. destruct (before i q) eqn:E.
    + split; [apply lookup_insert_eq|]. intros r y Hr.
      apply lookup_insert_Some in Hr as [[-> _]|[Hne Hr]]; [by left|]. right.
      destruct (Hmin r y Hr) as [-> | Hb]; [done | by eapply Htrans].
    + split; [rewrite lookup_insert_ne; congruence|]. intros r y Hr.
      apply lookup_insert_Some in Hr as [[<- _]|[Hne Hr]]; [|by eapply Hmin].
      destruct (Htotal _ _ E); auto.
  - subst m'. split; [apply lookup_insert_eq|]. intros r y Hr.
    apply lookup_insert_Some in Hr as [[-> _]|[_ Hr]]; [by left | by rewrite lookup_empty in Hr].
Qed.

End Begin.

(** [pl] is the aggregate of the best price of one side ([ahead] is at least as
    good as), and there is none when no order rests there. *)
Definition best_level (m : orders) (buy : bool) (ahead : Z -> Z -> Prop)
    (top : option PriceLevel) : Prop :=
  match top with
  | None => forall k o, m !! k = Some o -> is_buy o <> buy
  | Some pl =>
      (exists k o, m !! k = Some o /\ is_buy o = buy /\ price o = pl_price pl) /\
      (forall k o, m !! k = Some o -> is_buy o = buy -> ahead (pl_price pl) (price o)) /\
      pl_shares pl = shares_at m buy (pl_price pl) /\
      pl_orders pl = count_at m buy (pl_price pl)
  end.

Lemma some_order_at m buy pr :
  0 < count_at m buy pr -> exists k o, m !! k = Some o /\ is_buy o = buy /\ price o = pr.
Proof.
  unfold count_at. induction m as [|k o m Hk IH] using map_ind.
  { rewrite total_empty. lia. }
  rewrite total_insert by done. destruct (here buy pr o) eqn:Hh.
  - intros _. apply here_eq in Hh as [? ?]. exists k, o. split; [apply lookup_insert_eq | done].
  - intros H. destruct IH as (k' & o' & Hk' & ?); [lia|]. exists k', o'.
    split; [rewrite lookup_insert_ne; congruence | done].
Qed.

Lemma best_level_tracks before ahead buy levels m :
  (forall x y z, before x y = true -> before y z = true -> before x z = true) ->
  (forall x y, before x y = false -> x = y \/ before y x = true) ->
  (forall x y, x = y \/ before y x = true -> ahead y x) ->
  sized m -> tracks buy levels m ->
  best_level m buy ahead (as_level <$> begin_of before levels).
Proof.
  intros H1 H2 Ha Hs Ht. pose proof (begin_of_spec before H1 H2 levels) as Hb.
  destruct (begin_of before levels) as [[p agg]|]; cbn.
  - destruct Hb as [Hp Hmin]. rewrite Ht in Hp. unfold level_at in Hp.
    pose proof (count_at_bounds m buy p).
    destruct (Z.eqb_spec (count_at m buy p) 0); [done|]. injection Hp as <-. cbn.
    split; [apply some_order_at; lia|]. split; [|done].
    intros k o Hk Hbuy. apply Ha. destruct (order_in_level m k o Hs Hk) as [Hc _].
    rewrite Hbuy in Hc. apply (Hmin (price o) (mk_LevelAgg (shares_at m buy (price o)) (count_at m buy (price o)))).
    rewrite Ht. unfold level_at. by rewrite (proj2 (Z.eqb_neq _ _)) by lia.
  - intros k o Hk <-. destruct (order_in_level m k o Hs Hk) as [Hc _].
    specialize (Ht (price o)). rewrite Hb, lookup_empty in Ht. unfold level_at in Ht.
    by rewrite (proj2 (Z.eqb_neq _ _)) in Ht by lia.
Qed.

Lemma top_ok b m :
  book_ok b m ->
  best_level m true Z.ge (bid (top b)) /\ best_level m false Z.le (ask (top b)).
Proof.
  intros [_ Ht Hs]. split; cbn.
  - apply best_level_tracks; [| | |done | apply (Ht true)].
    + intros x y z. rewrite !Z.gtb_lt. lia.
    + intros x y. rewrite Z.gtb_ltb, Z.ltb_ge, Z.gtb_lt. lia.
    + intros x y. rewrite Z.gtb_lt. lia.
  - apply best_level_tracks; [| | |done | apply (Ht false)].
    + intros x y z. rewrite !Z.ltb_lt. lia.
    + intros x y. rewrite Z.ltb_ge, Z.ltb_lt. lia.
    + intros x y. rewrite Z.ltb_lt. lia.
Qed.

(** C8.  The book refines the map of resting orders: after any run of Add, Delete,
    Cancel, Executed and Replace messages of a correct feed, [orders_] is the map
    the ITCH rules give, every level of [bids_] and [asks_] exists exactly when
    an order rests there and carries the exact total size and number of its
    orders, without overflow. *)
Theorem book_refines_orders (on : bool) (msgs : list (book_msg * Z)) :
  msgs_ok ∅ msgs ->
  let b := (apply_all (set_on_top_change init on) msgs).1 in
  let m := spec_all ∅ msgs in
  orders_ b = m /\
  forall pr,
    bids_ b !! pr = level_at m true pr /\ asks_ b !! pr = level_at m false pr.
Proof.
  intros Hok b m. pose proof (apply_all_ok _ _ msgs (init_ok on) Hok) as [E Ht _].
  split; [done|]. intros pr. split; [apply (Ht true) | apply (Ht false)].
Qed.

Definition test_add (ref : Z) (sd : byte) (sh pr : Z) : book_msg :=
  MAdd (ItchAddOrder.mk 0 0 0 ref sh pr [] sd false).
Definition kSell : byte := Corelib.Init.Byte.x53.
Definition test_msgs : list (book_msg * Z) :=
  [(test_add 1 kBuy 100 5000, 10); (test_add 2 kBuy 50 5000, 20); (test_add 3 kSell 70 5100, 30);
   (MExecuted (ItchOrderExecuted.mk 0 0 1 100 9), 40); (MCancel (ItchOrderCancel.mk 0 0 2 20), 50);
   (MReplace (ItchOrderReplace.mk 0 0 3 4 60 5050), 60); (MDelete (ItchDeleteOrder.mk 0 0 9), 70)].

Lemma test_msgs_ok : msgs_ok ∅ test_msgs.
Proof. by vm_compute. Qed.

Lemma book_refines_orders_witness :
  let b := (apply_all (set_on_top_change init true) test_msgs).1 in
  let m := spec_all ∅ test_msgs in
  orders_ b = m /\
  forall pr,
    bids_ b !! pr = level_at m true pr /\ asks_ b !! pr = level_at m false pr.
Proof. apply book_refines_orders. by vm_compute. Defined.

Example test_msgs_top :
  top (apply_all (set_on_top_change init true) test_msgs).1
  = mk_TopOfBook (Some (mk_PriceLevel 5000 30 1)) (Some (mk_PriceLevel 5050 60 1)).
Proof. by vm_compute. Qed.

(** C18.  [top()] is the best bid and offer: the bid is the highest price of a resting
    buy order and the ask the lowest of a resting sell order, each with the total
    size and number of the orders there, and absent exactly when no order rests
    on that side. *)
Theorem top_is_best_bid_offer (on : bool) (msgs : list (book_msg * Z)) :
  msgs_ok ∅ msgs ->
  let b := (apply_all (set_on_top_change init on) msgs).1 in
  best_level (orders_ b) true Z.ge (bid (top b)) /\
  best_level (orders_ b) false Z.le (ask (top b)).
Proof.
  intros Hok b. pose proof (apply_all_ok _ _ msgs (init_ok on) Hok) as H.
  unfold b. rewrite (bk_orders _ _ H). by apply top_ok.
Qed.

Lemma top_is_best_bid_offer_witness :
  let b := (apply_all (set_on_top_change init true) test_msgs).1 in
  best_level (orders_ b) true Z.ge (bid (top b)) /\
  best_level (orders_ b) false Z.le (ask (top b)).
Proof. apply top_is_best_bid_offer. by vm_compute. Defined.
