(* ===== verification/BookNotify.v ===== *)
(** * BookNotify: the notifications of a book, and its one unguarded update

    What a consumer is told over a run, and what [apply_replace] does when the
    new reference already rests. *)

From stdpp Require Import base gmap list strings fin_maps.
From Stdlib Require Import ZArith Lia.
From S2P Require Import Prelude WireFormat GapBuf Book BookInv BookProps BookTop.

#[local] Open Scope Z_scope.
Import OrderBook.

(** ** What the consumer sees of a side: price and size, not the order count *)

Definition view_level (l : option PriceLevel) : option (Z * Z) :=
  (fun p => (pl_price p, pl_shares p)) <$> l.
Definition view (t0 : TopOfBook) : option (Z * Z) * option (Z * Z) :=
  (view_level (bid t0), view_level (ask t0)).

Lemma level_changed_view x y :
  negb (Bool.eqb (has_value x) (has_value y)) = false ->
  level_changed x y = false <-> view_level x = view_level y.
Proof.
  destruct x as [[p s n]|], y as [[p' s' n']|]; cbn; try done. intros _.
  rewrite orb_false_iff, !negb_false_iff, !Z.eqb_eq. naive_solver.
Qed.

Lemma has_value_view x y :
  view_level x = view_level y -> negb (Bool.eqb (has_value x) (has_value y)) = false.
Proof. by destruct x, y. Qed.

Lemma top_changed_view b t0 :
  top_changed b t0 = false <-> last_top_valid_ b = true /\ view t0 = view (last_top_ b).
Proof.
  unfold top_changed, view. rewrite !orb_false_iff, negb_false_iff. split.
  - intros ((((Hv & Hb) & Ha) & Hlb) & Hla). split; [done|].
    by f_equal; [apply level_changed_view | apply level_changed_view].
  - intros [Hv [= Hb Ha]]. pose proof (has_value_view _ _ Hb). pose proof (has_value_view _ _ Ha).
    repeat split; try done; by apply level_changed_view.
Qed.

(** The notifier's own fields. *)
Definition watch_of (b : t) := (on_top_change_ b, last_top_ b, last_top_valid_ b).

(** Every operation either only counts, or moves the levels and then notifies. *)
Lemma apply_msg_shape b msg ns :
  (exists s, apply_msg b msg ns = (bump b s, [])) \/
  (exists b', watch_of b' = watch_of b /\ apply_msg b msg ns = notify_if_top_changed b' ns).
Proof.
  assert (Hs : forall b' sd f, watch_of (on_side b' sd f) = watch_of b')
    by (intros; unfold on_side; by destruct (decide _)).
  assert (Ho : forall b' m, watch_of (set_orders b' m) = watch_of b') by done.
  assert (Hb : forall b' s, watch_of (bump b' s) = watch_of b') by done.
  assert (Hr : forall ref n s, (exists s', reduce_order b ref n s ns = (bump b s', [])) \/
    (exists b', watch_of b' = watch_of b /\ reduce_order b ref n s ns = notify_if_top_changed b' ns)).
  { intros ref n s. unfold reduce_order. destruct (orders_ b !! ref) as [o|]; [|by left; exists UnknownOrder].
    right. eexists. split; [|reflexivity]. unfold remove_order_from_level, reduce_level_shares.
    destruct (_ =? 0); by rewrite ?Ho, ?Hs, ?Hb, ?Ho, ?Hs. }
  destruct msg as [a|d|c|e|r]; cbn [apply_msg]; [| | apply Hr | apply Hr |].
  - unfold apply_add. destruct (orders_ b !! _); [by left; exists DuplicateAdd|].
    right. eexists. split; [|reflexivity]. unfold add_to_level. by rewrite Hb, Hs.
  - unfold apply_delete. destruct (orders_ b !! _); [|by left; exists UnknownOrder].
    right. eexists. split; [|reflexivity].
    unfold remove_order_from_level, reduce_level_shares. by rewrite Hb, Ho, !Hs.
  - unfold apply_replace. destruct (orders_ b !! _); [|by left; exists UnknownOrder].
    right. eexists. split; [|reflexivity].
    unfold add_to_level, remove_order_from_level, reduce_level_shares. by rewrite Hb, Hs, Ho, Ho, !Hs.
Qed.

(** [last] is the last notification, if there was one. *)
Record watching (b : t) (last : option TopOfBook) : Prop := {
  wt_on : on_top_change_ b = true;
  wt_none : last = None -> last_top_valid_ b = false /\ top b = mk_TopOfBook None None;
  wt_some t0 : last = Some t0 ->
    last_top_valid_ b = true /\ last_top_ b = t0 /\ view (top b) = view t0
}.

(** Consecutive notifications differ in what the consumer sees. *)
Fixpoint all_differ (last : option TopOfBook) (l : list (TopOfBook * Z)) : Prop :=
  match l with
  | [] => True
  | (t0, _) :: l' => (forall t1, last = Some t1 -> view t1 <> view t0) /\ all_differ (Some t0) l'
  end.

Definition last_or (last : option TopOfBook) (l : list (TopOfBook * Z)) : option TopOfBook :=
  match list.last l with Some (t0, _) => Some t0 | None => last end.

Lemma notify_watching b b' last ns :
  watching b last -> watch_of b' = watch_of b ->
  let r := notify_if_top_changed b' ns in
  watching r.1 (last_or last r.2) /\ all_differ last r.2 /\
  r.2 ⊆ [(top b', ns)] /\ top r.1 = top b'.
Proof.
  intros [Hon Hn Hs] [= E1 E2 E3]. unfold notify_if_top_changed. rewrite E1, Hon. cbn [negb].
  destruct (top_changed b' (top b')) eqn:Hc; cbn.
  - split; [|split; [|split; done]].
    + split; [by rewrite <-Hon | done |]. intros t0 [= <-]. done.
    + split; [|done]. intros t1 ->. destruct (Hs t1 eq_refl) as (Hv & Hl & _). intros Hview.
      apply not_false_iff_true in Hc. apply Hc, top_changed_view. rewrite E2, E3, Hl. done.
  - apply top_changed_view in Hc as [Hv Hview]. rewrite E2, E3 in *.
    split; [|split; [done | split; [apply list_subseteq_nil | done]]].
    split; [by rewrite E1 | | ].
    + intros ->. destruct (Hn eq_refl). congruence.
    + intros t0 ->. destruct (Hs t0 eq_refl) as (? & <- & _). by rewrite E2, E3.
Qed.

Lemma bump_watching b last s : watching b last -> watching (bump b s) last.
Proof. by intros []. Qed.

Lemma all_differ_app last a b :
  all_differ last a -> all_differ (last_or last a) b -> all_differ last (a ++ b).
Proof.
  revert last. induction a as [|[t0 ns] a IH]; intros last Ha Hb; [done|].
  destruct Ha as [Hd Ha]. split; [done|]. apply IH; [done|].
  unfold last_or in *. rewrite last_cons in Hb. by destruct (list.last a) as [[]|].
Qed.

Lemma last_or_app last a b : last_or last (a ++ b) = last_or (last_or last a) b.
Proof.
  unfold last_or. rewrite last_app. destruct (list.last b) as [[]|]; [done|].
  by destruct (list.last a) as [[]|].
Qed.

Lemma apply_all_watching b last msgs :
  watching b last ->
  let r := apply_all b msgs in
  watching r.1 (last_or last r.2) /\ all_differ last r.2.
Proof.
  revert b last. induction msgs as [|[msg ns] msgs IH]; intros b last Hw; [done|].
  cbn [apply_all].
  assert (H1 : watching (apply_msg b msg ns).1 (last_or last (apply_msg b msg ns).2) /\
    all_differ last (apply_msg b msg ns).2).
  { destruct (apply_msg_shape b msg ns) as [[s ->]|(b' & Hb' & ->)].
    - split; [by apply bump_watching | done].
    - destruct (notify_watching b b' last ns Hw Hb') as (? & ? & _). done. }
  destruct (apply_msg b msg ns) as [b1 e1]. destruct H1 as [Hw1 Hd1].
  destruct (IH b1 _ Hw1) as [Hw2 Hd2]. destruct (apply_all b1 msgs) as [b2 e2]. cbn in *.
  split; [by rewrite last_or_app | by apply all_differ_app].
Qed.

(** C19.  The consumer is always up to date and never told twice: over any run of
    messages with the callback installed, the last notification shows the same
    best prices and sizes as [top()] (no notification means an empty top), and
    two successive notifications never show the same ones. *)
Theorem notifications_exact (msgs : list (book_msg * Z)) :
  let r := apply_all (set_on_top_change init true) msgs in
  view (top r.1) = view (default (mk_TopOfBook None None) (last_or None r.2)) /\
  all_differ None r.2.
Proof.
  destruct (apply_all_watching (set_on_top_change init true) None msgs) as [[_ Hn Hs] Hd].
  { split; [done | done | done]. }
  split; [|done]. destruct (last_or None _) as [t0|] eqn:E; cbn.
  - by destruct (Hs t0 eq_refl) as (_ & _ & ?).
  - by destruct (Hn eq_refl) as [_ ->].
Qed.

(** ** A replacement that reuses a resting reference *)

(** [apply_replace] has no duplicate guard: when [new_order_ref] already rests
    (which [apply_add] counts and refuses), its record is overwritten while its
    shares and its count stay in its level for ever: two orders of 100 remain
    at 5000 in [bids_] although only one order rests, at 5200. *)
Theorem replace_leaks_level :
  let b := (apply_all init
    [(test_add 1 kBuy 100 5000, 10); (test_add 2 kBuy 100 5100, 20);
     (MReplace (ItchOrderReplace.mk 0 0 2 1 100 5200), 30);
     (MDelete (ItchDeleteOrder.mk 0 0 1), 40)]).1 in
  orders_ b = ∅ /\ bids_ b !! 5000 = Some (mk_LevelAgg 100 1) /\
  bid (top b) = Some (mk_PriceLevel 5000 100 1).
Proof. by vm_compute. Qed.
