(* ===== verification/SymbolBook.v ===== *)
(** * SymbolBook: routing a stream to per-symbol books

    The abstract book of the whole feed maps an order reference to its symbol and
    record; [MultiSymbolBook] refines it: each symbol's book is its restriction
    to that symbol. *)

From stdpp Require Import base gmap list strings fin_maps fin_map_dom.
From Stdlib Require Import ZArith Lia.
From S2P Require Import Prelude WireFormat WireLemmas GapBuf Book BookInv BookProps BookTop.

#[local] Open Scope Z_scope.
Import MultiSymbolBook.

Abbreviation symbol := (list byte).
Abbreviation flat := (gmap Z (symbol * OrderRecord)).

(** The orders of one symbol. *)
Definition orders_of (f : flat) (sym : symbol) : orders :=
  omap (fun '(s, o) => if decide (s = sym) then Some o else None) f.

#[local] Arguments orders_of _ _ : simpl never.

Definition flat_reduce (f : flat) (ref n : Z) : flat :=
  match f !! ref with
  | None => f
  | Some (sym, o) =>
      if shares o <=? n then delete ref f
      else <[ref := (sym, mk_OrderRecord (side o) (price o) (shares o - n))]> f
  end.

(** What a message means for the feed's orders. *)
Definition flat_step (f : flat) (msg : book_msg) : flat :=
  match msg with
  | MAdd a =>
      if decide (is_Some (f !! ItchAddOrder.order_ref a)) then f
      else <[ItchAddOrder.order_ref a :=
               (symbol_key (ItchAddOrder.stock a),
                mk_OrderRecord (ItchAddOrder.side a) (ItchAddOrder.price a) (ItchAddOrder.shares a))]> f
  | MDelete d => delete (ItchDeleteOrder.order_ref d) f
  | MCancel c => flat_reduce f (ItchOrderCancel.order_ref c) (ItchOrderCancel.cancelled_shares c)
  | MExecuted e => flat_reduce f (ItchOrderExecuted.order_ref e) (ItchOrderExecuted.executed_shares e)
  | MReplace r =>
      match f !! ItchOrderReplace.orig_order_ref r with
      | None => f
      | Some (sym, o) =>
          <[ItchOrderReplace.new_order_ref r :=
              (sym, mk_OrderRecord (side o) (ItchOrderReplace.price r) (ItchOrderReplace.shares r))]>
            (delete (ItchOrderReplace.orig_order_ref r) f)
      end
  end.

(** A correct feed: as [msg_ok], and references are unique across symbols. *)
Definition flat_ok (f : flat) (msg : book_msg) : Prop :=
  Z.of_nat (size f) + 1 < 2 ^ 32 /\
  match msg with
  | MAdd a =>
      is_u32 (ItchAddOrder.shares a) /\
      match f !! ItchAddOrder.order_ref a with
      | Some (sym, _) => sym = symbol_key (ItchAddOrder.stock a)
      | None => True
      end
  | MDelete _ => True
  | MCancel c => 0 <= ItchOrderCancel.cancelled_shares c
  | MExecuted e => 0 <= ItchOrderExecuted.executed_shares e
  | MReplace r =>
      is_u32 (ItchOrderReplace.shares r) /\
      delete (ItchOrderReplace.orig_order_ref r) f !! ItchOrderReplace.new_order_ref r = None
  end.

(** The refinement relation; an index entry may outlive its order. *)
Record routes (s : t) (f : flat) : Prop := {
  rt_books : forall sym, book_ok (book_at s sym) (orders_of f sym);
  rt_index : forall ref sym o, f !! ref = Some (sym, o) -> order_symbol_ s !! ref = Some sym;
  rt_known : forall ref sym, order_symbol_ s !! ref = Some sym -> is_Some (books_ s !! sym)
}.

(** ** The restriction to a symbol *)

Lemma lookup_orders_of f sym ref :
  orders_of f sym !! ref =
  match f !! ref with
  | Some (s, o) => if decide (s = sym) then Some o else None
  | None => None
  end.
Proof. unfold orders_of. rewrite lookup_omap. by destruct (f !! ref) as [[]|]. Qed.

Lemma orders_of_delete f sym ref : orders_of (delete ref f) sym = delete ref (orders_of f sym).
Proof. unfold orders_of. by rewrite omap_delete. Qed.

Lemma orders_of_insert_eq f sym ref o :
  orders_of (<[ref := (sym, o)]> f) sym = <[ref := o]> (orders_of f sym).
Proof.
  apply map_eq. intros k. rewrite lookup_orders_of.
  destruct (decide (ref = k)) as [<-|Hne].
  - by rewrite !lookup_insert_eq, decide_True.
  - by rewrite !lookup_insert_ne, lookup_orders_of.
Qed.

Lemma orders_of_insert_ne f sym sym' ref o :
  sym <> sym' -> orders_of f sym' !! ref = None ->
  orders_of (<[ref := (sym, o)]> f) sym' = orders_of f sym'.
Proof.
  intros Hne Hn. apply map_eq. intros k. rewrite lookup_orders_of.
  destruct (decide (ref = k)) as [<-|Hk].
  - by rewrite lookup_insert_eq, decide_False, Hn.
  - by rewrite lookup_insert_ne, lookup_orders_of.
Qed.

Lemma orders_of_other f sym sym' ref o :
  f !! ref = Some (sym, o) -> sym <> sym' -> orders_of f sym' !! ref = None.
Proof. intros Hf Hne. by rewrite lookup_orders_of, Hf, decide_False. Qed.

Lemma size_orders_of f sym : (size (orders_of f sym) <= size f)%nat.
Proof.
  rewrite <-!(size_dom (D := gset Z)). apply subseteq_size.
  intros k. rewrite !elem_of_dom, lookup_orders_of. intros [o Ho].
  destruct (f !! k); [eauto | done].
Qed.

(** [flat_step] is [spec_step] on the message's symbol and nothing elsewhere. *)
Lemma reduce_orders_of f ref n sym o sym' :
  f !! ref = Some (sym, o) ->
  orders_of (flat_reduce f ref n) sym' =
  if decide (sym = sym') then spec_reduce (orders_of f sym') ref n else orders_of f sym'.
Proof.
  intros Hf. unfold flat_reduce, spec_reduce. rewrite Hf.
  destruct (decide (sym = sym')) as [<-|Hne].
  - rewrite lookup_orders_of, Hf, decide_True by done.
    destruct (_ <=? _); [apply orders_of_delete | apply orders_of_insert_eq].
  - pose proof (orders_of_other _ _ _ _ _ Hf Hne) as Hn.
    destruct (_ <=? _); [rewrite orders_of_delete; by apply delete_id | by apply orders_of_insert_ne].
Qed.

Lemma delete_orders_of f ref sym o sym' :
  f !! ref = Some (sym, o) ->
  orders_of (delete ref f) sym' =
  if decide (sym = sym') then delete ref (orders_of f sym') else orders_of f sym'.
Proof.
  intros Hf. rewrite orders_of_delete. destruct (decide (sym = sym')) as [|Hne]; [done|].
  apply delete_id. by eapply orders_of_other.
Qed.

(** ** Updating one book *)

Lemma book_at_put s sym b sym' :
  book_at (put_book s sym b) sym' = if decide (sym = sym') then b else book_at s sym'.
Proof.
  unfold book_at, put_book. cbn. destruct (decide (sym = sym')) as [<-|Hne].
  - by rewrite lookup_insert_eq.
  - by rewrite lookup_insert_ne.
Qed.

Lemma put_book_known s sym b sym' :
  is_Some (books_ s !! sym') -> is_Some (books_ (put_book s sym b) !! sym').
Proof.
  intros H. cbn. destruct (decide (sym = sym')) as [<-|Hne].
  - rewrite lookup_insert_eq. eauto.
  - by rewrite lookup_insert_ne.
Qed.

(** The state after the book of [sym] took [msg], and the index became [index]. *)
Lemma update_routes s f f' sym msg ns index :
  routes s f ->
  msg_ok (orders_of f sym) msg ->
  is_Some (books_ s !! sym) ->
  (forall sym', orders_of f' sym' =
     if decide (sym = sym') then spec_step (orders_of f sym') msg else orders_of f sym') ->
  (forall ref sym' o, f' !! ref = Some (sym', o) -> index !! ref = Some sym') ->
  (forall ref sym', index !! ref = Some sym' -> sym' = sym \/ is_Some (books_ s !! sym')) ->
  routes (set_index (update_book s sym (apply_msg (book_at s sym) msg ns)).1 index) f'.
Proof.
  intros [Hb Hi Hk] Hok Hs Hf' Hidx Hkn. split.
  - intros sym'. change (book_ok (book_at (put_book s sym (apply_msg (book_at s sym) msg ns).1) sym')
      (orders_of f' sym')). rewrite book_at_put, Hf'.
    destruct (decide (sym = sym')) as [<-|Hne]; [|apply Hb]. by apply apply_msg_ok.
  - exact Hidx.
  - intros ref sym' Hr. apply put_book_known. by destruct (Hkn ref sym' Hr) as [->|].
Qed.

(** The same when nothing changes but counters. *)
Lemma same_routes s s' f :
  routes s f -> books_ s' = books_ s -> order_symbol_ s' = order_symbol_ s -> routes s' f.
Proof. intros [Hb Hi Hk] E1 E2. split; unfold book_at; rewrite ?E1, ?E2; done. Qed.

Lemma set_index_id s : set_index s (order_symbol_ s) = s.
Proof. by destruct s. Qed.

Lemma flat_known s f ref sym o :
  routes s f -> f !! ref = Some (sym, o) ->
  order_symbol_ s !! ref = Some sym /\ is_Some (books_ s !! sym) /\
  route s ref = Some (sym, book_at s sym).
Proof.
  intros [Hb Hi Hk] Hf. pose proof (Hi _ _ _ Hf) as Hidx. destruct (Hk _ _ Hidx) as [b Hbk].
  split; [done|]. split; [by exists b|]. unfold route, book_at.
  rewrite Hidx. cbn. by rewrite Hbk.
Qed.

(** ** One message *)

(** The reference a message is routed by. *)
Definition msg_ref (msg : book_msg) : Z :=
  match msg with
  | MAdd a => ItchAddOrder.order_ref a
  | MDelete d => ItchDeleteOrder.order_ref d
  | MCancel c => ItchOrderCancel.order_ref c
  | MExecuted e => ItchOrderExecuted.order_ref e
  | MReplace r => ItchOrderReplace.orig_order_ref r
  end.

(** The symbol is the order's own. *)
Definition belongs (f : flat) (msg : book_msg) (sym : symbol) : Prop :=
  (forall sym' o, f !! msg_ref msg = Some (sym', o) -> sym' = sym) /\
  match msg with MAdd a => sym = symbol_key (ItchAddOrder.stock a) | _ => True end.

Lemma flat_msg_ok f msg sym : flat_ok f msg -> msg_ok (orders_of f sym) msg.
Proof.
  intros [Hs Hok]. pose proof (size_orders_of f sym).
  destruct msg; cbn in *; try done; [split; [tauto | lia]|].
  destruct Hok as [Hu Hn]. split; [done|]. split; [lia|].
  by rewrite <-orders_of_delete, lookup_orders_of, Hn.
Qed.

Lemma flat_step_project f msg sym sym' :
  flat_ok f msg -> belongs f msg sym ->
  orders_of (flat_step f msg) sym' =
  if decide (sym = sym') then spec_step (orders_of f sym') msg else orders_of f sym'.
Proof.
  intros [_ Hok] [Hb Hadd].
  destruct (f !! msg_ref msg) as [[s0 o]|] eqn:Hf.
  - specialize (Hb _ _ eq_refl). subst s0. destruct msg as [a|d|c|e|r]; cbn in *.
    + rewrite decide_True by eauto. destruct (decide (sym = sym')) as [<-|]; [|done].
      rewrite decide_True; [done|]. rewrite lookup_orders_of, Hf, decide_True by done. eauto.
    + by eapply delete_orders_of.
    + by eapply reduce_orders_of.
    + by eapply reduce_orders_of.
    + rewrite Hf. destruct Hok as [_ Hn]. destruct (decide (sym = sym')) as [<-|Hne].
      * by rewrite orders_of_insert_eq, orders_of_delete, lookup_orders_of, Hf, decide_True.
      * rewrite orders_of_insert_ne; [|done | by rewrite lookup_orders_of, Hn].
        rewrite orders_of_delete. apply delete_id. by eapply orders_of_other.
  - assert (Ho : forall s1, orders_of f s1 !! msg_ref msg = None)
      by (intros; by rewrite lookup_orders_of, Hf).
    destruct msg as [a|d|c|e|r]; cbn in *; unfold flat_reduce, spec_reduce.
    + rewrite decide_False by (rewrite Hf; by intros [? [=]]). subst sym.
      destruct (decide (_ = sym')) as [<-|Hne]; [|by apply orders_of_insert_ne].
      rewrite decide_False by (rewrite Ho; by intros [? [=]]). apply orders_of_insert_eq.
    + rewrite !delete_id by done. by case_decide.
    + rewrite Hf, Ho. by case_decide.
    + rewrite Hf, Ho. by case_decide.
    + rewrite Hf, Ho. by case_decide.
Qed.

Definition ingest_msg (s : t) (msg : book_msg) (ns : Z) : t * list top_event :=
  match msg with
  | MAdd a => ingest_add s a ns
  | MDelete d => ingest_delete s d ns
  | MCancel c => ingest_cancel s c ns
  | MExecuted e => ingest_executed s e ns
  | MReplace r => ingest_replace s r ns
  end.

Lemma wire_book_routes s f sym :
  routes s f -> routes (wire_book s sym) f /\ is_Some (books_ (wire_book s sym) !! sym).
Proof.
  intros [Hb Hi Hk]. unfold wire_book.
  assert (Hon : forall b m on, book_ok b m -> book_ok (OrderBook.set_on_top_change b on) m)
    by (by intros ??? []).
  destruct (decide (sym ∈ wired_ s)).
  - split; [|cbn; rewrite lookup_insert_eq; eauto]. split; [|exact Hi|].
    + intros sym'. rewrite book_at_put. case_decide as E; [rewrite <-E|]; apply Hb.
    + intros ref sym' Hr. apply put_book_known. by eapply Hk.
  - split; [|cbn; rewrite lookup_insert_eq; eauto].
    set (b := if on_top_change_ s then _ else _).
    assert (Hb' : book_ok b (orders_of f sym)) by (unfold b; destruct (on_top_change_ s); auto).
    split; [|exact Hi|].
    + intros sym'. change (book_ok (book_at (put_book s sym b) sym') (orders_of f sym')).
      rewrite book_at_put. by case_decide as E; [rewrite <-E|].
    + intros ref sym' Hr. apply (put_book_known s sym b). by eapply Hk.
Qed.

Lemma wire_book_index s sym i : wire_book (set_index s i) sym = set_index (wire_book s sym) i.
Proof. unfold wire_book. cbn. by destruct (decide _). Qed.

(** An unknown reference concerns no order. *)
Lemma unrouted s f ref :
  routes s f -> route s ref = None -> f !! ref = None.
Proof.
  intros Hr Hn. destruct (f !! ref) as [[sym o]|] eqn:Hf; [|done].
  destruct (flat_known s f ref sym o Hr Hf) as (_ & _ & E). congruence.
Qed.

Lemma routed s f ref sym b :
  routes s f -> route s ref = Some (sym, b) ->
  order_symbol_ s !! ref = Some sym /\ is_Some (books_ s !! sym) /\ b = book_at s sym /\
  forall sym' o, f !! ref = Some (sym', o) -> sym' = sym.
Proof.
  intros Hr H. unfold route in H. destruct (order_symbol_ s !! ref) as [sy|] eqn:Hi; [|done].
  cbn in H. destruct (books_ s !! sy) as [b'|] eqn:Hb; [|done]. injection H as -> ->.
  split; [done|]. split; [by exists b|]. split; [unfold book_at; by rewrite Hb|].
  intros sym' o Hf. pose proof (rt_index _ _ Hr _ _ _ Hf). congruence.
Qed.

Lemma flat_step_unknown f msg :
  f !! msg_ref msg = None -> (forall a, msg <> MAdd a) -> flat_step f msg = f.
Proof.
  intros Hf Ha. destruct msg; cbn in *; unfold flat_reduce; rewrite ?Hf; try done.
  - by destruct (Ha m).
  - by apply delete_id.
Qed.

(** Index entries of the orders that stay. *)
Lemma reduce_index f ref n (i : gmap Z symbol) :
  (forall k sym o, f !! k = Some (sym, o) -> i !! k = Some sym) ->
  forall k sym o, flat_reduce f ref n !! k = Some (sym, o) -> i !! k = Some sym.
Proof.
  intros Hi k sym o. unfold flat_reduce. destruct (f !! ref) as [[s0 o0]|] eqn:Hf; [|apply Hi].
  destruct (_ <=? _).
  - rewrite lookup_delete_Some. intros [_ H]. by eapply Hi.
  - rewrite lookup_insert_Some. intros [[<- [= <- <-]]|[_ H]]; by eapply Hi.
Qed.

Lemma ingest_add_routes s f a ns :
  routes s f -> flat_ok f (MAdd a) -> routes (ingest_add s a ns).1 (flat_step f (MAdd a)).
Proof.
  intros Hr Hok. unfold ingest_add. rewrite wire_book_index.
  set (sym := symbol_key (ItchAddOrder.stock a)).
  destruct (wire_book_routes s f sym Hr) as [Hw Hk]. set (s1 := wire_book s sym) in *.
  assert (Hix : order_symbol_ s1 = order_symbol_ s) by (unfold s1, wire_book; by destruct (decide _)).
  assert (Hs : forall sym' o, f !! ItchAddOrder.order_ref a = Some (sym', o) -> sym' = sym)
    by (destruct Hok as (_ & _ & Hs); intros sym' o E; by rewrite E in Hs).
  apply (update_routes s1 f _ sym (MAdd a) ns
           (<[ItchAddOrder.order_ref a := sym]> (order_symbol_ s)));
    [done | by apply flat_msg_ok | done | | |].
  - intros. by apply flat_step_project.
  - cbn [flat_step]. intros ref sym' o Hf. case_decide as Hd.
    + destruct (decide (ItchAddOrder.order_ref a = ref)) as [<-|Hne].
      * rewrite lookup_insert_eq. by rewrite (Hs _ _ Hf).
      * rewrite lookup_insert_ne by done. by eapply (rt_index _ _ Hr).
    + apply lookup_insert_Some in Hf as [[<- [= <- _]]|[Hne Hf]]; [apply lookup_insert_eq|].
      rewrite lookup_insert_ne by done. by eapply (rt_index _ _ Hr).
  - intros ref sym' Hi. apply lookup_insert_Some in Hi as [[_ <-]|[_ Hi]]; [by left|]. right.
    rewrite <-Hix in Hi. by eapply (rt_known _ _ Hw).
Qed.

Lemma ingest_delete_routes s f d ns :
  routes s f -> flat_ok f (MDelete d) -> routes (ingest_delete s d ns).1 (flat_step f (MDelete d)).
Proof.
  intros Hr Hok. unfold ingest_delete.
  destruct (route s (ItchDeleteOrder.order_ref d)) as [[sym b]|] eqn:E.
  2:{ rewrite flat_step_unknown by (done || by eapply unrouted). by apply (same_routes s). }
  destruct (routed s f _ sym b Hr E) as (Hi & Hk & -> & Hs).
  apply (update_routes s f _ sym (MDelete d) ns
           (delete (ItchDeleteOrder.order_ref d) (order_symbol_ s)));
    [done | by apply flat_msg_ok | done | | |].
  - intros. by apply flat_step_project.
  - cbn. intros ref sym' o [Hne Hf]%lookup_delete_Some. rewrite lookup_delete_ne by done.
    by eapply (rt_index _ _ Hr).
  - intros ref sym' [_ Hf]%lookup_delete_Some. right. by eapply (rt_known _ _ Hr).
Qed.

(** Cancel and Executed leave the index alone. *)
Lemma reduce_routes s f msg ns sym :
  routes s f -> flat_ok f msg ->
  (exists n, flat_step f msg = flat_reduce f (msg_ref msg) n) -> (forall a, msg <> MAdd a) ->
  route s (msg_ref msg) = Some (sym, book_at s sym) ->
  routes (update_book s sym (apply_msg (book_at s sym) msg ns)).1 (flat_step f msg).
Proof.
  intros Hr Hok [n Hn] Ha E. destruct (routed s f _ sym _ Hr E) as (Hi & Hk & _ & Hs).
  rewrite <-(set_index_id (update_book _ _ _).1).
  apply update_routes with f; [done | by apply flat_msg_ok | done | | |].
  - intros. apply flat_step_project; [done|]. split; [done|]. destruct msg; try done. by destruct (Ha m).
  - rewrite Hn. apply reduce_index, (rt_index _ _ Hr).
  - intros ref sym' Hf. right. by eapply (rt_known _ _ Hr).
Qed.

Lemma ingest_replace_routes s f r ns :
  routes s f -> flat_ok f (MReplace r) ->
  routes (ingest_replace s r ns).1 (flat_step f (MReplace r)).
Proof.
  intros Hr Hok. unfold ingest_replace.
  assert (Hf0 : forall s0 o0, f !! ItchOrderReplace.orig_order_ref r = Some (s0, o0) ->
    order_symbol_ s !! ItchOrderReplace.orig_order_ref r = Some s0)
    by (intros; by eapply (rt_index _ _ Hr)).
  destruct (order_symbol_ s !! ItchOrderReplace.orig_order_ref r) as [sym|] eqn:E.
  2:{ rewrite flat_step_unknown; [by apply (same_routes s) | | done]. cbn.
      destruct (f !! ItchOrderReplace.orig_order_ref r) as [[s0 o0]|]; [|done].
      by specialize (Hf0 _ _ eq_refl). }
  pose proof (rt_known _ _ Hr _ _ E) as Hk. pose proof Hok as (_ & _ & Hn).
  apply (update_routes s f _ sym (MReplace r) ns _);
    [done | by apply flat_msg_ok | done | | |].
  - intros. apply flat_step_project; [done|]. split; [|done].
    intros sym'' o Hf. specialize (Hf0 _ _ Hf). congruence.
  - cbn [flat_step]. intros ref sym' o Hf.
    destruct (f !! ItchOrderReplace.orig_order_ref r) as [[s0 o0]|] eqn:Hfr.
    + specialize (Hf0 _ _ eq_refl). injection Hf0 as <-.
      apply lookup_insert_Some in Hf as [[<- [= <- _]]|[Hne [Hne' Hf]%lookup_delete_Some]];
        [apply lookup_insert_eq|].
      rewrite lookup_insert_ne, lookup_delete_ne by done. by eapply (rt_index _ _ Hr).
    + rewrite delete_id in Hn by done.
      rewrite lookup_insert_ne, lookup_delete_ne by congruence. by eapply (rt_index _ _ Hr).
  - intros ref sym' Hf. apply lookup_insert_Some in Hf as [[_ <-]|[_ [_ Hf]%lookup_delete_Some]];
      [by left|]. right. by eapply (rt_known _ _ Hr).
Qed.

Lemma ingest_msg_routes s f msg ns :
  routes s f -> flat_ok f msg -> routes (ingest_msg s msg ns).1 (flat_step f msg).
Proof.
  intros Hr Hok. destruct msg as [a|d|c|e|r]; cbn [ingest_msg].
  - by apply ingest_add_routes.
  - by apply ingest_delete_routes.
  - unfold ingest_cancel. destruct (route s (ItchOrderCancel.order_ref c)) as [[sym b]|] eqn:E.
    + pose proof (routed s f _ sym b Hr E) as (_ & _ & -> & _).
      by apply (reduce_routes s f (MCancel c) ns); [| |eexists| |].
    + rewrite flat_step_unknown by (done || by eapply unrouted). by apply (same_routes s).
  - unfold ingest_executed. destruct (route s (ItchOrderExecuted.order_ref e)) as [[sym b]|] eqn:E.
    + pose proof (routed s f _ sym b Hr E) as (_ & _ & -> & _).
      by apply (reduce_routes s f (MExecuted e) ns); [| |eexists| |].
    + rewrite flat_step_unknown by (done || by eapply unrouted). by apply (same_routes s).
  - by apply ingest_replace_routes.
Qed.
