(* ===== verification/SymbolProps.v ===== *)
(** * SymbolProps: the multi-symbol book on a stream of messages

    From raw message bytes to the books of every symbol; the key of a padded
    symbol, and what an Add with a live reference does to the index. *)

From stdpp Require Import base gmap list strings fin_maps.
From Stdlib Require Import ZArith Lia.
From S2P Require Import Prelude WireFormat WireLemmas GapBuf Book BookInv BookProps BookTop.
From S2P Require Import SymbolBook.

#[local] Open Scope Z_scope.
Import MultiSymbolBook.

(** ** Decoding *)

(** The result of a parse that cannot fault. *)
Definition parsed {A} (r : res (bool * A)) : option A :=
  match r with Ok (true, m) => Some m | _ => None end.

(** The book message in a message's bytes, if it is one. *)
Definition decoded (msg : MoldMessage.t) : option book_msg :=
  let body := MoldMessage.body msg in
  let len := MoldMessage.length msg in
  if len =? 0 then None else
  match itch_of_code (be_val (slice body 0 1)) with
  | AddOrderNoMpid | AddOrderMpid => MAdd <$> parsed (ItchAddOrder.parse body len add_uninit)
  | OrderDelete => MDelete <$> parsed (ItchDeleteOrder.parse body len delete_uninit)
  | OrderCancel => MCancel <$> parsed (ItchOrderCancel.parse body len cancel_uninit)
  | OrderExecuted => MExecuted <$> parsed (ItchOrderExecuted.parse body len executed_uninit)
  | OrderReplace => MReplace <$> parsed (ItchOrderReplace.parse body len replace_uninit)
  | _ => None
  end.

(** The body lies in readable memory. *)
Definition readable (msg : MoldMessage.t) : Prop :=
  0 <= MoldMessage.length msg <= blen (MoldMessage.body msg).

Lemma ingest_decoded s msg :
  readable msg ->
  ingest s msg = Ok (match decoded msg with
                     | Some m => (ingest_msg s m (MoldMessage.recv_ns msg), true)
                     | None => ((s, []), false)
                     end).
Proof.
  intros [H0 Hl]. unfold ingest, decoded.
  destruct (Z.eqb_spec (MoldMessage.length msg) 0); [done|].
  unfold itch_type. rewrite byte_at_slice, !bind_Ok by lia.
  destruct (itch_of_code _); try done;
    rewrite ?ItchAddOrder_parse_eq, ?ItchDeleteOrder_parse_eq, ?ItchOrderCancel_parse_eq,
      ?ItchOrderExecuted_parse_eq, ?ItchOrderReplace_parse_eq by done;
    destruct (_ <? _); reflexivity.
Qed.

(** ** Runs *)

Fixpoint ingest_all (s : t) (msgs : list MoldMessage.t) : res (t * list top_event) :=
  match msgs with
  | [] => mret (s, [])
  | msg :: msgs' =>
      '(s1, e1, _) ← ingest s msg;
      '(s2, e2) ← ingest_all s1 msgs';
      mret (s2, e1 ++ e2)
  end.

Definition flat_all (f : flat) (msgs : list MoldMessage.t) : flat :=
  foldl (fun f msg => match decoded msg with Some m => flat_step f m | None => f end) f msgs.

Fixpoint feed_ok (f : flat) (msgs : list MoldMessage.t) : Prop :=
  match msgs with
  | [] => True
  | msg :: msgs' =>
      readable msg /\
      match decoded msg with
      | Some m => flat_ok f m /\ feed_ok (flat_step f m) msgs'
      | None => feed_ok f msgs'
      end
  end.

Lemma ingest_all_routes s f msgs :
  routes s f -> feed_ok f msgs ->
  exists s' evs, ingest_all s msgs = Ok (s', evs) /\ routes s' (flat_all f msgs).
Proof.
  revert s f. induction msgs as [|msg msgs IH]; intros s f Hr Hok; [by exists s, []|].
  destruct Hok as [Hm Hok]. cbn [ingest_all flat_all foldl]. rewrite ingest_decoded by done.
  rewrite bind_Ok. destruct (decoded msg) as [m|]; cbv beta iota.
  - destruct Hok as [Hf Hok].
    destruct (IH _ _ (ingest_msg_routes s f m (MoldMessage.recv_ns msg) Hr Hf) Hok)
      as (s' & evs & E & Hr').
    destruct (ingest_msg s m _) as [s1 e1]. cbn [fst] in E. rewrite E, bind_Ok.
    by eexists s', _.
  - destruct (IH _ _ Hr Hok) as (s' & evs & E & Hr'). rewrite E, bind_Ok. by eexists s', _.
Qed.

Lemma init_routes on : routes (set_on_top_change init on) ∅.
Proof.
  split.
  - intros sym. unfold book_at, orders_of. cbn. rewrite lookup_empty, omap_empty.
    apply (init_ok false).
  - intros ref sym o. by rewrite lookup_empty.
  - intros ref sym. cbn. by rewrite lookup_empty.
Qed.

(** C4.  The multi-symbol book refines the feed's map of orders, bytes to books:
    on any stream of raw messages whose decoded orders follow the ITCH rules,
    nothing faults, and afterwards the book of every symbol holds exactly that
    symbol's resting orders with exactly their aggregate levels, although only
    Add messages name the symbol. *)
Theorem symbol_books_refine_feed (on : bool) (msgs : list MoldMessage.t) :
  feed_ok ∅ msgs ->
  exists s evs,
    ingest_all (set_on_top_change init on) msgs = Ok (s, evs) /\
    forall sym pr,
      let m := orders_of (flat_all ∅ msgs) sym in
      OrderBook.orders_ (book_at s sym) = m /\
      OrderBook.bids_ (book_at s sym) !! pr = level_at m true pr /\
      OrderBook.asks_ (book_at s sym) !! pr = level_at m false pr.
Proof.
  intros Hok. destruct (ingest_all_routes _ ∅ msgs (init_routes on) Hok) as (s & evs & E & [Hb _ _]).
  exists s, evs. split; [done|]. intros sym pr m. destruct (Hb sym) as [Ho Ht _].
  split; [done|]. split; [apply (Ht true) | apply (Ht false)].
Qed.

Definition test_msg (body : list byte) (ns : Z) : MoldMessage.t :=
  MoldMessage.mk (blen body) body 0 ns.
Definition padded (name : list byte) : list byte :=
  name ++ replicate (8 - length name) Corelib.Init.Byte.x20.
Definition sym_a : list byte := [Corelib.Init.Byte.x41; Corelib.Init.Byte.x41].
Definition sym_b : list byte := [Corelib.Init.Byte.x42].

Definition test_feed : list MoldMessage.t :=
  [test_msg (itch_add_wire 65 1 0 100 1 kBuy 300 (padded sym_a) 10000) 10;
   test_msg (itch_add_wire 70 2 0 110 2 kSell 200 (padded sym_b) 20000) 20;
   test_msg (itch_executed_wire 1 0 120 1 100 77) 30;
   test_msg (itch_replace_wire 2 0 130 2 3 150 19900) 40;
   test_msg [Corelib.Init.Byte.x53] 45;
   test_msg (itch_delete_wire 1 0 140 1) 50].

Lemma symbol_books_refine_feed_witness :
  exists s evs,
    ingest_all (set_on_top_change init true) test_feed = Ok (s, evs) /\
    forall sym pr,
      let m := orders_of (flat_all ∅ test_feed) sym in
      OrderBook.orders_ (book_at s sym) = m /\
      OrderBook.bids_ (book_at s sym) !! pr = level_at m true pr /\
      OrderBook.asks_ (book_at s sym) !! pr = level_at m false pr.
Proof.
  apply symbol_books_refine_feed. by vm_compute.
Defined.

Example test_feed_tops :
  ('(s, _) ← ingest_all (set_on_top_change init true) test_feed;
   mret (OrderBook.top (book_at s sym_a), OrderBook.top (book_at s sym_b)))
  = Ok (mk_TopOfBook None None, mk_TopOfBook None (Some (mk_PriceLevel 19900 150 1))).
Proof. by vm_compute. Qed.

(** ** Which messages are taken *)

(** The shortest body of each book-affecting type. *)
Definition book_length (ty : ItchMsgType) : option Z :=
  match ty with
  | AddOrderNoMpid | AddOrderMpid => Some 36
  | OrderDelete => Some 19
  | OrderCancel => Some 23
  | OrderExecuted => Some 31
  | OrderReplace => Some 35
  | _ => None
  end.

(** C36.  [ingest] is total on any bytes: it takes exactly the messages whose first
    byte is A, F, D, X, E or U and that are long enough for that type; any other
    message (an empty or truncated one, or a type such as 'C', executed with
    price, or 'P') leaves the books, the index and the counters untouched and
    is reported as not taken. *)
Theorem ingest_takes_book_messages (s : t) (msg : MoldMessage.t) :
  readable msg ->
  exists s' evs ok,
    ingest s msg = Ok (s', evs, ok) /\
    (ok = false -> s' = s /\ evs = []) /\
    (ok = true <->
       exists n, 0 < MoldMessage.length msg /\ n <= MoldMessage.length msg /\
         book_length (itch_of_code (be_val (slice (MoldMessage.body msg) 0 1))) = Some n).
Proof.
  intros Hr. rewrite ingest_decoded by done. destruct Hr as [H0 Hl].
  assert (Hd : is_Some (decoded msg) <->
    exists n, 0 < MoldMessage.length msg /\ n <= MoldMessage.length msg /\
      book_length (itch_of_code (be_val (slice (MoldMessage.body msg) 0 1))) = Some n).
  { unfold decoded. destruct (Z.eqb_spec (MoldMessage.length msg) 0).
    { split; [by intros [] | intros (? & ? & _); lia]. }
    destruct (itch_of_code _); cbn [book_length];
      rewrite ?ItchAddOrder_parse_eq, ?ItchDeleteOrder_parse_eq, ?ItchOrderCancel_parse_eq,
        ?ItchOrderExecuted_parse_eq, ?ItchOrderReplace_parse_eq by done;
      try (split; [by intros [] | by intros (? & _ & _ & [=])]);
      (case_bool;
       [ split; [by intros [] | intros (? & _ & ? & [= <-]); lia]
       | split; [intros _; eexists; split; [lia|]; by split | by eexists] ]). }
  destruct (decoded msg) as [m|].
  - destruct (ingest_msg s m _) as [s' evs]. exists s', evs, true. split; [done|].
    split; [done|]. rewrite <-Hd. split; eauto.
  - exists s, [], false. split; [done|]. split; [done|]. rewrite <-Hd.
    split; [done | by intros []].
Qed.

Lemma ingest_takes_book_messages_witness :
  let msg := test_msg (itch_executed_wire 1 0 120 1 100 77) 30 in
  exists s' evs ok,
    ingest init msg = Ok (s', evs, ok) /\
    (ok = false -> s' = init /\ evs = []) /\
    (ok = true <->
       exists n, 0 < MoldMessage.length msg /\ n <= MoldMessage.length msg /\
         book_length (itch_of_code (be_val (slice (MoldMessage.body msg) 0 1))) = Some n).
Proof. intros msg. apply ingest_takes_book_messages. by vm_compute. Defined.

(** ** Symbols *)

Lemma drop_spaces_replicate n s :
  drop_spaces (replicate n Corelib.Init.Byte.x20 ++ s) = drop_spaces s.
Proof. induction n; [done|]. cbn. by rewrite decide_True. Qed.

Lemma c_string_app a b :
  Corelib.Init.Byte.x00 ∉ a -> c_string (a ++ Corelib.Init.Byte.x00 :: b) = a.
Proof.
  induction a as [|x a IH]; intros Ha; cbn; [done|].
  apply not_elem_of_cons in Ha as [Hx Ha]. rewrite decide_False by done. by rewrite IH.
Qed.

(** The book key of a padded stock field is the symbol itself, whatever its
    length up to eight characters (a full-width symbol has no padding). *)
Theorem symbol_key_padded (name : list byte) :
  (length name <= 8)%nat -> Corelib.Init.Byte.x00 ∉ name ->
  list.last name <> Some Corelib.Init.Byte.x20 ->
  symbol_key (padded name ++ [Corelib.Init.Byte.x00]) = name.
Proof.
  intros Hlen Hn Hl. unfold symbol_key, padded, trim. rewrite c_string_app.
  2:{ rewrite elem_of_app. intros [?|H]; [done|]. by apply elem_of_replicate in H as [? _]. }
  rewrite reverse_app, reverse_replicate, drop_spaces_replicate.
  destruct name as [|x name _] using rev_ind; [done|].
  rewrite last_snoc in Hl. rewrite reverse_snoc. cbn [drop_spaces].
  rewrite decide_False by congruence. by rewrite <-reverse_snoc, reverse_involutive.
Qed.

Lemma symbol_key_padded_witness :
  symbol_key (padded sym_a ++ [Corelib.Init.Byte.x00]) = sym_a.
Proof.
  apply symbol_key_padded; [vm_compute; lia | | by vm_compute].
  intros H. apply list_elem_of_In in H. cbn in H. naive_solver.
Defined.

(** ** One reference under two symbols *)

(** The index is overwritten before the duplicate check: an Add that reuses a
    live reference under another symbol takes over its route, so a later Delete
    removes the second order and the first can never be reached again. *)
Theorem cross_symbol_duplicate_misroutes :
  exists s evs,
    ingest_all init
      [test_msg (itch_add_wire 65 1 0 100 1 kBuy 300 (padded sym_a) 10000) 10;
       test_msg (itch_add_wire 65 2 0 110 1 kBuy 200 (padded sym_b) 20000) 20;
       test_msg (itch_delete_wire 1 0 120 1) 30;
       test_msg (itch_delete_wire 1 0 130 1) 40] = Ok (s, evs) /\
    OrderBook.top (book_at s sym_a) = mk_TopOfBook (Some (mk_PriceLevel 10000 300 1)) None /\
    OrderBook.top (book_at s sym_b) = mk_TopOfBook None None /\
    OrderBook.stat_duplicate_add_ (book_at s sym_b) = 0 /\ stat_unrouted_ s = 1.
Proof.
  match goal with |- exists s evs, ?r = _ /\ _ =>
    destruct (probe_ok (fun '(s, _) =>
        (OrderBook.top (book_at s sym_a), OrderBook.top (book_at s sym_b),
         OrderBook.stat_duplicate_add_ (book_at s sym_b), stat_unrouted_ s)) r
      (mk_TopOfBook (Some (mk_PriceLevel 10000 300 1)) None, mk_TopOfBook None None, 0, 1))
      as ([s evs] & E & H); [by vm_compute|] end.
  apply pair_equal_spec in H as [H Hu]. apply pair_equal_spec in H as [H Hd].
  apply pair_equal_spec in H as [Ha Hb].
  exists s, evs. exact (conj E (conj Ha (conj Hb (conj Hd Hu)))).
Qed.
