(* ===== verification/BookType.v ===== *)
(** * BookType: every value of the books stays in its C++ type

    Prices are 32 bits wide, sizes of orders 32, of levels 64, references and
    counters 64; whatever messages arrive (not only those of a correct feed),
    no member, notification or decision leaves its range. *)

From stdpp Require Import base gmap list strings fin_maps.
From Stdlib Require Import ZArith Lia.
From S2P Require Import Prelude WireFormat WireLemmas GapBuf GapType.
From S2P Require Import Book BookInv BookProps BookTop SymbolBook SymbolProps.

#[local] Open Scope Z_scope.

(** ** The types *)

Definition order_typed (o : OrderRecord) : Prop := is_u32 (price o) /\ is_u32 (shares o).

Definition pl_typed (l : PriceLevel) : Prop :=
  is_u32 (pl_price l) /\ is_u64 (pl_shares l) /\ is_u32 (pl_orders l).

Definition opt_typed {A} (P : A -> Prop) (o : option A) : Prop :=
  match o with Some a => P a | None => True end.

Definition top_typed (t : TopOfBook) : Prop := opt_typed pl_typed (bid t) /\ opt_typed pl_typed (ask t).

Definition agg_typed (a : OrderBook.LevelAgg) : Prop :=
  is_u64 (OrderBook.agg_shares a) /\ is_u32 (OrderBook.order_count a).

Definition side_typed (levels : gmap Z OrderBook.LevelAgg) : Prop :=
  map_Forall (fun pr a => is_u32 pr /\ agg_typed a) levels.

Definition orders_typed (m : orders) : Prop := map_Forall (fun ref o => is_u64 ref /\ order_typed o) m.

Definition notes_typed (l : list (TopOfBook * Z)) : Prop :=
  Forall (fun '(t, ns) => top_typed t /\ is_u64 ns) l.

(** The fields of a decoded message that the books use. *)
Definition msg_typed (msg : book_msg) : Prop :=
  match msg with
  | MAdd a => is_u64 (ItchAddOrder.order_ref a) /\ is_u32 (ItchAddOrder.price a)
              /\ is_u32 (ItchAddOrder.shares a)
  | MDelete d => is_u64 (ItchDeleteOrder.order_ref d)
  | MCancel c => is_u64 (ItchOrderCancel.order_ref c) /\ is_u32 (ItchOrderCancel.cancelled_shares c)
  | MExecuted e => is_u64 (ItchOrderExecuted.order_ref e) /\ is_u32 (ItchOrderExecuted.executed_shares e)
  | MReplace r => is_u64 (ItchOrderReplace.new_order_ref r) /\ is_u32 (ItchOrderReplace.price r)
                  /\ is_u32 (ItchOrderReplace.shares r)
  end.

Lemma be_val_slice_width (m : list byte) off n :
  0 <= n -> 0 <= be_val (slice m off n) < 256 ^ n.
Proof.
  intros Hn. pose proof (be_val_range (slice m off n)) as [? Hr]. split; [done|].
  eapply Z.lt_le_trans; [exact Hr|]. apply Z.pow_le_mono_r; [done|].
  unfold slice. rewrite length_take. lia.
Qed.

(** What the parsers read is in range, whatever the bytes. *)
Lemma decoded_typed m msg : readable m -> decoded m = Some msg -> msg_typed msg.
Proof.
  intros [H0 Hl]. unfold decoded. destruct (_ =? 0); [done|].
  assert (R : forall off n, 0 <= off -> 0 <= n -> 0 <= be_val (slice (MoldMessage.body m) off n) < 256 ^ n)
    by (intros; by apply be_val_slice_width).
  pose proof (R 11 8) as R8. pose proof (R 19 8) as R8'. pose proof (R 19 4) as R4.
  pose proof (R 20 4) as R4'. pose proof (R 32 4) as R4''. pose proof (R 27 4) as R27.
  pose proof (R 31 4) as R31.
  destruct (itch_of_code _); try done;
    rewrite ?ItchAddOrder_parse_eq, ?ItchDeleteOrder_parse_eq, ?ItchOrderCancel_parse_eq,
      ?ItchOrderExecuted_parse_eq, ?ItchOrderReplace_parse_eq by done;
    case_bool; try done; intros [= <-]; cbn; unfold is_u32, is_u64;
    repeat split; lia.
Qed.

(** ** One book *)

Record book_typed (b : OrderBook.t) : Prop := {
  bt_bids : side_typed (OrderBook.bids_ b);
  bt_asks : side_typed (OrderBook.asks_ b);
  bt_orders : orders_typed (OrderBook.orders_ b);
  bt_last : top_typed (OrderBook.last_top_ b);
  bt_adds : is_u64 (OrderBook.stat_adds_ b);
  bt_deletes : is_u64 (OrderBook.stat_deletes_ b);
  bt_cancels : is_u64 (OrderBook.stat_cancels_ b);
  bt_executes : is_u64 (OrderBook.stat_executes_ b);
  bt_replaces : is_u64 (OrderBook.stat_replaces_ b);
  bt_unknown : is_u64 (OrderBook.stat_unknown_order_ b);
  bt_duplicate : is_u64 (OrderBook.stat_duplicate_add_ b)
}.

Create HintDb book_types.
#[export] Hint Resolve inc_range u64_range u32_range : book_types.

Section Book.
Import OrderBook.

Lemma init_typed on : book_typed (set_on_top_change init on).
Proof. split; cbn; try done; apply map_Forall_empty. Qed.

Lemma bump_typed b s : book_typed b -> book_typed (bump b s).
Proof. intros []. split; cbn; try done; destruct s; auto with book_types. Qed.

Lemma set_orders_typed b m : book_typed b -> orders_typed m -> book_typed (set_orders b m).
Proof. by intros [] ?. Qed.

Lemma on_side_typed b sd f :
  book_typed b -> (forall l, side_typed l -> side_typed (f l)) -> book_typed (on_side b sd f).
Proof. intros [] Hf. unfold on_side. destruct (decide _); split; cbn; auto. Qed.

Lemma add_level_typed pr sh l : is_u32 pr -> side_typed l -> side_typed (add_level pr sh l).
Proof.
  intros Hp Hl. unfold add_level. apply map_Forall_insert_2; [|done].
  split; [done|]. split; [apply u64_range | apply u32_range].
Qed.

Lemma reduce_level_typed pr sh l : 0 <= sh -> side_typed l -> side_typed (reduce_level pr sh l).
Proof.
  intros Hs Hl. unfold reduce_level. destruct (l !! pr) as [agg|] eqn:E; [|done].
  destruct (Hl _ _ E) as (Hp & Ha & Hc). destruct (_ && _); [by apply map_Forall_delete|].
  apply map_Forall_insert_2; [|done]. split; [done|]. split; [cbn; width | done].
Qed.

Lemma remove_level_typed pr l : side_typed l -> side_typed (remove_level pr l).
Proof.
  intros Hl. unfold remove_level. destruct (l !! pr) as [agg|] eqn:E; [|done].
  destruct (Hl _ _ E) as (Hp & Ha & Hc). cbv zeta. destruct (_ && _); [by apply map_Forall_delete|].
  apply map_Forall_insert_2; [|done]. split; [done|]. split; [done|].
  cbn. destruct (Z.ltb_spec 0 (order_count agg)); width.
Qed.

Lemma begin_of_lookup {A} before (m : gmap Z A) p a : begin_of before m = Some (p, a) -> m !! p = Some a.
Proof.
  unfold begin_of. apply (map_fold_weak_ind (fun acc m => acc = Some (p, a) -> m !! p = Some a)); [done|].
  intros i x m' acc Hi IH. destruct acc as [[q b]|]; [destruct (before i q)|];
    intros [= <- <-]; try apply lookup_insert_eq.
  rewrite lookup_insert_ne; [by apply IH|]. intros ->. by rewrite (IH eq_refl) in Hi.
Qed.

Lemma top_is_typed b : book_typed b -> top_typed (top b).
Proof.
  intros []. assert (Hb : forall before l, side_typed l -> opt_typed pl_typed (as_level <$> begin_of before l)).
  { intros before l Hl. destruct (begin_of before l) as [[p a]|] eqn:E; [|done].
    apply begin_of_lookup in E. destruct (Hl _ _ E) as (H1 & H2 & H3). exact (conj H1 (conj H2 H3)). }
  split; by apply Hb.
Qed.

Lemma silent_typed b : book_typed b -> book_typed (b, @nil (TopOfBook * Z)).1 /\ notes_typed [].
Proof. split; [done | by apply Forall_nil]. Qed.

Lemma notify_typed b ns :
  book_typed b -> is_u64 ns ->
  book_typed (notify_if_top_changed b ns).1 /\ notes_typed (notify_if_top_changed b ns).2.
Proof.
  intros Hb Hn. unfold notify_if_top_changed. destruct (negb _); [by apply silent_typed|]. cbv zeta.
  destruct (top_changed _ _); [|by apply silent_typed]. pose proof (top_is_typed b Hb). split; [by destruct Hb|].
  by apply Forall_singleton.
Qed.

Lemma orders_typed_insert m ref o : orders_typed m -> is_u64 ref -> order_typed o -> orders_typed (<[ref := o]> m).
Proof. intros. by apply map_Forall_insert_2. Qed.
Lemma orders_typed_delete m ref : orders_typed m -> orders_typed (delete ref m).
Proof. intros. by apply map_Forall_delete. Qed.

#[local] Hint Resolve bump_typed set_orders_typed on_side_typed add_level_typed reduce_level_typed
  remove_level_typed orders_typed_insert orders_typed_delete : book_types.

(** The order of a level update is the order's own. *)
Lemma reduce_order_typed b ref n s ns :
  book_typed b -> 0 <= n -> is_u64 ns ->
  book_typed (reduce_order b ref n s ns).1 /\ notes_typed (reduce_order b ref n s ns).2.
Proof.
  intros Hb Hn Hns. unfold reduce_order. destruct (orders_ b !! ref) as [o|] eqn:E.
  2:{ by apply silent_typed, bump_typed. }
  destruct (bt_orders _ Hb _ _ E) as (Hr & Hp & Hs). cbv zeta. apply notify_typed; [|done].
  set (b1 := reduce_level_shares _ _ _ _).
  assert (H1 : book_typed b1) by (apply on_side_typed; [done|]; intros; apply reduce_level_typed; [width | done]).
  set (b2 := bump _ s).
  assert (H2 : book_typed b2).
  { apply bump_typed, set_orders_typed; [done|]. apply orders_typed_insert; [apply H1 | done|].
    split; cbn; width. }
  destruct (_ =? 0); [|done]. apply set_orders_typed; [|apply orders_typed_delete, H2].
  apply on_side_typed; auto with book_types.
Qed.

(** The steps of Delete and Replace that take the order [o] off its level. *)
Lemma take_off_typed b ref o :
  book_typed b -> is_u32 (shares o) ->
  book_typed (set_orders (remove_order_from_level (reduce_level_shares b (side o) (price o) (shares o))
                            (side o) (price o))
                (delete ref (orders_ (remove_order_from_level
                   (reduce_level_shares b (side o) (price o) (shares o)) (side o) (price o))))).
Proof.
  intros Hb Hs. set (b1 := remove_order_from_level _ _ _). assert (H1 : book_typed b1).
  { apply on_side_typed; [|auto with book_types]. apply on_side_typed; [done|].
    intros. apply reduce_level_typed; [width | done]. }
  apply set_orders_typed; [done|]. apply orders_typed_delete, H1.
Qed.

Lemma apply_msg_typed b msg ns :
  book_typed b -> msg_typed msg -> is_u64 ns ->
  book_typed (apply_msg b msg ns).1 /\ notes_typed (apply_msg b msg ns).2.
Proof.
  intros Hb Hm Hns. destruct msg as [a|d|c|e|r]; cbn [apply_msg msg_typed] in *.
  - destruct Hm as (Hr & Hp & Hs). unfold apply_add. destruct (orders_ b !! _).
    { by apply silent_typed, bump_typed. }
    apply notify_typed; [|done]. apply bump_typed, on_side_typed; [|auto with book_types].
    apply set_orders_typed; [done|]. apply orders_typed_insert; [apply Hb | done | done].
  - unfold apply_delete. destruct (orders_ b !! _) as [o|] eqn:E; [|by apply silent_typed, bump_typed].
    destruct (bt_orders _ Hb _ _ E) as (_ & _ & Hs). apply notify_typed; [|done].
    by apply bump_typed, take_off_typed.
  - apply reduce_order_typed; [done | width | done].
  - apply reduce_order_typed; [done | width | done].
  - destruct Hm as (Hr & Hp & Hs). unfold apply_replace.
    destruct (orders_ b !! _) as [o|] eqn:E; [|by apply silent_typed, bump_typed].
    destruct (bt_orders _ Hb _ _ E) as (_ & _ & Ho). apply notify_typed; [|done].
    pose proof (take_off_typed b (ItchOrderReplace.orig_order_ref r) o Hb Ho) as H1.
    apply bump_typed, on_side_typed; [|auto with book_types].
    apply set_orders_typed; [done|]. apply orders_typed_insert; [apply H1 | done | done].
Qed.

End Book.

(** ** All books *)

Section Multi.
Import MultiSymbolBook.

Record multi_typed (s : t) : Prop := {
  mt_books : map_Forall (fun _ b => book_typed b) (books_ s);
  mt_index : map_Forall (fun ref _ => is_u64 ref) (order_symbol_ s);
  mt_unrouted : is_u64 (stat_unrouted_ s)
}.

Definition event_top_typed (ev : top_event) : Prop := top_typed ev.1.2 /\ is_u64 ev.2.

Lemma multi_init_typed on : multi_typed (MultiSymbolBook.set_on_top_change MultiSymbolBook.init on).
Proof. split; cbn; [apply map_Forall_empty | apply map_Forall_empty | done]. Qed.

Lemma book_at_typed s sym : multi_typed s -> book_typed (book_at s sym).
Proof.
  intros Hs. unfold book_at. destruct (books_ s !! sym) as [b|] eqn:E; cbn.
  - by apply (mt_books _ Hs sym).
  - apply (init_typed false).
Qed.

Lemma set_index_typed s i :
  multi_typed s -> map_Forall (fun ref _ => is_u64 ref) i -> multi_typed (set_index s i).
Proof. by intros [] ?. Qed.

Lemma inc_unrouted_typed s : multi_typed s -> multi_typed (inc_unrouted s).
Proof. intros []. split; cbn; auto using inc_range. Qed.

Lemma wire_book_typed s sym : multi_typed s -> multi_typed (wire_book s sym).
Proof.
  intros Hs. pose proof (book_at_typed s sym Hs) as Hb. unfold wire_book.
  destruct (decide _); (split; cbn; [apply map_Forall_insert_2; [|apply Hs] | apply Hs | apply Hs]);
    [done|]. destruct (on_top_change_ s); [|done]. by destruct Hb.
Qed.

Lemma update_book_typed s sym r :
  multi_typed s -> book_typed r.1 /\ notes_typed r.2 ->
  multi_typed (update_book s sym r).1 /\ Forall event_top_typed (update_book s sym r).2.
Proof.
  intros Hs [Hb Hn]. split.
  - destruct Hs. split; cbn; [|done..]. by apply map_Forall_insert_2.
  - unfold update_book, report. cbn. apply Forall_fmap. eapply Forall_impl; [exact Hn|].
    intros [t0 ns] []. done.
Qed.

Lemma route_typed s ref sym b : multi_typed s -> route s ref = Some (sym, b) -> book_typed b.
Proof.
  intros Hs. unfold route. destruct (order_symbol_ s !! ref) as [sym'|]; [|done]. cbn.
  destruct (books_ s !! sym') as [b'|] eqn:E; [|done]. cbn. intros [= <- <-].
  by apply (mt_books _ Hs sym').
Qed.

Lemma unrouted_typed s : multi_typed s -> multi_typed (inc_unrouted s) /\ Forall event_top_typed [].
Proof. split; [by apply inc_unrouted_typed | done]. Qed.

Lemma ingest_msg_typed s msg ns :
  multi_typed s -> msg_typed msg -> is_u64 ns ->
  multi_typed (ingest_msg s msg ns).1 /\ Forall event_top_typed (ingest_msg s msg ns).2.
Proof.
  intros Hs Hm Hns.
  assert (Hap : forall b, book_typed b -> book_typed (apply_msg b msg ns).1 /\ notes_typed (apply_msg b msg ns).2)
    by (intros; by apply apply_msg_typed).
  destruct msg as [a|d|c|e|r]; cbn [ingest_msg apply_msg msg_typed] in *.
  - unfold ingest_add. cbv zeta. apply update_book_typed; [|apply Hap, book_at_typed];
      apply wire_book_typed, set_index_typed; try done;
      (apply map_Forall_insert_2; [apply Hm | apply Hs]).
  - unfold ingest_delete. destruct (route s _) as [[sym b]|] eqn:E; [|by apply unrouted_typed].
    destruct (update_book_typed s sym _ Hs (Hap b (route_typed _ _ _ _ Hs E))) as [H1 H2].
    destruct (update_book _ _ _) as [s1 evs]. cbn in *. split; [|done].
    apply set_index_typed; [done|]. apply map_Forall_delete, H1.
  - unfold ingest_cancel. destruct (route s _) as [[sym b]|] eqn:E; [|by apply unrouted_typed].
    apply update_book_typed; [done|]. apply Hap. by eapply route_typed.
  - unfold ingest_executed. destruct (route s _) as [[sym b]|] eqn:E; [|by apply unrouted_typed].
    destruct (update_book_typed s sym _ Hs (Hap b (route_typed _ _ _ _ Hs E))) as [H1 H2].
    destruct (update_book _ _ _) as [s1 evs]. done.
  - unfold ingest_replace. destruct (order_symbol_ s !! _) as [sym|] eqn:E; [|by apply unrouted_typed].
    destruct (update_book_typed s sym _ Hs (Hap (book_at s sym) (book_at_typed s sym Hs))) as [H1 H2].
    destruct (update_book _ _ _) as [s1 evs]. cbn in *. split; [|done].
    apply set_index_typed; [done|]. apply map_Forall_insert_2; [apply Hm|]. apply map_Forall_delete, H1.
Qed.

Lemma ingest_typed s m :
  multi_typed s -> readable m -> is_u64 (MoldMessage.recv_ns m) ->
  exists s' tops ok, ingest s m = Ok (s', tops, ok) /\ multi_typed s' /\ Forall event_top_typed tops.
Proof.
  intros Hs Hr Hns. rewrite ingest_decoded by done.
  destruct (decoded m) as [msg|] eqn:E; [|by eexists s, [], false].
  destruct (ingest_msg_typed s msg _ Hs (decoded_typed m msg Hr E) Hns) as [H1 H2].
  destruct (ingest_msg s msg _) as [s' tops]. by eexists s', tops, true.
Qed.

End Multi.
