(* ===== verification/LateJoin.v ===== *)
(** * LateJoin: a book that starts in the middle of the session

    ITCH has no message for the current book, so a consumer that starts late
    rebuilds it from the messages it sees.  What its books then hold is the true
    books less the orders that were resting before it started, and less what
    replacements made of them; they agree again once those have gone. *)

From stdpp Require Import base gmap list strings fin_maps.
From Stdlib Require Import ZArith Lia.
From S2P Require Import Prelude WireFormat WireLemmas GapBuf.
From S2P Require Import Book BookInv BookProps BookTop SymbolBook SymbolProps.

#[local] Open Scope Z_scope.
Import MultiSymbolBook.

(** ** Two populations of orders *)

(** The reference a message introduces is not in use. *)
Definition fresh_msg (f : flat) (msg : book_msg) : Prop :=
  match msg with
  | MAdd a => f !! ItchAddOrder.order_ref a = None
  | MReplace r =>
      delete (ItchOrderReplace.orig_order_ref r) f !! ItchOrderReplace.new_order_ref r = None
  | _ => True
  end.

(** What becomes of the orders that rest already: nothing is added to them. *)
Definition old_step (f : flat) (msg : book_msg) : flat :=
  match msg with MAdd _ => f | _ => flat_step f msg end.

Definition old_all (f : flat) (msgs : list MoldMessage.t) : flat :=
  foldl (fun f msg => match decoded msg with Some m => old_step f m | None => f end) f msgs.

Fixpoint fresh_feed (f : flat) (msgs : list MoldMessage.t) : Prop :=
  match msgs with
  | [] => True
  | msg :: msgs' =>
      match decoded msg with
      | Some m => fresh_msg f m /\ fresh_feed (flat_step f m) msgs'
      | None => fresh_feed f msgs'
      end
  end.

Section Parts.
Context (new old : flat).
Context (Hd : new ##ₘ old).

Lemma in_new ref x : new !! ref = Some x -> (new ∪ old) !! ref = Some x /\ old !! ref = None.
Proof using Hd.
  intros H. split; [by apply lookup_union_Some_l | by eapply map_disjoint_Some_l].
Qed.

Lemma in_old ref x : old !! ref = Some x -> (new ∪ old) !! ref = Some x /\ new !! ref = None.
Proof using Hd.
  intros H. split; [by apply lookup_union_Some_r | by eapply map_disjoint_Some_r].
Qed.

(** The parts of a message's effect: it acts on the part that has the order. *)
Definition splits (step : flat -> flat) (old' : flat) : Prop :=
  step (new ∪ old) = step new ∪ old' /\ step new ##ₘ old'.

Lemma reduce_splits ref n :
  splits (fun f => flat_reduce f ref n) (flat_reduce old ref n).
Proof using Hd.
  unfold splits, flat_reduce. destruct (new !! ref) as [[sym o]|] eqn:En.
  - destruct (in_new _ _ En) as [-> ->]. destruct (_ <=? _).
    + rewrite delete_union, (delete_id old) by by eapply map_disjoint_Some_l.
      split; [done | by apply map_disjoint_delete_l].
    + rewrite insert_union_l. split; [done|]. apply map_disjoint_insert_l_2; [|done].
      by eapply map_disjoint_Some_l.
  - destruct (old !! ref) as [[sym o]|] eqn:Eo.
    + destruct (in_old _ _ Eo) as [-> _]. destruct (_ <=? _).
      * rewrite delete_union, (delete_id new) by done.
        split; [done | by apply map_disjoint_delete_r].
      * rewrite insert_union_r by done. split; [done|]. by apply map_disjoint_insert_r_2.
    + by rewrite (proj2 (lookup_union_None _ _ _)).
Qed.

Lemma delete_splits ref : splits (delete ref) (delete ref old).
Proof using Hd.
  split; [apply delete_union|]. by apply map_disjoint_delete_l, map_disjoint_delete_r.
Qed.

Lemma step_splits msg :
  fresh_msg (new ∪ old) msg -> splits (fun f => flat_step f msg) (old_step old msg).
Proof using Hd.
  intros Hf. destruct msg as [a|d|c|e|r]; cbn [old_step flat_step fresh_msg] in *;
    [ | apply delete_splits | apply reduce_splits | apply reduce_splits | ].
  - apply lookup_union_None in Hf as Hf'. destruct Hf' as [Hn Ho]. unfold splits.
    rewrite Hf, Hn, !decide_False by (by intros [? [=]]).
    split; [apply insert_union_l | by apply map_disjoint_insert_l_2].
  - set (k := ItchOrderReplace.orig_order_ref r) in *. set (k' := ItchOrderReplace.new_order_ref r) in *.
    destruct (delete_splits k) as [Hu Hdd]. rewrite Hu in Hf.
    apply lookup_union_None in Hf as [Hn Ho]. unfold splits.
    destruct (new !! k) as [[sym o]|] eqn:En.
    + destruct (in_new _ _ En) as [-> Eo]. rewrite Eo, Hu.
      rewrite (delete_id old) in * by done.
      split; [apply insert_union_l | by apply map_disjoint_insert_l_2].
    + rewrite (delete_id new) in * by done. destruct (old !! k) as [[sym o]|] eqn:Eo.
      * destruct (in_old _ _ Eo) as [-> _]. rewrite Hu.
        split; [by apply insert_union_r | by apply map_disjoint_insert_r_2].
      * by rewrite (proj2 (lookup_union_None _ _ _)).
Qed.

(** A message of the full feed is one of the late feed. *)
Lemma late_ok msg : flat_ok (new ∪ old) msg -> fresh_msg (new ∪ old) msg -> flat_ok new msg.
Proof using Hd.
  intros [Hs Hok] Hf. split.
  - assert (size new <= size (new ∪ old))%nat; [|lia]. apply map_subseteq_size, map_union_subseteq_l.
  - destruct msg as [a|d|c|e|r]; cbn in *; try done.
    + destruct Hok as [? _]. split; [done|]. by apply lookup_union_None in Hf as [-> _].
    + destruct Hok as [? _]. split; [done|]. rewrite delete_union in Hf.
      by apply lookup_union_None in Hf as [-> _].
Qed.

End Parts.

Lemma late_feed (new old : flat) (msgs : list MoldMessage.t) :
  new ##ₘ old -> feed_ok (new ∪ old) msgs -> fresh_feed (new ∪ old) msgs ->
  feed_ok new msgs /\
  flat_all (new ∪ old) msgs = flat_all new msgs ∪ old_all old msgs /\
  flat_all new msgs ##ₘ old_all old msgs.
Proof.
  revert new old. induction msgs as [|msg msgs IH]; intros new old Hd Hok Hf; [done|].
  cbn [feed_ok fresh_feed flat_all old_all foldl] in *. destruct Hok as [Hr Hok].
  destruct (decoded msg) as [m|].
  - destruct Hok as [Hm Hok], Hf as [Hf Hfs].
    destruct (step_splits new old Hd m Hf) as [E Hd']. rewrite E in Hok, Hfs |- *.
    destruct (IH _ _ Hd' Hok Hfs) as (H1 & H2 & H3).
    split; [|done]. split; [done|]. split; [by eapply late_ok | done].
  - by destruct (IH _ _ Hd Hok Hf) as (H1 & H2 & H3).
Qed.

Lemma feed_ok_app f a b : feed_ok f (a ++ b) <-> feed_ok f a /\ feed_ok (flat_all f a) b.
Proof.
  revert f. induction a as [|msg a IH]; intros f; [by cbn; tauto|].
  cbn [app feed_ok flat_all foldl]. destruct (decoded msg); rewrite IH; tauto.
Qed.

Lemma flat_all_app f a b : flat_all f (a ++ b) = flat_all (flat_all f a) b.
Proof. apply foldl_app. Qed.

(** ** The books *)

Lemma orders_of_union f g sym :
  f ##ₘ g ->
  orders_of (f ∪ g) sym = orders_of f sym ∪ orders_of g sym /\ orders_of f sym ##ₘ orders_of g sym.
Proof.
  intros Hd. split.
  - apply map_eq. intros k. rewrite lookup_union, !lookup_orders_of, lookup_union.
    destruct (f !! k) as [[s o]|] eqn:Ef.
    + rewrite (map_disjoint_Some_l _ _ _ _ Hd Ef). cbn. by destruct (decide _).
    + destruct (g !! k) as [[s o]|]; [|done]. cbn. by destruct (decide _).
  - apply map_disjoint_spec. intros k x y. rewrite !lookup_orders_of.
    destruct (f !! k) as [[s o]|] eqn:Ef; [|done].
    by rewrite (map_disjoint_Some_l _ _ _ _ Hd Ef).
Qed.

(** [top] is no better than [top'] on a side. *)
Definition behind (ahead : Z -> Z -> Prop) (top top' : option PriceLevel) : Prop :=
  match top with
  | Some l => exists l', top' = Some l' /\ ahead (pl_price l') (pl_price l)
  | None => True
  end.

Lemma best_behind (m m' : orders) buy ahead top top' :
  m ⊆ m' -> best_level m buy ahead top -> best_level m' buy ahead top' -> behind ahead top top'.
Proof.
  intros Hsub Hm Hm'. destruct top as [l|]; [|done]. cbn.
  destruct Hm as ((k & o & Hk & Hb & Hp) & _).
  assert (Hk' : m' !! k = Some o) by by eapply lookup_weaken.
  destruct top' as [l'|]; [|by apply Hm' in Hk'].
  exists l'. split; [done|]. rewrite <-Hp. destruct Hm' as (_ & Hall & _). by eapply Hall.
Qed.

(** C25.  Starting late.  Two consumers of the same correct feed, one from its start,
    one only from [after] on, with references that are not reused while in use.
    Neither faults; in every symbol's book the orders of the first are those of
    the second together with the old ones (known before the start and, through
    executions, cancels and replacements, still there), so the late book has no
    wrong order and its best prices are never better than the true ones; and from
    the moment no old order is left, levels included, the books are equal. *)
Theorem late_join_misses_old_orders (on : bool) (before after : list MoldMessage.t) :
  feed_ok ∅ (before ++ after) -> fresh_feed (flat_all ∅ before) after ->
  let old := old_all (flat_all ∅ before) after in
  exists s evs late evs',
    ingest_all (set_on_top_change init on) (before ++ after) = Ok (s, evs) /\
    ingest_all (set_on_top_change init on) after = Ok (late, evs') /\
    forall sym,
      let b := book_at s sym in
      let b' := book_at late sym in
      OrderBook.orders_ b = OrderBook.orders_ b' ∪ orders_of old sym /\
      OrderBook.orders_ b' ##ₘ orders_of old sym /\
      behind Z.ge (bid (OrderBook.top b')) (bid (OrderBook.top b)) /\
      behind Z.le (ask (OrderBook.top b')) (ask (OrderBook.top b)) /\
      (orders_of old sym = ∅ ->
       OrderBook.bids_ b = OrderBook.bids_ b' /\ OrderBook.asks_ b = OrderBook.asks_ b').
Proof.
  intros Hok Hf old.
  destruct (ingest_all_routes _ ∅ _ (init_routes on) Hok) as (s & evs & E & [Hb _ _]).
  apply feed_ok_app in Hok as [_ Hok]. rewrite flat_all_app in Hb.
  destruct (late_feed ∅ (flat_all ∅ before) after) as (Hok' & Hall & Hd);
    [apply map_disjoint_empty_l | by rewrite (left_id_L ∅ (∪)) | by rewrite (left_id_L ∅ (∪)) |].
  rewrite (left_id_L ∅ (∪)) in Hall. fold old in Hall, Hd.
  destruct (ingest_all_routes _ ∅ _ (init_routes on) Hok') as (late & evs' & E' & [Hb' _ _]).
  exists s, evs, late, evs'. split; [done|]. split; [done|]. intros sym b b'.
  pose proof (Hb sym) as B. pose proof (Hb' sym) as B'. fold b in B. fold b' in B'.
  rewrite Hall in B. destruct (orders_of_union _ _ sym Hd) as [Hu Hds]. rewrite Hu in B.
  pose proof (top_ok _ _ B) as [T1 T2]. pose proof (top_ok _ _ B') as [T1' T2'].
  rewrite (bk_orders _ _ B), (bk_orders _ _ B').
  split; [done|]. split; [done|].
  split; [eapply best_behind; [apply map_union_subseteq_l | done | done]|].
  split; [eapply best_behind; [apply map_union_subseteq_l | done | done]|].
  intros He. rewrite He, (right_id_L ∅ (∪)) in B.
  split; apply map_eq; intros pr.
  - rewrite (bk_levels _ _ B true pr : OrderBook.bids_ b !! pr = _).
    by rewrite (bk_levels _ _ B' true pr : OrderBook.bids_ b' !! pr = _).
  - rewrite (bk_levels _ _ B false pr : OrderBook.asks_ b !! pr = _).
    by rewrite (bk_levels _ _ B' false pr : OrderBook.asks_ b' !! pr = _).
Qed.

(** The consumer misses the two Adds; of the old orders the replaced one is left. *)
Definition missed : list MoldMessage.t := take 2 test_feed.
Definition seen : list MoldMessage.t := drop 2 test_feed.

Lemma late_join_misses_old_orders_witness :
  let old := old_all (flat_all ∅ missed) seen in
  (exists s evs late evs',
    ingest_all (set_on_top_change init true) (missed ++ seen) = Ok (s, evs) /\
    ingest_all (set_on_top_change init true) seen = Ok (late, evs') /\
    OrderBook.orders_ (book_at s sym_b) = OrderBook.orders_ (book_at late sym_b) ∪ orders_of old sym_b /\
    OrderBook.bids_ (book_at s sym_a) = OrderBook.bids_ (book_at late sym_a)) /\
  map_to_list old = [(3, (sym_b, mk_OrderRecord kSell 19900 150))].
Proof.
  intros old. split; [|by vm_compute].
  destruct (late_join_misses_old_orders true missed seen) as (s & evs & late & evs' & E & E' & H);
    [by vm_compute | by vm_compute |].
  exists s, evs, late, evs'. split; [done|]. split; [done|]. split; [apply (H sym_b)|].
  destruct (H sym_a) as (_ & _ & _ & _ & Hl). apply Hl. by vm_compute.
Defined.
