(* ===== verification/StatsProps.v ===== *)
(** * StatsProps: what the recorders report

    A Module per recorder: the bucket bound of a percentile, the sliding window
    of the throughput tracker, the nearest ranks of the sample recorder. *)

From stdpp Require Import base gmap list strings fin_maps sorting.
From Stdlib Require Import ZArith Lia.
From Stdlib Require Import Floats.SpecFloat.
From S2P Require Import Prelude GapBuf Stats FloatRank.

#[local] Open Scope Z_scope.

(** How many elements satisfy a boolean test. *)
Definition count_if (f : Z -> bool) (l : list Z) : Z := foldr (fun x n => (if f x then 1 else 0) + n) 0 l.

Lemma count_if_bounds f l : 0 <= count_if f l <= blen l.
Proof. induction l as [|x l IH]; cbn [count_if foldr length]; [lia|]. unfold count_if in IH. destruct (f x); lia. Qed.

Lemma count_if_app f a b : count_if f (a ++ b) = count_if f a + count_if f b.
Proof. unfold count_if. induction a as [|x a IH]; cbn; [done|]. rewrite IH. lia. Qed.

Lemma count_if_ext (f g : Z -> bool) l : (forall x, x ∈ l -> f x = g x) -> count_if f l = count_if g l.
Proof.
  induction l as [|x l IH]; intros H; [done|]. cbn. rewrite (H x) by apply list_elem_of_here.
  unfold count_if in IH. rewrite IH; [done|]. intros y Hy. apply H. by right.
Qed.

Lemma count_if_add (f g h : Z -> bool) l :
  (forall x, x ∈ l -> (if f x then 1 else 0) = (if g x then 1 else 0) + (if h x then 1 else 0)) ->
  count_if f l = count_if g l + count_if h l.
Proof.
  induction l as [|x l IH]; intros H; [done|]. cbn. unfold count_if in IH.
  rewrite IH by (intros; apply H; by right). rewrite (H x) by apply list_elem_of_here. lia.
Qed.

(** ** The histogram *)

Module Histogram.
Import LatencyHistogram.

Definition recorded (xs : list Z) : t := fold_left record xs init.

Definition in_bucket (i : Z) (x : Z) : bool := bucket x =? i.
Definition below_bucket (i : Z) (x : Z) : bool := bucket x <? i.

Lemma bucket_range x : is_u64 x -> 0 <= bucket x < 64.
Proof.
  intros Hx. unfold bucket, clzll, kBuckets. destruct (Z.eqb_spec x 0); [lia|].
  pose proof (Z.log2_nonneg x). lia.
Qed.

(** Bucket [i] starts at [2^i], the first one at 0. *)
Lemma below_bucket_spec i x :
  is_u64 x -> 0 <= i -> below_bucket i x = (x <? (if i =? 0 then 0 else 2 ^ i)).
Proof.
  intros Hx Hi. unfold below_bucket, bucket, clzll, kBuckets.
  assert (Hl : 0 < x -> Z.log2 x < 64) by (intros; apply Z.log2_lt_pow2; [done | apply Hx]).
  apply Bool.eq_iff_eq_true. rewrite !Z.ltb_lt.
  destruct (Z.eqb_spec x 0) as [->|]; destruct (Z.eqb_spec i 0) as [->|]; try lia.
  - pose proof (Z.log2_nonneg x). width.
  - rewrite Z.log2_lt_pow2 by width. specialize (Hl ltac:(width)). lia.
Qed.

Record recorded_ok (h : t) (xs : list Z) : Prop := {
  ro_counts : counts_ h = (fun i => u64 (count_if (in_bucket i) xs)) <$> seqZ 0 64;
  ro_total : total_ h = u64 (blen xs);
  ro_sum : sum_ h = u64 (foldr Z.add 0 xs)
}.

(** Counting one more sample. *)
Lemma fetch_add_counts xs x :
  is_u64 x ->
  fetch_add ((fun i => u64 (count_if (in_bucket i) xs)) <$> seqZ 0 64) (Z.to_nat (bucket x)) 1
  = (fun i => u64 (count_if (in_bucket i) (xs ++ [x]))) <$> seqZ 0 64.
Proof.
  intros Hx. apply list_eq. intros i. unfold fetch_add.
  pose proof (bucket_range x Hx) as Hb.
  destruct (decide (i = Z.to_nat (bucket x))) as [->|Hne].
  - rewrite list_lookup_insert_eq by (rewrite length_fmap, length_seqZ; lia).
    rewrite !list_lookup_fmap, lookup_seqZ_lt by lia. cbn. f_equal.
    rewrite u64_add_idemp_l, count_if_app. f_equal. cbn.
    assert (in_bucket (0 + Z.of_nat (Z.to_nat (bucket x))) x = true) as ->
      by (apply Z.eqb_eq; lia). lia.
  - rewrite list_lookup_insert_ne by done. rewrite !list_lookup_fmap.
    destruct (seqZ 0 64 !! i) as [k|] eqn:E; [|done]. cbn. apply lookup_seqZ in E as [-> ?].
    f_equal. f_equal. rewrite count_if_app. cbn.
    assert (in_bucket (0 + Z.of_nat i) x = false) as -> by (apply Z.eqb_neq; lia). lia.
Qed.

Lemma recorded_spec xs : Forall is_u64 xs -> recorded_ok (recorded xs) xs.
Proof.
  unfold recorded. induction xs as [|x xs IH] using rev_ind; intros H; [done|].
  apply Forall_app in H as [H Hx]. apply (Forall_inv) in Hx.
  rewrite fold_left_app. cbn [fold_left]. destruct (IH H) as [Hc Ht Hs]. split; cbn.
  - rewrite Hc. by apply fetch_add_counts.
  - rewrite Ht, u64_add_idemp_l, length_app. f_equal. cbn. lia.
  - rewrite Hs, u64_add_idemp_l. f_equal. rewrite foldr_app. cbn.
    clear. induction xs; cbn; lia.
Qed.

(** Samples in bucket [i] are those below the next edge that are not below its own. *)
Lemma count_below_succ i xs :
  count_if (below_bucket (i + 1)) xs = count_if (below_bucket i) xs + count_if (in_bucket i) xs.
Proof.
  apply count_if_add. intros x _. unfold below_bucket, in_bucket.
  destruct (Z.ltb_spec (bucket x) (i + 1)), (Z.ltb_spec (bucket x) i), (Z.eqb_spec (bucket x) i); lia.
Qed.

Lemma count_below_zero xs : Forall is_u64 xs -> count_if (below_bucket 0) xs = 0.
Proof.
  induction 1 as [|x xs Hx _ IH]; [done|]. cbn [count_if foldr]. unfold count_if in IH. rewrite IH.
  unfold below_bucket. pose proof (bucket_range x Hx). by rewrite (proj2 (Z.ltb_ge _ _)) by lia.
Qed.

Lemma count_below_all xs : Forall is_u64 xs -> count_if (below_bucket 64) xs = blen xs.
Proof.
  induction 1 as [|x xs Hx _ IH]; [done|]. cbn [count_if foldr length]. unfold count_if in IH. rewrite IH.
  unfold below_bucket. pose proof (bucket_range x Hx). rewrite (proj2 (Z.ltb_lt _ _)) by lia. lia.
Qed.

Lemma percentile_loop_spec xs m i cum T :
  blen xs < 2 ^ 64 -> Forall is_u64 xs -> i + Z.of_nat m = 64 -> 0 <= i ->
  cum = count_if (below_bucket i) xs -> cum <= T < blen xs ->
  exists k, i <= k < 64 /\
    percentile_loop ((fun j => u64 (count_if (in_bucket j) xs)) <$> seqZ i (Z.of_nat m)) i cum T
      = (if 63 <=? k then max_u64 else 2 ^ (k + 1)) /\
    count_if (below_bucket k) xs <= T < count_if (below_bucket (k + 1)) xs.
Proof.
  intros Hlen Hxs. revert i cum. induction m as [|m IH]; intros i cum Hm Hi Hcum HT.
  { exfalso. assert (i = 64) as -> by lia. subst cum. rewrite count_below_all in HT by done. lia. }
  rewrite seqZ_cons by lia. cbn [fmap list_fmap percentile_loop].
  pose proof (count_if_bounds (in_bucket i) xs). pose proof (count_if_bounds (below_bucket (i + 1)) xs).
  pose proof (count_below_succ i xs) as Hs.
  rewrite (u64_small (count_if _ _)) by width. rewrite (u64_small (cum + _)) by (subst cum; pose proof (count_if_bounds (below_bucket i) xs); width).
  destruct (Z.ltb_spec T (cum + count_if (in_bucket i) xs)).
  - exists i. split; [lia|]. split; [|lia]. destruct (63 <=? i); [done|].
    by rewrite Z.shiftl_mul_pow2, Z.mul_1_l by lia.
  - destruct (IH (i + 1) (cum + count_if (in_bucket i) xs)) as (k & Hk & E & Hc); [lia | lia | lia | lia |].
    exists k. split; [lia|]. split; [|done].
    replace (Z.pred (Z.of_nat (S m))) with (Z.of_nat m) by lia.
    replace (Z.succ i) with (i + 1) by lia. exact E.
Qed.

(** How many samples are below [b]. *)
Definition below (b : Z) (xs : list Z) : Z := count_if (fun x => x <? b) xs.

Lemma count_below_edge xs :
  Forall is_u64 xs ->
  forall i, 0 <= i -> count_if (below_bucket i) xs = below (if i =? 0 then 0 else 2 ^ i) xs.
Proof.
  intros Hxs i Hi. apply count_if_ext. intros x Hx. rewrite Forall_forall in Hxs.
  apply below_bucket_spec; auto.
Qed.

(** The percentile of any [p] whose target [T = p * n] stays below [n]. *)
Lemma percentile_bucket (xs : list Z) (p : double) :
  Forall is_u64 xs -> 0 < blen xs < 2 ^ 64 ->
  0 <= target_of p (blen xs) < blen xs ->
  exists k, 0 <= k < 64 /\
    percentile (recorded xs) p = (if 63 <=? k then max_u64 else 2 ^ (k + 1)) /\
    below (if k =? 0 then 0 else 2 ^ k) xs <= target_of p (blen xs) < below (2 ^ (k + 1)) xs.
Proof.
  intros Hxs Hn HT. destruct (recorded_spec xs Hxs) as [Hc Ht _].
  pose proof (count_below_edge xs Hxs) as Hb.
  unfold percentile. rewrite Ht, u64_small by width. rewrite (proj2 (Z.eqb_neq _ _)), Hc by lia.
  destruct (percentile_loop_spec xs 64 0 0 (target_of p (blen xs))) as (k & Hk & E & Hle);
    [lia | done | lia | lia | | lia |].
  { by rewrite count_below_zero. }
  exists k. split; [lia|]. split; [exact E|]. rewrite !Hb in Hle by lia.
  rewrite (proj2 (Z.eqb_neq (k + 1) 0)) in Hle by lia. exact Hle.
Qed.

(** C38.  [percentile] is a true statement about the data: after any samples [xs]
    (fewer than [2^43]), for each literal [p] of the source, the result is the
    exclusive upper edge of the bucket that holds the sample of rank
    [T = num * n / den] (from 0; the binary64 product rounds to it exactly): more
    than [T] samples lie below the edge (the last bucket's is [2^64], reported as
    the largest value), at most [T] below the bucket: tight within 2x. *)
Theorem percentile_is_bucket_bound (xs : list Z) (p : double) (num den : Z) :
  Forall is_u64 xs -> 0 < blen xs < 2 ^ 43 -> (p, num, den) ∈ percentiles ->
  exists k, 0 <= k < 64 /\
    percentile (recorded xs) p = (if 63 <=? k then max_u64 else 2 ^ (k + 1)) /\
    below (if k =? 0 then 0 else 2 ^ k) xs <= num * blen xs / den < below (2 ^ (k + 1)) xs.
Proof.
  intros Hxs Hn Hp. rewrite <-(target_exact p num den) by done.
  apply percentile_bucket; [done | lia|]. rewrite (target_exact p num den) by done.
  by apply (target_range p).
Qed.

Definition test_samples : list Z := [3; 900; 40; 41; 5000; 42; 43; 44; 45; 46].

Lemma percentile_is_bucket_bound_witness :
  exists k, 0 <= k < 64 /\
    percentile (recorded test_samples) kP50 = (if 63 <=? k then max_u64 else 2 ^ (k + 1)) /\
    below (if k =? 0 then 0 else 2 ^ k) test_samples <= 1 * blen test_samples / 2
      < below (2 ^ (k + 1)) test_samples.
Proof.
  apply percentile_is_bucket_bound; [|by vm_compute|by left].
  repeat (apply Forall_cons; split); [.. | by apply Forall_nil]; by vm_compute.
Defined.

Example test_percentiles :
  (percentile (recorded test_samples) kP50, percentile (recorded test_samples) kP99) = (64, 8192).
Proof. by vm_compute. Qed.

End Histogram.

(** ** The sliding window *)

Module Window.
Import ThroughputTracker.

(** A run of [record] calls: time and count. *)
Definition tracked (evs : list (Z * Z)) : t :=
  fold_left (fun t0 '(now, c) => record t0 now c) evs init.

(** The messages recorded in the windows that satisfy [f]. *)
Definition load (f : Z -> bool) (evs : list (Z * Z)) : Z :=
  foldr (fun '(now, c) n => (if f (window_of now) then c else 0) + n) 0 evs.

(** The windows do not go back below [from] and end at most at [last]. *)
Fixpoint ordered (from : Z) (evs : list (Z * Z)) (last : Z) : Prop :=
  match evs with
  | [] => from <= last
  | (now, c) :: evs' => from <= window_of now /\ ordered (window_of now) evs' last
  end.

Definition contribution (cur : Z) (b : Bucket) : Z :=
  if cur <? ts_100ms b + kBuckets then bucket_count b else 0.

Definition slot_of (w : Z) : nat := Z.to_nat (w mod kBuckets).
Definition bucket_at (t0 : t) (w : Z) : Bucket := default (mk_Bucket 0 0) (ring_ t0 !! slot_of w).

(** The ring after events whose last window is [last]. *)
Record window_inv (t0 : t) (evs : list (Z * Z)) (last : Z) : Prop := {
  wi_len : length (ring_ t0) = Z.to_nat kBuckets;
  wi_ts w : 0 <= ts_100ms (bucket_at t0 w) <= last;
  wi_residue w : bucket_count (bucket_at t0 w) <> 0 ->
    ts_100ms (bucket_at t0 w) mod kBuckets = w mod kBuckets;
  wi_load cur w : last <= cur -> cur - kBuckets < w <= cur ->
    contribution cur (bucket_at t0 w) = load (fun x => x =? w) evs;
  wi_total : total_ t0 = u64 (load (fun _ => true) evs)
}.

Ltac ring_size := change kBuckets with 50 in *.

Lemma slot_of_lt w : (slot_of w < Z.to_nat kBuckets)%nat.
Proof. unfold slot_of. ring_size. pose proof (Z.mod_pos_bound w 50). lia. Qed.

Lemma slot_of_eq w w' : slot_of w = slot_of w' <-> w mod kBuckets = w' mod kBuckets.
Proof.
  unfold slot_of. ring_size.
  pose proof (Z.mod_pos_bound w 50). pose proof (Z.mod_pos_bound w' 50). lia.
Qed.

(** Two windows of one slot are the same or a whole ring apart. *)
Lemma same_slot w w' : w mod kBuckets = w' mod kBuckets -> w - kBuckets < w' < w + kBuckets -> w' = w.
Proof.
  ring_size. intros H ?.
  pose proof (Z.div_mod w 50 ltac:(done)). pose proof (Z.div_mod w' 50 ltac:(done)). lia.
Qed.

Lemma load_app f a b : load f (a ++ b) = load f a + load f b.
Proof. unfold load. induction a as [|[now c] a IH]; cbn; [done|]. rewrite IH. lia. Qed.

Lemma load_ext (f g : Z -> bool) evs : (forall x, f x = g x) -> load f evs = load g evs.
Proof. intros H. unfold load. induction evs as [|[now c] evs IH]; cbn; [done|]. by rewrite H, IH. Qed.

Lemma load_nonneg f evs : Forall (fun e => 0 <= e.2) evs -> 0 <= load f evs.
Proof.
  unfold load. induction 1 as [|[now c] evs Hc _ IH]; cbn in *; [done|]. destruct (f _); lia.
Qed.

Lemma load_le f g evs :
  Forall (fun e => 0 <= e.2) evs -> (forall w, f w = true -> g w = true) -> load f evs <= load g evs.
Proof.
  intros H Hfg. unfold load. induction H as [|[now c] evs Hc _ IH]; cbn in *; [done|].
  destruct (f (window_of now)) eqn:E; [rewrite (Hfg _ E); lia|]. destruct (g _); lia.
Qed.

Lemma bucket_at_record t0 now c w :
  length (ring_ t0) = Z.to_nat kBuckets ->
  bucket_at (record t0 now c) w =
  if decide (slot_of w = slot_of (window_of now)) then
    let b := bucket_at t0 w in
    let b := if ts_100ms b =? window_of now then b else mk_Bucket (window_of now) 0 in
    mk_Bucket (ts_100ms b) (u64 (bucket_count b + c))
  else bucket_at t0 w.
Proof.
  intros Hlen. unfold record, bucket_at. cbn. fold (slot_of (window_of now)).
  destruct (decide _) as [E|Hne].
  - rewrite E, list_lookup_insert_eq by (rewrite Hlen; apply slot_of_lt). done.
  - by rewrite list_lookup_insert_ne.
Qed.

(** The slot of the current window counts exactly that window. *)
Lemma own_slot t0 evs last W :
  window_inv t0 evs last -> last <= W -> 0 <= W ->
  (if ts_100ms (bucket_at t0 W) =? W then bucket_count (bucket_at t0 W) else 0)
  = load (fun x => x =? W) evs.
Proof.
  intros [Hlen Hts Hres Hload Htot] Hlast Hw0. rewrite <-(Hload W W) by (ring_size; lia).
  unfold contribution. destruct (Z.eqb_spec (ts_100ms (bucket_at t0 W)) W) as [->|Hne].
  - by rewrite (proj2 (Z.ltb_lt _ _)) by (ring_size; lia).
  - destruct (Z.ltb_spec W (ts_100ms (bucket_at t0 W) + kBuckets)); [|done].
    destruct (decide (bucket_count (bucket_at t0 W) = 0)) as [->|Hn]; [done|].
    specialize (Hts W). destruct Hne. apply same_slot; [by rewrite Hres|].
    ring_size. lia.
Qed.

Lemma record_inv t0 evs last now c :
  window_inv t0 evs last -> last <= window_of now -> 0 <= window_of now -> 0 <= c ->
  Forall (fun e => 0 <= e.2) evs -> load (fun _ => true) evs + c < 2 ^ 64 ->
  window_inv (record t0 now c) (evs ++ [(now, c)]) (window_of now).
Proof.
  intros [Hlen Hts Hres Hload Htot] Hlast Hw0 Hc Hev Hsum. set (W := window_of now) in *.
  assert (Hadd : forall w, load (fun x => x =? w) (evs ++ [(now, c)])
    = load (fun x => x =? w) evs + (if W =? w then c else 0)).
  { intros w. rewrite load_app. cbn. fold W. lia. }
  assert (Hbound : forall w, 0 <= load (fun x => x =? w) evs <= load (fun _ => true) evs)
    by (intros; split; [by apply load_nonneg | by apply load_le]).
  pose proof (own_slot t0 evs last W ltac:(by split) Hlast Hw0) as HW.
  assert (Heq : forall w, slot_of w = slot_of W -> bucket_at t0 w = bucket_at t0 W)
    by (intros w E; unfold bucket_at; by rewrite E).
  assert (Hnew : forall w, slot_of w = slot_of W ->
    bucket_at (record t0 now c) w = mk_Bucket W (load (fun x => x =? W) evs + c)).
  { intros w E. rewrite bucket_at_record, decide_True, (Heq w E) by done. fold W. cbv zeta.
    specialize (Hbound W). rewrite <-HW in Hbound |- *.
    destruct (Z.eqb_spec (ts_100ms (bucket_at t0 W)) W) as [E'|]; cbn; [rewrite E'|];
      rewrite u64_small by width; done. }
  assert (Hold : forall w, slot_of w <> slot_of W -> bucket_at (record t0 now c) w = bucket_at t0 w)
    by (intros; by rewrite bucket_at_record, decide_False).
  split.
  - cbn. by rewrite length_insert.
  - intros w. destruct (decide (slot_of w = slot_of W)); [rewrite Hnew by done; cbn; lia|].
    rewrite Hold by done. specialize (Hts w). lia.
  - intros w. destruct (decide (slot_of w = slot_of W)) as [E|]; [|rewrite Hold by done; apply Hres].
    rewrite Hnew by done. cbn. intros _. by apply slot_of_eq in E.
  - intros cur w Hcur Hin. rewrite Hadd. destruct (decide (slot_of w = slot_of W)) as [E|Hne].
    + rewrite Hnew by done. unfold contribution. cbn.
      destruct (Z.eqb_spec W w) as [<-|Hne].
      * by rewrite (proj2 (Z.ltb_lt _ _)) by lia.
      * apply slot_of_eq in E. assert (W + kBuckets <= w).
        { destruct (Z.le_gt_cases (W + kBuckets) w); [done|]. destruct Hne.
          symmetry. apply (same_slot W w); [done | lia]. }
        rewrite (proj2 (Z.ltb_ge _ _)) by lia.
        rewrite <-(Hload w w) by (ring_size; lia). unfold contribution.
        specialize (Hts w). by rewrite (proj2 (Z.ltb_ge _ _)) by (ring_size; lia).
    + rewrite Hold by done. rewrite (proj2 (Z.eqb_neq W w)) by congruence.
      rewrite Z.add_0_r. apply Hload; [lia | done].
  - cbn. rewrite Htot, u64_add_idemp_l, load_app. f_equal. cbn. lia.
Qed.

Lemma init_inv : window_inv init [] 0.
Proof.
  assert (H : forall w, bucket_at init w = mk_Bucket 0 0).
  { intros w. unfold bucket_at. cbn [ring_ init].
    destruct (replicate _ _ !! _) eqn:E; [|done]. by apply lookup_replicate in E as [-> _]. }
  split; [done | | | |done].
  - intros w. by rewrite H.
  - intros w. by rewrite H.
  - intros cur w _ _. rewrite H. unfold contribution. cbn. by destruct (_ <? _).
Qed.

Lemma ordered_snoc from evs now c last :
  ordered from (evs ++ [(now, c)]) last ->
  ordered from evs (window_of now) /\ window_of now <= last.
Proof.
  revert from. induction evs as [|[now' c'] evs IH]; cbn; intros from; [tauto|]. intros [H1 H2].
  destruct (IH _ H2). tauto.
Qed.

Lemma tracked_inv evs last :
  ordered 0 evs last -> 0 <= last -> Forall (fun e => 0 <= e.1 /\ 0 <= e.2) evs ->
  load (fun _ => true) evs < 2 ^ 64 -> exists l, l <= last /\ window_inv (tracked evs) evs l.
Proof.
  unfold tracked. revert last. induction evs as [|[now c] evs IH] using rev_ind; intros last Ho Hl Hev Hs.
  { exists 0. split; [done | apply init_inv]. }
  apply ordered_snoc in Ho as [Ho Hlast]. apply Forall_app in Hev as [Hev Hc].
  apply Forall_inv in Hc as [Hnow Hc]. cbn in Hnow, Hc. rewrite load_app in Hs. cbn in Hs.
  assert (H0 : 0 <= window_of now) by (apply Z.div_pos; lia).
  destruct (IH (window_of now)) as (l & Hll & Hi); [done | done | done | lia |].
  exists (window_of now). split; [done|]. rewrite fold_left_app. cbn [fold_left].
  apply record_inv with l; try done; [|lia].
  eapply Forall_impl; [exact Hev | by intros ? []].
Qed.

(** The slots of [kBuckets] consecutive windows are all the slots. *)
Lemma slots_perm cur :
  (slot_of <$> seqZ (cur - kBuckets + 1) kBuckets) ≡ₚ seq 0 (Z.to_nat kBuckets).
Proof.
  apply submseteq_length_Permutation.
  - apply NoDup_submseteq.
    + apply NoDup_fmap_2_strong; [|apply NoDup_seqZ].
      intros x y Hx Hy E. apply elem_of_seqZ in Hx, Hy. apply slot_of_eq in E.
      symmetry. apply same_slot; [done|]. ring_size. lia.
    + intros i Hi. apply list_elem_of_fmap in Hi as (w & -> & _). apply elem_of_seq.
      pose proof (slot_of_lt w). lia.
  - by rewrite length_fmap, length_seqZ, length_seq.
Qed.

Lemma foldr_add_perm {A} (f : A -> Z) l1 l2 :
  l1 ≡ₚ l2 -> foldr (fun x n => f x + n) 0 l1 = foldr (fun x n => f x + n) 0 l2.
Proof. induction 1; cbn; lia. Qed.

(** The windows of a range, one at a time. *)
Lemma load_split evs lo n :
  foldr (fun w s => load (fun x => x =? w) evs + s) 0 (seqZ lo (Z.of_nat n))
  = load (fun x => (lo <=? x) && (x <? lo + Z.of_nat n)) evs.
Proof.
  revert lo. induction n as [|n IH]; intros lo.
  - rewrite (load_ext _ (fun _ => false)).
    + unfold load. induction evs as [|[now c] evs IH]; [done|]. cbn. by rewrite <-IH.
    + intros x. change (Z.of_nat 0) with 0.
      destruct (Z.leb_spec lo x), (Z.ltb_spec x (lo + 0)); cbn; lia.
  - rewrite seqZ_cons by lia. replace (Z.pred (Z.of_nat (S n))) with (Z.of_nat n) by lia.
    cbn [foldr]. rewrite IH. clear IH. unfold load.
    induction evs as [|[now c] evs IH]; [done|]. cbn [foldr]. rewrite <-IH.
    destruct (Z.eqb_spec (window_of now) lo), (Z.leb_spec (Z.succ lo) (window_of now)),
      (Z.leb_spec lo (window_of now)), (Z.ltb_spec (window_of now) (Z.succ lo + Z.of_nat n)),
      (Z.ltb_spec (window_of now) (lo + Z.of_nat (S n))); cbn [andb]; lia.
Qed.

(** The loop of [msgs_per_sec], without its wraps. *)
Lemma ring_sum_spec ring cur acc :
  Forall (fun b => 0 <= ts_100ms b < 2 ^ 64 - kBuckets /\ 0 <= contribution cur b) ring ->
  0 <= acc -> acc + foldr (fun b n => contribution cur b + n) 0 ring < 2 ^ 64 ->
  fold_left (fun sum b =>
      if cur <? u64 (ts_100ms b + kBuckets) then u64 (sum + bucket_count b) else sum) ring acc
  = acc + foldr (fun b n => contribution cur b + n) 0 ring.
Proof.
  intros H. revert acc. induction H as [|b ring [Hb Hc] Hr IH]; intros acc Ha Hs; cbn in *; [lia|].
  assert (0 <= foldr (fun b n => contribution cur b + n) 0 ring)
    by (clear -Hr; induction Hr as [|? ? [_ ?] _ IH]; cbn; lia).
  rewrite (u64_small (ts_100ms b + kBuckets)) by (ring_size; width).
  unfold contribution in *. destruct (cur <? ts_100ms b + kBuckets).
  - rewrite (u64_small (acc + _)) by width. rewrite IH by lia. lia.
  - rewrite IH by lia. lia.
Qed.

Lemma ring_as_slots t0 : length (ring_ t0) = Z.to_nat kBuckets ->
  ring_ t0 = (fun i => default (mk_Bucket 0 0) (ring_ t0 !! i)) <$> seq 0 (Z.to_nat kBuckets).
Proof.
  intros Hlen. apply list_eq. intros i. rewrite list_lookup_fmap.
  destruct (decide (i < Z.to_nat kBuckets)%nat).
  - rewrite lookup_seq_lt by done. cbn. destruct (ring_ t0 !! i) eqn:E; [done|].
    apply lookup_ge_None in E. lia.
  - rewrite !lookup_ge_None_2 by (rewrite ?length_seq; lia). done.
Qed.

Lemma foldr_fmap_add {A B} (f : B -> Z) (g : A -> B) l :
  foldr (fun x n => f x + n) 0 (g <$> l) = foldr (fun x n => f (g x) + n) 0 l.
Proof. induction l as [|x l IH]; [done|]. cbn. by rewrite IH. Qed.

(** The ring holds the load of the window range ending at [cur]. *)
Lemma ring_load t0 evs last cur :
  window_inv t0 evs last -> last <= cur ->
  foldr (fun b n => contribution cur b + n) 0 (ring_ t0)
  = load (fun x => (cur - kBuckets <? x) && (x <=? cur)) evs.
Proof.
  intros [Hlen _ _ Hload _] Hcur. rewrite (ring_as_slots t0 Hlen), foldr_fmap_add.
  rewrite <-(foldr_add_perm _ _ _ (slots_perm cur)), foldr_fmap_add.
  transitivity (foldr (fun w s => load (fun x => x =? w) evs + s) 0
                  (seqZ (cur - kBuckets + 1) kBuckets)).
  - assert (H : forall w, w ∈ seqZ (cur - kBuckets + 1) kBuckets -> cur - kBuckets < w <= cur)
      by (intros w Hw; apply elem_of_seqZ in Hw; ring_size; lia).
    revert H. generalize (seqZ (cur - kBuckets + 1) kBuckets). intros l Hl.
    induction l as [|w l IH]; [done|]. cbn. rewrite IH by (intros; apply Hl; by right).
    rewrite <-(Hload cur w); [done | done|]. apply Hl. apply list_elem_of_here.
  - change kBuckets with (Z.of_nat 50). rewrite load_split. apply load_ext. intros x.
    destruct (Z.leb_spec (cur - Z.of_nat 50 + 1) x), (Z.ltb_spec (cur - Z.of_nat 50) x),
      (Z.ltb_spec x (cur - Z.of_nat 50 + 1 + Z.of_nat 50)), (Z.leb_spec x cur); cbn; lia.
Qed.

(** C37.  The sliding window is exact: after any calls of [record] whose times do not
    go back, [msgs_per_sec(now)] is a fifth of the messages recorded in the fifty
    100 ms windows that end with the one of [now]: older ones no longer count,
    whatever ring slots they shared, and none inside is lost. *)
Theorem msgs_per_sec_exact (evs : list (Z * Z)) (now : Z) :
  ordered 0 evs (window_of now) -> is_u64 now ->
  Forall (fun e => 0 <= e.1 /\ 0 <= e.2) evs -> load (fun _ => true) evs < 2 ^ 64 ->
  let cur := window_of now in
  msgs_per_sec (tracked evs) now
  = load (fun w => (cur - kBuckets <? w) && (w <=? cur)) evs / kWindowSec.
Proof.
  intros Ho Hnow Hev Hs cur.
  assert (Hcur : 0 <= cur < 2 ^ 64 - 200).
  { unfold cur, window_of. split; [apply Z.div_pos; width|].
    apply Z.div_lt_upper_bound; width. }
  destruct (tracked_inv evs cur Ho (proj1 Hcur) Hev Hs) as (l & Hl & Hi).
  unfold msgs_per_sec. fold cur. rewrite ring_sum_spec; rewrite ?(ring_load _ _ _ _ Hi Hl).
  - done.
  - pose proof Hi as [Hlen Hts _ Hload _]. apply Forall_forall. intros b Hb.
    apply list_elem_of_lookup in Hb as (i & Hb). pose proof (lookup_lt_Some _ _ _ Hb) as Hlt.
    rewrite Hlen in Hlt.
    assert (Hw : exists w, cur - kBuckets < w <= cur /\ slot_of w = i).
    { assert (Hin : i ∈ (slot_of <$> seqZ (cur - kBuckets + 1) kBuckets))
        by (rewrite slots_perm; apply elem_of_seq; lia).
      apply list_elem_of_fmap in Hin as (w & -> & Hw). apply elem_of_seqZ in Hw.
      exists w. split; [ring_size; lia | done]. }
    destruct Hw as (w & Hw & <-).
    assert (b = bucket_at (tracked evs) w) as -> by (unfold bucket_at; by rewrite Hb).
    specialize (Hts w). split; [ring_size; lia|]. rewrite Hload by lia.
    apply load_nonneg. eapply Forall_impl; [exact Hev | by intros ? []].
  - done.
  - rewrite Z.add_0_l. eapply Z.le_lt_trans; [|exact Hs]. apply load_le; [|done].
    eapply Forall_impl; [exact Hev | by intros ? []].
Qed.

(** 7 seconds of events; only the last five count. *)
Definition test_events : list (Z * Z) :=
  [(0, 100); (1950000000, 7); (2000000000, 30); (2050000000, 20); (5000000000, 40); (6950000000, 10)].

Lemma msgs_per_sec_exact_witness :
  let cur := window_of 6999999999 in
  msgs_per_sec (tracked test_events) 6999999999
  = load (fun w => (cur - kBuckets <? w) && (w <=? cur)) test_events / kWindowSec.
Proof.
  apply msgs_per_sec_exact.
  - by vm_compute.
  - by vm_compute.
  - repeat (apply Forall_cons; split); [.. | by apply Forall_nil]; by vm_compute.
  - by vm_compute.
Defined.

Example test_rate : msgs_per_sec (tracked test_events) 6999999999 = 20.
Proof. by vm_compute. Qed.

End Window.

(** ** Exact percentiles *)

Module Samples.
Import SampleRecorder.

(** [x] is the [k]-th smallest of [l] (from 1). *)
Definition kth_smallest (l : list Z) (k x : Z) : Prop :=
  x ∈ l /\ count_if (fun y => y <? x) l < k <= count_if (fun y => y <=? x) l.

Lemma count_if_perm f l l' : l ≡ₚ l' -> count_if f l = count_if f l'.
Proof. unfold count_if. induction 1; cbn; lia. Qed.

Lemma count_if_all (f : Z -> bool) l b :
  (forall x, x ∈ l -> f x = b) -> count_if f l = if b then blen l else 0.
Proof.
  intros H. rewrite (count_if_ext f (fun _ => b)) by done. clear H. unfold count_if.
  induction l as [|x l IH]; cbn [foldr length]; [by destruct b|]. rewrite IH. destruct b; lia.
Qed.

Lemma sorted_kth (v : list Z) i x :
  StronglySorted Z.le v -> v !! i = Some x -> kth_smallest v (Z.of_nat i + 1) x.
Proof.
  intros Hv Hi. split; [by eapply list_elem_of_lookup_2|].
  rewrite <-(take_drop_middle v i x Hi) in Hv |- *.
  apply StronglySorted_app in Hv as (Hlt & Hv1 & Hv2).
  apply StronglySorted_inv in Hv2 as [Hv2 Hge].
  assert (Hlen : length (take i v) = i) by (apply length_take_le; apply lookup_lt_Some in Hi; lia).
  rewrite !count_if_app. cbn [count_if foldr].
  pose proof (count_if_bounds (fun y => y <? x) (take i v)).
  change (foldr (fun y n => (if y <? x then 1 else 0) + n) 0 (drop (S i) v))
    with (count_if (fun y => y <? x) (drop (S i) v)).
  change (foldr (fun y n => (if y <=? x then 1 else 0) + n) 0 (drop (S i) v))
    with (count_if (fun y => y <=? x) (drop (S i) v)).
  pose proof (count_if_bounds (fun y => y <=? x) (drop (S i) v)).
  rewrite (count_if_all (fun y => y <? x) (drop (S i) v) false).
  2:{ intros y Hy. apply Z.ltb_ge. rewrite Forall_forall in Hge. by apply Hge. }
  rewrite (count_if_all (fun y => y <=? x) (take i v) true).
  2:{ intros y Hy. apply Z.leb_le. apply (Hlt y x); [done | apply list_elem_of_here]. }
  rewrite Z.ltb_irrefl, Z.leb_refl, Hlen. rewrite Hlen in *. lia.
Qed.

Lemma at_rank_kth (r : list Z) p x :
  at_rank (merge_sort Z.le r) p = Ok x -> kth_smallest r (Z.max 1 (rank p (blen r))) x.
Proof.
  unfold at_rank. assert (Hp : merge_sort Z.le r ≡ₚ r) by apply merge_sort_Permutation.
  assert (Hs : StronglySorted Z.le (merge_sort Z.le r))
    by (apply (StronglySorted_merge_sort Z.le)).
  rewrite (Permutation_length Hp). set (k := rank p (blen r)). intros H.
  destruct (merge_sort Z.le r !! _) as [y|] eqn:E; [|done]. injection H as ->.
  apply (sorted_kth _ _ _ Hs) in E as [Hin Hk]. rewrite Hp in Hin.
  rewrite !(count_if_perm _ _ _ Hp) in Hk. split; [done|].
  destruct (Z.eqb_spec k 0); lia.
Qed.

Lemma at_rank_total (r : list Z) p num den :
  0 < blen r < 2 ^ 43 -> (p, num, den) ∈ percentiles ->
  exists x, at_rank (merge_sort Z.le r) p = Ok x /\ kth_smallest r (nearest_rank num den (blen r)) x.
Proof.
  intros Hn Hp. pose proof (rank_exact p num den _ Hp Hn) as Hk.
  pose proof (nearest_rank_range p num den _ Hp Hn).
  assert (E : exists x, at_rank (merge_sort Z.le r) p = Ok x).
  { unfold at_rank. rewrite (Permutation_length (merge_sort_Permutation Z.le r)), Hk.
    rewrite (proj2 (Z.eqb_neq _ _)) by lia.
    destruct (merge_sort Z.le r !! Z.to_nat (nearest_rank num den (blen r) - 1)) as [x|] eqn:E; [by exists x|].
    apply lookup_ge_None in E. rewrite (Permutation_length (merge_sort_Permutation Z.le r)) in E. lia. }
  destruct E as [x E]. exists x. split; [done|]. apply at_rank_kth in E. by rewrite Hk, Z.max_r in E by lia.
Qed.

Lemma sorted_head (r : list Z) : r <> [] -> kth_smallest r 1 (default 0 (head (merge_sort Z.le r))).
Proof.
  intros Hr. pose proof (merge_sort_Permutation Z.le r) as Hp.
  assert (Hs : StronglySorted Z.le (merge_sort Z.le r)) by (apply (StronglySorted_merge_sort Z.le)).
  destruct (merge_sort Z.le r) as [|x v] eqn:E; [by apply Permutation_nil_l in Hp; subst|].
  destruct (sorted_kth (x :: v) 0 x Hs eq_refl) as [Hin Hk]. rewrite Hp in Hin.
  rewrite !(count_if_perm _ _ _ Hp) in Hk. done.
Qed.

Lemma sorted_last (r : list Z) :
  r <> [] -> kth_smallest r (blen r) (default 0 (list.last (merge_sort Z.le r))).
Proof.
  intros Hr. pose proof (merge_sort_Permutation Z.le r) as Hp.
  assert (Hs : StronglySorted Z.le (merge_sort Z.le r)) by (apply (StronglySorted_merge_sort Z.le)).
  rewrite <-(Permutation_length Hp).
  destruct (merge_sort Z.le r) as [|x v _] using rev_ind; [by apply Permutation_nil_l in Hp; subst|].
  rewrite last_snoc, length_app. cbn [default length].
  destruct (sorted_kth (v ++ [x]) (length v) x Hs) as [Hin Hk];
    [by rewrite lookup_app_r, Nat.sub_diag by lia|]. rewrite Hp in Hin.
  rewrite !(count_if_perm _ _ _ Hp) in Hk. split; [done|]. cbn. lia.
Qed.

(** What a summary of the samples [r] promises; of none it is all zeros. *)
Record summary_of (r : list Z) (s : Summary) : Prop := {
  so_n : n s = blen r;
  so_none : r = [] -> s = mk_Summary 0 (S754_zero false) 0 0 0 0 0 0;
  so_min : r <> [] -> kth_smallest r 1 (min s);
  so_max : r <> [] -> kth_smallest r (blen r) (max s);
  so_p50 : r <> [] -> kth_smallest r (nearest_rank 1 2 (blen r)) (p50 s);
  so_p90 : r <> [] -> kth_smallest r (nearest_rank 9 10 (blen r)) (p90 s);
  so_p99 : r <> [] -> kth_smallest r (nearest_rank 99 100 (blen r)) (p99 s);
  so_p999 : r <> [] -> kth_smallest r (nearest_rank 999 1000 (blen r)) (p999 s)
}.

Lemma summarize_total (r : list Z) :
  blen r < 2 ^ 43 -> exists s, summarize r = Ok s /\ summary_of r s.
Proof.
  intros Hn. destruct (decide (r = [])) as [->|Hr]; [by eexists; split; [reflexivity | split]|].
  assert (Hn' : 0 < blen r < 2 ^ 43) by (destruct r; [done | cbn in *; lia]).
  destruct (at_rank_total r kP50 1 2 Hn') as (a & Ea & Ka); [by left|].
  destruct (at_rank_total r kP90 9 10 Hn') as (b & Eb & Kb); [by right; left|].
  destruct (at_rank_total r kP99 99 100 Hn') as (c & Ec & Kc); [by do 2 right; left|].
  destruct (at_rank_total r kP999 999 1000 Hn') as (d & Ed & Kd); [by do 3 right; left|].
  unfold summarize. destruct r as [|x r']; [done|].
  rewrite Ea, bind_Ok, Eb, bind_Ok, Ec, bind_Ok, Ed, bind_Ok. eexists. split; [done|].
  split; intros; try done; [by apply sorted_head | by apply sorted_last].
Qed.

(** C39.  The exact recorder is exact: the summary of [n] samples, [0 < n < 2^43],
    is computed without an out-of-range access, its minimum and maximum are the
    smallest and largest sample, and each percentile is the sample of the
    nearest rank, [num * n / den] rounded up as a rational: the binary64 product
    and [ceil] of the code never miss it. *)
Theorem summary_exact (r : list Z) :
  0 < blen r < 2 ^ 43 ->
  exists s, summarize r = Ok s /\ n s = blen r /\
    kth_smallest r 1 (min s) /\ kth_smallest r (blen r) (max s) /\
    kth_smallest r (nearest_rank 1 2 (blen r)) (p50 s) /\
    kth_smallest r (nearest_rank 9 10 (blen r)) (p90 s) /\
    kth_smallest r (nearest_rank 99 100 (blen r)) (p99 s) /\
    kth_smallest r (nearest_rank 999 1000 (blen r)) (p999 s).
Proof.
  intros Hn. assert (Hr : r <> []) by (intros ->; cbn in Hn; lia).
  destruct (summarize_total r) as (s & E & []); [lia|]. exists s. by repeat (split; [by auto|]); auto.
Qed.

Lemma summary_exact_witness :
  exists s, summarize Histogram.test_samples = Ok s /\ n s = 10 /\
    kth_smallest Histogram.test_samples 1 (min s) /\ kth_smallest Histogram.test_samples 10 (max s) /\
    kth_smallest Histogram.test_samples 5 (p50 s) /\ kth_smallest Histogram.test_samples 9 (p90 s) /\
    kth_smallest Histogram.test_samples 10 (p99 s) /\ kth_smallest Histogram.test_samples 10 (p999 s).
Proof. apply (summary_exact Histogram.test_samples). by vm_compute. Defined.

Example test_summary :
  (s ← summarize Histogram.test_samples; mret (min s, p50 s, p90 s, p99 s, p999 s, max s))
  = Ok (3, 43, 900, 5000, 5000, 5000).
Proof. by vm_compute. Qed.

End Samples.
