(* ===== verification/SharedHistogram.v ===== *)
(** * SharedHistogram: a histogram that threads share

    [LatencyHistogram] of [include/feed/stats.hpp] with its atomics taken as
    atomics: several threads run [record] while another runs [percentile], and
    every single [fetch_add] and [load] is a step of its own.  A schedule says whose
    step is next; a thread's operations take effect in program order, as on the
    x86-64 processors the code is written for ([relaxed] alone would allow a
    compiler to reorder them). *)

From stdpp Require Import base gmap list strings fin_maps.
From Stdlib Require Import ZArith Lia.
From S2P Require Import Prelude GapBuf Stats FloatRank StatsProps.

#[local] Open Scope Z_scope.

Module SharedHistogram.
Import LatencyHistogram.

(** A thread that records: between two samples, or behind the first or second
    [fetch_add] of the sample [ns]; [todo] is what it has still to record. *)
Inductive writer :=
| Ready (todo : list Z)
| Counted (ns : Z) (todo : list Z)
| Totalled (ns : Z) (todo : list Z).

(** The next atomic operation of [record], and the sample it counts if it is the
    first one. *)
Definition writer_step (h : t) (w : writer) : t * writer * list Z :=
  match w with
  | Ready [] => (h, w, [])
  | Ready (ns :: todo) =>
      (mk (fetch_add (counts_ h) (Z.to_nat (bucket ns)) 1) (total_ h) (sum_ h), Counted ns todo, [ns])
  | Counted ns todo => (mk (counts_ h) (u64 (total_ h + 1)) (sum_ h), Totalled ns todo, [])
  | Totalled ns todo => (mk (counts_ h) (total_ h) (u64 (sum_ h + ns)), Ready todo, [])
  end.

(** A thread in [percentile]: before the load of [total_], before the load of
    [counts_[i]], or returned. *)
Inductive reader :=
| Start
| Scanning (i cum target : Z)
| Done (result : Z).

Definition reader_step (p : double) (h : t) (rd : reader) : reader :=
  match rd with
  | Start => if total_ h =? 0 then Done 0 else Scanning 0 0 (target_of p (total_ h))
  | Scanning i cum target =>
      if i <? kBuckets then
        let cum := u64 (cum + default 0 (counts_ h !! Z.to_nat i)) in
        if target <? cum then Done (if 63 <=? i then max_u64 else Z.shiftl 1 (i + 1))
        else Scanning (i + 1) cum target
      else Done max_u64
  | Done r => Done r
  end.

Record config := mk_config { hist : t; writers : list writer; rd : reader }.

Inductive thread := Writer (i : nat) | Reader.

#[export] Instance thread_eq_dec : EqDecision thread.
Proof. solve_decision. Defined.

(** One step of a thread (none if it has finished), with the sample it counted. *)
Definition step (p : double) (who : thread) (c : config) : config * list Z :=
  match who with
  | Writer i =>
      match writers c !! i with
      | Some w => let '(h, w', log) := writer_step (hist c) w in
                  (mk_config h (<[i := w']> (writers c)) (rd c), log)
      | None => (c, [])
      end
  | Reader => (mk_config (hist c) (writers c) (reader_step p (hist c) (rd c)), [])
  end.

(** The steps of a schedule, with the samples counted, in order. *)
Fixpoint exec (p : double) (schedule : list thread) (c : config) : config * list Z :=
  match schedule with
  | [] => (c, [])
  | who :: schedule' =>
      let '(c1, l1) := step p who c in
      let '(c2, l2) := exec p schedule' c1 in
      (c2, l1 ++ l2)
  end.

Definition start (samples : list (list Z)) : config := mk_config init (Ready <$> samples) Start.

Definition turns (who : thread) (schedule : list thread) : nat :=
  length (filter (fun x => x = who) schedule).

End SharedHistogram.

Import LatencyHistogram SharedHistogram Histogram.

(** Alone, the operations of a thread are those of [record] and [percentile]. *)
Lemma writer_records h ns todo :
  let '(h1, w1, l1) := writer_step h (Ready (ns :: todo)) in
  let '(h2, w2, l2) := writer_step h1 w1 in
  let '(h3, w3, l3) := writer_step h2 w2 in
  (h3, w3, l1 ++ l2 ++ l3) = (record h ns, Ready todo, [ns]).
Proof. done. Qed.


(** ** What the threads have left to do *)

Definition todo_of (w : writer) : list Z :=
  match w with Ready todo | Counted _ todo | Totalled _ todo => todo end.
(** Counted, but not yet in [total_]; and not yet in [sum_]. *)
Definition untotalled (w : writer) : Z := match w with Counted _ _ => 1 | _ => 0 end.
Definition unsummed (w : writer) : Z := match w with Ready _ => 0 | Counted ns _ | Totalled ns _ => ns end.

Definition sum_of {A} (f : A -> Z) (l : list A) : Z := foldr (fun x n => f x + n) 0 l.

Lemma sum_of_app {A} (f : A -> Z) a b : sum_of f (a ++ b) = sum_of f a + sum_of f b.
Proof. unfold sum_of. induction a as [|x a IH]; cbn; [done|]. rewrite IH. lia. Qed.


(** The histogram after the samples [log] have been counted. *)
Record consistent (c : config) (log : list Z) : Prop := {
  co_counts : counts_ (hist c) = (fun i => u64 (count_if (in_bucket i) log)) <$> seqZ 0 64;
  co_total : total_ (hist c) = u64 (blen log - sum_of untotalled (writers c));
  co_sum : sum_ (hist c) = u64 (sum_of id log - sum_of unsummed (writers c))
}.

Definition pending (ws : list writer) : list Z := mjoin (todo_of <$> ws).

(** What is not counted yet of all the samples is pending, and a thread in the middle
    of a sample has counted it. *)
Record sharing (all : list Z) (c : config) (log : list Z) : Prop := {
  sg_consistent : consistent c log;
  sg_all : log ++ pending (writers c) ≡ₚ all;
  sg_counted : sum_of untotalled (writers c) <= blen log
}.

(** The reader plays no part in it. *)
Lemma sharing_reader all c log r : sharing all c log -> sharing all (mk_config (hist c) (writers c) r) log.
Proof. intros [[? ? ?] ? ?]. by split; [split|..]. Qed.

Lemma pending_app a b : pending (a ++ b) = pending a ++ pending b.
Proof. unfold pending. by rewrite fmap_app, join_app. Qed.

(** A step of one thread among the others. *)
Lemma writer_step_sharing all h ws1 w ws2 r log :
  Forall is_u64 all -> sharing all (mk_config h (ws1 ++ w :: ws2) r) log ->
  let '(h', w', l) := writer_step h w in
  sharing all (mk_config h' (ws1 ++ w' :: ws2) r) (log ++ l).
Proof.
  intros Hall [[Hc Ht Hs] Hp Hn]. cbn [hist writers] in *.
  rewrite !sum_of_app in Ht, Hs, Hn. rewrite pending_app in Hp.
  destruct w as [[|ns todo]|ns todo|ns todo]; cbn [writer_step];
    cbn [sum_of foldr untotalled unsummed] in Ht, Hs, Hn;
    rewrite ?(app_nil_r log).
  - split; [split|..]; cbn [hist writers]; rewrite ?sum_of_app, ?pending_app; done.
  - assert (Hns : is_u64 ns).
    { rewrite Forall_forall in Hall. apply Hall. rewrite <-Hp. cbn.
      rewrite !elem_of_app. right. right. apply list_elem_of_here. }
    split; [split|..]; cbn [hist writers counts_ total_ sum_]; rewrite ?sum_of_app, ?pending_app.
    + rewrite Hc. by apply fetch_add_counts.
    + rewrite Ht, length_app. f_equal. cbn. lia.
    + rewrite Hs. f_equal. cbn. unfold id. lia.
    + rewrite <-Hp. cbn. unfold pending. solve_Permutation.
    + rewrite length_app. cbn. unfold sum_of in *. lia.
  - split; [split|..]; cbn [hist writers counts_ total_ sum_]; rewrite ?sum_of_app, ?pending_app; [done| |done|done|cbn; unfold sum_of in *; lia].
    rewrite Ht, u64_add_idemp_l. f_equal. cbn. unfold sum_of. lia.
  - split; [split|..]; cbn [hist writers counts_ total_ sum_]; rewrite ?sum_of_app, ?pending_app; [done|done| |done|done].
    rewrite Hs, u64_add_idemp_l. f_equal. cbn. unfold sum_of. lia.
Qed.

Lemma step_sharing p who all c log :
  Forall is_u64 all -> sharing all c log -> sharing all (step p who c).1 (log ++ (step p who c).2).
Proof.
  intros Hall Hs. destruct c as [h ws r]. destruct who as [i|]; cbn [step hist writers rd].
  - destruct (ws !! i) as [w|] eqn:Hi; [|by rewrite app_nil_r].
    rewrite <-(take_drop_middle ws i w Hi) in Hs. pose proof (writer_step_sharing _ _ _ _ _ _ _ Hall Hs) as H.
    destruct (writer_step h w) as [[h' w'] l]. cbn [fst snd].
    by rewrite insert_take_drop by (by eapply lookup_lt_Some).
  - rewrite app_nil_r. exact (sharing_reader all (mk_config h ws r) log _ Hs).
Qed.

Lemma exec_sharing p sched all c log :
  Forall is_u64 all -> sharing all c log ->
  sharing all (exec p sched c).1 (log ++ (exec p sched c).2).
Proof.
  intros Hall. revert c log. induction sched as [|who sched IH]; intros c log Hs; cbn [exec fst snd].
  { by rewrite app_nil_r. }
  pose proof (step_sharing p who all c log Hall Hs) as H.
  destruct (step p who c) as [c1 l1]. cbn [fst snd] in H. specialize (IH c1 _ H).
  destruct (exec p sched c1) as [c2 l2]. cbn [fst snd] in *. by rewrite app_assoc.
Qed.

Lemma start_sharing samples : sharing (mjoin samples) (start samples) [].
Proof.
  assert (H0 : forall f : writer -> Z, (forall l, f (Ready l) = 0) -> sum_of f (Ready <$> samples) = 0).
  { intros f Hf. unfold sum_of. induction samples as [|l ls IH]; cbn; [done|]. by rewrite Hf, IH. }
  split; [split|..]; cbn [start hist writers].
  - done.
  - by rewrite H0.
  - by rewrite H0.
  - unfold pending. rewrite <-list_fmap_compose. cbn [app].
    by rewrite (list_fmap_ext _ id _ ltac:(done)), list_fmap_id.
  - by rewrite H0.
Qed.

(** ** No update is lost *)

(** The atomic operations a thread has still to make. *)
Definition steps_left (w : writer) : nat :=
  (3 * length (todo_of w) + match w with Ready _ => 0 | Counted _ _ => 2 | Totalled _ _ => 1 end)%nat.

Lemma writer_step_left h w : steps_left (writer_step h w).1.2 = (steps_left w - 1)%nat.
Proof. destruct w as [[|ns todo]|ns todo|ns todo]; unfold steps_left; cbn; lia. Qed.

Lemma exec_left p sched c i w :
  writers c !! i = Some w ->
  exists w', writers (exec p sched c).1 !! i = Some w' /\
             steps_left w' = (steps_left w - turns (Writer i) sched)%nat.
Proof.
  revert c w. induction sched as [|who sched IH]; intros c w Hi; cbn [exec].
  { exists w. split; [done|]. cbn. lia. }
  assert (Hone : exists w1, writers (step p who c).1 !! i = Some w1 /\
    steps_left w1 = (steps_left w - turns (Writer i) [who])%nat).
  { unfold turns. rewrite filter_cons, filter_nil. destruct who as [j|]; cbn [step].
    - destruct (decide (j = i)) as [->|Hne].
      + rewrite Hi, decide_True by done. pose proof (writer_step_left (hist c) w) as Hl.
        destruct (writer_step (hist c) w) as [[h' w'] l]. cbn [fst snd writers] in *.
        exists w'. by rewrite list_lookup_insert_eq by (by eapply lookup_lt_Some).
      + rewrite decide_False by congruence. exists w. split; [|cbn; lia].
        destruct (writers c !! j) as [wj|]; [|done].
        destruct (writer_step (hist c) wj) as [[h' w'] l]. cbn. by rewrite list_lookup_insert_ne.
    - rewrite decide_False by done. exists w. split; [done | cbn; lia]. }
  destruct (step p who c) as [c1 l1]. destruct Hone as (w1 & H1 & E1). destruct (IH c1 w1 H1) as (w2 & H2 & E2).
  destruct (exec p sched c1) as [c2 l2]. exists w2. split; [done|]. rewrite E2, E1.
  unfold turns. rewrite (filter_cons _ who sched), (filter_cons _ who []), filter_nil.
  case_decide; cbn; lia.
Qed.

Lemma left_nothing ws :
  Forall (fun w => steps_left w = 0%nat) ws ->
  pending ws = [] /\ sum_of untotalled ws = 0 /\ sum_of unsummed ws = 0.
Proof.
  induction 1 as [|w ws Hw _ (IH1 & IH2 & IH3)]; [done|].
  destruct w as [todo|ns todo|ns todo]; unfold steps_left in Hw; cbn in Hw; [|lia|lia].
  destruct todo; [|cbn in Hw; lia]. done.
Qed.

Lemma exec_writers p sched c : length (writers (exec p sched c).1) = length (writers c).
Proof.
  revert c. induction sched as [|who sched IH]; intros c; [done|]. cbn [exec].
  assert (H : length (writers (step p who c).1) = length (writers c)).
  { destruct who as [i|]; [|done]. cbn [step]. destruct (writers c !! i); [|done].
    destruct (writer_step _ _) as [[? ?] ?]. apply length_insert. }
  destruct (step p who c) as [c1 l1]. specialize (IH c1).
  destruct (exec p sched c1). cbn [fst writers] in *. congruence.
Qed.

(** Two histograms of the same samples in any order are the same. *)
Lemma recorded_perm xs ys : Forall is_u64 xs -> xs ≡ₚ ys -> recorded xs = recorded ys.
Proof.
  intros Hxs Hp. assert (Hys : Forall is_u64 ys) by by rewrite <-Hp.
  destruct (recorded_spec xs Hxs) as [C1 T1 S1], (recorded_spec ys Hys) as [C2 T2 S2].
  assert (Hsum : foldr Z.add 0 xs = foldr Z.add 0 ys) by exact (Window.foldr_add_perm id xs ys Hp).
  destruct (recorded xs), (recorded ys). cbn in *. f_equal.
  - rewrite C1, C2. apply list_fmap_ext. intros _ i _. by rewrite (Samples.count_if_perm _ _ _ Hp).
  - by rewrite T1, T2, Hp.
  - by rewrite S1, S2, Hsum.
Qed.

(** C23.  No update is lost: any number of threads that record any samples into one
    histogram, interleaved in any way at the level of single atomic operations and
    with a reader among them, leave (once each has had its turns) exactly the
    histogram of all the samples recorded one after the other, in whatever
    order. *)
Theorem concurrent_records_exact (p : double) (samples : list (list Z)) (schedule : list thread)
    (order : list Z) :
  Forall is_u64 (mjoin samples) -> order ≡ₚ mjoin samples ->
  (forall i l, samples !! i = Some l -> (3 * length l <= turns (Writer i) schedule)%nat) ->
  hist (exec p schedule (start samples)).1 = recorded order.
Proof.
  intros Hu Hord Hfair.
  destruct (exec_sharing p schedule _ _ _ Hu (start_sharing samples)) as [[Hc Ht Hs] Hp _].
  cbn [app] in *. set (c := (exec p schedule (start samples)).1) in *.
  set (log := (exec p schedule (start samples)).2) in *.
  assert (Hl : Forall (fun w => steps_left w = 0%nat) (writers c)).
  { apply Forall_lookup. intros i w Hi.
    assert (Hlt : (i < length samples)%nat).
    { apply lookup_lt_Some in Hi. unfold c in Hi. rewrite exec_writers in Hi. cbn in Hi. by rewrite length_fmap in Hi. }
    destruct (lookup_lt_is_Some_2 _ _ Hlt) as [l El]. specialize (Hfair i l El).
    destruct (exec_left p schedule (start samples) i (Ready l)) as (w' & Hw' & E).
    { cbn. by rewrite list_lookup_fmap, El. }
    fold c in Hw'. rewrite Hi in Hw'. injection Hw' as <-. rewrite E. unfold steps_left. cbn [todo_of]. lia. }
  destruct (left_nothing _ Hl) as (P0 & T0 & S0). rewrite P0, app_nil_r in Hp.
  rewrite (recorded_perm order log); [|by rewrite Hord | by rewrite Hord, Hp].
  assert (Hlog : Forall is_u64 log) by by rewrite Hp.
  destruct (recorded_spec log Hlog) as [C T S]. rewrite T0, Z.sub_0_r in Ht. rewrite S0, Z.sub_0_r in Hs.
  destruct (hist c), (recorded log). cbn in *. f_equal; [by rewrite Hc, C | by rewrite Ht, T | by rewrite Hs, S].
Qed.

(** The samples of three threads. *)
Definition test_threads : list (list Z) := [[3; 900]; [40]; [5000; 41]].
Definition all_turns : list thread :=
  mjoin (replicate 6 [Writer 2; Writer 0; Reader; Writer 1]).

Lemma test_threads_u64 : Forall is_u64 (mjoin test_threads).
Proof. repeat (apply Forall_cons; split); [.. | by apply Forall_nil]; by vm_compute. Qed.

Lemma concurrent_records_exact_witness :
  hist (exec kP50 all_turns (start test_threads)).1 = recorded [3; 900; 40; 5000; 41].
Proof.
  apply concurrent_records_exact; [exact test_threads_u64 | done |].
  intros i l Hi. destruct i as [|[|[|i]]]; [injection Hi as <-; apply Nat.leb_le; by vm_compute ..|done].
Defined.

(** ** A reader among the writers *)














(** Two threads are cut off by the reader, which counts on during its scan. *)
Definition busy_turns : list thread :=
  [Writer 0; Writer 0; Writer 1; Writer 2; Writer 0; Writer 2; Reader; Writer 0; Writer 1]
  ++ replicate 10 Reader ++ [Writer 2; Writer 2] ++ replicate 54 Reader.


(** It reports 64 for the samples 3, 40 and 5000. *)
Example busy_percentile : rd (exec kP50 busy_turns (start test_threads)).1 = Done 64.
Proof. by vm_compute. Qed.
