(* ===== verification/Decision.v ===== *)
(** * Decision: the decision engine

    Models [include/feed/decision_engine.hpp].  [clock_gettime] is not under
    [src/]: the [timespec] it returns is an argument. *)

From stdpp Require Import base gmap list strings fin_maps.
From Stdlib Require Import ZArith Lia.
From S2P Require Import Prelude WireFormat GapBuf Book Stats StatsProps.

#[local] Open Scope Z_scope.

Record Decision := mk_Decision {
  symbol : list byte; d_price : Z; d_shares : Z; d_side : byte; d_recv_ns : Z; decided_ns : Z
}.

Module DecisionEngine.

Record Config := mk_Config { min_spread_ticks : Z; tick_size : Z; quote_size : Z }.
Definition Config_init : Config := mk_Config 2 100 100.

Record t := mk {
  cfg_ : Config;
  on_decision_ : bool;
  latency_ : LatencyHistogram.t;
  decisions_emitted_ : Z;
  top_changes_seen_ : Z
}.

Definition create (c : Config) : t := mk c false LatencyHistogram.init 0 0.

Definition set_on_decision (e : t) (installed : bool) : t :=
  mk (cfg_ e) installed (latency_ e) (decisions_emitted_ e) (top_changes_seen_ e).

Definition monotonic_ns (ts : timespec) : Z := timespec_ns ts.

(** The spread of the top, 0 when it is locked or crossed. *)
Definition spread_of (b a : PriceLevel) : Z :=
  if pl_price b <? pl_price a then pl_price a - pl_price b else 0.

(** [on_top_of_book], with the clock reading of the decision, if one is made. *)
Definition on_top_of_book (e : t) (sym : list byte) (top : TopOfBook) (recv_ns : Z)
    (clock : timespec) : t * list Decision :=
  let e := mk (cfg_ e) (on_decision_ e) (latency_ e) (decisions_emitted_ e)
              (inc (top_changes_seen_ e)) in
  match bid top, ask top with
  | Some b, Some a =>
      if spread_of b a <=? u32 (min_spread_ticks (cfg_ e) * tick_size (cfg_ e)) then (e, [])
      else
        let d := mk_Decision sym (u32 (pl_price b + tick_size (cfg_ e))) (quote_size (cfg_ e))
                   kBuy recv_ns (monotonic_ns clock) in
        let latency :=
          if d_recv_ns d <? decided_ns d
          then LatencyHistogram.record (latency_ e) (u64 (decided_ns d - d_recv_ns d))
          else latency_ e in
        (mk (cfg_ e) (on_decision_ e) latency (inc (decisions_emitted_ e)) (top_changes_seen_ e),
         if on_decision_ e then [d] else [])
  | _, _ => (e, [])
  end.

Definition latency (e : t) : LatencyHistogram.t := latency_ e.
Definition decisions_emitted (e : t) : Z := decisions_emitted_ e.
Definition top_changes_seen (e : t) : Z := top_changes_seen_ e.

End DecisionEngine.

(** ** What a decision is *)

Import DecisionEngine.

(** A configuration whose filter does not wrap and asks for at least a tick. *)
Definition config_ok (c : Config) : Prop :=
  1 <= min_spread_ticks c /\ 1 <= tick_size c /\
  min_spread_ticks c * tick_size c < 2 ^ 32.

(** The widest spread the filter keeps back: the product of two [uint32_t]. *)
Definition filter_width (c : Config) : Z := u32 (min_spread_ticks c * tick_size c).

Definition quotable (c : Config) (top : TopOfBook) : bool :=
  match bid top, ask top with
  | Some b, Some a => filter_width c <? pl_price a - pl_price b
  | _, _ => false
  end.

Lemma quotable_spread c b a :
  (spread_of b a <=? filter_width c) = negb (filter_width c <? pl_price a - pl_price b).
Proof.
  pose proof (u32_range (min_spread_ticks c * tick_size c)) as Hf. fold (filter_width c) in Hf.
  unfold spread_of, is_u32 in *.
  destruct (Z.ltb_spec (pl_price b) (pl_price a)); rewrite Z.leb_antisym; [done|].
  rewrite (proj2 (Z.ltb_ge _ 0)), (proj2 (Z.ltb_ge _ (_ - _))) by lia. done.
Qed.

(** One tick above the bid, at 32 bits. *)
Lemma tick_above_inside bp ap tick :
  is_u32 bp -> is_u32 ap -> is_u32 tick -> bp < ap ->
  bp < u32 (bp + tick) < ap <-> 1 <= tick < ap - bp.
Proof.
  intros Hb Ha Ht Hlt. destruct (Z.ltb_spec (bp + tick) (2 ^ 32)).
  - rewrite u32_small by width. lia.
  - assert (u32 (bp + tick) = bp + tick - 2 ^ 32) as ->.
    { unfold u32. symmetry. apply (Z.mod_unique_pos _ _ 1); width. }
    width.
Qed.

(** C34.  The decision rule, for every configuration, with or without a callback: the
    engine quotes exactly when both sides are present and the spread is wider than
    the filter, the product of ticks and tick size at 32 bits (so never on a locked
    or crossed market); the quote is a buy one tick above the bid, at 32 bits, for
    the configured size, with the arrival time of the packet that caused it and the
    time of the decision; it is counted, handed to the callback if there is one, and
    its latency recorded if it is later than the packet; otherwise nothing but the
    count of tops changes.  The quote lies strictly inside the spread exactly when
    the tick is at least 1 and narrower than the spread: always, if the
    configuration asks for at least a tick and the product does not wrap, and then
    the spread is wider than that many ticks. *)
Theorem quotes_inside_wide_spread (e : t) (sym : list byte) (top : TopOfBook)
    (recv_ns : Z) (clock : timespec) :
  is_u32 (tick_size (cfg_ e)) -> is_u64 recv_ns ->
  (forall l, bid top = Some l -> is_u32 (pl_price l)) ->
  (forall l, ask top = Some l -> is_u32 (pl_price l)) ->
  let r := on_top_of_book e sym top recv_ns clock in
  if quotable (cfg_ e) top then
    exists b a d,
      bid top = Some b /\ ask top = Some a /\ pl_price b < pl_price a /\
      d = mk_Decision sym (u32 (pl_price b + tick_size (cfg_ e))) (quote_size (cfg_ e)) kBuy
            recv_ns (timespec_ns clock) /\
      r.2 = (if on_decision_ e then [d] else []) /\
      decisions_emitted_ r.1 = inc (decisions_emitted_ e) /\
      latency_ r.1 = (if recv_ns <? timespec_ns clock
                      then LatencyHistogram.record (latency_ e) (timespec_ns clock - recv_ns)
                      else latency_ e) /\
      (pl_price b < d_price d < pl_price a <->
         1 <= tick_size (cfg_ e) < pl_price a - pl_price b) /\
      (config_ok (cfg_ e) ->
         pl_price b < d_price d < pl_price a /\ d_price d = pl_price b + tick_size (cfg_ e) /\
         min_spread_ticks (cfg_ e) * tick_size (cfg_ e) < pl_price a - pl_price b)
  else r.2 = [] /\ decisions_emitted_ r.1 = decisions_emitted_ e /\ latency_ r.1 = latency_ e.
Proof.
  intros Ht Hn Hb Ha r. unfold r, on_top_of_book, quotable. cbn [cfg_ on_decision_].
  destruct (bid top) as [b|]; [|done]. destruct (ask top) as [a|]; [|done].
  specialize (Hb b eq_refl). specialize (Ha a eq_refl).
  fold (filter_width (cfg_ e)). rewrite quotable_spread.
  pose proof (u32_range (min_spread_ticks (cfg_ e) * tick_size (cfg_ e))) as Hf.
  fold (filter_width (cfg_ e)) in Hf.
  destruct (Z.ltb_spec (filter_width (cfg_ e)) (pl_price a - pl_price b)) as [Hw|]; cbn [negb]; [|done].
  assert (Hlt : pl_price b < pl_price a) by width.
  pose proof (tick_above_inside _ _ _ Hb Ha Ht Hlt) as Hin.
  eexists b, a, _. do 3 (split; [done|]). split; [reflexivity|]. cbn [fst snd latency_ decisions_emitted_ d_price].
  split; [done|]. split; [done|]. split.
  { cbn [d_recv_ns decided_ns]. unfold monotonic_ns. destruct (Z.ltb_spec recv_ns (timespec_ns clock)); [|done].
    pose proof (u64_range (u64 (u64 (tv_sec clock) * 1000000000) + u64 (tv_nsec clock))) as Hc.
    fold (timespec_ns clock) in Hc. by rewrite u64_small by width. }
  split; [exact Hin|]. intros (Hm & H1 & Hp).
  assert (filter_width (cfg_ e) = min_spread_ticks (cfg_ e) * tick_size (cfg_ e)) as Ef
    by (apply u32_small; unfold is_u32; nia).
  rewrite Ef in Hw. assert (tick_size (cfg_ e) < pl_price a - pl_price b) by nia.
  split; [apply Hin; lia|]. split; [|done]. apply u32_small. width.
Qed.

Lemma quotes_inside_wide_spread_witness :
  let e := set_on_decision (create Config_init) true in
  let top := mk_TopOfBook (Some (mk_PriceLevel 5000 30 1)) (Some (mk_PriceLevel 5300 60 1)) in
  let r := on_top_of_book e [] top 77 (mk_timespec 1 5) in
  exists b a d,
    bid top = Some b /\ ask top = Some a /\ pl_price b < pl_price a /\
    d = mk_Decision [] (u32 (pl_price b + 100)) 100 kBuy 77 1000000005 /\
    r.2 = [d] /\ decisions_emitted_ r.1 = inc 0 /\
    latency_ r.1 = LatencyHistogram.record (latency_ e) (1000000005 - 77) /\
    (pl_price b < d_price d < pl_price a <-> 1 <= 100 < pl_price a - pl_price b) /\
    (config_ok (cfg_ e) ->
       pl_price b < d_price d < pl_price a /\ d_price d = pl_price b + 100 /\
       2 * 100 < pl_price a - pl_price b).
Proof.
  intros e top r. apply (quotes_inside_wide_spread e [] top 77 (mk_timespec 1 5)).
  - by vm_compute.
  - by vm_compute.
  - intros l [= <-]. by vm_compute.
  - intros l [= <-]. by vm_compute.
Defined.

(** Configurations the engine accepts without a complaint.  With no minimum spread it
    bids at or above the ask (here 50.01 against an ask of 50.005); and a product
    that wraps to 0 lets a spread of a ten-thousandth through a filter of 65536
    ticks. *)
Example zero_filter_bids_through_ask :
  let e := set_on_decision (create (mk_Config 0 100 100)) true in
  let top := mk_TopOfBook (Some (mk_PriceLevel 500000 30 1)) (Some (mk_PriceLevel 500050 60 1)) in
  d_price <$> (on_top_of_book e [] top 0 (mk_timespec 0 0)).2 = [500100].
Proof. by vm_compute. Qed.

Example wrapped_filter_lets_narrow_spread_through :
  let e := set_on_decision (create (mk_Config 65536 65536 100)) true in
  let top := mk_TopOfBook (Some (mk_PriceLevel 500000 30 1)) (Some (mk_PriceLevel 500001 60 1)) in
  d_price <$> (on_top_of_book e [] top 0 (mk_timespec 0 0)).2 = [565536].
Proof. by vm_compute. Qed.

(** ** A stream of tops *)

(** One callback: symbol, top, arrival time, and the clock at the decision. *)
Definition top_input : Type := list byte * TopOfBook * Z * timespec.

Fixpoint react (e : t) (ins : list top_input) : t * list Decision :=
  match ins with
  | [] => (e, [])
  | (sym, top, ns, clock) :: ins' =>
      let '(e1, d1) := on_top_of_book e sym top ns clock in
      let '(e2, d2) := react e1 ins' in
      (e2, d1 ++ d2)
  end.

(** The latencies worth recording: decisions later than their packet. *)
Definition latencies (ds : list Decision) : list Z :=
  omap (fun d => if d_recv_ns d <? decided_ns d then Some (decided_ns d - d_recv_ns d) else None) ds.

Lemma react_step (e : t) sym top ns clock :
  on_decision_ e = true -> 0 <= ns ->
  let r := on_top_of_book e sym top ns clock in
  on_decision_ r.1 = true /\ cfg_ r.1 = cfg_ e /\
  latency_ r.1 = fold_left LatencyHistogram.record (latencies r.2) (latency_ e) /\
  decisions_emitted_ r.1 = Nat.iter (length r.2) inc (decisions_emitted_ e) /\
  top_changes_seen_ r.1 = inc (top_changes_seen_ e) /\ Forall is_u64 (latencies r.2).
Proof.
  intros Hon Hns r. unfold r, on_top_of_book. cbn [cfg_ on_decision_].
  destruct (bid top) as [b|]; [|done]. destruct (ask top) as [a|]; [|done].
  destruct (_ <=? _); [done|]. rewrite Hon. cbn [fst snd latency_ decisions_emitted_ on_decision_].
  pose proof (u64_range (u64 (u64 (tv_sec clock) * 1000000000) + u64 (tv_nsec clock))) as Hc.
  unfold latencies. cbn [omap list_omap d_recv_ns decided_ns].
  unfold monotonic_ns, timespec_ns. set (c := u64 (_ + _)) in *.
  destruct (Z.ltb_spec ns c); cbn [fold_left].
  - rewrite u64_small by width. do 5 (split; [done|]). apply Forall_singleton. width.
  - do 5 (split; [done|]). done.
Qed.

Lemma react_spec (e : t) ins :
  on_decision_ e = true -> Forall (fun '(_, _, ns, _) => 0 <= ns) ins ->
  let r := react e ins in
  latency_ r.1 = fold_left LatencyHistogram.record (latencies r.2) (latency_ e) /\
  decisions_emitted_ r.1 = Nat.iter (length r.2) inc (decisions_emitted_ e) /\
  top_changes_seen_ r.1 = Nat.iter (length ins) inc (top_changes_seen_ e) /\
  Forall is_u64 (latencies r.2).
Proof.
  intros Hon Hns. revert e Hon. induction Hns as [|[[[sym top] ns] clock] ins H0 _ IH]; intros e Hon.
  { split; [done|]. split; [done|]. split; [done|]. by apply Forall_nil. }
  cbn [react]. destruct (react_step e sym top ns clock Hon H0) as (Hon1 & Hc1 & Hl1 & Hd1 & Ht1 & Hf1).
  destruct (on_top_of_book e sym top ns clock) as [e1 d1]. cbn [fst snd] in *.
  destruct (IH e1 Hon1) as (Hl2 & Hd2 & Ht2 & Hf2).
  destruct (react e1 ins) as [e2 d2]. cbn [fst snd] in *.
  unfold latencies in *. rewrite omap_app, fold_left_app, <-Hl1.
  split; [done|]. split.
  - rewrite Hd2, Hd1, length_app, Nat.add_comm. by rewrite Nat.iter_add.
  - split; [|by apply Forall_app]. rewrite Ht2, Ht1. cbn [length]. by rewrite Nat.iter_succ_r.
Qed.

Lemma iter_inc n : Z.of_nat n < 2 ^ 64 -> Nat.iter n inc 0 = Z.of_nat n.
Proof.
  induction n as [|n IH]; intros H; [done|]. cbn [Nat.iter nat_rect]. unfold Nat.iter in IH.
  rewrite IH by lia. unfold inc. rewrite u64_small by width. lia.
Qed.

(** The engine's books balance: over any stream of top-of-book changes,
    [decisions_emitted] is the number of decisions handed out and [latency()] is
    the histogram of exactly those whose clock is later than their packet (no
    recorded latency ever comes from a wrapped subtraction). *)
Theorem engine_accounts (c : Config) (ins : list top_input) :
  Forall (fun '(_, _, ns, _) => 0 <= ns) ins -> Z.of_nat (length ins) < 2 ^ 64 ->
  let r := react (set_on_decision (create c) true) ins in
  latency_ r.1 = Histogram.recorded (latencies r.2) /\ Forall is_u64 (latencies r.2) /\
  top_changes_seen_ r.1 = Z.of_nat (length ins) /\
  decisions_emitted_ r.1 = u64 (Z.of_nat (length r.2)).
Proof.
  intros Hns Hlen r.
  destruct (react_spec (set_on_decision (create c) true) ins eq_refl Hns) as (Hl & Hd & Ht & Hf).
  fold r in Hl, Hd, Ht, Hf. split; [done|]. split; [done|]. split; [by rewrite Ht; apply iter_inc|].
  rewrite Hd. assert (Hlen2 : (length r.2 <= length ins)%nat).
  { unfold r. clear. generalize (set_on_decision (create c) true).
    induction ins as [|[[[sym top] ns] clock] ins IH]; intros e; [done|]. cbn [react].
    assert (length (on_top_of_book e sym top ns clock).2 <= 1)%nat.
    { unfold on_top_of_book. repeat (case_match; cbn [snd length]; try lia). }
    destruct (on_top_of_book e sym top ns clock) as [e1 d1]. specialize (IH e1).
    destruct (react e1 ins) as [e2 d2]. cbn [snd length] in *. rewrite length_app. lia. }
  cbn [decisions_emitted_ set_on_decision create]. rewrite iter_inc by lia. rewrite u64_small; width.
Qed.

Lemma engine_accounts_witness :
  let top := mk_TopOfBook (Some (mk_PriceLevel 5000 30 1)) (Some (mk_PriceLevel 5300 60 1)) in
  let ins := [([], top, 77, mk_timespec 0 90); ([], mk_TopOfBook None None, 78, mk_timespec 0 91);
              ([], top, 79, mk_timespec 0 70)] in
  let r := react (set_on_decision (create Config_init) true) ins in
  latency_ r.1 = Histogram.recorded (latencies r.2) /\ Forall is_u64 (latencies r.2) /\
  top_changes_seen_ r.1 = 3 /\ decisions_emitted_ r.1 = u64 (Z.of_nat (length r.2)).
Proof.
  intros top ins. apply (engine_accounts Config_init ins); [|by vm_compute].
  repeat (apply Forall_cons; split); [.. | by apply Forall_nil]; by vm_compute.
Defined.
