(* ===== verification/Pcap.v ===== *)
(** * Pcap: writing and replaying capture files

    Models [include/feed/pcap_replay.hpp].  A file is its bytes; [fopen] succeeds
    or not (an argument), writes to an open file append.  The reader feeds any
    [PacketSink]; the datagrams it feeds are returned with its result.  With
    [realtime] set a frame is held until the clock, whose readings are given, gets
    to its time. *)

From stdpp Require Import base gmap list strings fin_maps.
From Stdlib Require Import ZArith Lia.
From S2P Require Import Prelude WireFormat WireLemmas GapBuf GapWalk GapRun Sink.

#[local] Open Scope Z_scope.

Definition kIpprotoUdp : Z := 17.

Module PcapWriter.

Record t := mk { fp_ : option (list byte); packets_written_ : Z }.

(** [PcapWriter(path)]: [opened] tells whether [fopen] succeeded. *)
Definition create (opened : bool) : t :=
  if opened then mk (Some (PcapGlobalHeader.bytes PcapGlobalHeader.init)) 0 else mk None 0.

Definition is_open (w : t) : bool := match fp_ w with Some _ => true | None => false end.

Definition ether_header : list byte :=
  replicate 6 (z2b 0xFF) ++ replicate 6 (z2b 0) ++ [z2b 0x08; z2b 0x00].

Definition ip_header (ip_len : Z) : list byte :=
  [z2b 0x45; z2b 0] ++ be_bytes 2 ip_len ++ be_bytes 2 0 ++ be_bytes 2 0 ++
  [z2b 64; z2b kIpprotoUdp] ++ be_bytes 2 0 ++
  [z2b 192; z2b 168; z2b 0; z2b 1] ++ [z2b 239; z2b 1; z2b 1; z2b 1].

Definition udp_header (udp_len : Z) : list byte :=
  be_bytes 2 15001 ++ be_bytes 2 15001 ++ be_bytes 2 udp_len ++ be_bytes 2 0.

Definition write_packet (w : t) (ts_us : Z) (payload : list byte) (payload_len : Z)
    : res (t * bool) :=
  match fp_ w with
  | None => mret (w, false)
  | Some file =>
      let udp_len := u16 (8 + payload_len) in
      let ip_len := u16 (20 + udp_len) in
      let frame_len := u16 (14 + ip_len) in
      body ← mem_read payload 0 payload_len;
      let frame := ether_header ++ ip_header ip_len ++ udp_header udp_len ++ body in
      let rh := PcapRecordHeader.mk (u32 (ts_us / 1000000)) (u32 (ts_us mod 1000000))
                  frame_len frame_len in
      mret (mk (Some (file ++ PcapRecordHeader.bytes rh ++ slice frame 0 frame_len))
               (inc (packets_written_ w)), true)
  end.

Definition write_heartbeat (w : t) (ts_us : Z) (session : list byte) : res (t * bool) :=
  s ← mem_read session 0 10;
  buf ← MoldHeader.serialise (MoldHeader.mk s 0 0)
          (replicate (Z.to_nat kMoldHeaderSize) (z2b 0));
  write_packet w ts_us buf kMoldHeaderSize.

Definition write_mold_packet (w : t) (ts_us : Z) (session : list byte) (seq_num msg_count : Z)
    (msg_body : list byte) (msg_body_len : Z) : res (t * bool) :=
  let total := u16 (kMoldHeaderSize + 2 + msg_body_len) in
  if 65507 <? total then mret (w, false) else
  s ← mem_read session 0 10;
  buf ← MoldHeader.serialise (MoldHeader.mk s seq_num msg_count) (replicate (Z.to_nat total) (z2b 0));
  buf ← put_be16 buf kMoldHeaderSize msg_body_len;
  body ← mem_read msg_body 0 msg_body_len;
  buf ← mem_write buf (kMoldHeaderSize + 2) body;
  write_packet w ts_us buf total.

Definition packets_written (w : t) : Z := packets_written_ w.

End PcapWriter.

Module ReplayStats.

Record t := mk {
  packets_read : Z; udp_packets : Z; non_udp_skipped : Z; truncated_skipped : Z;
  messages_ingested : Z
}.

Definition init : t := mk 0 0 0 0 0.

Definition inc_read (s : t) : t :=
  mk (inc (packets_read s)) (udp_packets s) (non_udp_skipped s) (truncated_skipped s)
     (messages_ingested s).
Definition inc_udp (s : t) : t :=
  mk (packets_read s) (inc (udp_packets s)) (non_udp_skipped s) (truncated_skipped s)
     (messages_ingested s).
Definition inc_non_udp (s : t) : t :=
  mk (packets_read s) (udp_packets s) (inc (non_udp_skipped s)) (truncated_skipped s)
     (messages_ingested s).
Definition inc_truncated (s : t) : t :=
  mk (packets_read s) (udp_packets s) (non_udp_skipped s) (inc (truncated_skipped s))
     (messages_ingested s).
Definition add_ingested (s : t) (n : Z) : t :=
  mk (packets_read s) (udp_packets s) (non_udp_skipped s) (truncated_skipped s)
     (u64 (messages_ingested s + n)).

End ReplayStats.

Module PcapReader.

Record Config := mk_Config { realtime : bool; speed_mult : Z; filter_port : Z }.

Definition kFrameBuf : Z := 65535 + 16.

(** The Ethernet part of [extract_udp]: type, offset and size of what follows the
    header, behind an 802.1Q tag if there is one. *)
Definition ether_payload (frame : list byte) (frame_len : Z) : res (option (Z * Z * Z)) :=
  if frame_len <? 14 then mret None else
  ethertype ← be16 frame 12;
  let remaining := frame_len - 14 in
  if ethertype =? 0x8100 then
    if remaining <? 4 then mret None
    else ethertype ← be16 frame (14 + 2); mret (Some (ethertype, 14 + 4, remaining - 4))
  else mret (Some (ethertype, 14, remaining)).

(** [extract_udp]: offset and length of the payload in the frame, and the port. *)
Definition extract_udp (frame : list byte) (frame_len : Z) : res (option (Z * Z * Z)) :=
  ether ← ether_payload frame frame_len;
  match ether with
  | None => mret None
  | Some (ethertype, ip, remaining) =>
      if negb (ethertype =? 0x0800) then mret None else
      if remaining <? 20 then mret None else
      b0 ← byte_at frame ip;
      let ihl := u8 (Z.land b0 0x0F * 4) in
      proto ← byte_at frame (ip + 9);
      if negb (proto =? kIpprotoUdp) then mret None else
      if remaining <? ihl + 8 then mret None else
      let udp := ip + ihl in
      dst_port ← be16 frame (udp + 2);
      udp_len ← be16 frame (udp + 4);
      if udp_len <? 8 then mret None
      else mret (Some (udp + 8, udp_len - 8, dst_port))
  end.

Definition maybe_swap32 (swap_bytes : bool) (v : Z) : Z :=
  if swap_bytes then bswap 4 v else v.

(** *** Pacing *)

Definition monotonic_ns (ts : timespec) : Z := timespec_ns ts.

(** The two variables of the pacing. *)
Record pacing := mk_pacing { first_ts_us : Z; first_real_ns : Z }.
Definition pacing_init : pacing := mk_pacing 0 0.

(** The clock: for every paced frame, what it gives when the frame has been read, and
    what it gives, reading after reading, while the frame is held. *)
Definition timing : Type := list (timespec * list timespec).

(** [while (monotonic_ns() < target_ns)]: the reading that ends it; when the readings
    run out it has not ended. *)
Fixpoint wait (target_ns : Z) (readings : list timespec) : res Z :=
  match readings with
  | [] => Fault OutOfFuel
  | ts :: readings' =>
      if monotonic_ns ts <? target_ns then wait target_ns readings' else mret (monotonic_ns ts)
  end.

Definition target_of (cfg : Config) (p : pacing) (pkt_ts_us : Z) : Z :=
  let pcap_delta_ns := u64 (u64 (pkt_ts_us - first_ts_us p) * 1000) in
  u64 (first_real_ns p + pcap_delta_ns / speed_mult cfg).

(** The pacing of one frame: the variables after it, the clock reading it is released
    at (if the clock was read), and the clock from then on. *)
Definition pace (cfg : Config) (p : pacing) (pkt_ts_us : Z) (clock : timing)
    : res (pacing * option Z * timing) :=
  if realtime cfg && (0 <? speed_mult cfg) then
    match clock with
    | [] => Fault OutOfFuel
    | (now, readings) :: clock =>
        let now_ns := monotonic_ns now in
        if first_ts_us p =? 0 then mret (mk_pacing pkt_ts_us now_ns, Some now_ns, clock)
        else released ← wait (target_of cfg p pkt_ts_us) readings; mret (p, Some released, clock)
    end
  else mret (p, None, clock).

(** *** The replay *)

Section Replay.
Context {T : Type} `{PacketSink T}.

(** The result of a replay: statistics, consumer, its events, the datagrams, and the
    reading every frame was released at. *)
Definition outcome : Type := ReplayStats.t * T * list event * list input * list (option Z).

Definition released_at (at_ : option Z) (r : res outcome) : res outcome :=
  '(stats, sink, evs, fed, ats) ← r; mret (stats, sink, evs, fed, at_ :: ats).

(** The loop; [file] is what is still unread. *)
Fixpoint replay_loop (fuel : nat) (cfg : Config) (swap_bytes : bool) (file : list byte)
    (frame_buf : list byte) (stats : ReplayStats.t) (sink : T) (p : pacing) (clock : timing)
    : res outcome :=
  match fuel with
  | O => Fault OutOfFuel
  | S fuel' =>
      if blen file <? 16 then mret (stats, sink, [], [], []) else
      let rh := PcapRecordHeader.of_bytes (slice file 0 16) in
      let file := drop 16 file in
      let incl := maybe_swap32 swap_bytes (PcapRecordHeader.incl_len rh) in
      let ts_s := maybe_swap32 swap_bytes (PcapRecordHeader.ts_sec rh) in
      let ts_us := maybe_swap32 swap_bytes (PcapRecordHeader.ts_usec rh) in
      if kFrameBuf <? incl then
        replay_loop fuel' cfg swap_bytes (drop (Z.to_nat incl) file) frame_buf
          (ReplayStats.inc_truncated stats) sink p clock
      else if blen file <? incl then mret (stats, sink, [], [], [])
      else
        frame_buf ← mem_write frame_buf 0 (slice file 0 incl);
        let file := drop (Z.to_nat incl) file in
        let stats := ReplayStats.inc_read stats in
        let pkt_ts_us := u64 (ts_s * 1000000 + ts_us) in
        '(p, at_, clock) ← pace cfg p pkt_ts_us clock;
        found ← extract_udp frame_buf incl;
        match found with
        | None =>
            released_at at_ (replay_loop fuel' cfg swap_bytes file frame_buf
              (ReplayStats.inc_non_udp stats) sink p clock)
        | Some (payload, pay_len, dst_port) =>
            if negb (filter_port cfg =? 0) && negb (dst_port =? filter_port cfg) then
              released_at at_ (replay_loop fuel' cfg swap_bytes file frame_buf
                (ReplayStats.inc_non_udp stats) sink p clock)
            else
              let stats := ReplayStats.inc_udp stats in
              let ts_ns := u64 (pkt_ts_us * 1000) in
              let memory := drop (Z.to_nat payload) frame_buf in
              '(sink, evs, ingested) ← sink_ingest sink memory pay_len ts_ns;
              let stats := if 0 <? ingested then ReplayStats.add_ingested stats ingested else stats in
              '(stats, sink, evs', fed, ats) ←
                replay_loop fuel' cfg swap_bytes file frame_buf stats sink p clock;
              mret (stats, sink, evs ++ evs', Datagram memory pay_len ts_ns :: fed, at_ :: ats)
        end
  end.

(** [replay]: [file] is [None] when [fopen] fails; [frame_buf] is the
    uninitialised array.  Each turn reads a 16-byte header. *)
Definition replay (cfg : Config) (file : option (list byte)) (frame_buf : list byte) (sink : T)
    (clock : timing) : res outcome :=
  match file with
  | None => mret (ReplayStats.init, sink, [], [], [])
  | Some file =>
      if blen file <? 24 then mret (ReplayStats.init, sink, [], [], []) else
      let magic := load_le (slice file 0 4) in
      let swap_bytes := magic =? kPcapMagicBE in
      if negb (magic =? kPcapMagicLE) && negb swap_bytes
      then mret (ReplayStats.init, sink, [], [], [])
      else replay_loop (S (length file)) cfg swap_bytes (drop 24 file) frame_buf
             ReplayStats.init sink pacing_init clock
  end.

End Replay.
End PcapReader.
