(* ===== verification/Pacing.v ===== *)
(** * Pacing: when realtime replay lets a frame go

    The pacing of [PcapReader::replay] ([include/feed/pcap_replay.hpp]) over the frames
    of a file: with [realtime] set a frame is held until as much time has passed
    since the first as the capture says, divided by [speed_mult]; and for which
    readings of the clock all the waits end. *)

From stdpp Require Import base gmap list strings fin_maps.
From Stdlib Require Import ZArith Lia.
From S2P Require Import Prelude WireFormat GapBuf Sink Pcap.

#[local] Open Scope Z_scope.
Import PcapReader.

(** The pacing of frames with these capture times, one after the other: the readings
    they are released at. *)
Fixpoint pace_all (cfg : Config) (p : pacing) (times : list Z) (clock : timing) : res (list (option Z)) :=
  match times with
  | [] => mret []
  | pkt_ts_us :: times' =>
      '(p, at_, clock) ← pace cfg p pkt_ts_us clock;
      rest ← pace_all cfg p times' clock;
      mret (at_ :: rest)
  end.

(** [at_] is the first reading that is not before [due]. *)
Inductive released (due : Z) : list Z -> option Z -> Prop :=
| released_now now readings : due <= now -> released due (now :: readings) (Some now)
| released_later now readings at_ :
    now < due -> released due readings at_ -> released due (now :: readings) at_.

(** Some reading is not before [due]. *)
Definition gets_to (due : Z) (readings : list timespec) : bool :=
  existsb (fun ts => due <=? monotonic_ns ts) readings.

Lemma wait_spec due readings :
  if gets_to due readings
  then exists now, wait due readings = Ok now /\ released due (monotonic_ns <$> readings) (Some now)
  else wait due readings = Fault OutOfFuel.
Proof.
  induction readings as [|ts readings IH]; [done|]. cbn [gets_to existsb wait fmap list_fmap].
  fold (gets_to due readings). destruct (Z.ltb_spec (monotonic_ns ts) due) as [H|H].
  - rewrite (proj2 (Z.leb_gt _ _)) by done. cbn [orb]. destruct (gets_to due readings); [|done].
    destruct IH as (now & E & R). exists now. split; [done | by constructor].
  - rewrite (proj2 (Z.leb_le _ _)) by done. cbn [orb]. eexists. split; [done | by constructor].
Qed.

(** Every wait of a replay ends: the clock gets to what the code computes as the
    target of every frame. *)
Fixpoint waits_end (cfg : Config) (p : pacing) (times : list Z) (clock : timing) : bool :=
  match times, clock with
  | [], _ => true
  | _ :: _, [] => false
  | ts :: times', (now, readings) :: clock' =>
      if first_ts_us p =? 0
      then waits_end cfg (mk_pacing ts (monotonic_ns now)) times' clock'
      else gets_to (target_of cfg p ts) readings && waits_end cfg p times' clock'
  end.

Definition paced (cfg : Config) : bool := realtime cfg && (0 <? speed_mult cfg).

Lemma pace_all_ends cfg p times clock :
  if if paced cfg then waits_end cfg p times clock else true
  then exists ats, pace_all cfg p times clock = Ok ats
  else pace_all cfg p times clock = Fault OutOfFuel.
Proof.
  revert p clock. induction times as [|ts times IH]; intros p clock.
  { destruct (paced cfg); by eexists. }
  cbn [pace_all waits_end]. unfold pace. fold (paced cfg). destruct (paced cfg).
  - destruct clock as [|[now readings] clock]; [done|]. cbv zeta. destruct (first_ts_us p =? 0).
    + rewrite bind_Ok. specialize (IH (mk_pacing ts (monotonic_ns now)) clock).
      destruct (waits_end _ _ _ _); [destruct IH as [ats ->]; by eexists | by rewrite IH].
    + pose proof (wait_spec (target_of cfg p ts) readings) as Hw.
      destruct (gets_to _ _); [|by rewrite Hw]. destruct Hw as (now' & -> & _). rewrite !bind_Ok.
      specialize (IH p clock). cbn [andb].
      destruct (waits_end _ _ _ _); [destruct IH as [ats ->]; by eexists | by rewrite IH].
  - rewrite bind_Ok. destruct (IH p clock) as [ats ->]. by eexists.
Qed.

(** A frame of a paced capture, with its clock readings: not before the first, within
    what 64 bits of nanoseconds express, and with a clock that gets there. *)
Definition paced_ok (speed ts1 now1 : Z) (pkt : Z * Z * list Z) : Prop :=
  let '(ts, _, readings) := pkt in
  ts1 <= ts < 2 ^ 64 /\ (ts - ts1) * 1000 < 2 ^ 64 /\
  now1 + (ts - ts1) * 1000 / speed < 2 ^ 64 /\
  Exists (fun now => now1 + (ts - ts1) * 1000 / speed <= now) readings.

(** Each frame's capture time with its clock readings. *)
Definition paced_frames (times : list Z) (clock : timing) : list (Z * Z * list Z) :=
  zip_with (fun ts c => (ts, monotonic_ns (fst c), monotonic_ns <$> snd c)) times clock.

Lemma gets_to_Exists due readings :
  Exists (fun now => due <= now) (monotonic_ns <$> readings) -> gets_to due readings = true.
Proof.
  induction readings as [|ts readings IH]; intros He; [by inversion He|].
  cbn [gets_to existsb]. apply orb_true_iff. inversion He; subst; [left; by apply Z.leb_le | right; by apply IH].
Qed.

Lemma paced_target cfg ts1 now1 pkt :
  0 < speed_mult cfg -> is_u64 now1 -> paced_ok (speed_mult cfg) ts1 now1 pkt ->
  target_of cfg (mk_pacing ts1 now1) pkt.1.1 = now1 + (pkt.1.1 - ts1) * 1000 / speed_mult cfg.
Proof.
  destruct pkt as [[ts nw] readings]. intros Hs Hn (Ht & Hd & Hf & _). cbn [fst].
  assert (Hq : 0 <= (ts - ts1) * 1000 / speed_mult cfg) by (apply Z.div_pos; lia).
  unfold target_of. cbn [first_ts_us first_real_ns]. rewrite (u64_small (ts - ts1)) by width.
  rewrite (u64_small (_ * 1000)) by width. apply u64_small. width.
Qed.

(** Realtime replay keeps the capture's spacing: the first frame goes out at
    once, at [now1], and every later one at the first reading of the clock that is
    not before [now1] plus its distance from the first in the capture, divided by
    the speed: never early, and as soon as the clock allows, without drift. *)
Theorem pacing_keeps_spacing (cfg : Config) (ts1 : Z) (first : timespec) (readings1 : list timespec)
    (times : list Z) (clock : timing) :
  let now1 := monotonic_ns first in
  realtime cfg = true -> 0 < speed_mult cfg -> 0 < ts1 -> (length times <= length clock)%nat ->
  Forall (paced_ok (speed_mult cfg) ts1 now1) (paced_frames times clock) ->
  exists ats,
    pace_all cfg pacing_init (ts1 :: times) ((first, readings1) :: clock) = Ok (Some now1 :: ats) /\
    Forall2 (fun '(ts, _, readings) at_ =>
      released (now1 + (ts - ts1) * 1000 / speed_mult cfg) readings at_)
      (paced_frames times clock) ats.
Proof.
  intros now1 Hr Hs H1 Hl Hp. assert (Hn : is_u64 now1) by apply u64_range.
  assert (Hpaced : realtime cfg && (0 <? speed_mult cfg) = true)
    by (rewrite Hr; by apply Z.ltb_lt).
  cbn [pace_all]. unfold pace at 1. rewrite Hpaced. cbn [first_ts_us pacing_init Z.eqb].
  fold now1. rewrite bind_Ok.
  enough (exists ats, pace_all cfg (mk_pacing ts1 now1) times clock = Ok ats /\
    Forall2 (fun '(ts, _, readings) at_ =>
      released (now1 + (ts - ts1) * 1000 / speed_mult cfg) readings at_) (paced_frames times clock) ats)
    as (ats & E & F) by (exists ats; by rewrite E, bind_Ok).
  revert clock Hl Hp. induction times as [|ts times IH]; intros clock Hl Hp; [by exists []|].
  destruct clock as [|[now readings] clock]; [cbn in Hl; lia|].
  cbn [paced_frames zip_with fst snd] in Hp. apply Forall_cons in Hp as [Hpk Hp].
  destruct (IH clock) as (ats & E & F); [cbn in Hl; lia | exact Hp|].
  pose proof (paced_target cfg ts1 now1 _ Hs Hn Hpk) as Htarget. cbn [fst] in Htarget.
  cbn [pace_all]. unfold pace. rewrite Hpaced. cbn [first_ts_us].
  rewrite (proj2 (Z.eqb_neq _ _)) by lia. rewrite Htarget.
  pose proof (wait_spec (now1 + (ts - ts1) * 1000 / speed_mult cfg) readings) as Hw.
  rewrite gets_to_Exists in Hw by apply Hpk. destruct Hw as (at_ & -> & R). rewrite !bind_Ok, E, bind_Ok.
  exists (Some at_ :: ats). split; [done | by constructor].
Qed.

(** A packet stamped before the first of the file stalls an accelerated replay: the
    difference wraps, and divided by two or more it is not wrapped back, so the
    packet is due about [2^64 / speed] nanoseconds later. *)
Theorem early_packet_stalls (cfg : Config) (ts1 now1 d : Z) (now : timespec)
    (readings : list timespec) (clock : timing) :
  realtime cfg = true -> 2 <= speed_mult cfg -> 0 < d < ts1 -> ts1 < 2 ^ 50 ->
  0 <= now1 < 2 ^ 63 ->
  Forall (fun ts => monotonic_ns ts < now1 + (2 ^ 64 - d * 1000) / speed_mult cfg) readings ->
  pace cfg (mk_pacing ts1 now1) (ts1 - d) ((now, readings) :: clock) = Fault OutOfFuel.
Proof.
  intros Hr Hs Hd Ht Hn Hf. unfold pace. rewrite Hr, (proj2 (Z.ltb_lt _ _)) by lia.
  cbn [andb first_ts_us]. rewrite (proj2 (Z.eqb_neq _ _)) by lia.
  assert (Hq0 : 0 <= (2 ^ 64 - d * 1000) / speed_mult cfg).
  { apply Z.div_pos; lia. }
  assert (Hw : u64 (u64 (ts1 - d - ts1) * 1000) = 2 ^ 64 - d * 1000).
  { unfold u64. rewrite Zmult_mod_idemp_l. symmetry.
    apply (Z.mod_unique_pos _ _ (-1)); lia. }
  assert (Hdue : target_of cfg (mk_pacing ts1 now1) (ts1 - d)
                 = now1 + (2 ^ 64 - d * 1000) / speed_mult cfg).
  { unfold target_of. cbn [first_ts_us first_real_ns]. rewrite Hw. apply u64_small.
    assert ((2 ^ 64 - d * 1000) / speed_mult cfg < 2 ^ 63) by (apply Z.div_lt_upper_bound; lia).
    width. }
  rewrite Hdue. pose proof (wait_spec (now1 + (2 ^ 64 - d * 1000) / speed_mult cfg) readings) as Hs'.
  destruct (gets_to _ _) eqn:E; [|by rewrite Hs'].
  apply existsb_exists in E as (ts & Hin%list_elem_of_In & Hle%Z.leb_le).
  rewrite Forall_forall in Hf. apply Hf in Hin. lia.
Qed.

Lemma early_packet_stalls_witness :
  pace (mk_Config true 2 0) (mk_pacing 1700000000 5000) (1700000000 - 1)
    [(mk_timespec 0 0, [mk_timespec 0 6000; mk_timespec 0 7000; mk_timespec 4611686018 0])]
  = Fault OutOfFuel.
Proof.
  apply early_packet_stalls; [done | by vm_compute | by vm_compute | by vm_compute | by vm_compute |].
  repeat (apply Forall_cons; split); [.. | by apply Forall_nil]; by vm_compute.
Defined.
