(* ===== verification/Unpaced.v ===== *)
(** * Unpaced: a replay without its clock

    [Unpaced.replay] is [PcapReader::replay] with the pacing of its frames left out, a
    reference for what does not depend on time: when all the waits of a replay end
    ([clock_runs], always the case when [realtime] is off) the replay is this one,
    frame by frame, and when one does not end, neither does the replay. *)

From stdpp Require Import base gmap list strings fin_maps.
From Stdlib Require Import ZArith Lia.
From S2P Require Import Prelude WireFormat GapBuf GapRun Sink Pcap Pacing.

#[local] Open Scope Z_scope.
Import PcapReader.

Module Unpaced.

Section Replay.
Context {T : Type} `{PacketSink T}.

(** Statistics, consumer, its events, and the datagrams. *)
Definition outcome : Type := ReplayStats.t * T * list event * list input.

Fixpoint replay_loop (fuel : nat) (cfg : Config) (swap_bytes : bool) (file : list byte)
    (frame_buf : list byte) (stats : ReplayStats.t) (sink : T) : res outcome :=
  match fuel with
  | O => Fault OutOfFuel
  | S fuel' =>
      if blen file <? 16 then mret (stats, sink, [], []) else
      let rh := PcapRecordHeader.of_bytes (slice file 0 16) in
      let file := drop 16 file in
      let incl := maybe_swap32 swap_bytes (PcapRecordHeader.incl_len rh) in
      let ts_s := maybe_swap32 swap_bytes (PcapRecordHeader.ts_sec rh) in
      let ts_us := maybe_swap32 swap_bytes (PcapRecordHeader.ts_usec rh) in
      if kFrameBuf <? incl then
        replay_loop fuel' cfg swap_bytes (drop (Z.to_nat incl) file) frame_buf
          (ReplayStats.inc_truncated stats) sink
      else if blen file <? incl then mret (stats, sink, [], [])
      else
        frame_buf ← mem_write frame_buf 0 (slice file 0 incl);
        let file := drop (Z.to_nat incl) file in
        let stats := ReplayStats.inc_read stats in
        let pkt_ts_us := u64 (ts_s * 1000000 + ts_us) in
        found ← extract_udp frame_buf incl;
        match found with
        | None =>
            replay_loop fuel' cfg swap_bytes file frame_buf (ReplayStats.inc_non_udp stats) sink
        | Some (payload, pay_len, dst_port) =>
            if negb (filter_port cfg =? 0) && negb (dst_port =? filter_port cfg) then
              replay_loop fuel' cfg swap_bytes file frame_buf (ReplayStats.inc_non_udp stats) sink
            else
              let stats := ReplayStats.inc_udp stats in
              let ts_ns := u64 (pkt_ts_us * 1000) in
              let memory := drop (Z.to_nat payload) frame_buf in
              '(sink, evs, ingested) ← sink_ingest sink memory pay_len ts_ns;
              let stats := if 0 <? ingested then ReplayStats.add_ingested stats ingested else stats in
              '(stats, sink, evs', fed) ← replay_loop fuel' cfg swap_bytes file frame_buf stats sink;
              mret (stats, sink, evs ++ evs', Datagram memory pay_len ts_ns :: fed)
        end
  end.

Definition replay (cfg : Config) (file : option (list byte)) (frame_buf : list byte) (sink : T)
    : res outcome :=
  match file with
  | None => mret (ReplayStats.init, sink, [], [])
  | Some file =>
      if blen file <? 24 then mret (ReplayStats.init, sink, [], []) else
      let magic := load_le (slice file 0 4) in
      let swap_bytes := magic =? kPcapMagicBE in
      if negb (magic =? kPcapMagicLE) && negb swap_bytes
      then mret (ReplayStats.init, sink, [], [])
      else replay_loop (S (length file)) cfg swap_bytes (drop 24 file) frame_buf
             ReplayStats.init sink
  end.

End Replay.
End Unpaced.

(** ** The frames a file paces *)

(** The capture times of the frames that are read, in microseconds. *)
Fixpoint frame_times (fuel : nat) (swap : bool) (file : list byte) : list Z :=
  match fuel with
  | O => []
  | S fuel' =>
      if blen file <? 16 then [] else
      let rh := PcapRecordHeader.of_bytes (slice file 0 16) in
      let file := drop 16 file in
      let incl := maybe_swap32 swap (PcapRecordHeader.incl_len rh) in
      let rest := frame_times fuel' swap (drop (Z.to_nat incl) file) in
      if kFrameBuf <? incl then rest
      else if blen file <? incl then []
      else u64 (maybe_swap32 swap (PcapRecordHeader.ts_sec rh) * 1000000
                + maybe_swap32 swap (PcapRecordHeader.ts_usec rh)) :: rest
  end.

(** The capture times of a whole file: none when it is not a capture. *)
Definition file_times (file : list byte) : list Z :=
  if blen file <? 24 then [] else
  let magic := load_le (slice file 0 4) in
  let swap := magic =? kPcapMagicBE in
  if negb (magic =? kPcapMagicLE) && negb swap then []
  else frame_times (S (length file)) swap (drop 24 file).

(** The waits of a replay of the file all end. *)
Definition clock_runs (cfg : Config) (file : option (list byte)) (clock : timing) : bool :=
  if paced cfg then waits_end cfg pacing_init (default [] (file_times <$> file)) clock else true.

Section Transparent.
Context {T : Type} `{PacketSink T}.

(** A replay together with the readings its frames were released at; and without. *)
Definition with_times (r : res (Unpaced.outcome (T := T))) (ats : list (option Z))
    : res (PcapReader.outcome (T := T)) :=
  '(stats, sink, evs, fed) ← r; mret (stats, sink, evs, fed, ats).
Definition untimed (r : res (PcapReader.outcome (T := T))) : res (Unpaced.outcome (T := T)) :=
  '(stats, sink, evs, fed, _) ← r; mret (stats, sink, evs, fed).

Lemma untimed_with_times r ats : untimed (with_times r ats) = r.
Proof. by destruct r as [[[[st s] evs] fed]|]. Qed.

(** What follows a paced frame: the loop with the readings [pace_all] gives, or its
    fault. *)
Definition timed (r : res (Unpaced.outcome (T := T))) (ats : res (list (option Z)))
    (r' : res (PcapReader.outcome (T := T))) : Prop :=
  match ats with
  | Ok ats => r' = with_times r ats
  | Fault e => is_ok r = true -> r' = Fault e
  end.

Lemma timed_released at_ r ats r' :
  timed r ats r' -> timed r (rest ← ats; mret (at_ :: rest)) (released_at at_ r').
Proof.
  destruct ats as [ats|e]; cbn; [|by intros Ht Hr; rewrite Ht].
  intros ->. by destruct r as [[[[st s] evs] fed]|].
Qed.

Lemma replay_loop_timed fuel cfg swap file buf st (s : T) p clock :
  timed (Unpaced.replay_loop fuel cfg swap file buf st s)
        (pace_all cfg p (frame_times fuel swap file) clock)
        (replay_loop fuel cfg swap file buf st s p clock).
Proof.
  revert file buf st s p clock. induction fuel as [|fuel IH]; intros file buf st s p clock; [done|].
  cbn [frame_times replay_loop Unpaced.replay_loop]. cbv zeta.
  destruct (blen file <? 16); [done|].
  set (incl := maybe_swap32 swap (PcapRecordHeader.incl_len _)).
  destruct (kFrameBuf <? incl); [by apply IH|].
  destruct (blen (drop 16 file) <? incl); [done|].
  destruct (mem_write buf 0 _) as [buf'|e']; rewrite ?bind_Ok.
  2:{ rewrite !bind_Fault. by destruct (pace_all _ _ _ _). }
  cbn [pace_all].
  destruct (pace cfg p _ clock) as [[[p' at_] clock']|]; rewrite ?bind_Ok; [|done].
  destruct (extract_udp buf' incl) as [[[[payload pay_len] dst_port]|]|e']; rewrite ?bind_Ok.
  3:{ rewrite !bind_Fault. by destruct (pace_all _ _ _ _). }
  2:{ by apply timed_released. }
  destruct (_ && _); [by apply timed_released|].
  destruct (sink_ingest s _ pay_len _) as [[[s1 e1] r]|e']; rewrite ?bind_Ok.
  2:{ rewrite !bind_Fault. by destruct (pace_all _ _ _ _). }
  set (st1 := if 0 <? r then _ else _).
  specialize (IH (drop (Z.to_nat incl) (drop 16 file)) buf' st1 s1 p' clock').
  destruct (pace_all cfg p' _ clock') as [ats|e]; cbn [timed mbind res_bind] in *.
  - rewrite IH. by destruct (Unpaced.replay_loop _ _ _ _ _ _ _) as [[[[st2 s2] e2] fed]|].
  - destruct (Unpaced.replay_loop _ _ _ _ _ _ _) as [[[[st2 s2] e2] fed]|]; [|done].
    intros _. by rewrite IH.
Qed.

Lemma replay_timed cfg file buf (s : T) clock :
  timed (Unpaced.replay cfg file buf s)
        (pace_all cfg pacing_init (default [] (file_times <$> file)) clock)
        (replay cfg file buf s clock).
Proof.
  destruct file as [file|]; [|done]. unfold replay, Unpaced.replay. cbn [fmap option_fmap option_map default].
  unfold file_times. destruct (blen file <? 24); [done|]. cbv zeta.
  destruct (_ && _); [done|]. apply replay_loop_timed.
Qed.

(** A replay all of whose waits end. *)
Lemma replay_unpaced cfg file buf (s : T) clock :
  clock_runs cfg file clock = true ->
  exists ats, replay cfg file buf s clock = with_times (Unpaced.replay cfg file buf s) ats.
Proof.
  intros Hc. pose proof (replay_timed cfg file buf s clock) as Ht.
  pose proof (pace_all_ends cfg pacing_init (default [] (file_times <$> file)) clock) as He.
  unfold clock_runs in Hc. rewrite Hc in He. destruct He as [ats E]. rewrite E in Ht. by exists ats.
Qed.

Lemma replay_unpaced_Ok cfg file buf (s : T) clock st s' evs fed :
  Unpaced.replay cfg file buf s = Ok (st, s', evs, fed) -> clock_runs cfg file clock = true ->
  exists ats, replay cfg file buf s clock = Ok (st, s', evs, fed, ats).
Proof. intros E Hc. destruct (replay_unpaced cfg file buf s clock Hc) as [ats ->]. exists ats. by rewrite E. Qed.

(** A replay one of whose waits does not end. *)
Lemma replay_stalled cfg file buf (s : T) clock :
  is_ok (Unpaced.replay cfg file buf s) = true -> clock_runs cfg file clock = false ->
  replay cfg file buf s clock = Fault OutOfFuel.
Proof.
  intros Hr Hc. pose proof (replay_timed cfg file buf s clock) as Ht.
  pose proof (pace_all_ends cfg pacing_init (default [] (file_times <$> file)) clock) as He.
  unfold clock_runs in Hc. rewrite Hc in He. rewrite He in Ht. by apply Ht.
Qed.

(** Without [realtime] the clock is not read. *)
Lemma replay_fast cfg file buf (s : T) :
  paced cfg = false ->
  exists ats, replay cfg file buf s [] = with_times (Unpaced.replay cfg file buf s) ats.
Proof. intros Hp. apply replay_unpaced. unfold clock_runs. by rewrite Hp. Qed.

End Transparent.
