(* ===== verification/PcapProps.v ===== *)
(** * PcapProps: decoding captures

    Reference layouts of a frame and of a capture file, the payload
    [extract_udp] finds in a frame, and the replay loop over records. *)

From stdpp Require Import base gmap list strings fin_maps.
From Stdlib Require Import ZArith Lia.
From S2P Require Import Prelude WireFormat WireLemmas GapBuf GapWalk Framing.
From S2P Require Import GapRun Sink Pcap Pacing Unpaced.

#[local] Open Scope Z_scope.
Import PcapReader.

(** ** The layout of a capture file *)

(** An integer of the file, in the byte order of the machine that wrote it. *)
Definition int_bytes (swap : bool) (n : nat) (v : Z) : list byte :=
  if swap then be_bytes n v else store_le n v.

Record capture := mk_capture { c_sec : Z; c_usec : Z; c_orig : Z; c_frame : list byte }.

Definition capture_bytes (swap : bool) (c : capture) : list byte :=
  int_bytes swap 4 (c_sec c) ++ int_bytes swap 4 (c_usec c) ++
  int_bytes swap 4 (blen (c_frame c)) ++ int_bytes swap 4 (c_orig c) ++ c_frame c.

(** [rest] is what follows the magic number in the global header. *)
Definition pcap_file (swap : bool) (rest : list byte) (cs : list capture) : list byte :=
  int_bytes swap 4 kPcapMagicLE ++ rest ++ mjoin (capture_bytes swap <$> cs).

(** ** The layout of a frame *)

(** An Ethernet frame with an optional 802.1Q tag, an IPv4 header of [ihl] words
    and a UDP datagram; [trailer] is padding after it. *)
Record eth := mk_eth {
  e_macs : list byte; e_vlan : option (list byte); e_ihl : Z; e_ip : list byte;
  e_sport : Z; e_dport : Z; e_cksum : Z; e_payload : list byte; e_trailer : list byte
}.

Definition eth_type (e : eth) : list byte :=
  match e_vlan e with
  | Some tci => be_bytes 2 0x8100 ++ tci ++ be_bytes 2 0x0800
  | None => be_bytes 2 0x0800
  end.

Definition udp_len (e : eth) : Z := 8 + blen (e_payload e).

Definition eth_headers (e : eth) : list byte :=
  e_macs e ++ eth_type e ++ e_ip e ++
  be_bytes 2 (e_sport e) ++ be_bytes 2 (e_dport e) ++ be_bytes 2 (udp_len e) ++
  be_bytes 2 (e_cksum e).

Definition eth_frame (e : eth) : list byte := eth_headers e ++ e_payload e ++ e_trailer e.

Record eth_ok (e : eth) : Prop := {
  eo_macs : length (e_macs e) = 12%nat;
  eo_vlan : forall tci, e_vlan e = Some tci -> length tci = 2%nat;
  eo_ihl : 5 <= e_ihl e <= 15;
  eo_ip : blen (e_ip e) = 4 * e_ihl e;
  eo_ip0 : Z.land (be_val (slice (e_ip e) 0 1)) 0x0F = e_ihl e;
  eo_proto : be_val (slice (e_ip e) 9 1) = kIpprotoUdp;
  eo_port : is_u16 (e_dport e);
  eo_len : udp_len e < 2 ^ 16
}.

Lemma length_eth_type e :
  eth_ok e -> blen (eth_type e) = match e_vlan e with Some _ => 6 | None => 2 end.
Proof.
  intros []. unfold eth_type. destruct (e_vlan e) as [tci|] eqn:E.
  - rewrite !length_app, !length_be_bytes, (eo_vlan0 tci) by done. done.
  - by rewrite length_be_bytes.
Qed.

Lemma length_eth_headers e :
  eth_ok e -> blen (eth_headers e) = 12 + blen (eth_type e) + 4 * e_ihl e + 8.
Proof.
  intros He. pose proof (eo_ip _ He). unfold eth_headers.
  rewrite !length_app, !length_be_bytes, (eo_macs _ He). lia.
Qed.

(** A field at a known place in a concatenation. *)
Lemma slice_mid {A} (a b c : list A) off n :
  off = blen a -> n = blen b -> slice (a ++ b ++ c) off n = b.
Proof. intros -> ->. rewrite slice_app_r, Z.sub_diag by lia. by apply slice_app_hd. Qed.

Lemma be16_field (a c : list byte) v off :
  off = blen a -> is_u16 v -> be16 (a ++ be_bytes 2 v ++ c) off = Ok v.
Proof.
  intros -> Hv. rewrite be16_Ok by (rewrite ?length_app, ?length_be_bytes; lia).
  rewrite slice_mid by (rewrite ?length_be_bytes; done).
  rewrite be_val_be_bytes. by rewrite Z.mod_small by width.
Qed.

Section Extract.
Context (e : eth) (stale : list byte) (He : eth_ok e).

Local Abbreviation m := (eth_frame e ++ stale).
Local Abbreviation tail :=
  (be_bytes 2 (e_cksum e) ++ e_payload e ++ e_trailer e ++ stale).

(** Where the IP header starts. *)
Definition ip_start : Z := 12 + blen (eth_type e).

Lemma frame_split :
  m = (e_macs e ++ eth_type e) ++ e_ip e ++ be_bytes 2 (e_sport e) ++
      be_bytes 2 (e_dport e) ++ be_bytes 2 (udp_len e) ++ tail.
Proof using Type. unfold eth_frame, eth_headers. by rewrite <-!app_assoc. Qed.

Lemma frame_length :
  blen (eth_frame e)
  = ip_start + 4 * e_ihl e + 8 + blen (e_payload e) + blen (e_trailer e).
Proof using He.
  unfold eth_frame, ip_start. rewrite !length_app, Nat2Z.inj_add, length_eth_headers by done.
  lia.
Qed.

Lemma ether_payload_spec L :
  ip_start <= L -> ether_payload m L = Ok (Some (0x0800, ip_start, L - ip_start)).
Proof using He.
  intros HL. pose proof frame_length as Hlen. pose proof (length_eth_type e He) as Ht.
  pose proof (eo_ihl _ He) as Hi. pose proof (eo_macs _ He) as Hm.
  unfold ether_payload, ip_start in *. rewrite (proj2 (Z.ltb_ge _ _)) by (case_match; lia).
  rewrite frame_split. unfold eth_type in *. destruct (e_vlan e) as [tci|] eqn:E.
  - pose proof (eo_vlan _ He tci E) as Htci. rewrite <-!app_assoc.
    rewrite (be16_field _ _ _ 12), bind_Ok by (rewrite ?Hm; width). cbn [Z.eqb Pos.eqb].
    rewrite (proj2 (Z.ltb_ge _ _)) by lia.
    rewrite (app_assoc (be_bytes 2 33024)), (app_assoc (e_macs e)).
    rewrite be16_field, bind_Ok by (rewrite ?length_app, ?length_be_bytes, ?Hm, ?Htci; width).
    rewrite Ht. unfold mret, res_ret. do 2 f_equal. f_equal. lia.
  - rewrite <-!app_assoc. rewrite (be16_field _ _ _ 12), bind_Ok by (rewrite ?Hm; width).
    rewrite Ht. done.
Qed.

(** The bytes of the IP header in the buffer. *)
Lemma ip_bytes k n :
  0 <= k -> 0 <= n -> k + n <= blen (e_ip e) -> slice m (ip_start + k) n = slice (e_ip e) k n.
Proof using He.
  intros Hk Hn Hkn. pose proof (eo_macs _ He) as Hm. unfold ip_start. rewrite frame_split.
  rewrite slice_app_r by (rewrite length_app, Hm; lia). rewrite length_app, Hm.
  replace (12 + blen (eth_type e) + k - Z.of_nat (12 + length (eth_type e))) with k by lia.
  by apply slice_app_l.
Qed.

Lemma udp_fields :
  be16 m (ip_start + 4 * e_ihl e + 2) = Ok (e_dport e) /\
  be16 m (ip_start + 4 * e_ihl e + 4) = Ok (udp_len e).
Proof using He.
  pose proof He as [Hm Hv Hi Hip H0 H9 Hp Hl]. unfold ip_start. rewrite frame_split.
  rewrite (app_assoc (e_macs e ++ eth_type e) (e_ip e)). split.
  - rewrite (app_assoc (_ ++ e_ip e)). apply be16_field; [|done].
    rewrite !length_app, length_be_bytes, Hm. lia.
  - rewrite (app_assoc (_ ++ e_ip e)), (app_assoc (_ ++ be_bytes 2 (e_sport e))).
    apply be16_field; [|unfold udp_len in *; width].
    rewrite !length_app, !length_be_bytes, Hm. lia.
Qed.

(** [L] is the length the record claims for the frame. *)
Lemma extract_udp_cut L :
  ip_start + 4 * e_ihl e + 8 <= L ->
  extract_udp m L
    = Ok (Some (ip_start + 4 * e_ihl e + 8, blen (e_payload e), e_dport e)) /\
  drop (Z.to_nat (ip_start + 4 * e_ihl e + 8)) m = e_payload e ++ e_trailer e ++ stale.
Proof using He.
  intros HL. pose proof frame_length as Hlen. pose proof He as [Hm Hv Hi Hip H0 H9 Hp Hl].
  assert (Hs : 0 <= ip_start) by (unfold ip_start; lia).
  assert (Hml : blen m = blen (eth_frame e) + blen stale) by (rewrite length_app; lia).
  split.
  - unfold extract_udp. rewrite ether_payload_spec, bind_Ok by lia. cbn [negb].
    rewrite Z.eqb_refl, (proj2 (Z.ltb_ge _ _)) by lia. cbn [negb].
    rewrite (byte_at_slice _ ip_start), bind_Ok by lia.
    replace (slice m ip_start 1) with (slice (e_ip e) 0 1)
      by (rewrite <-ip_bytes, Z.add_0_r by lia; done).
    rewrite H0. rewrite (byte_at_slice _ (ip_start + 9)), bind_Ok, ip_bytes, H9 by lia. cbn [Z.eqb Pos.eqb negb kIpprotoUdp].
    rewrite (u8_small (e_ihl e * 4)) by width.
    rewrite (proj2 (Z.ltb_ge _ _)) by lia.
    replace (ip_start + e_ihl e * 4) with (ip_start + 4 * e_ihl e) by lia.
    destruct udp_fields as [-> ->]. rewrite !bind_Ok. unfold udp_len.
    rewrite (proj2 (Z.ltb_ge _ _)) by lia. by rewrite Z.add_simpl_l.
  - unfold eth_frame. rewrite <-!app_assoc. apply drop_app_length'.
    pose proof (length_eth_headers e He). unfold ip_start. lia.
Qed.

Lemma extract_udp_spec :
  extract_udp m (blen (eth_frame e))
    = Ok (Some (ip_start + 4 * e_ihl e + 8, blen (e_payload e), e_dport e)) /\
  drop (Z.to_nat (ip_start + 4 * e_ihl e + 8)) m = e_payload e ++ e_trailer e ++ stale.
Proof using He. apply extract_udp_cut. rewrite frame_length. lia. Qed.

End Extract.

(** [extract_udp] finds the datagram: in every frame with an IPv4 header of any
    legal length, tagged (802.1Q) or not, padded or not, whatever stale bytes
    follow it in the reader's buffer, it returns exactly the UDP payload and the
    destination port. *)
Theorem extract_udp_finds_payload (e : eth) (stale : list byte) :
  eth_ok e ->
  exists off,
    extract_udp (eth_frame e ++ stale) (blen (eth_frame e))
      = Ok (Some (off, blen (e_payload e), e_dport e)) /\
    drop (Z.to_nat off) (eth_frame e ++ stale) = e_payload e ++ e_trailer e ++ stale.
Proof. intros He. exists (ip_start e + 4 * e_ihl e + 8). by apply extract_udp_spec. Qed.

(** A tagged frame whose IP header has one option word, with padding. *)
Definition test_eth : eth :=
  mk_eth (replicate 12 (z2b 7)) (Some [z2b 0; z2b 5]) 6
    ([z2b 0x46] ++ replicate 8 (z2b 0) ++ [z2b 17] ++ replicate 14 (z2b 1))
    1234 15001 0 [z2b 1; z2b 2; z2b 3] [z2b 9].

Lemma test_eth_ok : eth_ok test_eth.
Proof. split; try (by vm_compute). by intros tci [= <-]. Qed.

Lemma extract_udp_finds_payload_witness :
  exists off,
    extract_udp (eth_frame test_eth ++ [z2b 8]) (blen (eth_frame test_eth))
      = Ok (Some (off, 3, 15001)) /\
    drop (Z.to_nat off) (eth_frame test_eth ++ [z2b 8]) = [z2b 1; z2b 2; z2b 3] ++ [z2b 9] ++ [z2b 8].
Proof. apply (extract_udp_finds_payload test_eth [z2b 8]). exact test_eth_ok. Defined.

(** ** Replaying a file *)

(** A record of the file: its time and its frame. *)
Record item := mk_item { i_sec : Z; i_usec : Z; i_orig : Z; i_eth : eth }.

Definition capture_of (i : item) : capture :=
  mk_capture (i_sec i) (i_usec i) (i_orig i) (eth_frame (i_eth i)).

Record item_ok (i : item) : Prop := {
  it_eth : eth_ok (i_eth i);
  it_sec : is_u32 (i_sec i);
  it_usec : is_u32 (i_usec i);
  it_size : blen (eth_frame (i_eth i)) <= kFrameBuf
}.

Definition item_ns (i : item) : Z := u64 (u64 (i_sec i * 1000000 + i_usec i) * 1000).

Definition selected (cfg : Config) (i : item) : bool :=
  (filter_port cfg =? 0) || (e_dport (i_eth i) =? filter_port cfg).

(** The buffer after reading a frame into it. *)
Definition after_frame (buf : list byte) (i : item) : list byte :=
  eth_frame (i_eth i) ++ drop (length (eth_frame (i_eth i))) buf.

(** The datagrams of the selected records, with the memory behind each. *)
Fixpoint datagrams (cfg : Config) (buf : list byte) (items : list item) : list input :=
  match items with
  | [] => []
  | i :: items' =>
      let rest := datagrams cfg (after_frame buf i) items' in
      if selected cfg i
      then Datagram (e_payload (i_eth i) ++ e_trailer (i_eth i)
                       ++ drop (length (eth_frame (i_eth i))) buf)
             (blen (e_payload (i_eth i))) (item_ns i) :: rest
      else rest
  end.

(** The consumer fed with datagrams, and the messages it took. *)
Fixpoint feed {T} `{PacketSink T} (s : T) (ins : list input) (n : Z) : res (T * list event * Z) :=
  match ins with
  | [] => mret (s, [], n)
  | Datagram payload len now :: ins' =>
      '(s1, e1, r) ← sink_ingest s payload len now;
      '(s2, e2, n2) ← feed s1 ins' (if 0 <? r then u64 (n + r) else n);
      mret (s2, e1 ++ e2, n2)
  | Tick _ :: ins' => feed s ins' n
  end.

(** The statistics after the records. *)
Fixpoint counted (cfg : Config) (items : list item) (st : ReplayStats.t) : ReplayStats.t :=
  match items with
  | [] => st
  | i :: items' =>
      let st := ReplayStats.inc_read st in
      counted cfg items' (if selected cfg i then ReplayStats.inc_udp st
                          else ReplayStats.inc_non_udp st)
  end.

Definition with_ingested (st : ReplayStats.t) (n : Z) : ReplayStats.t :=
  ReplayStats.mk (ReplayStats.packets_read st) (ReplayStats.udp_packets st)
    (ReplayStats.non_udp_skipped st) (ReplayStats.truncated_skipped st) n.

Lemma length_int_bytes swap n v : length (int_bytes swap n v) = n.
Proof. unfold int_bytes. destruct swap; [apply length_be_bytes | apply length_store_le]. Qed.

Lemma read_int swap v : is_u32 v -> maybe_swap32 swap (load_le (int_bytes swap 4 v)) = v.
Proof.
  intros Hv. unfold maybe_swap32, int_bytes. destruct swap.
  - rewrite bswap_load_n by apply length_be_bytes. rewrite be_val_be_bytes.
    apply Z.mod_small. exact Hv.
  - rewrite load_store_le. apply Z.mod_small. exact Hv.
Qed.

Lemma read_capture swap c rest :
  let rh := PcapRecordHeader.of_bytes (slice (capture_bytes swap c ++ rest) 0 16) in
  is_u32 (c_sec c) -> is_u32 (c_usec c) -> is_u32 (blen (c_frame c)) ->
  maybe_swap32 swap (PcapRecordHeader.ts_sec rh) = c_sec c /\
  maybe_swap32 swap (PcapRecordHeader.ts_usec rh) = c_usec c /\
  maybe_swap32 swap (PcapRecordHeader.incl_len rh) = blen (c_frame c) /\
  drop 16 (capture_bytes swap c ++ rest) = c_frame c ++ rest.
Proof.
  intros rh Hs Hu Hf. unfold rh, capture_bytes. rewrite <-!app_assoc.
  set (m := int_bytes swap 4 (c_sec c) ++ _).
  assert (Hm : forall o, 0 <= o -> o + 4 <= 16 -> slice (slice m 0 16) o 4 = slice m o 4).
  { intros o H0 H1. unfold slice at 2. rewrite drop_0. apply slice_take; lia. }
  unfold PcapRecordHeader.of_bytes. cbn [PcapRecordHeader.ts_sec PcapRecordHeader.ts_usec PcapRecordHeader.incl_len].
  rewrite !Hm by lia. unfold m.
  split; [|split; [|split]].
  - rewrite slice_app_hd by (rewrite ?length_int_bytes; done). by apply read_int.
  - rewrite slice_mid by (rewrite ?length_int_bytes; done). by apply read_int.
  - rewrite (app_assoc (int_bytes swap 4 (c_sec c))).
    rewrite slice_mid by (rewrite ?length_app, ?length_int_bytes; done). by apply read_int.
  - transitivity (drop 16 ((int_bytes swap 4 (c_sec c) ++ int_bytes swap 4 (c_usec c) ++
      int_bytes swap 4 (blen (c_frame c)) ++ int_bytes swap 4 (c_orig c)) ++ c_frame c ++ rest));
      [by rewrite <-!app_assoc|].
    apply drop_app_length'. by rewrite !length_app, !length_int_bytes.
Qed.

(** The ingested count is independent of the others. *)
Lemma with_ingested_counted cfg items st r n :
  with_ingested (counted cfg items (ReplayStats.add_ingested st r)) n
  = with_ingested (counted cfg items st) n.
Proof.
  assert (H : forall st1 st2, with_ingested st1 0 = with_ingested st2 0 ->
    with_ingested (counted cfg items st1) 0 = with_ingested (counted cfg items st2) 0).
  { induction items as [|i items IH]; intros st1 st2 E; [done|]. cbn. apply IH.
    destruct st1, st2. injection E as -> -> -> ->. by destruct (selected cfg i). }
  specialize (H (ReplayStats.add_ingested st r) st eq_refl).
  unfold with_ingested in *. by injection H as -> -> -> ->.
Qed.

Section ReplayProofs.
Context {T : Type} `{PacketSink T}.

Lemma replay_loop_spec fuel cfg swap buf st (s : T) items :
  Forall item_ok items -> blen buf = kFrameBuf -> (length items < fuel)%nat ->
  Unpaced.replay_loop fuel cfg swap (mjoin (capture_bytes swap <$> (capture_of <$> items))) buf st s =
  ('(s', evs, n) ← feed s (datagrams cfg buf items) (ReplayStats.messages_ingested st);
   mret (with_ingested (counted cfg items st) n, s', evs, datagrams cfg buf items)).
Proof.
  intros Hok. revert fuel buf st s. induction Hok as [|i items Hi _ IH]; intros fuel buf st s Hb Hf.
  { destruct fuel as [|fuel]; [lia|]. cbn. by destruct st. }
  destruct fuel as [|fuel]; [cbn in Hf; lia|]. cbn [length] in Hf.
  destruct Hi as [He Hs Hu Hz]. pose proof (frame_length (i_eth i) He) as Hfl.
  cbn [fmap list_fmap mjoin list_join Unpaced.replay_loop].
  set (rest := mjoin _).
  assert (Hc : length (capture_bytes swap (capture_of i)) = (16 + length (eth_frame (i_eth i)))%nat)
    by (unfold capture_bytes; rewrite !length_app, !length_int_bytes; done).
  rewrite (proj2 (Z.ltb_ge (blen (capture_bytes _ _ ++ _)) 16)) by (rewrite length_app, Hc; lia).
  destruct (read_capture swap (capture_of i) rest) as (-> & -> & -> & ->); [done | done | |].
  { cbn. unfold kFrameBuf in Hz. width. }
  cbn [c_frame c_sec c_usec capture_of].
  rewrite (proj2 (Z.ltb_ge kFrameBuf _)) by lia.
  rewrite (proj2 (Z.ltb_ge (blen (_ ++ rest)) _)) by (rewrite length_app; lia).
  rewrite slice_app_hd by lia. rewrite mem_write_splice, bind_Ok by lia.
  assert (splice buf 0 (eth_frame (i_eth i)) = after_frame buf i) as ->
    by (rewrite splice_0; done).
  rewrite Nat2Z.id, drop_app_length.
  destruct (extract_udp_spec (i_eth i) (drop (length (eth_frame (i_eth i))) buf) He) as [Hx Hd].
  fold (after_frame buf i) in Hx, Hd. rewrite Hx, bind_Ok. cbn [datagrams counted].
  assert (Hb' : blen (after_frame buf i) = kFrameBuf)
    by (unfold after_frame; rewrite length_app, length_drop; lia).
  assert (Hsel : negb (filter_port cfg =? 0) && negb (e_dport (i_eth i) =? filter_port cfg)
    = negb (selected cfg i)) by (unfold selected; by rewrite negb_orb).
  rewrite Hsel. destruct (selected cfg i); cbn [negb].
  - rewrite Hd. cbn [feed]. fold (item_ns i).
    destruct (sink_ingest s _ _ _) as [[[s1 e1] r]|]; [|done]. rewrite !bind_Ok.
    rewrite IH by (done || lia).
    assert (ReplayStats.messages_ingested (if 0 <? r then ReplayStats.add_ingested
        (ReplayStats.inc_udp (ReplayStats.inc_read st)) r
        else ReplayStats.inc_udp (ReplayStats.inc_read st))
      = if 0 <? r then u64 (ReplayStats.messages_ingested st + r)
        else ReplayStats.messages_ingested st) as -> by (by destruct (0 <? r)).
    destruct (feed s1 _ _) as [[[s2 e2] n2]|]; [|done].
    cbn [mbind res_bind mret res_ret]. destruct (0 <? r); [|done].
    by rewrite with_ingested_counted.
  - rewrite IH by (done || lia). done.
Qed.

End ReplayProofs.
