(* ===== verification/PcapRound.v ===== *)
(** * PcapRound: from a publisher through a capture file to the consumer

    What replay feeds its consumer, and the round trip through [PcapWriter]. *)

From stdpp Require Import base gmap list strings fin_maps.
From Stdlib Require Import ZArith Lia.
From S2P Require Import Prelude WireFormat WireLemmas GapBuf GapWalk Framing.
From S2P Require Import GapInv GapRun GapProps GapComplete Sink Pcap Pacing Unpaced PcapProps.

#[local] Open Scope Z_scope.

(** ** Writing *)

(** Packets with their capture times, in microseconds. *)
Fixpoint write_all (w : PcapWriter.t) (ps : list (Z * list byte)) : res PcapWriter.t :=
  match ps with
  | [] => mret w
  | (ts, p) :: ps' => '(w1, _) ← PcapWriter.write_packet w ts p (blen p); write_all w1 ps'
  end.

(** Largest payload whose frame length still fits the [uint16_t] of the writer. *)
Definition kMaxWritten : Z := 65535 - 42.

Definition writable (p : Z * list byte) : Prop :=
  0 <= p.1 < 2 ^ 32 * 1000000 /\ blen p.2 <= kMaxWritten.

Definition written_eth (p : list byte) : eth :=
  mk_eth (replicate 6 (z2b 0xFF) ++ replicate 6 (z2b 0)) None 5
    (PcapWriter.ip_header (20 + (8 + blen p))) 15001 15001 0 p [].

Definition written_item (p : Z * list byte) : item :=
  mk_item (p.1 / 1000000) (p.1 mod 1000000) (42 + blen p.2) (written_eth p.2).

Lemma written_eth_ok p : blen p <= kMaxWritten -> eth_ok (written_eth p).
Proof.
  intros Hp. unfold kMaxWritten in Hp. split; try done.
  - unfold udp_len. cbn. lia.
Qed.

Lemma written_frame p :
  blen p <= kMaxWritten -> blen (eth_frame (written_eth p)) = 42 + blen p.
Proof.
  intros Hp. rewrite frame_length by (by apply written_eth_ok).
  unfold ip_start. cbn [e_ihl e_payload e_trailer written_eth length].
  rewrite (length_eth_type _ (written_eth_ok p Hp)). cbn [e_vlan written_eth]. lia.
Qed.

Lemma written_item_ok p : writable p -> item_ok (written_item p).
Proof.
  destruct p as [ts p]. intros [Ht Hp]. cbn [fst snd] in *. split; cbn [i_eth i_sec i_usec written_item fst snd].
  - by apply written_eth_ok.
  - split; [apply Z.div_pos; lia|]. apply Z.div_lt_upper_bound; lia.
  - pose proof (Z.mod_pos_bound ts 1000000). width.
  - rewrite written_frame by done. unfold PcapReader.kFrameBuf, kMaxWritten in *. lia.
Qed.

Lemma write_packet_Ok w file ts p :
  PcapWriter.fp_ w = Some file -> writable (ts, p) ->
  PcapWriter.write_packet w ts p (blen p) =
  Ok (PcapWriter.mk (Some (file ++ capture_bytes false (capture_of (written_item (ts, p)))))
        (inc (PcapWriter.packets_written_ w)), true).
Proof.
  intros Hf Hw. pose proof (written_item_ok _ Hw) as [_ Hs Hu _]. destruct Hw as [Ht Hp].
  cbn [fst snd i_sec i_usec written_item] in *.
  pose proof (written_frame p Hp) as Hfl. unfold kMaxWritten in Hp.
  unfold PcapWriter.write_packet. rewrite Hf. cbv zeta.
  rewrite (u16_small (8 + blen p)) by width. rewrite (u16_small (20 + _)) by width.
  rewrite (u16_small (14 + _)) by width. rewrite mem_read_Ok, bind_Ok, (slice_all p) by lia.
  rewrite (u32_small (ts / _)), (u32_small (ts mod _)) by done.
  unfold mret, res_ret. do 3 f_equal. unfold PcapRecordHeader.bytes, capture_bytes.
  cbn [PcapRecordHeader.ts_sec PcapRecordHeader.ts_usec PcapRecordHeader.incl_len
       PcapRecordHeader.orig_len c_sec c_usec c_orig c_frame capture_of written_item i_sec i_usec i_orig i_eth fst snd].
  rewrite <-!app_assoc. rewrite Hfl.
  assert (He : PcapWriter.ether_header ++ PcapWriter.ip_header (20 + (8 + blen p)) ++
      PcapWriter.udp_header (8 + blen p) ++ p = eth_frame (written_eth p)).
  { unfold eth_frame, eth_headers, udp_len. cbn [e_macs e_ip e_sport e_dport e_cksum e_payload e_trailer written_eth].
    unfold eth_type, PcapWriter.ether_header, PcapWriter.udp_header. cbn [e_vlan written_eth].
    rewrite <-!app_assoc, app_nil_r. done. }
  rewrite He. rewrite slice_whole by lia. unfold int_bytes.
  replace (14 + (20 + (8 + blen p))) with (42 + blen p) by lia. done.
Qed.

Lemma write_all_Ok w file ps :
  PcapWriter.fp_ w = Some file -> Forall writable ps ->
  exists w', write_all w ps = Ok w' /\
    PcapWriter.fp_ w' = Some (file ++ mjoin (capture_bytes false <$> (capture_of <$> (written_item <$> ps)))) /\
    PcapWriter.packets_written_ w' = Nat.iter (length ps) inc (PcapWriter.packets_written_ w).
Proof.
  intros Hf Hps. revert w file Hf. induction Hps as [|[ts p] ps Hp _ IH]; intros w file Hf.
  { exists w. cbn. by rewrite app_nil_r. }
  cbn [write_all]. rewrite (write_packet_Ok w file) by done. rewrite bind_Ok.
  match goal with |- context [write_all ?w1 ps] =>
    destruct (IH w1 _ eq_refl) as (w' & E & Hf' & Hn) end. exists w'. split; [done|].
  rewrite Hf'. split; [by rewrite <-app_assoc|]. rewrite Hn. cbn [length PcapWriter.packets_written_].
  by rewrite Nat.iter_succ_r.
Qed.

(** ** Reading back *)

(** The datagram fed for a written packet: its bytes, then whatever is behind them. *)
Definition as_written (p : Z * list byte) (i : input) : Prop :=
  match i with
  | Datagram memory len now => len = blen p.2 /\ now = p.1 * 1000 /\ p.2 `prefix_of` memory
  | Tick _ => False
  end.

Lemma item_ns_written p : writable p -> item_ns (written_item p) = p.1 * 1000.
Proof.
  intros [Ht _]. unfold item_ns. cbn [i_sec i_usec written_item].
  rewrite (Z.mul_comm (p.1 / 1000000)), <-Z.div_mod by done.
  rewrite (u64_small p.1), u64_small by width. done.
Qed.

Lemma datagrams_written cfg buf ps :
  PcapReader.filter_port cfg = 0 \/ PcapReader.filter_port cfg = 15001 -> Forall writable ps ->
  Forall2 as_written ps (datagrams cfg buf (written_item <$> ps)).
Proof.
  intros Hc Hps. revert buf. induction Hps as [|p ps Hp _ IH]; intros buf; [constructor|].
  cbn [fmap list_fmap datagrams].
  assert (selected cfg (written_item p) = true) as ->
    by (unfold selected; destruct Hc as [-> | ->]; done).
  constructor; [|apply IH]. cbn. split; [done|]. split; [by apply item_ns_written|].
  by eexists.
Qed.

Lemma counted_written cfg ps :
  PcapReader.filter_port cfg = 0 \/ PcapReader.filter_port cfg = 15001 ->
  forall st, counted cfg (written_item <$> ps) st =
    ReplayStats.mk (Nat.iter (length ps) inc (ReplayStats.packets_read st))
      (Nat.iter (length ps) inc (ReplayStats.udp_packets st)) (ReplayStats.non_udp_skipped st)
      (ReplayStats.truncated_skipped st) (ReplayStats.messages_ingested st).
Proof.
  intros Hc. induction ps as [|p ps IH]; intros st; [by destruct st|].
  cbn [fmap list_fmap counted length].
  assert (selected cfg (written_item p) = true) as ->
    by (unfold selected; destruct Hc as [-> | ->]; done).
  rewrite IH. cbn. by rewrite !Nat.iter_swap.
Qed.

Lemma length_captures swap cs : (length cs <= length (mjoin (capture_bytes swap <$> cs)))%nat.
Proof.
  induction cs as [|c cs IH]; [done|].
  change (mjoin (capture_bytes swap <$> c :: cs))
    with (capture_bytes swap c ++ mjoin (capture_bytes swap <$> cs)).
  assert (1 <= length (capture_bytes swap c))%nat
    by (unfold capture_bytes; rewrite !length_app, !length_int_bytes; lia).
  rewrite length_app. cbn [length]. lia.
Qed.

Lemma replay_written {T} `{PacketSink T} cfg ps buf (s : T) :
  PcapReader.filter_port cfg = 0 \/ PcapReader.filter_port cfg = 15001 ->
  Forall writable ps -> blen buf = PcapReader.kFrameBuf ->
  exists w,
    write_all (PcapWriter.create true) ps = Ok w /\
    Unpaced.replay cfg (PcapWriter.fp_ w) buf s =
    ('(s', evs, n) ← feed s (datagrams cfg buf (written_item <$> ps)) 0;
     mret (ReplayStats.mk (Nat.iter (length ps) inc 0) (Nat.iter (length ps) inc 0) 0 0 n,
           s', evs, datagrams cfg buf (written_item <$> ps))).
Proof.
  intros Hc Hps Hb.
  destruct (write_all_Ok (PcapWriter.create true) _ ps eq_refl Hps) as (w & E & Hf & _).
  exists w. split; [done|]. rewrite Hf. unfold Unpaced.replay.
  set (file := _ ++ mjoin _).
  assert (Hlen : blen file = 24 + blen (mjoin (capture_bytes false <$> (capture_of <$> (written_item <$> ps)))))
    by (unfold file; rewrite length_app, Nat2Z.inj_add; done).
  rewrite (proj2 (Z.ltb_ge _ _)) by lia.
  assert (load_le (slice file 0 4) = kPcapMagicLE) as -> by (unfold file; rewrite slice_app_l by done; done).
  change (kPcapMagicLE =? kPcapMagicBE) with false. rewrite Z.eqb_refl. cbn [negb andb].
  assert (drop 24 file = mjoin (capture_bytes false <$> (capture_of <$> (written_item <$> ps)))) as ->
    by (unfold file; by apply drop_app_length').
  rewrite replay_loop_spec; [| |done|].
  2:{ apply Forall_fmap. eapply Forall_impl; [exact Hps|]. intros p Hp. by apply written_item_ok. }
  - rewrite (counted_written cfg ps Hc). done.
  - rewrite length_fmap. apply Nat.lt_succ_r. unfold file. rewrite length_app.
    pose proof (length_captures false (capture_of <$> (written_item <$> ps))) as Hl.
    rewrite !length_fmap in Hl. lia.
Qed.

Lemma replay_captures (T : Type) `{PacketSink T} (cfg : PcapReader.Config)
    (swap : bool) (rest buf : list byte) (items : list item) (s : T) :
  length rest = 20%nat -> Forall item_ok items -> blen buf = PcapReader.kFrameBuf ->
  Unpaced.replay cfg (Some (pcap_file swap rest (capture_of <$> items))) buf s =
  ('(s', evs, n) ← feed s (datagrams cfg buf items) 0;
   mret (with_ingested (counted cfg items ReplayStats.init) n, s', evs, datagrams cfg buf items)).
Proof.
  intros Hr Hi Hb. unfold Unpaced.replay, pcap_file. set (body := mjoin _).
  assert (Hl : length (int_bytes swap 4 kPcapMagicLE) = 4%nat) by apply length_int_bytes.
  rewrite (proj2 (Z.ltb_ge _ _)) by (rewrite !length_app; lia).
  rewrite (slice_app_hd (int_bytes swap 4 kPcapMagicLE)) by (rewrite ?Hl; done).
  assert (load_le (int_bytes swap 4 kPcapMagicLE) = if swap then kPcapMagicBE else kPcapMagicLE) as ->
    by (by destruct swap).
  assert (drop 24 (int_bytes swap 4 kPcapMagicLE ++ rest ++ body) = body) as ->
    by (rewrite app_assoc; apply drop_app_length'; rewrite length_app; lia).
  assert (((if swap then kPcapMagicBE else kPcapMagicLE) =? kPcapMagicBE) = swap) as -> by (by destruct swap).
  assert (negb ((if swap then kPcapMagicBE else kPcapMagicLE) =? kPcapMagicLE) && negb swap = false)
    as -> by (by destruct swap).
  apply replay_loop_spec; [done | done|]. rewrite !length_app.
  pose proof (length_captures swap (capture_of <$> items)) as Hc. rewrite length_fmap in Hc.
  fold body in Hc. lia.
Qed.

(** C32.  Replay feeds the file: for every capture of either byte order, with any
    frames [extract_udp] can decode, replay hands the consumer exactly the UDP
    payloads addressed to the filtered port, in file order, each with its capture
    time in nanoseconds, counts every record once, and ends (the fuel is never
    what stops it; with [realtime] set, the clock gets to the time of every
    frame). *)
Theorem replay_feeds_captures (T : Type) `{PacketSink T} (cfg : PcapReader.Config)
    (swap : bool) (rest buf : list byte) (items : list item) (s : T) (clock : PcapReader.timing) :
  length rest = 20%nat -> Forall item_ok items -> blen buf = PcapReader.kFrameBuf ->
  clock_runs cfg (Some (pcap_file swap rest (capture_of <$> items))) clock = true ->
  exists ats,
    PcapReader.replay cfg (Some (pcap_file swap rest (capture_of <$> items))) buf s clock =
    ('(s', evs, n) ← feed s (datagrams cfg buf items) 0;
     mret (with_ingested (counted cfg items ReplayStats.init) n, s', evs, datagrams cfg buf items, ats)).
Proof.
  intros Hr Hi Hb Hc. destruct (replay_unpaced cfg _ buf s clock Hc) as [ats ->]. exists ats.
  rewrite replay_captures by done. by destruct (feed s _ 0) as [[[s' evs] n]|].
Qed.

Definition test_items : list item :=
  [mk_item 1700000000 250 0 test_eth;
   mk_item 1700000000 300 0 (written_eth (packet_wire session_bytes 1 [test_stream 1]))].
Definition zero_buf : list byte := replicate (Z.to_nat PcapReader.kFrameBuf) Corelib.Init.Byte.x00.

Lemma zero_buf_size : blen zero_buf = PcapReader.kFrameBuf.
Proof. unfold zero_buf. rewrite length_replicate. apply Z2Nat.id. discriminate. Qed.

Lemma test_items_ok : Forall item_ok test_items.
Proof.
  apply Forall_cons. split; [split; [exact test_eth_ok | by vm_compute ..]|].
  apply Forall_singleton. split; [by apply written_eth_ok | by vm_compute ..].
Qed.

(** A clock for two frames 50 microseconds apart, at twice the speed. *)
Definition two_readings : PcapReader.timing :=
  [(mk_timespec 7 1000, []); (mk_timespec 7 1200, [mk_timespec 7 1300; mk_timespec 7 31000])].

Lemma replay_feeds_captures_witness :
  let cfg := PcapReader.mk_Config true 2 0 in
  exists ats,
    PcapReader.replay cfg (Some (pcap_file true (replicate 20 (z2b 0)) (capture_of <$> test_items)))
      zero_buf (listening test_config true true true) two_readings =
    ('(s', evs, n) ← feed (listening test_config true true true) (datagrams cfg zero_buf test_items) 0;
     mret (with_ingested (counted cfg test_items ReplayStats.init) n, s', evs,
           datagrams cfg zero_buf test_items, ats)).
Proof.
  intros cfg. apply (replay_feeds_captures GapBuffer.t);
    [reflexivity | exact test_items_ok | exact zero_buf_size | by vm_compute].
Defined.

(** ** From the publisher to the consumer *)

Lemma whole_carries_prefix S start cnt p m ts now :
  p `prefix_of` m -> whole_carries S start cnt (Datagram p (blen p) ts) ->
  whole_carries S start cnt (Datagram m (blen p) now).
Proof.
  intros Hm [Hw Hc]. pose proof Hw as ((Hlo & Hhi) & _ & Hst & Hcnt & Hlen).
  assert (Hl : blen p <= blen m) by (destruct Hm as [k ->]; rewrite length_app; lia).
  unfold whole_carries, whole_input, whole_packet, carries, sane in *.
  rewrite !(packet_messages_prefix p m), !(header_prefix p m) by done. tauto.
Qed.

(** Feeding a gap buffer is running it. *)
Lemma feed_run (g g' : GapBuffer.t) evs ins n :
  Forall (fun i => match i with Datagram _ _ _ => True | Tick _ => False end) ins ->
  run g ins = Ok (g', evs) -> exists n', feed g ins n = Ok (g', evs, n').
Proof.
  intros Hd. revert g evs n. induction Hd as [|i ins Hi _ IH]; intros g evs n Hr.
  { injection Hr as -> <-. by exists n. }
  destruct i as [p len now|]; [|done]. cbn [run apply_input] in Hr. cbn [feed sink_ingest GapBuffer_sink].
  destruct (GapBuffer.ingest g p len now) as [[[g1 e1] r]|]; [|done]. rewrite !bind_Ok in Hr. rewrite bind_Ok.
  destruct (run g1 ins) as [[g2 e2]|] eqn:E; [|done]. injection Hr as <- <-.
  destruct (IH g1 e2 (if 0 <? r then u64 (n + r) else n) E) as [n' ->]. by exists n'.
Qed.

(** A packet of the publisher, with its capture time. *)
Definition published (S : Z -> list byte) (start : Z -> Prop) (cnt : Z -> Z) (p : Z * list byte) : Prop :=
  writable p /\ whole_carries S start cnt (Datagram p.2 (blen p.2) p.1).

Definition seq_of (p : Z * list byte) : Z := MoldHeader.seq_num (header p.2).

Lemma as_written_facts S start cnt ps ds :
  Forall2 as_written ps ds -> Forall (published S start cnt) ps ->
  Forall (whole_carries S start cnt) ds /\
  Forall (fun i => match i with Datagram _ _ _ => True | Tick _ => False end) ds /\
  (forall p, p ∈ ps -> received ds (seq_of p)) /\
  forall g, GapBuffer.session_synced_ g = false -> session_start g ds =
    match ps with p :: _ => seq_of p | [] => GapBuffer.next_expected_ g end.
Proof.
  induction 1 as [|p i ps ds Hp _ IH]; intros Hps.
  { split; [done|]. split; [done|]. split; [by intros p ?%elem_of_nil|]. intros g Hg. cbn. by rewrite Hg. }
  apply Forall_cons in Hps as [[Hw Hc] Hps]. destruct (IH Hps) as (H1 & H2 & H3 & _).
  destruct i as [m len now|]; [|done]. destruct Hp as (-> & -> & Hpre).
  assert (Hlo : kMoldHeaderSize <= blen p.2) by apply Hc.
  split; [constructor; [by eapply whole_carries_prefix | done]|].
  split; [by constructor|]. split.
  - intros q [->|Hq]%elem_of_cons.
    + exists m, (blen p.2), (p.1 * 1000). split; [apply list_elem_of_here|].
      unfold seq_of. by rewrite (header_prefix p.2 m).
    + destruct (H3 q Hq) as (m' & l & t & Hin & Hs). exists m', l, t.
      split; [by apply list_elem_of_further | done].
  - intros g Hg. cbn [session_start]. rewrite Hg, (proj2 (Z.ltb_ge _ _)) by lia.
    unfold seq_of. by rewrite (header_prefix p.2 m).
Qed.

(** C9.  Capture and replay lose nothing: when the packets of a window of the stream
    are written with [PcapWriter] in any order, with any repetitions, the first
    one first, and the file is replayed into a gap buffer, whatever the reader's
    buffer held, the consumer receives the whole window in order, each message
    once, and the replay statistics count every packet as a UDP packet; with
    [realtime] set, whatever the times and the clock, as long as it gets to the
    time of every frame. *)
Theorem captured_window_delivered (S : Z -> list byte) (c : GapBuffer.Config) (on_gap on_retx : bool)
    (n0 N : Z) (start : Z -> Prop) (cnt : Z -> Z) (cfg : PcapReader.Config) (buf : list byte)
    (p0 : Z * list byte) (ps : list (Z * list byte)) :
  length (GapBuffer.cfg_session c) = 10%nat ->
  packetization n0 N start cnt -> 0 <= n0 -> N < 2 ^ 64 -> N - n0 <= GapBuffer.kCapacity ->
  PcapReader.filter_port cfg = 0 \/ PcapReader.filter_port cfg = 15001 ->
  blen buf = PcapReader.kFrameBuf ->
  Forall (published S start cnt) (p0 :: ps) -> seq_of p0 = n0 ->
  (forall f, start f -> exists p, p ∈ p0 :: ps /\ seq_of p = f) ->
  exists w st g evs fed,
    write_all (PcapWriter.create true) (p0 :: ps) = Ok w /\
    (forall clock, clock_runs cfg (PcapWriter.fp_ w) clock = true ->
       exists ats, PcapReader.replay cfg (PcapWriter.fp_ w) buf (listening c true on_gap on_retx) clock
                   = Ok (st, g, evs, fed, ats)) /\
    GapBuffer.next_expected_ g = N /\
    (fun m => (MoldMessage.seq_num m, msg_content m)) <$> messages evs
      = (fun k => (k, S k)) <$> seqZ n0 (N - n0) /\
    ReplayStats.udp_packets st = Nat.iter (length (p0 :: ps)) inc 0 /\
    ReplayStats.non_udp_skipped st = 0.
Proof.
  intros Hc PZ Hn0 HN Hwin Hport Hb Hps Hfirst Hall.
  assert (Hwr : Forall writable (p0 :: ps)) by (eapply Forall_impl; [exact Hps | by intros p []]).
  destruct (replay_written cfg (p0 :: ps) buf (listening c true on_gap on_retx) Hport Hwr Hb)
    as (w & Ew & Er).
  pose proof (datagrams_written cfg buf _ Hport Hwr) as Hds.
  set (ds := datagrams cfg buf (written_item <$> p0 :: ps)) in *.
  destruct (as_written_facts S start cnt _ ds Hds Hps) as (Hwc & Hdg & Hrec & Hstart).
  destruct (run_complete S c on_gap on_retx n0 N start cnt ds) as (g & evs & Hr & Hn & Hm); [done..| | |].
  { intros f Hf. destruct (Hall f Hf) as (p & Hp & <-). by apply Hrec. }
  { rewrite Hstart by done. done. }
  destruct (feed_run _ g evs ds 0 Hdg Hr) as [n' Hf]. rewrite Hf, bind_Ok in Er.
  eexists w, _, g, evs, ds. split; [done|].
  split; [intros clock; by apply replay_unpaced_Ok|]. split; [done|]. split; [exact Hm | done].
Qed.

Definition test_publication : list (Z * list byte) :=
  [(1700000000000000, packet_wire session_bytes 1 [test_stream 1]);
   (1700000000000100, packet_wire session_bytes 4 [test_stream 4]);
   (1700000000000100, packet_wire session_bytes 4 [test_stream 4]);
   (1700000000000200, packet_wire session_bytes 2 [test_stream 2; test_stream 3])].

Lemma test_published : Forall (published test_stream test_start test_cnt) test_publication.
Proof.
  repeat (apply Forall_cons; split); [.. | by apply Forall_nil];
    (split; [by vm_compute|]; split;
      [ split; [by vm_compute|]; split; [by vm_compute|]; split; [vm_compute; auto | by vm_compute]
      | split; [ by vm_compute
               | intros _ k b H; vm_compute in H;
                 repeat (destruct k as [|k]; [by injection H as <- | ]); done ] ]).
Qed.

Lemma captured_window_delivered_witness :
  exists w st g evs fed,
    write_all (PcapWriter.create true) test_publication = Ok w /\
    (forall clock, clock_runs (PcapReader.mk_Config true 1 15001) (PcapWriter.fp_ w) clock = true ->
       exists ats, PcapReader.replay (PcapReader.mk_Config true 1 15001) (PcapWriter.fp_ w) zero_buf
                     (listening test_config true true true) clock = Ok (st, g, evs, fed, ats)) /\
    GapBuffer.next_expected_ g = 5 /\
    (fun m => (MoldMessage.seq_num m, msg_content m)) <$> messages evs
      = (fun k => (k, test_stream k)) <$> seqZ 1 (5 - 1) /\
    ReplayStats.udp_packets st = Nat.iter (length test_publication) inc 0 /\
    ReplayStats.non_udp_skipped st = 0.
Proof.
  apply (captured_window_delivered test_stream test_config true true 1 5 test_start test_cnt);
    [reflexivity | exact test_packetization | done | done | done | by right | exact zero_buf_size
    | exact test_published | by vm_compute |].
  intros f Hf. destruct Hf as [->|[->| ->]]; eexists;
    [ split; [apply list_elem_of_here | by vm_compute]
    | split; [do 3 apply list_elem_of_further; apply list_elem_of_here | by vm_compute]
    | split; [do 1 apply list_elem_of_further; apply list_elem_of_here | by vm_compute] ].
Defined.
