(* ===== verification/PcapEdge.v ===== *)
(** * PcapEdge: captures at the limits of their 16-bit lengths

    What the reader does with a truncated frame, and the writer with a payload
    whose frame length does not fit. *)

From stdpp Require Import base gmap list strings fin_maps.
From Stdlib Require Import ZArith Lia.
From S2P Require Import Prelude WireFormat WireLemmas GapBuf GapRun Sink Pcap Pacing Unpaced PcapProps PcapRound.

#[local] Open Scope Z_scope.
Import PcapReader.

(** A truncated frame is read past its end: [extract_udp] trusts the UDP length
    field and never compares it with the bytes that were captured.  As soon as
    the headers are complete, whatever length [L] the record has, it reports the
    full payload; everything beyond [L] comes from [frame_buf]'s earlier
    contents, and is handed to the consumer as if it had been received. *)
Theorem truncated_frame_reads_stale (e : eth) (stale : list byte) (L : Z) :
  eth_ok e -> ip_start e + 4 * e_ihl e + 8 <= L <= blen (eth_frame e) ->
  extract_udp (eth_frame e ++ stale) L
  = extract_udp (eth_frame e ++ stale) (blen (eth_frame e)).
Proof.
  intros He [HL _]. destruct (extract_udp_cut e stale He L HL) as [-> _].
  by destruct (extract_udp_spec e stale He) as [-> _].
Qed.

Lemma truncated_frame_reads_stale_witness :
  extract_udp (eth_frame test_eth ++ [z2b 8]) 50
  = extract_udp (eth_frame test_eth ++ [z2b 8]) (blen (eth_frame test_eth)).
Proof. apply truncated_frame_reads_stale; [exact test_eth_ok | by vm_compute]. Defined.

(** Large packets are lost by the writer: for a payload of 65494 to 65507 bytes,
    which [write_mold_packet] accepts, [frame_len] wraps at 16 bits; the writer
    reports success and counts the packet, but records a frame of at most 13
    bytes, which no reader can decode. *)
Theorem oversized_write_truncates (w : PcapWriter.t) (file : list byte) (ts : Z) (payload : list byte) :
  PcapWriter.fp_ w = Some file -> 65494 <= blen payload <= 65507 ->
  exists w' rec,
    PcapWriter.write_packet w ts payload (blen payload) = Ok (w', true) /\
    PcapWriter.packets_written_ w' = inc (PcapWriter.packets_written_ w) /\
    PcapWriter.fp_ w' = Some (file ++ rec) /\
    blen rec = 16 + (blen payload - 65494) /\
    extract_udp (drop 16 rec) (blen (drop 16 rec)) = Ok None.
Proof.
  intros Hf Hl. unfold PcapWriter.write_packet. rewrite Hf. cbv zeta.
  rewrite (u16_small (8 + blen payload)) by width. rewrite (u16_small (20 + _)) by width.
  rewrite mem_read_Ok, bind_Ok, (slice_all payload) by lia.
  assert (u16 (14 + (20 + (8 + blen payload))) = blen payload - 65494) as ->.
  { unfold u16. replace (14 + (20 + (8 + blen payload))) with (blen payload - 65494 + 1 * 2 ^ 16) by lia.
    rewrite Z.mod_add by lia. apply Z.mod_small. lia. }
  set (rh := PcapRecordHeader.bytes _). set (frame := slice _ 0 _).
  assert (Hr : length rh = 16%nat)
    by (unfold rh, PcapRecordHeader.bytes; by rewrite !length_app, !length_store_le).
  assert (Hfr : blen frame = blen payload - 65494).
  { unfold frame. rewrite length_slice; rewrite ?length_app; lia. }
  eexists _, (rh ++ frame). split; [done|]. split; [done|]. split; [done|].
  rewrite length_app, Hr. split; [lia|].
  rewrite drop_app_length' by done. unfold extract_udp, ether_payload.
  by rewrite (proj2 (Z.ltb_lt _ _)) by lia.
Qed.

Lemma oversized_write_truncates_witness :
  let p := replicate (Z.to_nat 65500) (z2b 0) in
  exists w' rec,
    PcapWriter.write_packet (PcapWriter.create true) 0 p (blen p) = Ok (w', true) /\
    PcapWriter.packets_written_ w' = inc (PcapWriter.packets_written_ (PcapWriter.create true)) /\
    PcapWriter.fp_ w' = Some (PcapGlobalHeader.bytes PcapGlobalHeader.init ++ rec) /\
    blen rec = 16 + (blen p - 65494) /\
    extract_udp (drop 16 rec) (blen (drop 16 rec)) = Ok None.
Proof.
  intros p. apply oversized_write_truncates; [reflexivity|]. unfold p.
  rewrite length_replicate, Z2Nat.id by discriminate. split; discriminate.
Defined.
