(* ===== verification/PcapTotal.v ===== *)
(** * PcapTotal: replaying arbitrary files

    No hypothesis on what the file holds: the reading loop ends, every frame read
    is classified once, and the only read that can leave the frame buffer is that
    of a datagram whose UDP length claims more than the buffer has. *)

From stdpp Require Import base gmap list strings fin_maps.
From Stdlib Require Import ZArith Lia.
From S2P Require Import Prelude WireFormat WireLemmas GapBuf GapWalk Framing.
From S2P Require Import GapInv GapStep GapRun GapProps GapSafety Sink Pcap Pacing Unpaced PcapProps PcapRound.

#[local] Open Scope Z_scope.
Import PcapReader.

(** ** One frame *)

Definition extracted (frame : list byte) (L : Z) (r : option (Z * Z * Z)) : Prop :=
  extract_udp frame L = Ok r /\
  match r with
  | Some (payload, pay_len, _) => 0 <= payload <= L /\ 0 <= pay_len < 2 ^ 16 - 8
  | None => True
  end.

(** What [extract_udp] does behind the Ethernet header. *)
Definition ip_part (frame : list byte) (ethertype ip remaining : Z) : res (option (Z * Z * Z)) :=
  if negb (ethertype =? 0x0800) then mret None else
  if remaining <? 20 then mret None else
  b0 ← byte_at frame ip;
  let ihl := u8 (Z.land b0 0x0F * 4) in
  proto ← byte_at frame (ip + 9);
  if negb (proto =? kIpprotoUdp) then mret None else
  if remaining <? ihl + 8 then mret None else
  let udp := ip + ihl in
  dst_port ← be16 frame (udp + 2);
  udp_len ← be16 frame (udp + 4);
  if udp_len <? 8 then mret None
  else mret (Some (udp + 8, udp_len - 8, dst_port)).

Section Local.
Context (fr stale : list byte).

Lemma be16_local off :
  0 <= off -> off + 2 <= blen fr ->
  be16 fr off = Ok (be_val (slice fr off 2)) /\ be16 (fr ++ stale) off = Ok (be_val (slice fr off 2)).
Proof. intros H0 HL. rewrite !be16_Ok by (rewrite ?length_app; lia). by rewrite slice_app_l. Qed.

Lemma byte_at_local off :
  0 <= off < blen fr ->
  exists v, is_u8 v /\ byte_at fr off = Ok v /\ byte_at (fr ++ stale) off = Ok v.
Proof.
  intros Ho. destruct (lookup_lt_is_Some_2 fr (Z.to_nat off)) as [b Hb]; [lia|].
  exists (b2z b). split; [apply b2z_range|]. split; apply byte_at_Ok; try lia; [done|].
  by apply lookup_app_l_Some.
Qed.

Lemma ip_part_local ethertype ip remaining :
  ip + remaining = blen fr -> 14 <= ip ->
  exists r,
    ip_part fr ethertype ip remaining = Ok r /\ ip_part (fr ++ stale) ethertype ip remaining = Ok r /\
    match r with
    | Some (payload, pay_len, _) => 0 <= payload <= blen fr /\ 0 <= pay_len < 2 ^ 16 - 8
    | None => True
    end.
Proof.
  intros Hr H0. unfold ip_part. cbv zeta. destruct (negb _); [by exists None|].
  destruct (Z.ltb_spec remaining 20); [by exists None|].
  destruct (byte_at_local ip) as (v & Hv & -> & ->); [lia|]. rewrite !bind_Ok.
  destruct (byte_at_local (ip + 9)) as (w & _ & -> & ->); [lia|]. rewrite !bind_Ok.
  destruct (negb _); [by exists None|]. set (ihl := u8 _).
  assert (Hi : is_u8 ihl) by apply u8_range.
  destruct (Z.ltb_spec remaining (ihl + 8)); [by exists None|]. unfold is_u8 in Hi.
  destruct (be16_local (ip + ihl + 2)) as [-> ->]; [lia..|].
  destruct (be16_local (ip + ihl + 4)) as [-> ->]; [lia..|]. rewrite !bind_Ok.
  pose proof (be_val_2_range fr (ip + ihl + 4)) as Hu.
  destruct (Z.ltb_spec (be_val (slice fr (ip + ihl + 4) 2)) 8); [by exists None|].
  eexists (Some _). split; [done|]. split; [done|]. width.
Qed.

(** Inside a frame of [L] captured bytes [extract_udp] reads captured bytes only. *)
Lemma extract_udp_local : exists r, extracted fr (blen fr) r /\ extracted (fr ++ stale) (blen fr) r.
Proof.
  set (L := blen fr). unfold extracted, extract_udp, ether_payload.
  destruct (Z.ltb_spec L 14) as [|H14]; [by exists None|].
  destruct (be16_local 12) as [-> ->]; [lia..|]. rewrite !bind_Ok. cbv zeta.
  destruct (be_val (slice fr 12 2) =? 0x8100).
  - destruct (Z.ltb_spec (L - 14) 4); [by exists None|].
    destruct (be16_local (14 + 2)) as [-> ->]; [lia..|]. rewrite !bind_Ok.
    destruct (ip_part_local (be_val (slice fr (14 + 2) 2)) (14 + 4) (L - 14 - 4)) as (r & E1 & E2 & E3); [lia..|].
    exists r. auto.
  - destruct (ip_part_local (be_val (slice fr 12 2)) 14 (L - 14)) as (r & E1 & E2 & E3); [lia..|].
    exists r. auto.
Qed.

End Local.

(** ** The file *)

(** The frames the loop reads: records that are too long are skipped, a cut one ends
    the file. *)
Fixpoint frames (fuel : nat) (swap : bool) (file : list byte) : list (list byte) :=
  match fuel with
  | O => []
  | S fuel' =>
      if blen file <? 16 then [] else
      let incl := maybe_swap32 swap (PcapRecordHeader.incl_len (PcapRecordHeader.of_bytes (slice file 0 16))) in
      let rest := drop 16 file in
      if kFrameBuf <? incl then frames fuel' swap (drop (Z.to_nat incl) rest)
      else if blen rest <? incl then []
      else take (Z.to_nat incl) rest :: frames fuel' swap (drop (Z.to_nat incl) rest)
  end.

(** The frame is not UDP, or the payload its UDP length claims ends in the buffer. *)
Definition fits_buffer (frame : list byte) : Prop :=
  match extract_udp frame (blen frame) with
  | Ok (Some (payload, pay_len, _)) => payload + pay_len <= kFrameBuf
  | _ => True
  end.

Lemma maybe_swap32_nonneg swap v : 0 <= v -> 0 <= maybe_swap32 swap v.
Proof. intros Hv. destruct swap; [|done]. apply load_le_range. Qed.

(** The counters of a replay from [st]: [n] more frames read, each counted as UDP or
    as skipped. *)
Record counted_all (n : Z) (st st' : ReplayStats.t) : Prop := {
  ca_read : ReplayStats.packets_read st' = ReplayStats.packets_read st + n;
  ca_split : ReplayStats.udp_packets st' + ReplayStats.non_udp_skipped st'
    = ReplayStats.udp_packets st + ReplayStats.non_udp_skipped st + n;
  ca_udp : ReplayStats.udp_packets st <= ReplayStats.udp_packets st';
  ca_skip : ReplayStats.non_udp_skipped st <= ReplayStats.non_udp_skipped st'
}.

Definition counts_fit (n : Z) (st : ReplayStats.t) : Prop :=
  0 <= ReplayStats.packets_read st /\ ReplayStats.packets_read st + n < 2 ^ 64 /\
  0 <= ReplayStats.udp_packets st /\ 0 <= ReplayStats.non_udp_skipped st /\
  ReplayStats.udp_packets st + ReplayStats.non_udp_skipped st = ReplayStats.packets_read st.

(** One frame was read, and counted on one side. *)
Definition one_more (st st1 : ReplayStats.t) : Prop :=
  ReplayStats.packets_read st1 = inc (ReplayStats.packets_read st) /\
  (ReplayStats.udp_packets st1 = inc (ReplayStats.udp_packets st) /\
   ReplayStats.non_udp_skipped st1 = ReplayStats.non_udp_skipped st \/
   ReplayStats.udp_packets st1 = ReplayStats.udp_packets st /\
   ReplayStats.non_udp_skipped st1 = inc (ReplayStats.non_udp_skipped st)).

Lemma one_more_fits n st st1 :
  counts_fit (1 + n) st -> one_more st st1 -> 0 <= n ->
  counts_fit n st1 /\ ReplayStats.packets_read st1 = ReplayStats.packets_read st + 1 /\
  ReplayStats.udp_packets st <= ReplayStats.udp_packets st1 /\
  ReplayStats.non_udp_skipped st <= ReplayStats.non_udp_skipped st1.
Proof.
  intros (H1 & H2 & H3 & H4 & H5) (E1 & E2) Hn. unfold inc in *. rewrite u64_small in E1 by width.
  destruct E2 as [[E2 E3]|[E2 E3]]; rewrite u64_small in * by width; unfold counts_fit; lia.
Qed.

Lemma one_more_counted n st st1 st' :
  counts_fit (1 + n) st -> one_more st st1 -> 0 <= n ->
  counted_all n st1 st' -> counted_all (1 + n) st st'.
Proof.
  intros Hc H1 Hn. destruct (one_more_fits n st st1 Hc H1 Hn) as ((? & ? & ? & ? & E) & ? & ? & ?).
  destruct Hc as (_ & _ & _ & _ & Hc). intros []. split; lia.
Qed.

Lemma length_frames fuel swap file : (length (frames fuel swap file) <= length file)%nat.
Proof.
  revert file. induction fuel as [|fuel IH]; intros file; [cbn; lia|]. cbn [frames].
  destruct (Z.ltb_spec (blen file) 16); [cbn; lia|]. cbv zeta.
  assert (Hd : forall k, (length (drop k (drop 16 file)) + 1 <= length file)%nat)
    by (intros; rewrite !length_drop; lia).
  match goal with |- context [drop (Z.to_nat ?i) (drop 16 file)] =>
    specialize (Hd (Z.to_nat i)); specialize (IH (drop (Z.to_nat i) (drop 16 file))) end.
  destruct (_ <? _); [lia|]. destruct (_ <? _); cbn [length]; lia.
Qed.

Section Loop.
Context (cfg : Config) (swap : bool).

Lemma replay_loop_total fuel file buf st (g : GapBuffer.t) :
  (length file < fuel)%nat -> blen buf = kFrameBuf -> mem_inv g ->
  Forall fits_buffer (frames fuel swap file) -> counts_fit (blen (frames fuel swap file)) st ->
  exists st' g' evs fed,
    Unpaced.replay_loop fuel cfg swap file buf st g = Ok (st', g', evs, fed) /\ mem_inv g' /\
    counted_all (blen (frames fuel swap file)) st st'.
Proof using Type.
  revert file buf st g. induction fuel as [|fuel IH]; intros file buf st g Hf Hb Hi; [lia|].
  cbn [Unpaced.replay_loop frames]. destruct (Z.ltb_spec (blen file) 16).
  { intros _ _. exists st, g, [], []. split; [done|]. split; [done|]. cbn. split; lia. }
  cbv zeta. set (rh := PcapRecordHeader.of_bytes _). set (incl := maybe_swap32 swap _).
  assert (Hincl : 0 <= incl) by (apply maybe_swap32_nonneg, load_le_range).
  assert (Hd : forall k, (length (drop k (drop 16 file)) < fuel)%nat)
    by (intros; rewrite !length_drop; lia).
  destruct (Z.ltb_spec kFrameBuf incl).
  { intros Hfit Hc. destruct (IH (drop (Z.to_nat incl) (drop 16 file)) buf
      (ReplayStats.inc_truncated st) g) as (st' & g' & evs & fed & E & Hi' & []); try done.
    exists st', g', evs, fed. by split. }
  destruct (Z.ltb_spec (blen (drop 16 file)) incl).
  { intros _ _. exists st, g, [], []. split; [done|]. split; [done|]. cbn. split; lia. }
  set (rest := drop 16 file) in *. intros [Hfit1 Hfit]%Forall_cons Hc.
  set (fr := take (Z.to_nat incl) rest) in *. change (slice rest 0 incl) with fr.
  assert (Hfr : blen fr = incl) by (unfold fr; rewrite length_take; lia).
  rewrite mem_write_splice, bind_Ok, splice_0 by lia. set (buf' := fr ++ _).
  assert (Hb' : blen buf' = kFrameBuf) by (unfold buf'; rewrite length_app, length_drop; lia).
  destruct (extract_udp_local fr (drop (length fr) buf)) as (r & [Er Hr] & [Er' _]).
  fold buf' in Er'. rewrite Hfr in Er'. rewrite Er', bind_Ok.
  cbn [length] in Hc. rewrite Nat2Z.inj_succ, <-Z.add_1_l in Hc.
  assert (Hn : 0 <= blen (frames fuel swap (drop (Z.to_nat incl) rest))) by lia.
  assert (Hgo : forall st1 g1, one_more st st1 -> mem_inv g1 -> exists st' g' evs fed,
      Unpaced.replay_loop fuel cfg swap (drop (Z.to_nat incl) rest) buf' st1 g1 = Ok (st', g', evs, fed) /\
      mem_inv g' /\ counted_all (blen (fr :: frames fuel swap (drop (Z.to_nat incl) rest))) st st').
  { intros st1 g1 Hst1 Hi1. destruct (one_more_fits _ st st1 Hc Hst1 Hn) as [Hc1 _].
    destruct (IH (drop (Z.to_nat incl) rest) buf' st1 g1) as (st' & g' & evs & fed & E & Hi' & Hc'); try done.
    exists st', g', evs, fed. split; [done|]. split; [done|]. cbn [length].
    rewrite Nat2Z.inj_succ, <-Z.add_1_l. by eapply one_more_counted. }
  assert (Hskip : one_more st (ReplayStats.inc_non_udp (ReplayStats.inc_read st))) by (split; [done | by right]).
  destruct r as [[[payload pay_len] port]|]; [|by apply Hgo].
  destruct (_ && _); [by apply Hgo|].
  unfold fits_buffer in Hfit1. rewrite Er in Hfit1. destruct Hr as [Hp Hl].
  destruct (ingest_safe g (drop (Z.to_nat payload) buf') pay_len
    (u64 (u64 (maybe_swap32 swap (PcapRecordHeader.ts_sec rh) * 1000000
      + maybe_swap32 swap (PcapRecordHeader.ts_usec rh)) * 1000)) Hi) as (g1 & e1 & n & Eg & Hi1 & _).
  { rewrite length_drop. lia. }
  change sink_ingest with GapBuffer.ingest. rewrite Eg, bind_Ok.
  set (st1 := if 0 <? n then _ else _).
  assert (Hst1 : one_more st st1)
    by (unfold st1; destruct (0 <? n); (split; [done | by left])).
  destruct (Hgo st1 g1 Hst1 Hi1) as (st' & g' & evs & fed & E & Hi' & Hc').
  rewrite E, bind_Ok. by eexists st', g', _, _.
Qed.

End Loop.

(** The frames of a whole file; none, when the header is cut or unknown. *)
Definition file_frames (file : list byte) : list (list byte) :=
  let magic := load_le (slice file 0 4) in
  if blen file <? 24 then [] else
  if negb (magic =? kPcapMagicLE) && negb (magic =? kPcapMagicBE) then []
  else frames (S (length file)) (magic =? kPcapMagicBE) (drop 24 file).

(** The replay without its clock ends on any file. *)
Lemma unpaced_total (cfg : Config) (file buf : list byte) (c : GapBuffer.Config)
    (on_message on_gap on_retx : bool) :
  length (GapBuffer.cfg_session c) = 10%nat -> blen buf = kFrameBuf -> blen file < 2 ^ 63 ->
  Forall fits_buffer (file_frames file) ->
  exists st g evs fed,
    Unpaced.replay cfg (Some file) buf (listening c on_message on_gap on_retx) = Ok (st, g, evs, fed) /\
    ReplayStats.packets_read st = blen (file_frames file) /\
    ReplayStats.udp_packets st + ReplayStats.non_udp_skipped st = blen (file_frames file) /\
    0 <= ReplayStats.udp_packets st /\ 0 <= ReplayStats.non_udp_skipped st.
Proof.
  intros Hc Hb Hlen. unfold Unpaced.replay, file_frames. destruct (_ <? 24).
  { intros _. by eexists _, _, _, _. }
  cbv zeta. destruct (_ && _); [intros _; by eexists _, _, _, _|]. intros Hfit.
  set (fs := frames _ _ _) in *.
  assert (Hfs : (length fs <= length file)%nat).
  { etransitivity; [apply length_frames|]. rewrite length_drop. lia. }
  destruct (replay_loop_total cfg (load_le (slice file 0 4) =? kPcapMagicBE) (S (length file))
    (drop 24 file) buf ReplayStats.init (listening c on_message on_gap on_retx))
    as (st & g & evs & fed & E & _ & [C1 C2 C3 C4]); try done.
  - rewrite length_drop. lia.
  - by apply listening_mem_inv.
  - fold fs. unfold counts_fit, ReplayStats.init. cbn [ReplayStats.packets_read ReplayStats.udp_packets
      ReplayStats.non_udp_skipped]. lia.
  - fold fs in C1, C2. cbn [ReplayStats.packets_read ReplayStats.udp_packets
      ReplayStats.non_udp_skipped ReplayStats.init] in C1, C2, C3, C4.
    exists st, g, evs, fed. split; [done|]. lia.
Qed.

(** C13.  Replay terminates on any file, exactly when its clock lets it: whatever bytes the
    file holds, as long as no UDP length claims more than the frame buffer has, a
    replay that does not pace ([realtime] off, or no speed) ends, and one that paces
    ends if the clock gets to the target of every frame it holds, and otherwise
    never leaves the wait it is in; where it ends, there was no access outside an
    object, and every frame read was counted exactly once, as UDP or as skipped. *)
Theorem replay_terminates (cfg : Config) (file buf : list byte) (clock : timing) (c : GapBuffer.Config)
    (on_message on_gap on_retx : bool) :
  length (GapBuffer.cfg_session c) = 10%nat -> blen buf = kFrameBuf -> blen file < 2 ^ 63 ->
  Forall fits_buffer (file_frames file) ->
  let result := replay cfg (Some file) buf (listening c on_message on_gap on_retx) clock in
  if realtime cfg && (0 <? speed_mult cfg) && negb (waits_end cfg pacing_init (file_times file) clock)
  then result = Fault OutOfFuel
  else exists st g evs fed ats,
    result = Ok (st, g, evs, fed, ats) /\
    ReplayStats.packets_read st = blen (file_frames file) /\
    ReplayStats.udp_packets st + ReplayStats.non_udp_skipped st = blen (file_frames file) /\
    0 <= ReplayStats.udp_packets st /\ 0 <= ReplayStats.non_udp_skipped st.
Proof.
  intros Hc Hb Hlen Hfit result.
  destruct (unpaced_total cfg file buf c on_message on_gap on_retx Hc Hb Hlen Hfit)
    as (st & g & evs & fed & E & Hst).
  assert (Hr : realtime cfg && (0 <? speed_mult cfg) && negb (waits_end cfg pacing_init (file_times file) clock)
               = negb (clock_runs cfg (Some file) clock)).
  { unfold clock_runs, paced. by destruct (realtime cfg && _). }
  rewrite Hr. destruct (clock_runs cfg (Some file) clock) eqn:Ek; cbn [negb].
  - destruct (replay_unpaced_Ok _ _ _ _ _ _ _ _ _ E Ek) as [ats Er]. exists st, g, evs, fed, ats. done.
  - apply replay_stalled; [by rewrite E | done].
Qed.

(** A file of a skipped record, a frame that is not IP, a UDP frame, and a cut record. *)
Definition test_records : list byte :=
  let rec_ (incl : Z) := store_le 4 7 ++ store_le 4 5 ++ store_le 4 incl ++ store_le 4 incl in
  int_bytes false 4 kPcapMagicLE ++ replicate 20 (z2b 0) ++
  rec_ 20 ++ replicate 20 (z2b 1) ++
  rec_ (blen (eth_frame test_eth)) ++ eth_frame test_eth ++
  rec_ 90 ++ replicate 40 (z2b 2).

Lemma replay_terminates_witness :
  let replayed (clock : timing) :=
    replay (mk_Config true 1 0) (Some test_records) zero_buf (listening test_config true true true) clock in
  (exists st g evs fed ats,
    replayed two_readings = Ok (st, g, evs, fed, ats) /\
    ReplayStats.packets_read st = 2 /\
    ReplayStats.udp_packets st + ReplayStats.non_udp_skipped st = 2 /\
    0 <= ReplayStats.udp_packets st /\ 0 <= ReplayStats.non_udp_skipped st) /\
  replayed (take 1 two_readings) = Fault OutOfFuel.
Proof.
  assert (Hfit : Forall fits_buffer (file_frames test_records)).
  { assert (file_frames test_records = [replicate 20 (z2b 1); eth_frame test_eth]) as -> by by vm_compute.
    repeat (apply Forall_cons; split); [by vm_compute.. | done]. }
  intros replayed. split.
  - exact (replay_terminates (mk_Config true 1 0) test_records zero_buf two_readings test_config true true true
      eq_refl zero_buf_size eq_refl Hfit).
  - exact (replay_terminates (mk_Config true 1 0) test_records zero_buf (take 1 two_readings) test_config
      true true true eq_refl zero_buf_size eq_refl Hfit).
Defined.

(** ** Past the buffer *)

(** A frame of 104 bytes whose UDP length claims 65535, with a first MoldUDP64
    message of 65446 bytes and a count of two. *)
Definition overrun_frame : list byte :=
  replicate 12 (z2b 0) ++ be_bytes 2 0x0800 ++
  [z2b 0x4F] ++ replicate 8 (z2b 0) ++ [z2b 17] ++ replicate 50 (z2b 0) ++
  be_bytes 2 1 ++ be_bytes 2 15001 ++ be_bytes 2 65535 ++ be_bytes 2 0 ++
  session_bytes ++ be_bytes 8 1 ++ be_bytes 2 2 ++ be_bytes 2 65446.

(** A hostile capture reads past the frame buffer: a file of one 104-byte frame
    makes the buffer's message loop read the next length field beyond the end of
    [frame_buf], for the reader believes the UDP length.  So the condition of
    [replay_terminates] cannot be dropped. *)
Theorem replay_overruns_frame_buffer :
  let file := int_bytes false 4 kPcapMagicLE ++ replicate 20 (z2b 0) ++
    replicate 8 (z2b 0) ++ store_le 4 104 ++ store_le 4 104 ++ overrun_frame in
  replay (mk_Config false 1 15001) (Some file) zero_buf (listening test_config true true true) []
    = Fault OutOfBounds /\
  file_frames file = [overrun_frame] /\ ~ fits_buffer overrun_frame.
Proof. by vm_compute. Qed.
