(* ===== verification/PacedReplay.v ===== *)
(** * PacedReplay: what realtime does to a replay

    [PcapReader::replay] ([include/feed/pcap_replay.hpp]) with [realtime] set: it changes
    when a frame is handed on, and nothing else. *)

From stdpp Require Import base gmap list strings fin_maps.
From Stdlib Require Import ZArith Lia.
From S2P Require Import Prelude WireFormat WireLemmas GapBuf GapWalk Framing.
From S2P Require Import GapRun GapProps Sink Pcap Pacing Unpaced PcapProps PcapRound.

#[local] Open Scope Z_scope.
Import PcapReader.

Lemma frame_times_captures fuel swap items :
  Forall item_ok items -> (length items < fuel)%nat ->
  frame_times fuel swap (mjoin (capture_bytes swap <$> (capture_of <$> items)))
  = (fun i => u64 (i_sec i * 1000000 + i_usec i)) <$> items.
Proof.
  intros Hok. revert fuel. induction Hok as [|i items Hi _ IH]; intros fuel Hf.
  { by destruct fuel. }
  destruct fuel as [|fuel]; [cbn in Hf; lia|]. cbn [length] in Hf.
  destruct Hi as [He Hs Hu Hz]. cbn [fmap list_fmap mjoin list_join frame_times]. set (rest := mjoin _).
  assert (Hc : length (capture_bytes swap (capture_of i)) = (16 + length (eth_frame (i_eth i)))%nat)
    by (unfold capture_bytes; rewrite !length_app, !length_int_bytes; done).
  rewrite (proj2 (Z.ltb_ge (blen (capture_bytes _ _ ++ _)) 16)) by (rewrite length_app, Hc; lia).
  destruct (read_capture swap (capture_of i) rest) as (-> & -> & -> & ->); [done | done | |].
  { cbn. unfold kFrameBuf in Hz. width. }
  cbn [c_frame c_sec c_usec capture_of]. rewrite (proj2 (Z.ltb_ge kFrameBuf _)) by lia.
  rewrite (proj2 (Z.ltb_ge (blen (_ ++ rest)) _)) by (rewrite length_app; lia).
  rewrite Nat2Z.id, drop_app_length. unfold rest. rewrite IH by lia. done.
Qed.

Definition item_us (i : item) : Z := u64 (i_sec i * 1000000 + i_usec i).

Lemma file_times_captures swap rest items :
  length rest = 20%nat -> Forall item_ok items ->
  file_times (pcap_file swap rest (capture_of <$> items)) = item_us <$> items.
Proof.
  intros Hr Hi. unfold file_times, pcap_file. set (body := mjoin _).
  assert (Hl : length (int_bytes swap 4 kPcapMagicLE) = 4%nat) by apply length_int_bytes.
  rewrite (proj2 (Z.ltb_ge _ _)) by (rewrite !length_app; lia).
  rewrite (slice_app_hd (int_bytes swap 4 kPcapMagicLE)) by (rewrite ?Hl; done).
  assert (drop 24 (int_bytes swap 4 kPcapMagicLE ++ rest ++ body) = body) as ->
    by (rewrite app_assoc; apply drop_app_length'; rewrite length_app; lia).
  assert (Hb : (length items < S (length (int_bytes swap 4 kPcapMagicLE ++ rest ++ body)))%nat).
  { rewrite !length_app. pose proof (length_captures swap (capture_of <$> items)) as Hc.
    rewrite length_fmap in Hc. fold body in Hc. lia. }
  destruct swap; by apply frame_times_captures.
Qed.

(** ** Realtime replay *)

Lemma replay_paced_by {T} `{PacketSink T} cfg file buf (s : T) clock ats :
  pace_all cfg pacing_init (file_times file) clock = Ok ats ->
  replay cfg (Some file) buf s clock = with_times (Unpaced.replay cfg (Some file) buf s) ats.
Proof. intros E. pose proof (replay_timed cfg (Some file) buf s clock) as Ht. cbn in Ht. by rewrite E in Ht. Qed.

(** The same reader without pacing. *)
Definition as_fast_as_possible (cfg : Config) : Config := mk_Config false (speed_mult cfg) (filter_port cfg).

Lemma unpaced_same {T} `{PacketSink T} cfg file buf (s : T) :
  untimed (replay (as_fast_as_possible cfg) file buf s []) = Unpaced.replay cfg file buf s.
Proof.
  destruct (replay_fast (as_fast_as_possible cfg) file buf s eq_refl) as [ats ->].
  rewrite untimed_with_times. unfold Unpaced.replay. destruct file as [file|]; [|done].
  destruct (_ <? _); [done|]. cbv zeta. destruct (_ && _); [done|].
  generalize (S (length file)), (load_le (slice file 0 4) =? kPcapMagicBE), (drop 24 file), ReplayStats.init, s, buf.
  clear. intros fuel swap. induction fuel as [|fuel IH]; intros file st s buf; [done|].
  cbn [Unpaced.replay_loop]. cbv zeta. rewrite !IH. case_match; [done|]. case_match; [done|].
  case_match; [done|]. destruct (mem_write _ _ _) as [buf'|]; [|done]. rewrite !bind_Ok.
  destruct (extract_udp _ _) as [[[[payload pay_len] port]|]|]; [| |done]; rewrite !bind_Ok; [|by rewrite IH].
  change (filter_port (as_fast_as_possible cfg)) with (filter_port cfg).
  destruct (_ && _); [by rewrite IH|]. destruct (sink_ingest _ _ _ _) as [[[s1 e1] r]|]; [|done].
  by rewrite !bind_Ok, IH.
Qed.

(** C35.  Realtime replay of any file: as long as no frame is stamped before the first
    (and the clock gets there), the consumer, its events, the statistics and the
    datagrams handed on are those of a replay without pacing, faults included;
    the first frame is released at once and every later one at the first reading
    of the clock that is not before its distance from the first in the capture,
    divided by the speed. *)
Theorem realtime_replay_keeps_pace {T} `{PacketSink T} (cfg : Config)
    (file buf : list byte) (s : T) (ts1 : Z) (times : list Z) (first : timespec) (readings1 : list timespec)
    (clock : timing) :
  let now1 := monotonic_ns first in
  realtime cfg = true -> 0 < speed_mult cfg ->
  file_times file = ts1 :: times -> 0 < ts1 ->
  (length times <= length clock)%nat ->
  Forall (paced_ok (speed_mult cfg) ts1 now1) (paced_frames times clock) ->
  exists ats,
    replay cfg (Some file) buf s ((first, readings1) :: clock)
      = with_times (untimed (replay (as_fast_as_possible cfg) (Some file) buf s [])) (Some now1 :: ats) /\
    Forall2 (fun '(ts, _, readings) at_ =>
      released (now1 + (ts - ts1) * 1000 / speed_mult cfg) readings at_)
      (paced_frames times clock) ats.
Proof.
  intros now1 Hr Hs Ht H1 Hl Hp.
  destruct (pacing_keeps_spacing cfg ts1 first readings1 times clock) as (ats & E & F); [done..|].
  exists ats. split; [|done]. rewrite unpaced_same.
  apply (replay_paced_by cfg file buf s ((first, readings1) :: clock)). by rewrite Ht.
Qed.

(** Two frames 50 microseconds apart, at twice the speed: the clock skips the instant
    the second is due, so it goes out 5 microseconds later. *)
Definition realtime_cfg : Config := mk_Config true 2 15001.
Definition test_capture : list byte := pcap_file false (replicate 20 (z2b 0)) (capture_of <$> test_items).

Definition test_clock : timing :=
  [(mk_timespec 0 1200, [mk_timespec 0 1300; mk_timespec 0 25999; mk_timespec 0 31000])].

Lemma realtime_replay_keeps_pace_witness :
  let g := listening test_config true true true in
  exists ats,
    replay realtime_cfg (Some test_capture) zero_buf g ((mk_timespec 0 1000, []) :: test_clock)
      = with_times (untimed (replay (as_fast_as_possible realtime_cfg) (Some test_capture) zero_buf g []))
          (Some 1000 :: ats) /\
    Forall2 (fun '(ts, _, readings) at_ => released (1000 + (ts - 1700000000000250) * 1000 / 2) readings at_)
      [(1700000000000300, 1200, [1300; 25999; 31000])] ats.
Proof.
  intros g.
  apply (realtime_replay_keeps_pace realtime_cfg test_capture zero_buf g 1700000000000250
    [1700000000000300] (mk_timespec 0 1000) [] test_clock); [done | done | | done | done |].
  - by apply (file_times_captures false (replicate 20 (z2b 0)) test_items), test_items_ok.
  - apply Forall_singleton. do 3 (split; [by vm_compute|]). do 2 apply Exists_cons_tl. by apply Exists_cons_hd.
Defined.
