(* ===== verification/Receiver.v ===== *)
(** * Receiver: the multicast socket

    Models [include/feed/receiver.hpp] over any [PacketSink].  The kernel is not
    under [src/]: the answer of [recvmsg] and the readings of the clock are
    arguments of the receive path, the answers to the set-up calls come from a
    parameter, [kernel], that may depend on everything called so far. *)

From stdpp Require Import base gmap list strings fin_maps.
From Stdlib Require Import ZArith Lia.
From S2P Require Import Prelude WireFormat GapBuf Sink Decision.

#[local] Open Scope Z_scope.

(** The system's constants. *)
Class Platform := {
  SOL_SOCKET : Z; SO_TIMESTAMPING : Z; EAGAIN : Z; EWOULDBLOCK : Z; INADDR_ANY : Z
}.

(** A control message. *)
Record cmsghdr := mk_cmsghdr { cmsg_level : Z; cmsg_type : Z; cmsg_data : list byte }.

(** What [recvmsg] answers: a failure with its [errno], or a datagram (cut to the
    buffer) and its control messages. *)
Inductive recvmsg_answer :=
| RecvFailed (errno : Z)
| Received (data : list byte) (control : list cmsghdr).

(** The system calls of the set-up that have an effect or an answer. *)
Inductive syscall :=
| Socket
| SetReuseAddr | SetReusePort
| SetRcvBufForce (bytes : Z) | SetRcvBuf (bytes : Z) | GetRcvBuf
| SetTimestamping (hw : bool)
| SetMulticastLoop (on : bool) | SetMulticastIf (addr : Z)
| Bind (addr port : Z)
| AddMembership (group iface : Z)
| AddSourceMembership (group iface source : Z)
| IfSocket | IfAddr (name : list byte) | IfClose
| CloseFd (fd : Z).

(** A call, or a line that [report_error] prints. *)
Inductive action := Call (c : syscall) | Report (call : string).

#[export] Instance syscall_eq_dec : EqDecision syscall.
Proof. solve_decision. Defined.
#[export] Instance action_eq_dec : EqDecision action.
Proof. solve_decision. Defined.

(** The system: its answer to a call made after a history, the value the call
    writes through its pointer, and [inet_pton] on [AF_INET]. *)
Record kernel := mk_kernel {
  answer : list action -> syscall -> Z;
  written : list action -> syscall -> Z;
  inet_addr : list byte -> Z
}.

Module MulticastReceiver.

Record Config := mk_Config {
  multicast_group : list byte; source_ip : list byte; interface_name : list byte;
  port : Z; enable_software_timestamps : bool; enable_hw_timestamps : bool;
  reuse_port : bool; recv_buffer_bytes : Z
}.

Definition kRecvBuf : Z := 65535.

Record t (T : Type) := mk {
  cfg_ : Config;
  gap_buf_ : T;
  fd_ : Z;
  recv_buf_ : list byte;     (* uint8_t[65535] *)
  stat_recv_calls_ : Z;
  stat_messages_delivered_ : Z;
  stat_parse_errors_ : Z;
  granted_recv_buffer_bytes_ : Z
}.
Arguments mk {T} _ _ _ _ _ _ _ _.
Arguments cfg_ {T} _.
Arguments gap_buf_ {T} _.
Arguments fd_ {T} _.
Arguments recv_buf_ {T} _.
Arguments stat_recv_calls_ {T} _.
Arguments stat_messages_delivered_ {T} _.
Arguments stat_parse_errors_ {T} _.
Arguments granted_recv_buffer_bytes_ {T} _.

(** [MulticastReceiver(cfg, gap_buf)]; [buf] is the uninitialised array. *)
Definition create {T} (c : Config) (gap_buf : T) (buf : list byte) : t T :=
  mk c gap_buf (-1) buf 0 0 0 0.

Definition is_open {T} (r : t T) : bool := 0 <=? fd_ r.

Definition recv_buffer_shortfall {T} (r : t T) : bool :=
  granted_recv_buffer_bytes_ r <? 2 * recv_buffer_bytes (cfg_ r).

Definition stat_recv_calls {T} (r : t T) : Z := stat_recv_calls_ r.
Definition stat_messages_delivered {T} (r : t T) : Z := stat_messages_delivered_ r.
Definition stat_parse_errors {T} (r : t T) : Z := stat_parse_errors_ r.
Definition granted_recv_buffer_bytes {T} (r : t T) : Z := granted_recv_buffer_bytes_ r.

Definition set_fd {T} (r : t T) (fd : Z) : t T :=
  mk (cfg_ r) (gap_buf_ r) fd (recv_buf_ r) (stat_recv_calls_ r)
     (stat_messages_delivered_ r) (stat_parse_errors_ r) (granted_recv_buffer_bytes_ r).

Definition set_granted {T} (r : t T) (granted : Z) : t T :=
  mk (cfg_ r) (gap_buf_ r) (fd_ r) (recv_buf_ r) (stat_recv_calls_ r)
     (stat_messages_delivered_ r) (stat_parse_errors_ r) granted.

(** ** Set-up *)

Section Setup.
Context {T : Type} (k : kernel).

(** State and history. *)
Definition setup (A : Type) : Type := t T * list action -> (t T * list action) * A.

#[local] Instance setup_ret : MRet setup := fun A a s => (s, a).
#[local] Instance setup_bind : MBind setup := fun A B f m s => let '(s1, a) := m s in f a s1.

Definition call (c : syscall) : setup Z := fun '(r, h) => ((r, h ++ [Call c]), answer k h c).
(** The value written by a call, which has just been made. *)
Definition value_of (c : syscall) : setup Z := fun '(r, h) => ((r, h), written k h c).
Definition get : setup (t T) := fun '(r, h) => ((r, h), r).
Definition put (f : t T -> t T) : setup unit := fun '(r, h) => ((f r, h), tt).
Definition report_error (what : string) : setup bool := fun '(r, h) => ((r, h ++ [Report what]), false).

Definition to_addr (s : list byte) : Z := inet_addr k s.

Context `{Platform}.

(** [strncpy(ifr.ifr_name, ifname, IFNAMSIZ - 1)] keeps 15 characters. *)
Definition interface_address (ifname : list byte) : setup Z :=
  s ← call IfSocket;
  if s <? 0 then mret INADDR_ANY else
  let query := IfAddr (take 15 ifname) in
  r ← call query;
  addr ← (if r =? 0 then value_of query else mret INADDR_ANY);
  _ ← call IfClose;
  mret addr.

(** [if (setsockopt(...) < 0) return report_error(what);] then the rest. *)
Definition checked (c : syscall) (what : string) (rest : setup bool) : setup bool :=
  r ← call c; if r <? 0 then report_error what else rest.

Definition set_socket_options : setup bool :=
  r ← get;
  let cfg := cfg_ r in
  let interface_part : setup bool :=
    _ ← call (SetMulticastLoop false);
    iface_addr ← interface_address (interface_name cfg);
    _ ← call (SetMulticastIf iface_addr);
    mret true in
  let timestamp_part : setup bool :=
    if enable_software_timestamps cfg
    then checked (SetTimestamping (enable_hw_timestamps cfg)) "SO_TIMESTAMPING" interface_part
    else interface_part in
  let granted_part : setup bool :=
    g ← call GetRcvBuf;
    if g <? 0 then report_error "getsockopt(SO_RCVBUF)" else
    granted ← value_of GetRcvBuf;
    _ ← put (fun r => set_granted r granted);
    timestamp_part in
  let buffer_part : setup bool :=
    f ← call (SetRcvBufForce (recv_buffer_bytes cfg));
    if f <? 0
    then checked (SetRcvBuf (recv_buffer_bytes cfg)) "SO_RCVBUF" granted_part
    else granted_part in
  if reuse_port cfg
  then checked SetReuseAddr "SO_REUSEADDR" (checked SetReusePort "SO_REUSEPORT" buffer_part)
  else buffer_part.

Definition bind_socket : setup bool :=
  r ← get; checked (Bind INADDR_ANY (port (cfg_ r))) "bind" (mret true).

Definition join_multicast : setup bool :=
  r ← get;
  let group := to_addr (multicast_group (cfg_ r)) in
  iface ← interface_address (interface_name (cfg_ r));
  match source_ip (cfg_ r) with
  | [] => checked (AddMembership group iface) "IP_ADD_MEMBERSHIP" (mret true)
  | source => checked (AddSourceMembership group iface (to_addr source))
                "IP_ADD_SOURCE_MEMBERSHIP" (mret true)
  end.

Definition open : setup bool :=
  fd ← call Socket;
  _ ← put (fun r => set_fd r fd);
  if fd <? 0 then report_error "socket" else
  options ← set_socket_options;
  if negb options then mret false else
  bound ← bind_socket;
  if negb bound then mret false else
  joined ← join_multicast;
  if negb joined then mret false else
  mret true.

Definition close : setup unit :=
  r ← get;
  if 0 <=? fd_ r then _ ← call (CloseFd (fd_ r)); put (fun r => set_fd r (-1)) else mret tt.

End Setup.

(** ** Receiving *)

Section Receive.
Context `{Platform}.

(** A [struct timespec] in memory. *)
Definition timespec_of (bs : list byte) : timespec :=
  mk_timespec (load_le (slice bs 0 8)) (load_le (slice bs 8 8)).

(** [extract_timestamp]: [memcpy] reads three timespecs, 48 bytes. *)
Fixpoint extract_timestamp (control : list cmsghdr) : res Z :=
  match control with
  | [] => mret 0
  | cm :: rest =>
      if (cmsg_level cm =? SOL_SOCKET) && (cmsg_type cm =? SO_TIMESTAMPING) then
        ts ← mem_read (cmsg_data cm) 0 48;
        let ts0 := timespec_of ts in
        if negb (tv_sec ts0 =? 0) || negb (tv_nsec ts0 =? 0)
        then mret (timespec_ns ts0)
        else extract_timestamp rest
      else extract_timestamp rest
  end.

Definition monotonic_ns (ts : timespec) : Z := timespec_ns ts.

Context {T : Type} `{PacketSink T}.

(** [return report_error("recvmsg")]: the conversion of [false] to [int]. *)
Definition error_result : Z := Z.b2z false.

(** [recv_one]; [clock] is read only when there is no software timestamp. *)
Definition recv_one (r : t T) (ans : recvmsg_answer) (clock : timespec)
    : res (t T * list event * Z) :=
  match ans with
  | RecvFailed errno =>
      if (errno =? EAGAIN) || (errno =? EWOULDBLOCK) then mret (r, [], 0)
      else mret (r, [], error_result)
  | Received data control =>
      let data := take (Z.to_nat kRecvBuf) data in
      recv_buf ← mem_write (recv_buf_ r) 0 data;
      sw_ns ← extract_timestamp control;
      let ts_ns := if sw_ns =? 0 then monotonic_ns clock else sw_ns in
      '(gap_buf, evs, delivered) ← sink_ingest (gap_buf_ r) recv_buf (blen data) ts_ns;
      mret (mk (cfg_ r) gap_buf (fd_ r) recv_buf (inc (stat_recv_calls_ r))
              (if 0 <? delivered then u64 (stat_messages_delivered_ r + delivered)
               else stat_messages_delivered_ r)
              (if delivered <? 0 then inc (stat_parse_errors_ r) else stat_parse_errors_ r)
              (granted_recv_buffer_bytes_ r),
            evs, delivered)
  end.

(** One turn of [run] while [running] is set: what [recvmsg] answers, the clock
    [recv_one] would read, and the clock the loop reads. *)
Record turn := mk_turn { tn_answer : recvmsg_answer; tn_clock : timespec; tn_now : timespec }.

Definition tick_buf (r : t T) (now : Z) : res (t T * list event) :=
  '(gap_buf, evs) ← sink_tick (gap_buf_ r) now;
  mret (mk (cfg_ r) gap_buf (fd_ r) (recv_buf_ r) (stat_recv_calls_ r)
          (stat_messages_delivered_ r) (stat_parse_errors_ r) (granted_recv_buffer_bytes_ r), evs).

Fixpoint run_loop (r : t T) (tick_interval_ns last_tick : Z) (turns : list turn)
    : res (t T * list event) :=
  match turns with
  | [] => mret (r, [])
  | tn :: turns' =>
      '(r, e1, _) ← recv_one r (tn_answer tn) (tn_clock tn);
      let now := monotonic_ns (tn_now tn) in
      if tick_interval_ns <=? u64 (now - last_tick) then
        '(r, e2) ← tick_buf r now;
        '(r, e3) ← run_loop r tick_interval_ns now turns';
        mret (r, e1 ++ e2 ++ e3)
      else
        '(r, e3) ← run_loop r tick_interval_ns last_tick turns';
        mret (r, e1 ++ e3)
  end.

(** [run]: [turns] are the iterations up to the one that finds [running] false. *)
Definition run (r : t T) (tick_interval_ns : Z) (clock : timespec) (turns : list turn)
    : res (t T * list event) :=
  run_loop r tick_interval_ns (monotonic_ns clock) turns.

End Receive.
End MulticastReceiver.
