(* ===== verification/ReceiverOpen.v ===== *)
(** * ReceiverOpen: setting the socket up

    The calls a socket takes, in order, and that [open] makes them up to the first
    required one that fails, which it reports. *)

From stdpp Require Import base gmap list strings fin_maps.
From Stdlib Require Import ZArith Lia.
From S2P Require Import Prelude WireFormat GapBuf Sink Decision Receiver.

#[local] Open Scope Z_scope.
Import MulticastReceiver.

(** The calls whose failure [open] reports, and under which name. *)
Definition required (c : syscall) : bool :=
  match c with
  | Socket | SetReuseAddr | SetReusePort | SetRcvBuf _ | GetRcvBuf | SetTimestamping _
  | Bind _ _ | AddMembership _ _ | AddSourceMembership _ _ _ => true
  | _ => false
  end.

Definition reported (c : syscall) : string :=
  match c with
  | Socket => "socket"
  | SetReuseAddr => "SO_REUSEADDR"
  | SetReusePort => "SO_REUSEPORT"
  | SetRcvBuf _ => "SO_RCVBUF"
  | GetRcvBuf => "getsockopt(SO_RCVBUF)"
  | SetTimestamping _ => "SO_TIMESTAMPING"
  | Bind _ _ => "bind"
  | AddMembership _ _ => "IP_ADD_MEMBERSHIP"
  | AddSourceMembership _ _ _ => "IP_ADD_SOURCE_MEMBERSHIP"
  | _ => ""
  end.

(** A history without a report in which every required call succeeded. *)
Definition good (k : kernel) (h : list action) : Prop :=
  forall pre a post, h = pre ++ a :: post ->
    match a with
    | Call c => required c = true -> 0 <= answer k pre c
    | Report _ => False
    end.

(** Of the calls [plan], those up to the first required one that fails were made, and
    that one was reported. *)
Definition stopped (k : kernel) (plan h : list action) : Prop :=
  exists pre c post,
    plan = pre ++ Call c :: post /\ h = pre ++ [Call c; Report (reported c)] /\
    good k pre /\ required c = true /\ answer k pre c < 0.

Lemma good_nil k : good k [].
Proof. intros pre a post H. by destruct pre. Qed.

Lemma good_snoc k h c :
  good k h -> (required c = true -> 0 <= answer k h c) -> good k (h ++ [Call c]).
Proof.
  intros Hg Hc pre a post E. destruct post as [|b post _] using rev_ind.
  - apply app_inj_tail in E as [<- <-]. done.
  - rewrite app_comm_cons, app_assoc in E. apply app_inj_tail in E as [-> _].
    by apply (Hg pre a post).
Qed.

Lemma stopped_not_good k plan h : stopped k plan h -> good k plan -> False.
Proof.
  intros (pre & c & post & -> & _ & _ & Hr & Hf) Hg. specialize (Hg pre (Call c) post eq_refl Hr). lia.
Qed.

(** ** The calls [open] has to make

    What a socket for the configuration takes, in order, as far as the kernel's
    answers decide it. *)

Section Plan.
Context (k : kernel) `{Platform} (c : Config).

(** After [h]: asking for the address of the interface, and what it is. *)
Definition lookup_calls (h : list action) : list action :=
  if answer k h IfSocket <? 0 then [Call IfSocket]
  else [Call IfSocket; Call (IfAddr (take 15 (interface_name c))); Call IfClose].

Definition interface_of (h : list action) : Z :=
  let query := IfAddr (take 15 (interface_name c)) in
  if answer k h IfSocket <? 0 then INADDR_ANY
  else if answer k (h ++ [Call IfSocket]) query =? 0
       then written k (h ++ [Call IfSocket; Call query]) query else INADDR_ANY.

(** The membership asked for: of the group, from the source if one is configured. *)
Definition membership (iface : Z) : syscall :=
  match source_ip c with
  | [] => AddMembership (inet_addr k (multicast_group c)) iface
  | source => AddSourceMembership (inet_addr k (multicast_group c)) iface (inet_addr k source)
  end.

Definition buffer_calls (h : list action) : list action :=
  Call (SetRcvBufForce (recv_buffer_bytes c)) ::
  (if answer k h (SetRcvBufForce (recv_buffer_bytes c)) <? 0
   then [Call (SetRcvBuf (recv_buffer_bytes c))] else []) ++ [Call GetRcvBuf].

(** Up to reading back the size of the receive buffer. *)
Definition sized : list action :=
  let h := Call Socket :: if reuse_port c then [Call SetReuseAddr; Call SetReusePort] else [] in
  h ++ buffer_calls h.
Definition granted : Z := written k sized GetRcvBuf.

(** With all options set. *)
Definition configured : list action :=
  let h := sized ++ (if enable_software_timestamps c
                     then [Call (SetTimestamping (enable_hw_timestamps c))] else []) ++
           [Call (SetMulticastLoop false)] in
  h ++ lookup_calls h ++ [Call (SetMulticastIf (interface_of h))].

(** Bound. *)
Definition bound : list action := configured ++ [Call (Bind INADDR_ANY (port c))].

(** With the group joined on the interface. *)
Definition socket_calls : list action :=
  bound ++ lookup_calls bound ++ [Call (membership (interface_of bound))].

(** The group was joined last, on the interface. *)
Definition joined (h : list action) : Prop :=
  h = socket_calls /\ last h = Some (Call (membership (interface_of bound))).

End Plan.

(** ** Following the plan *)

Section Logic.
Context {T : Type} (k : kernel) `{Platform}.

(** From [r] and [h], [m] makes the calls up to [plan] and leaves [r2], or stops. *)
Definition goes (m : setup (T := T) bool) (r : t T) (h plan : list action) (r2 : t T) : Prop :=
  h `prefix_of` plan /\
  (good k h ->
   let '((r', h'), ok) := m (r, h) in
   fd_ r' = fd_ r /\ cfg_ r' = cfg_ r /\
   if ok then h' = plan /\ good k plan /\ r' = r2 else stopped k plan h').

Lemma goes_ret r h : goes (setup_ret _ true) r h h r.
Proof. by split. Qed.

(** An optional call, whatever its answer. *)
Lemma goes_call {A} (f : Z -> setup A) (g : A -> setup bool) r h plan r2 c :
  required c = false ->
  goes (setup_bind _ _ g (f (answer k h c))) r (h ++ [Call c]) plan r2 ->
  goes (setup_bind _ _ g (setup_bind _ _ f (call k c))) r h plan r2.
Proof.
  intros Hc [Hp Hm]. split; [by eapply prefix_app_l|]. intros Hg.
  apply Hm. apply good_snoc; [done|]. by rewrite Hc.
Qed.

Lemma goes_call_bool (f : Z -> setup bool) r h plan r2 c :
  required c = false -> goes (f (answer k h c)) r (h ++ [Call c]) plan r2 ->
  goes (setup_bind _ _ f (call k c)) r h plan r2.
Proof.
  intros Hc [Hp Hm]. split; [by eapply prefix_app_l|]. intros Hg.
  apply Hm. apply good_snoc; [done|]. by rewrite Hc.
Qed.

(** A required call that fails here. *)
Lemma stopped_here plan h c :
  good k h -> h ++ [Call c] `prefix_of` plan -> required c = true -> answer k h c < 0 ->
  stopped k plan ((h ++ [Call c]) ++ [Report (reported c)]).
Proof.
  intros Hg [post ->] Hr Hf. exists h, c, post. rewrite <-!app_assoc. done.
Qed.

Lemma goes_checked c what rest r h plan r2 :
  required c = true -> what = reported c -> goes rest r (h ++ [Call c]) plan r2 ->
  goes (checked k c what rest) r h plan r2.
Proof.
  intros Hc -> [Hp Hm]. split; [by eapply prefix_app_l|]. intros Hg.
  unfold checked, mbind, setup_bind, call. destruct (Z.ltb_spec (answer k h c) 0) as [Hf|Hf].
  - cbn. do 2 (split; [done|]). by apply stopped_here.
  - apply Hm. by apply good_snoc.
Qed.

Lemma goes_interface (f : Z -> setup bool) r h plan r2 cfg :
  goes (f (interface_of k cfg h)) r (h ++ lookup_calls k cfg h) plan r2 ->
  goes (setup_bind _ _ f (interface_address k (interface_name cfg))) r h plan r2.
Proof.
  unfold interface_of, lookup_calls. cbv zeta. intros Hf. unfold interface_address.
  apply goes_call; [done|]. destruct (answer k h IfSocket <? 0); [exact Hf|].
  apply goes_call; [done|]. set (query := IfAddr _) in *.
  assert (Hh : ((h ++ [Call IfSocket]) ++ [Call query]) ++ [Call IfClose]
               = h ++ [Call IfSocket; Call query; Call IfClose]) by by rewrite <-!app_assoc.
  assert (Hv : (h ++ [Call IfSocket]) ++ [Call query] = h ++ [Call IfSocket; Call query])
    by by rewrite <-app_assoc.
  rewrite <-Hh in Hf. rewrite <-Hv in Hf. set (h2 := (h ++ [Call IfSocket]) ++ [Call query]) in *.
  destruct Hf as [Hp Hm]. split; [by eapply prefix_app_l|]. intros Hg.
  assert (Hg2 : good k (h2 ++ [Call IfClose])) by (apply good_snoc; [done | discriminate]).
  specialize (Hm Hg2).
  destruct (answer k (h ++ [Call IfSocket]) query =? 0); exact Hm.
Qed.

(** One stage after the other; a stage that stops is the end. *)
Lemma goes_then (m : setup bool) (f : bool -> setup bool) r h mid r1 plan r2 :
  goes m r h mid r1 -> goes (f true) r1 mid plan r2 -> f false = setup_ret _ false ->
  goes (setup_bind _ _ f m) r h plan r2.
Proof.
  intros [Hp1 H1] [Hp2 H2] Hf. split; [by etransitivity|]. intros Hg. specialize (H1 Hg).
  unfold setup_bind. destruct (m (r, h)) as [[r' h'] ok]. destruct H1 as (E1 & E2 & H1). destruct ok.
  - destruct H1 as (-> & Hg1 & ->). specialize (H2 Hg1). destruct (f true (r1, mid)) as [[r3 h3] ok3].
    destruct H2 as (E3 & E4 & H2). split; [congruence|]. split; [congruence | done].
  - rewrite Hf. cbn. do 2 (split; [done|]). destruct H1 as (pre & c & post & -> & H1).
    destruct Hp2 as [more ->]. exists pre, c, (post ++ more). by rewrite <-app_assoc.
Qed.

End Logic.

Section Stages.
Context {T : Type} (k : kernel) `{Platform}.

#[local] Notation goes := (goes (T := T) k).

(** The last part of the options, from the state [r] that has the granted size. *)
Lemma interface_part_goes (r : t T) h :
  let c := cfg_ r in
  let h1 := h ++ [Call (SetMulticastLoop false)] in
  goes (setup_bind _ _ (fun _ : Z => setup_bind _ _ (fun addr => setup_bind _ _
       (fun _ : Z => setup_ret _ true) (call k (SetMulticastIf addr)))
       (interface_address k (interface_name c))) (call k (SetMulticastLoop false)))
    r h (h1 ++ lookup_calls k c h1 ++ [Call (SetMulticastIf (interface_of k c h1))]) r.
Proof.
  intros c h1. apply goes_call_bool; [done|]. fold h1. apply (goes_interface k _ r h1 _ r c).
  apply goes_call_bool; [done|]. rewrite <-app_assoc. apply goes_ret.
Qed.

(** From the size read back on. *)
Lemma goes_granted (rest : setup bool) (r r2 : t T) h plan :
  goes rest (set_granted r (written k (h ++ [Call GetRcvBuf]) GetRcvBuf)) (h ++ [Call GetRcvBuf]) plan r2 ->
  goes (setup_bind _ _ (fun g => if g <? 0 then report_error "getsockopt(SO_RCVBUF)"
          else setup_bind _ _ (fun n => setup_bind _ _ (fun _ : unit => rest)
                 (put (fun r => set_granted r n))) (value_of k GetRcvBuf)) (call k GetRcvBuf)) r h plan r2.
Proof.
  intros [Hp Hm]. split; [by eapply prefix_app_l|]. intros Hg. unfold setup_bind at 1, call.
  destruct (Z.ltb_spec (answer k h GetRcvBuf) 0) as [Hf|Hf].
  - cbn. do 2 (split; [done|]). by apply (stopped_here k plan h GetRcvBuf).
  - apply Hm. by apply good_snoc.
Qed.

Lemma goes_get (f : t T -> setup bool) r h plan r2 :
  goes (f r) r h plan r2 -> goes (setup_bind _ _ f get) r h plan r2.
Proof. done. Qed.

Lemma snoc_three {A} (l : list A) a b c : l ++ [a; b; c] = ((l ++ [a]) ++ [b]) ++ [c].
Proof. by rewrite <-!app_assoc. Qed.

(** [configured] from where the size has been read back. *)
Definition configured_from (c : Config) (sized : list action) : list action :=
  let h := sized ++ (if enable_software_timestamps c
                     then [Call (SetTimestamping (enable_hw_timestamps c))] else []) ++
           [Call (SetMulticastLoop false)] in
  h ++ lookup_calls k c h ++ [Call (SetMulticastIf (interface_of k c h))].

Lemma set_socket_options_goes (r : t T) :
  goes (set_socket_options k) r [Call Socket] (configured k (cfg_ r)) (set_granted r (granted k (cfg_ r))).
Proof.
  unfold set_socket_options. apply goes_get. cbv zeta. set (c := cfg_ r).
  match goal with |- context [if enable_software_timestamps _ then ?a else ?b] =>
    set (tp := if enable_software_timestamps c then a else b) end.
  assert (Htp : forall h n, goes tp (set_granted r n) h (configured_from c h) (set_granted r n)).
  { intros h n. unfold tp, configured_from. destruct (enable_software_timestamps c); cbv zeta.
    - apply goes_checked; [done..|]. rewrite (app_assoc h). apply (interface_part_goes (set_granted r n)).
    - apply (interface_part_goes (set_granted r n)). }
  clearbody tp.
  match goal with |- context [checked k (SetRcvBuf _) _ ?p] => set (gp := p) end.
  assert (Hgp : forall h, goes gp r h (configured_from c (h ++ [Call GetRcvBuf]))
      (set_granted r (written k (h ++ [Call GetRcvBuf]) GetRcvBuf)))
    by (intros h; apply goes_granted, Htp).
  clearbody gp.
  match goal with |- context [checked k SetReusePort _ ?p] => set (bp := p) end.
  assert (Hbp : forall h, goes bp r h (configured_from c (h ++ buffer_calls k c h))
      (set_granted r (written k (h ++ buffer_calls k c h) GetRcvBuf))).
  { intros h. unfold bp, buffer_calls. apply goes_call_bool; [done|].
    destruct (answer k h _ <? 0); cbn [app].
    - apply goes_checked; [done..|]. rewrite (snoc_three h). apply Hgp.
    - rewrite (cons_middle (Call _) h [_]), app_assoc. apply Hgp. }
  clearbody bp. unfold configured, granted, sized. cbv zeta. fold (configured_from c).
  destruct (reuse_port c); [|apply Hbp]. apply goes_checked; [done..|]. apply goes_checked; [done..|]. apply Hbp.
Qed.

Lemma bind_socket_goes (r : t T) h :
  goes (bind_socket k) r h (h ++ [Call (Bind INADDR_ANY (port (cfg_ r)))]) r.
Proof. apply goes_get. apply goes_checked; [done..|]. apply goes_ret. Qed.

Lemma join_multicast_goes (r : t T) h :
  let c := cfg_ r in
  goes (join_multicast k) r h (h ++ lookup_calls k c h ++ [Call (membership k c (interface_of k c h))]) r.
Proof.
  intros c. apply goes_get. cbv zeta. apply (goes_interface k _ r h _ r c). rewrite app_assoc.
  unfold membership, to_addr. fold c. destruct (source_ip c); (apply goes_checked; [done..|]; apply goes_ret).
Qed.

(** What [open] does once it has a socket. *)
Lemma stages_goes (r : t T) :
  goes (setup_bind _ _ (fun ok : bool => if negb ok then setup_ret _ false else
         setup_bind _ _ (fun ok : bool => if negb ok then setup_ret _ false else
          setup_bind _ _ (fun ok : bool => if negb ok then setup_ret _ false else setup_ret _ true)
           (join_multicast k)) (bind_socket k)) (set_socket_options k))
    r [Call Socket] (socket_calls k (cfg_ r)) (set_granted r (granted k (cfg_ r))).
Proof.
  eapply goes_then; [apply set_socket_options_goes | cbn [negb] | done].
  eapply goes_then; [apply bind_socket_goes | cbn [negb] | done].
  eapply goes_then; [apply join_multicast_goes | apply goes_ret | done].
Qed.

End Stages.

Lemma open_spec (T : Type) `{Platform} (k : kernel) (r : t T) :
  let '((r', h), ok) := open k (r, []) in
  fd_ r' = answer k [] Socket /\ cfg_ r' = cfg_ r /\
  (ok = true <-> good k (socket_calls k (cfg_ r))) /\
  if ok then
    h = socket_calls k (cfg_ r) /\ good k h /\ is_open r' = true /\ joined k (cfg_ r) h /\
    recv_buffer_shortfall r' = (granted k (cfg_ r) <? 2 * recv_buffer_bytes (cfg_ r))
  else stopped k (socket_calls k (cfg_ r)) h.
Proof.
  pose proof (stages_goes k (set_fd r (answer k [] Socket))) as [Hp Hs].
  change (cfg_ (set_fd r _)) with (cfg_ r) in *.
  destruct (Z.ltb_spec (answer k [] Socket) 0) as [Hf|Hf].
  - assert (Hst : stopped k (socket_calls k (cfg_ r)) [Call Socket; Report "socket"]).
    { apply (stopped_here k _ [] Socket); [apply good_nil | done..]. }
    unfold open, mbind, setup_bind at 1 2, call, put. rewrite (proj2 (Z.ltb_lt _ _)) by done. cbn.
    do 2 (split; [done|]). split; [|done]. split; [done|]. intros Hg. by destruct (stopped_not_good _ _ _ Hst Hg).
  - assert (Hg : good k [Call Socket]) by (apply (good_snoc k []); [apply good_nil | done]). specialize (Hs Hg).
    unfold open, mbind, setup_bind at 1 2, call, put. rewrite (proj2 (Z.ltb_ge _ _)) by done. cbn [app].
    match type of Hs with match ?m with _ => _ end => change (let '((r', h), ok) := m in
      fd_ r' = answer k [] Socket /\ cfg_ r' = cfg_ r /\
      (ok = true <-> good k (socket_calls k (cfg_ r))) /\
      if ok then
        h = socket_calls k (cfg_ r) /\ good k h /\ is_open r' = true /\ joined k (cfg_ r) h /\
        recv_buffer_shortfall r' = (granted k (cfg_ r) <? 2 * recv_buffer_bytes (cfg_ r))
      else stopped k (socket_calls k (cfg_ r)) h);
      destruct m as [[r' h] ok] end.
    destruct Hs as (E1 & E2 & Hs). split; [done|]. split; [done|]. destruct ok.
    + destruct Hs as (-> & Hgp & ->). split; [done|]. split; [done|]. split; [done|].
      split; [by apply Z.leb_le|]. split; [|done]. split; [done|].
      unfold socket_calls. by rewrite app_assoc, last_snoc.
    + split; [|done]. split; [done|]. intros Hgp. by destruct (stopped_not_good _ _ _ Hs Hgp).
Qed.

(** The set-up touches neither the consumer nor the receive buffer. *)
Section Frame.
Context {T : Type} (k : kernel) `{Platform}.

Definition keeps {A} (m : setup (T := T) A) : Prop :=
  forall s, gap_buf_ (m s).1.1 = gap_buf_ s.1 /\ recv_buf_ (m s).1.1 = recv_buf_ s.1.

Lemma keeps_bind {A B} (m : setup A) (f : A -> setup B) :
  keeps m -> (forall a, keeps (f a)) -> keeps (setup_bind A B f m).
Proof.
  intros Hm Hf s. unfold setup_bind. destruct (Hm s) as [E1 E2]. destruct (m s) as [s1 a].
  destruct (Hf a s1) as [-> ->]. done.
Qed.

Lemma keeps_if {A} (b : bool) (m m' : setup A) : keeps m -> keeps m' -> keeps (if b then m else m').
Proof. by destruct b. Qed.

Lemma keeps_checked c what rest : keeps rest -> keeps (checked k c what rest).
Proof.
  intros Hr. apply keeps_bind; [by intros []|]. intros a. apply keeps_if; [by intros [] | done].
Qed.

(** One step of the structure of a set-up program. *)
Ltac keep :=
  repeat (cbv zeta; first
    [ match goal with |- forall _, keeps _ => intros ? end
    | apply keeps_checked
    | match goal with |- keeps (if _ then _ else _) => apply keeps_if end
    | apply keeps_bind
    | match goal with |- keeps (match ?l with [] => _ | _ => _ end) => destruct l end
    | solve [by intros []] ]).

Lemma keeps_interface_address name : keeps (interface_address k name).
Proof. unfold interface_address. keep. Qed.

Lemma open_keeps : keeps (open k).
Proof.
  assert (Ho : keeps (set_socket_options (T := T) k)).
  { unfold set_socket_options. keep; apply keeps_interface_address. }
  assert (Hj : keeps (join_multicast (T := T) k)).
  { unfold join_multicast. keep; apply keeps_interface_address. }
  assert (Hb : keeps (bind_socket (T := T) k)) by (unfold bind_socket; keep).
  unfold open. keep; done.
Qed.
End Frame.

(** C33.  Opening: the calls a socket for the configuration takes ([socket_calls]: the
    options, bind to the port, join the group on the address of the interface,
    source-specifically exactly when a source is configured) are made in that order
    up to the first required one that fails.  [open] succeeds exactly when none
    fails: then all were made, nothing was reported, the group was joined last and
    [recv_buffer_shortfall] compares the size the kernel granted with twice the
    request.  Else nothing follows the failing call but the report, which names
    that call.  The descriptor obtained stays with the object either way, so
    that [close] can release it. *)
Theorem open_joins_or_reports (T : Type) `{Platform} (k : kernel) (r : t T) :
  let '((r', h), ok) := open k (r, []) in
  fd_ r' = answer k [] Socket /\ cfg_ r' = cfg_ r /\
  (ok = true <-> good k (socket_calls k (cfg_ r))) /\
  if ok then
    h = socket_calls k (cfg_ r) /\ good k h /\ is_open r' = true /\ joined k (cfg_ r) h /\
    recv_buffer_shortfall r' = (granted k (cfg_ r) <? 2 * recv_buffer_bytes (cfg_ r))
  else
    exists pre c post,
      socket_calls k (cfg_ r) = pre ++ Call c :: post /\ h = pre ++ [Call c; Report (reported c)] /\
      good k pre /\ required c = true /\ answer k pre c < 0.
Proof. apply open_spec. Qed.

(** A kernel that grants everything, and one whose sockets cannot be bound. *)
#[export] Instance linux : Platform := {
  SOL_SOCKET := 1; SO_TIMESTAMPING := 37; EAGAIN := 11; EWOULDBLOCK := 11; INADDR_ANY := 0
}.
Definition bind_fails : kernel :=
  mk_kernel (fun _ c => match c with Socket => 3 | Bind _ _ => -1 | _ => 0 end)
            (fun _ c => match c with GetRcvBuf => 425984 | _ => 0 end) (fun _ => 0).

Example bind_failure_reported :
  let '((r, h), ok) := open bind_fails (create (mk_Config [] [] [] 15001 false false false 8388608) tt [], []) in
  ok = false /\ fd_ r = 3 /\ last h = Some (Report "bind") /\ recv_buffer_shortfall r = true.
Proof. by vm_compute. Qed.
