(* ===== verification/ReceiverProps.v ===== *)
(** * ReceiverProps: the receive loop

    The loop is the consumer driven by a computed sequence of datagrams and
    ticks; its statistics are exact and its ticks keep their cadence. *)

From stdpp Require Import base gmap list strings fin_maps.
From Stdlib Require Import ZArith Lia.
From S2P Require Import Prelude WireFormat WireLemmas GapBuf GapWalk Framing.
From S2P Require Import GapInv GapStep GapRun GapProps GapRetx GapTrack Sink Stats StatsProps.
From S2P Require Import Decision Receiver ReceiverOpen.

#[local] Open Scope Z_scope.
Import MulticastReceiver.

(** ** What a loop feeds *)

Section Inputs.
Context `{Platform}.

(** The kernel's timestamps are whole: three timespecs. *)
Definition control_ok (control : list cmsghdr) : Prop :=
  Forall (fun cm => cmsg_level cm = SOL_SOCKET -> cmsg_type cm = SO_TIMESTAMPING ->
                    48 <= blen (cmsg_data cm)) control.

(** The first non-zero software timestamp, or 0. *)
Fixpoint stamp (control : list cmsghdr) : Z :=
  match control with
  | [] => 0
  | cm :: rest =>
      let ts := timespec_of (cmsg_data cm) in
      if (cmsg_level cm =? SOL_SOCKET) && (cmsg_type cm =? SO_TIMESTAMPING)
         && (negb (tv_sec ts =? 0) || negb (tv_nsec ts =? 0))
      then timespec_ns ts else stamp rest
  end.

(** When a datagram counts as received. *)
Definition arrival (control : list cmsghdr) (clock : timespec) : Z :=
  if stamp control =? 0 then monotonic_ns clock else stamp control.

Lemma timespec_of_slice d : 48 <= blen d -> timespec_of (slice d 0 48) = timespec_of d.
Proof.
  intros Hd. unfold timespec_of. f_equal; f_equal; unfold slice at 2; rewrite drop_0;
    apply (slice_take d 48); lia.
Qed.

Lemma extract_timestamp_Ok control : control_ok control -> extract_timestamp control = Ok (stamp control).
Proof.
  induction 1 as [|cm rest Hc _ IH]; [done|]. cbn [extract_timestamp stamp].
  destruct (Z.eqb_spec (cmsg_level cm) SOL_SOCKET) as [E1|]; cbn [andb]; [|done].
  destruct (Z.eqb_spec (cmsg_type cm) SO_TIMESTAMPING) as [E2|]; cbn [andb]; [|done].
  specialize (Hc E1 E2). rewrite mem_read_Ok, bind_Ok by lia. cbv zeta.
  rewrite timespec_of_slice by done. by destruct (_ || _).
Qed.

Definition datagram_of (data : list byte) : list byte := take (Z.to_nat kRecvBuf) data.

(** The buffer after a receive: the datagram over what was there. *)
Definition receive_into (buf data : list byte) : list byte := splice buf 0 (datagram_of data).

(** What one turn does to the consumer, from its answer and the clock. *)
Definition turn_buffer (buf : list byte) (tn : turn) : list byte :=
  match tn_answer tn with Received data _ => receive_into buf data | RecvFailed _ => buf end.

Definition turn_datagrams (buf : list byte) (tn : turn) : list input :=
  match tn_answer tn with
  | Received data control =>
      [Datagram (receive_into buf data) (blen (datagram_of data)) (arrival control (tn_clock tn))]
  | RecvFailed _ => []
  end.

(** The loop's clock reading. *)
Definition reading (tn : turn) : Z := monotonic_ns (tn_now tn).

Definition tick_due (interval last : Z) (tn : turn) : bool := interval <=? u64 (reading tn - last).
Definition turn_ticks (interval last : Z) (tn : turn) : list input :=
  if tick_due interval last tn then [Tick (reading tn)] else [].
Definition turn_last (interval last : Z) (tn : turn) : Z :=
  if tick_due interval last tn then reading tn else last.

Fixpoint loop_inputs (buf : list byte) (interval last : Z) (turns : list turn) : list input :=
  match turns with
  | [] => []
  | tn :: turns' =>
      turn_datagrams buf tn ++ turn_ticks interval last tn ++
      loop_inputs (turn_buffer buf tn) interval (turn_last interval last tn) turns'
  end.

Definition turn_ok (tn : turn) : Prop :=
  match tn_answer tn with Received _ control => control_ok control | RecvFailed _ => True end.

Lemma length_datagram_of data : blen (datagram_of data) <= kRecvBuf.
Proof. unfold datagram_of, kRecvBuf. rewrite length_take. lia. Qed.

Lemma length_receive_into buf data :
  blen buf = kRecvBuf -> blen (receive_into buf data) = kRecvBuf.
Proof.
  intros Hb. unfold receive_into. pose proof (length_datagram_of data).
  rewrite length_splice; lia.
Qed.

Context {T : Type} `{PacketSink T}.

(** A consumer driven by datagrams and ticks. *)
Definition drive_step (s : T) (i : input) : res (T * list event * option Z) :=
  match i with
  | Datagram payload len now => '(s', evs, r) ← sink_ingest s payload len now; mret (s', evs, Some r)
  | Tick now => '(s', evs) ← sink_tick s now; mret (s', evs, None)
  end.

Fixpoint drive (s : T) (ins : list input) : res (T * list event * list Z) :=
  match ins with
  | [] => mret (s, [], [])
  | i :: ins' =>
      '(s1, e1, r) ← drive_step s i;
      '(s2, e2, rs) ← drive s1 ins';
      mret (s2, e1 ++ e2, option_list r ++ rs)
  end.

(** The counters after the results [rs] of the [ingest] calls. *)
Definition count_result (r : t T) (n : Z) : t T :=
  mk (cfg_ r) (gap_buf_ r) (fd_ r) (recv_buf_ r) (inc (stat_recv_calls_ r))
     (if 0 <? n then u64 (stat_messages_delivered_ r + n) else stat_messages_delivered_ r)
     (if n <? 0 then inc (stat_parse_errors_ r) else stat_parse_errors_ r)
     (granted_recv_buffer_bytes_ r).

(** [r] with another consumer and buffer. *)
Definition holding (r : t T) (s : T) (buf : list byte) : t T :=
  mk (cfg_ r) s (fd_ r) buf (stat_recv_calls_ r) (stat_messages_delivered_ r)
     (stat_parse_errors_ r) (granted_recv_buffer_bytes_ r).

Lemma holding_fold r s buf rs :
  fold_left count_result rs (holding r s buf) = holding (fold_left count_result rs r) s buf.
Proof. revert r. induction rs as [|n rs IH]; intros r; [done|]. apply (IH (count_result r n)). Qed.

Lemma drive_app s a b :
  drive s (a ++ b) =
  '(s1, e1, r1) ← drive s a; '(s2, e2, r2) ← drive s1 b; mret (s2, e1 ++ e2, r1 ++ r2).
Proof.
  revert s. induction a as [|i a IH]; intros s.
  { cbn. by destruct (drive s b) as [[[] ]|]. }
  cbn [app drive]. destruct (drive_step s i) as [[[s1 e1] r]|]; [|done]. rewrite !bind_Ok, IH.
  destruct (drive s1 a) as [[[s2 e2] r2]|]; [|done]. rewrite !bind_Ok.
  destruct (drive s2 b) as [[[s3 e3] r3]|]; [|done]. by rewrite !bind_Ok, !app_assoc.
Qed.

(** [run_loop] turn by turn. *)
Definition one_turn (r : t T) (interval last : Z) (tn : turn) : res (t T * list event) :=
  '(r, e1, _) ← recv_one r (tn_answer tn) (tn_clock tn);
  if tick_due interval last tn
  then '(r, e2) ← tick_buf r (reading tn); mret (r, e1 ++ e2)
  else mret (r, e1).

Lemma run_loop_cons r interval last tn turns :
  run_loop r interval last (tn :: turns) =
  '(r, e1) ← one_turn r interval last tn;
  '(r, e2) ← run_loop r interval (turn_last interval last tn) turns;
  mret (r, e1 ++ e2).
Proof.
  cbn [run_loop]. unfold one_turn, turn_last, tick_due, reading.
  destruct (recv_one _ _ _) as [[[r1 e1] n]|]; [|done]. rewrite !bind_Ok. cbv zeta.
  destruct (_ <=? _); [|done].
  destruct (tick_buf r1 _) as [[r2 e2]|]; [|done]. rewrite !bind_Ok.
  destruct (run_loop r2 _ _ _) as [[r3 e3]|]; [|done]. by rewrite !bind_Ok, app_assoc.
Qed.

Lemma recv_one_drive r tn :
  turn_ok tn -> blen (recv_buf_ r) = kRecvBuf ->
  ('(r1, e, _) ← recv_one r (tn_answer tn) (tn_clock tn); mret (r1, e)) =
  '(s, e, rs) ← drive (gap_buf_ r) (turn_datagrams (recv_buf_ r) tn);
  mret (holding (fold_left count_result rs r) s (turn_buffer (recv_buf_ r) tn), e).
Proof.
  intros Hok Hb. unfold turn_ok, turn_datagrams, turn_buffer in *.
  destruct (tn_answer tn) as [e|data control].
  { unfold recv_one. by destruct (_ || _), r. }
  unfold recv_one. fold (datagram_of data). pose proof (length_datagram_of data).
  rewrite mem_write_splice, bind_Ok, extract_timestamp_Ok, bind_Ok by (done || lia). cbv zeta.
  fold (receive_into (recv_buf_ r) data) (arrival control (tn_clock tn)).
  cbn [drive drive_step]. destruct (sink_ingest _ _ _ _) as [[[s e1] n]|]; [|done].
  rewrite !bind_Ok. cbn. by rewrite app_nil_r.
Qed.

Lemma tick_drive r interval last tn :
  (if tick_due interval last tn then tick_buf r (reading tn) else mret (r, [])) =
  '(s, e, rs) ← drive (gap_buf_ r) (turn_ticks interval last tn);
  mret (holding (fold_left count_result rs r) s (recv_buf_ r), e).
Proof.
  unfold turn_ticks, tick_buf. destruct (tick_due _ _ _); [|by destruct r].
  cbn [drive drive_step]. destruct (sink_tick _ _) as [[s e]|]; [|done].
  rewrite !bind_Ok. cbn. by rewrite app_nil_r.
Qed.

Definition last_buffer (buf : list byte) (turns : list turn) : list byte := foldl turn_buffer buf turns.

Lemma length_turn_buffer buf tn : blen buf = kRecvBuf -> blen (turn_buffer buf tn) = kRecvBuf.
Proof. unfold turn_buffer. destruct (tn_answer tn); [done | apply length_receive_into]. Qed.

Lemma one_turn_drive r interval last tn :
  turn_ok tn -> blen (recv_buf_ r) = kRecvBuf ->
  one_turn r interval last tn =
  '(s, e, rs) ← drive (gap_buf_ r) (turn_datagrams (recv_buf_ r) tn ++ turn_ticks interval last tn);
  mret (holding (fold_left count_result rs r) s (turn_buffer (recv_buf_ r) tn), e).
Proof.
  intros Hok Hb. rewrite drive_app. pose proof (recv_one_drive r tn Hok Hb) as Hr. unfold one_turn.
  destruct (recv_one _ _ _) as [[[r1 e1] n]|];
    destruct (drive (gap_buf_ r) _) as [[[s rs] e]|]; try done; rewrite !bind_Ok in *.
  injection Hr as -> ->. pose proof (tick_drive (holding (fold_left count_result e r) s
    (turn_buffer (recv_buf_ r) tn)) interval last tn) as Ht. cbn [gap_buf_ recv_buf_ holding] in Ht.
  destruct (tick_due _ _ _).
  - rewrite Ht. destruct (drive s _) as [[[s2 e2] rs2]|]; [|done]. rewrite !bind_Ok.
    by rewrite holding_fold, fold_left_app.
  - destruct (drive s _) as [[[s2 e2] rs2]|]; [|done]. rewrite bind_Ok in Ht. rewrite !bind_Ok.
    apply Ok_inj, pair_equal_spec in Ht as [Hh <-].
    rewrite fold_left_app, app_nil_r, Hh. by rewrite holding_fold.
Qed.

Lemma run_loop_drive r interval last turns :
  Forall turn_ok turns -> blen (recv_buf_ r) = kRecvBuf ->
  run_loop r interval last turns =
  '(s, evs, rs) ← drive (gap_buf_ r) (loop_inputs (recv_buf_ r) interval last turns);
  mret (holding (fold_left count_result rs r) s (last_buffer (recv_buf_ r) turns), evs).
Proof.
  intros Ht. revert r last. induction Ht as [|tn turns Hok _ IH]; intros r last Hb.
  { cbn. by destruct r. }
  rewrite run_loop_cons, one_turn_drive by done. cbn [loop_inputs]. rewrite app_assoc, (drive_app _ (_ ++ _)).
  destruct (drive (gap_buf_ r) _) as [[[s e] rs]|]; [|done]. rewrite !bind_Ok.
  rewrite IH by (by apply length_turn_buffer). cbn [gap_buf_ recv_buf_ holding].
  destruct (drive s _) as [[[s2 e2] rs2]|]; [|done]. rewrite !bind_Ok.
  by rewrite holding_fold, fold_left_app.
Qed.

End Inputs.
