(* ===== verification/ReceiverRun.v ===== *)
(** * ReceiverRun: what the receive loop promises

    Refinement of the consumer, delivery of the stream, the cadence of ticks, and
    the consequence of mixing two clocks. *)

From stdpp Require Import base gmap list strings fin_maps.
From Stdlib Require Import ZArith Lia.
From S2P Require Import Prelude WireFormat WireLemmas GapBuf GapWalk Framing.
From S2P Require Import GapInv GapStep GapRun GapProps GapRetx GapTrack Sink Stats StatsProps.
From S2P Require Import Decision Receiver ReceiverOpen ReceiverProps.

#[local] Open Scope Z_scope.
Import MulticastReceiver.

(** ** The statistics *)

(** Turns in which a datagram came. *)
Definition is_received (tn : turn) : bool :=
  match tn_answer tn with Received _ _ => true | RecvFailed _ => false end.
Definition received_turns (turns : list turn) : list turn :=
  filter (fun tn => is_received tn = true) turns.

Definition is_parse_error (n : Z) : bool := n <? 0.

(** The sum of the positive results: the messages delivered. *)
Definition delivered_sum (rs : list Z) : Z := foldr (fun n acc => Z.max 0 n + acc) 0 rs.

Section Laws.
Context `{Platform} {T : Type} `{PacketSinkLaws T}.

Definition accepted (i : input) : Prop :=
  match i with Datagram payload len _ => sink_accepts payload len | Tick _ => True end.

Definition is_datagram (i : input) : bool :=
  match i with Datagram _ _ _ => true | Tick _ => false end.

Lemma drive_lawful (s : T) ins :
  sink_ok s -> Forall accepted ins ->
  exists s' evs rs, drive s ins = Ok (s', evs, rs) /\ sink_ok s' /\
    delivered_sum rs = blen (messages evs) /\
    length rs = length (filter (fun i => is_datagram i = true) ins).
Proof.
  intros Hs Hi. revert s Hs. induction Hi as [|i ins Ha _ IH]; intros s Hs.
  { by exists s, [], []. }
  destruct i as [payload len now|now]; cbn [drive drive_step].
  - destruct (sink_ingest_law s payload len now Hs Ha) as (s1 & e1 & n & -> & Hs1 & Hc).
    destruct (IH s1 Hs1) as (s2 & e2 & rs & E & Hs2 & Hd & Hl). rewrite !bind_Ok, E, bind_Ok.
    eexists s2, _, (n :: rs). split; [done|]. split; [done|].
    rewrite messages_app, length_app, filter_cons_True by done. cbn [length delivered_sum foldr].
    fold (delivered_sum rs). rewrite Hd, Hl. split; [|done].
    destruct Hc as [[-> ->]|[? ->]]; cbn [length]; lia.
  - destruct (sink_tick_law s now Hs) as (s1 & e1 & -> & Hs1 & Hm).
    destruct (IH s1 Hs1) as (s2 & e2 & rs & E & Hs2 & Hd & Hl). rewrite !bind_Ok, E, bind_Ok.
    eexists s2, _, rs. split; [done|]. split; [done|].
    rewrite messages_app, Hm, filter_cons_False by done. done.
Qed.

Lemma loop_datagrams buf interval last turns :
  length (filter (fun i => is_datagram i = true) (loop_inputs buf interval last turns))
  = length (received_turns turns).
Proof.
  revert buf last. induction turns as [|tn turns IH]; intros buf last; [done|].
  cbn [loop_inputs]. rewrite !filter_app, !length_app, IH. unfold received_turns, turn_datagrams.
  assert (filter (fun i => is_datagram i = true) (turn_ticks interval last tn) = []) as ->
    by (unfold turn_ticks; by destruct (tick_due _ _ _)).
  rewrite filter_cons. unfold is_received. by destruct (tn_answer tn).
Qed.

Lemma count_results (r : t T) rs :
  is_u64 (stat_recv_calls_ r) -> is_u64 (stat_messages_delivered_ r) -> is_u64 (stat_parse_errors_ r) ->
  let r' := fold_left count_result rs r in
  stat_recv_calls_ r' = u64 (stat_recv_calls_ r + blen rs) /\
  stat_messages_delivered_ r' = u64 (stat_messages_delivered_ r + delivered_sum rs) /\
  stat_parse_errors_ r' = u64 (stat_parse_errors_ r + blen (filter (fun n => is_parse_error n = true) rs)).
Proof.
  revert r. induction rs as [|n rs IH]; intros r Hu1 Hu2 Hu3.
  { cbn. rewrite !Z.add_0_r, !u64_small by done. done. }
  cbn [fold_left]. destruct (IH (count_result r n)) as (E1 & E2 & E3).
  - apply u64_range.
  - cbn. case_bool; [apply u64_range | done].
  - cbn. case_bool; [apply u64_range | done].
  - rewrite E1, E2, E3. cbn [count_result stat_recv_calls_ stat_messages_delivered_ stat_parse_errors_
      length delivered_sum foldr]. fold (delivered_sum rs). unfold inc, is_parse_error.
    rewrite filter_cons. rewrite u64_add_idemp_l. split; [f_equal; lia|]. split.
    + destruct (Z.ltb_spec 0 n); rewrite ?u64_add_idemp_l; f_equal; lia.
    + destruct (Z.ltb_spec n 0); cbn [length decide]; case_decide; try done; cbn [length];
        rewrite ?u64_add_idemp_l; f_equal; lia.
Qed.

Lemma fold_count_cfg (r : t T) rs :
  cfg_ (fold_left count_result rs r) = cfg_ r /\ fd_ (fold_left count_result rs r) = fd_ r.
Proof. revert r. induction rs as [|n rs IH]; intros r; [done|]. apply (IH (count_result r n)). Qed.

End Laws.

(** C5.  The receive loop refines its consumer: over any answers of [recvmsg], [run]
    ends without a fault; what it does to the consumer, and every event, is the
    consumer driven by the datagrams (in [recv_buf_], at their software
    timestamp, or at the clock when there is none) and the periodic ticks; its
    statistics are exactly the datagrams received, the messages handed over and
    the datagrams that were no packet (modulo the 64-bit counters). *)
Theorem loop_refines_sink (T : Type) `{Platform} `{PacketSinkLaws T} (c : Config) (s : T)
    (buf : list byte) (interval : Z) (clock : timespec) (turns : list turn) :
  blen buf = kRecvBuf -> sink_ok s -> Forall turn_ok turns ->
  let ins := loop_inputs buf interval (monotonic_ns clock) turns in
  Forall accepted ins ->
  exists r evs rs,
    run (create c s buf) interval clock turns = Ok (r, evs) /\
    drive s ins = Ok (gap_buf_ r, evs, rs) /\ sink_ok (gap_buf_ r) /\
    stat_recv_calls_ r = u64 (blen (received_turns turns)) /\
    stat_messages_delivered_ r = u64 (blen (messages evs)) /\
    stat_parse_errors_ r = u64 (blen (filter (fun n => is_parse_error n = true) rs)).
Proof.
  intros Hb Hs Ht ins Ha.
  destruct (drive_lawful s ins Hs Ha) as (s' & evs & rs & E & Hs' & Hd & Hl).
  unfold run. rewrite run_loop_drive by done. fold ins. cbn [gap_buf_ create recv_buf_].
  fold ins. rewrite E, bind_Ok. eexists _, evs, rs. split; [done|].
  cbn [gap_buf_ holding stat_recv_calls_ stat_messages_delivered_ stat_parse_errors_].
  destruct (count_results (create c s buf) rs) as (E1 & E2 & E3); [done..|].
  rewrite E1, E2, E3, Hl, Hd. unfold ins. rewrite loop_datagrams. done.
Qed.

(** ** Test turns: two datagrams, one without a timestamp, a short one, and an idle turn *)

Definition stamp_bytes (sec nsec : Z) : list byte :=
  store_le 8 sec ++ store_le 8 nsec ++ replicate 32 (z2b 0).
Definition stamped_at (sec nsec : Z) : list cmsghdr := [mk_cmsghdr 1 37 (stamp_bytes sec nsec)].
Definition test_turns : list turn :=
  [mk_turn (Received (packet_wire session_bytes 1 [test_stream 1]) (stamped_at 1 10))
           (mk_timespec 0 0) (mk_timespec 1 20);
   mk_turn (Received [] []) (mk_timespec 1 30) (mk_timespec 1 40);
   mk_turn (RecvFailed 11) (mk_timespec 0 0) (mk_timespec 1 100050);
   mk_turn (Received (packet_wire session_bytes 2 [test_stream 2]) [])
           (mk_timespec 1 100060) (mk_timespec 1 100070)].
Definition test_buf : list byte := replicate (Z.to_nat kRecvBuf) (z2b 0).
Definition test_rcfg : Config := mk_Config [] [] [] 15001 true false true 8388608.

Lemma length_test_buf : blen test_buf = kRecvBuf.
Proof. unfold test_buf. by rewrite length_replicate, Z2Nat.id. Qed.

Lemma test_turns_ok : Forall turn_ok test_turns.
Proof.
  unfold test_turns, stamped_at.
  repeat (apply Forall_cons; split);
    first [exact I | by apply Forall_nil | intros _ _; by vm_compute].
Qed.

(** ** From the kernel's datagrams to the consumer's inputs *)

(** The datagrams are no longer than UDP allows and satisfy [P]. *)
Definition gives (P : list byte -> Prop) (tn : turn) : Prop :=
  match tn_answer tn with
  | Received data _ => blen data <= kRecvBuf /\ P data
  | RecvFailed _ => True
  end.

Lemma receive_into_app buf data :
  blen data <= kRecvBuf ->
  receive_into buf data = data ++ drop (length data) buf /\ blen (datagram_of data) = blen data.
Proof.
  intros Hd. unfold receive_into, datagram_of. rewrite take_ge by (unfold kRecvBuf in *; lia).
  by rewrite splice_0.
Qed.

Lemma loop_inputs_Forall `{Platform} (P : list byte -> Prop) (Q : input -> Prop)
    buf interval last turns :
  (forall data rest now, P data -> Q (Datagram (data ++ rest) (blen data) now)) ->
  (forall now, Q (Tick now)) ->
  Forall (gives P) turns -> Forall Q (loop_inputs buf interval last turns).
Proof.
  intros HD HT Hg. revert buf last. induction Hg as [|tn turns Hok _ IH]; intros buf last; [done|].
  cbn [loop_inputs]. apply Forall_app. split; [|apply Forall_app; split; [|apply IH]].
  - unfold turn_datagrams, gives in *. destruct (tn_answer tn) as [|data control]; [done|].
    destruct Hok as [Hl Hp]. destruct (receive_into_app buf data Hl) as [-> ->].
    apply Forall_singleton. by apply HD.
  - unfold turn_ticks. destruct (tick_due _ _ _); [by apply Forall_singleton | done].
Qed.

Lemma loop_refines_sink_witness :
  let s := listening test_config true true true in
  let ins := loop_inputs test_buf 100000 (monotonic_ns (mk_timespec 1 0)) test_turns in
  exists r evs rs,
    run (create test_rcfg s test_buf) 100000 (mk_timespec 1 0) test_turns = Ok (r, evs) /\
    drive s ins = Ok (gap_buf_ r, evs, rs) /\ sink_ok (gap_buf_ r) /\
    stat_recv_calls_ r = u64 (blen (received_turns test_turns)) /\
    stat_messages_delivered_ r = u64 (blen (messages evs)) /\
    stat_parse_errors_ r = u64 (blen (filter (fun n => is_parse_error n = true) rs)).
Proof.
  intros s ins. apply loop_refines_sink.
  - apply length_test_buf.
  - by apply listening_ok.
  - apply test_turns_ok.
  - apply (loop_inputs_Forall (fun data => sane data (blen data))).
    + intros. by eapply sane_prefix; [eexists|].
    + done.
    + repeat (apply Forall_cons; split); try (by apply Forall_nil); unfold gives; cbn [tn_answer];
        first [exact I | split; [by vm_compute | split; [lia | by vm_compute]]].
Defined.

(** ** The stream *)

Lemma drive_run g ins : ('(s, e, _) ← drive g ins; mret (s, e)) = GapRun.run g ins.
Proof.
  revert g. induction ins as [|i ins IH]; intros g; [done|].
  destruct i as [payload len now|now]; cbn [drive drive_step GapRun.run apply_input sink_ingest
    sink_tick GapBuffer_sink].
  - destruct (GapBuffer.ingest g payload len now) as [[[g1 e1] n]|f]; [|done].
    rewrite !bind_Ok, <-IH. by destruct (drive g1 ins) as [[[? ?] ?]|].
  - destruct (GapBuffer.tick g now) as [[g1 e1]|f]; [|done].
    rewrite !bind_Ok, <-IH. by destruct (drive g1 ins) as [[[? ?] ?]|].
Qed.

(** The loop of a receiver in any state, wired to a constructed buffer. *)
(** Every turn of a concrete list that receives carries messages of a concrete stream. *)
Ltac check_gives :=
  repeat (apply Forall_cons; split); try (by apply Forall_nil); unfold gives; cbn [tn_answer];
  first [ exact I
        | split; [by vm_compute | split; [split; [lia | by vm_compute]|]];
          let Hl := fresh in let k := fresh in let b := fresh in let Hk := fresh in
          intros Hl; vm_compute in Hl; try done; intros k b Hk; vm_compute in Hk;
          repeat (destruct k as [|k]; [by injection Hk as <- | ]); done ].

Lemma live_delivers `{Platform} (S : Z -> list byte) (r0 : MulticastReceiver.t GapBuffer.t)
    (c : GapBuffer.Config) (on_gap on_retx : bool) (interval : Z)
    (clock : timespec) (turns : list turn) :
  let g0 := listening c true on_gap on_retx in
  gap_buf_ r0 = g0 -> blen (recv_buf_ r0) = kRecvBuf ->
  length (GapBuffer.cfg_session c) = 10%nat -> Forall turn_ok turns ->
  Forall (gives (fun data => carries S (Datagram data (blen data) 0))) turns ->
  let n0 := session_start g0 (loop_inputs (recv_buf_ r0) interval (monotonic_ns clock) turns) in
  exists r evs,
    run r0 interval clock turns = Ok (r, evs) /\
    n0 <= GapBuffer.next_expected_ (gap_buf_ r) /\
    (fun m => (MoldMessage.seq_num m, msg_content m)) <$> messages evs
      = (fun k => (k, S k)) <$> seqZ n0 (GapBuffer.next_expected_ (gap_buf_ r) - n0).
Proof.
  intros g0 Hg0 Hb Hc Ht Hg n0.
  destruct (run_delivers S c on_gap on_retx (loop_inputs (recv_buf_ r0) interval (monotonic_ns clock) turns) Hc)
    as (g & evs & E & Hle & Hm).
  { eapply loop_inputs_Forall; [| |exact Hg]; [|done]. intros data rest now Hd.
    apply (carries_prefix S data _ 0 now); [by eexists | done]. }
  fold g0 in E, Hle, Hm. fold n0 in Hle, Hm. unfold run. rewrite run_loop_drive by done.
  rewrite Hg0. rewrite <-drive_run in E.
  destruct (drive g0 _) as [[[g1 e1] rs]|]; [|done]. rewrite bind_Ok in E. rewrite bind_Ok.
  apply Ok_inj, pair_equal_spec in E as [<- <-]. eexists _, e1. split; [done|]. done.
Qed.

(** From the socket to the consumer: whatever [recvmsg] returns (datagrams lost,
    repeated, reordered, shorter than a header, idle polls), as long as each
    datagram carries messages of the stream, the receive loop hands the consumer
    a segment of the stream, in order and without repetition, and the buffer's
    stale bytes behind a datagram never show. *)
Theorem live_stream_delivered `{Platform} (S : Z -> list byte) (rc : Config)
    (c : GapBuffer.Config) (on_gap on_retx : bool) (buf : list byte) (interval : Z)
    (clock : timespec) (turns : list turn) :
  length (GapBuffer.cfg_session c) = 10%nat -> blen buf = kRecvBuf -> Forall turn_ok turns ->
  Forall (gives (fun data => carries S (Datagram data (blen data) 0))) turns ->
  let g0 := listening c true on_gap on_retx in
  let n0 := session_start g0 (loop_inputs buf interval (monotonic_ns clock) turns) in
  exists r evs,
    run (create rc g0 buf) interval clock turns = Ok (r, evs) /\
    n0 <= GapBuffer.next_expected_ (gap_buf_ r) /\
    (fun m => (MoldMessage.seq_num m, msg_content m)) <$> messages evs
      = (fun k => (k, S k)) <$> seqZ n0 (GapBuffer.next_expected_ (gap_buf_ r) - n0).
Proof.
  intros Hc Hb Ht Hg. by apply (live_delivers S (create rc (listening c true on_gap on_retx) buf)).
Qed.

Lemma live_stream_delivered_witness :
  let g0 := listening test_config true true true in
  let n0 := session_start g0 (loop_inputs test_buf 100000 (monotonic_ns (mk_timespec 1 0)) test_turns) in
  exists r evs,
    run (create test_rcfg g0 test_buf) 100000 (mk_timespec 1 0) test_turns = Ok (r, evs) /\
    n0 <= GapBuffer.next_expected_ (gap_buf_ r) /\
    (fun m => (MoldMessage.seq_num m, msg_content m)) <$> messages evs
      = (fun k => (k, test_stream k)) <$> seqZ n0 (GapBuffer.next_expected_ (gap_buf_ r) - n0).
Proof.
  apply live_stream_delivered.
  - reflexivity.
  - apply length_test_buf.
  - apply test_turns_ok.
  - check_gives.
Defined.

(** ** The ticks *)

Definition tick_times (ins : list input) : list Z :=
  omap (fun i => match i with Tick now => Some now | Datagram _ _ _ => None end) ins.

Lemma tick_times_cons `{Platform} buf interval last tn turns :
  tick_times (loop_inputs buf interval last (tn :: turns)) =
  (if tick_due interval last tn then [reading tn] else []) ++
  tick_times (loop_inputs (turn_buffer buf tn) interval (turn_last interval last tn) turns).
Proof.
  unfold tick_times. cbn [loop_inputs]. rewrite !omap_app.
  unfold turn_datagrams, turn_ticks. by destruct (tn_answer tn), (tick_due _ _ _).
Qed.

(** The cadence of the timer: on a clock that does not go back, two ticks are at
    least [tick_interval_ns] apart, and at every reading of the loop's clock the
    last tick (or the start) is less than an interval old: a quiet feed cannot
    starve the gap timer. *)
Theorem ticks_keep_cadence `{Platform} (buf : list byte) (interval last : Z) (turns : list turn) :
  0 < interval -> 0 <= last -> clocked last (reading <$> turns) ->
  Forall is_u64 (reading <$> turns) ->
  let ticks := tick_times (loop_inputs buf interval last turns) in
  spaced interval (Some last) ticks /\
  Forall (fun now => exists t, t ∈ last :: ticks /\ t <= now < t + interval) (reading <$> turns).
Proof.
  intros Hi. revert buf last. induction turns as [|tn turns IH]; intros buf last Hl Hc Hu ticks.
  { split; [done | by apply Forall_nil]. }
  cbn [fmap list_fmap] in Hc, Hu |- *. destruct Hc as [Hle Hc]. apply Forall_cons in Hu as [Hu1 Hu].
  assert (Hd : u64 (reading tn - last) = reading tn - last) by (apply u64_small; width).
  unfold ticks. rewrite tick_times_cons. unfold turn_last, tick_due. rewrite Hd.
  destruct (Z.leb_spec interval (reading tn - last)) as [Hdue|Hnot]; cbn [app].
  - destruct (IH (turn_buffer buf tn) (reading tn)) as [Hs Hf]; [lia | done | done|].
    split; [split; [intros l [= <-]; lia | exact Hs]|].
    apply Forall_cons. split.
    + exists (reading tn). split; [apply list_elem_of_further, list_elem_of_here | lia].
    + eapply Forall_impl; [exact Hf|]. intros now (t & Ht & Hb). exists t.
      split; [by apply list_elem_of_further | done].
  - destruct (IH (turn_buffer buf tn) last) as [Hs Hf]; [lia | | done|].
    { destruct turns; cbn in *; [done | split; [lia | tauto]]. }
    split; [exact Hs|]. apply Forall_cons. split; [|exact Hf].
    exists last. split; [apply list_elem_of_here | lia].
Qed.

Lemma ticks_keep_cadence_witness :
  let ticks := tick_times (loop_inputs test_buf 100000 1000000000 test_turns) in
  spaced 100000 (Some 1000000000) ticks /\
  Forall (fun now => exists t, t ∈ 1000000000 :: ticks /\ t <= now < t + 100000)
         (reading <$> test_turns).
Proof.
  apply ticks_keep_cadence; [lia | lia | by vm_compute |].
  repeat (apply Forall_cons; split); try (by apply Forall_nil); by vm_compute.
Defined.

(** ** Two clocks *)

(** C40.  Software timestamps defeat the gap timeout: they are taken from the realtime
    clock while ticks read the monotonic one.  When a gap was detected by a
    packet stamped ahead of the loop's clock (always, unless the machine has been
    up since 1970), the elapsed time wraps and the first due tick asks for a
    retransmission at once, whatever [gap_timeout_ns] is (up to 2^63). *)
Theorem mixed_clocks_request_at_once `{Platform} (rc : Config) (c : GapBuffer.Config)
    (on_gap : bool) (ins : list input) (buf : list byte) (interval last : Z) (now : timespec)
    (g : GapBuffer.t) (evs : list event) :
  length (GapBuffer.cfg_session c) = 10%nat -> Forall sane_input ins ->
  GapRun.run (listening c true on_gap true) ins = Ok (g, evs) ->
  GapBuffer.in_gap g = true -> GapBuffer.gap_last_retx_ns g = 0 ->
  GapBuffer.gap_timeout_ns (GapBuffer.cfg_ g) <= 2 ^ 63 ->
  GapBuffer.next_expected_ g + GapBuffer.kCapacity < 2 ^ 64 ->
  is_u16 (GapBuffer.max_retransmit_count (GapBuffer.cfg_ g)) -> GapBuffer.on_retx_ g = true ->
  monotonic_ns now < GapBuffer.gap_detected_at_ns g < 2 ^ 63 ->
  0 <= last -> 0 <= interval -> last + interval <= monotonic_ns now ->
  let idle := mk_turn (RecvFailed EAGAIN) now now in
  exists r req,
    run_loop (create rc g buf) interval last [idle] = Ok (r, [OnRetransmitRequest req]) /\
    RetransmitRequest.first_seq req = GapBuffer.next_expected_ g.
Proof.
  intros Hc Hins Hr Hgap Hretx Hto Hcap Hmax Hon Hd Hl0 Hi0 Hlast idle.
  assert (Hnow : is_u64 (monotonic_ns now)) by apply u64_range.
  assert (Hdue : request_due g (monotonic_ns now) = true).
  { unfold request_due. rewrite Hretx, Hon. unfold GapBuffer.in_gap in Hgap. rewrite Hgap. cbn.
    apply Z.leb_le. unfold u64.
    replace (monotonic_ns now - GapBuffer.gap_detected_at_ns g)
      with (monotonic_ns now - GapBuffer.gap_detected_at_ns g + 2 ^ 64 + (-1) * 2 ^ 64) by lia.
    rewrite Z.mod_add by lia. rewrite Z.mod_small; width. }
  destruct (run_settled c on_gap true ins Hc Hins) as (g1 & e1 & Hr1 & Hi & Hs).
  rewrite Hr in Hr1. apply Ok_inj, pair_equal_spec in Hr1 as [<- <-].
  destruct (check_gap_timeout_asks _ g _ Hi Hs Hdue Hcap Hmax) as (j & _ & Ht).
  assert (Hdata : tick_due interval last idle = true).
  { unfold tick_due, reading. cbn [tn_now idle]. rewrite u64_small by width. apply Z.leb_le. lia. }
  rewrite run_loop_cons. unfold one_turn. rewrite Hdata.
  cbn [tn_answer tn_clock idle]. unfold recv_one. rewrite Z.eqb_refl. cbn [orb].
  unfold tick_buf. cbn [sink_tick GapBuffer_sink gap_buf_ create].
  unfold GapBuffer.tick, reading. cbn [tn_now idle]. rewrite bind_Ok. cbn [gap_buf_ create].
  rewrite Ht, !bind_Ok. by eexists _, _.
Qed.

(** The gap opens in 2023; the machine has been up for five seconds. *)
Definition realtime_inputs : list input :=
  [datagram 1 [test_stream 1] 1700000000000000000; datagram 3 [test_stream 3] 1700000000000000010].

Definition gap_view (s : GapBuffer.t * list event) : bool * Z * Z * Z * Z * Z * bool :=
  let g := s.1 in
  (GapBuffer.in_gap g, GapBuffer.gap_last_retx_ns g, GapBuffer.gap_timeout_ns (GapBuffer.cfg_ g),
   GapBuffer.next_expected_ g, GapBuffer.max_retransmit_count (GapBuffer.cfg_ g),
   GapBuffer.gap_detected_at_ns g, GapBuffer.on_retx_ g).

Lemma mixed_clocks_request_at_once_witness :
  exists g evs r req,
    GapRun.run (listening test_config true true true) realtime_inputs = Ok (g, evs) /\
    run_loop (create test_rcfg g test_buf) 100000 4000000000
      [mk_turn (RecvFailed EAGAIN) (mk_timespec 5 0) (mk_timespec 5 0)]
      = Ok (r, [OnRetransmitRequest req]) /\
    RetransmitRequest.first_seq req = GapBuffer.next_expected_ g.
Proof.
  assert (Hs : Forall sane_input realtime_inputs)
    by (repeat (apply Forall_cons; split); try (by apply Forall_nil); by vm_compute).
  assert (Hm : is_u16 100) by (by vm_compute).
  assert (Hd : monotonic_ns (mk_timespec 5 0) < 1700000000000000010 < 2 ^ 63) by (by vm_compute).
  assert (Hl : 4000000000 + 100000 <= monotonic_ns (mk_timespec 5 0)) by (by vm_compute).
  assert (Hp : probe gap_view (GapRun.run (listening test_config true true true) realtime_inputs)
    = Some (true, 0, 500, 2, 100, 1700000000000000010, true)) by (vm_compute; reflexivity).
  apply probe_ok in Hp as ([g evs] & E & Hv). unfold gap_view in Hv. cbn [fst] in Hv.
  injection Hv as V1 V2 V3 V4 V5 V6 V7. rewrite <-V5 in Hm. rewrite <-V6 in Hd. exists g, evs.
  destruct (mixed_clocks_request_at_once test_rcfg test_config true realtime_inputs test_buf
    100000 4000000000 (mk_timespec 5 0) g evs) as (r & req & Hr & Hq).
  - reflexivity.
  - exact Hs.
  - exact E.
  - exact V1.
  - exact V2.
  - rewrite V3. lia.
  - rewrite V4. unfold GapBuffer.kCapacity. lia.
  - exact Hm.
  - exact V7.
  - exact Hd.
  - lia.
  - lia.
  - exact Hl.
  - exists r, req. split; [exact E|]. split; [exact Hr | exact Hq].
Defined.
