(* ===== verification/ReceiverSignal.v ===== *)
(** * ReceiverSignal: the receive loop and the signal that ends it

    [MulticastReceiver::run] reads the flag [g_running] of [src/main.cpp] before every
    turn; [handle_signal] clears it, at any moment.  Here the two are steps of one
    transition system, the loads of the flag included; [MulticastReceiver.run],
    which is given the turns the loop takes, is shown to be what its executions
    do.  (The handler touches nothing but the flag, so a turn is one step: a signal
    in the middle of it is a signal before its end.) *)

From stdpp Require Import base gmap list strings fin_maps.
From Stdlib Require Import ZArith Lia.
From S2P Require Import Prelude WireFormat GapBuf GapWalk GapRun Sink Decision.
From S2P Require Import Receiver ReceiverOpen ReceiverProps ReceiverRun GapProps.

#[local] Open Scope Z_scope.
Import MulticastReceiver.

Module SignalLoop.

(** Before [running.load()], in the body, behind the loop. *)
Inductive phase := Checking | Receiving | Stopped.

Record state (T : Type) := mk_state {
  g_running : bool;
  recv : t T;
  last_tick : Z;
  at_ : phase;
  emitted : list event
}.
Arguments mk_state {T} _ _ _ _ _.
Arguments g_running {T} _.
Arguments recv {T} _.
Arguments last_tick {T} _.
Arguments at_ {T} _.
Arguments emitted {T} _.

(** [g_running.store(false)] *)
Definition handle_signal {T} (st : state T) : state T :=
  mk_state false (recv st) (last_tick st) (at_ st) (emitted st).

Inductive label := Load | Turn (tn : turn) | Signal.

Section Steps.
Context `{Platform} {T : Type} `{PacketSink T} (tick_interval_ns : Z).

Inductive loop_step : state T -> label -> state T -> Prop :=
| load_set r last evs :
    loop_step (mk_state true r last Checking evs) Load (mk_state true r last Receiving evs)
| load_clear r last evs :
    loop_step (mk_state false r last Checking evs) Load (mk_state false r last Stopped evs)
| turn_taken b r last evs tn r' e :
    one_turn r tick_interval_ns last tn = Ok (r', e) ->
    loop_step (mk_state b r last Receiving evs) (Turn tn)
      (mk_state b r' (turn_last tick_interval_ns last tn) Checking (evs ++ e))
| signalled st : loop_step st Signal (handle_signal st).

Inductive steps : state T -> list label -> state T -> Prop :=
| steps_nil st : steps st [] st
| steps_cons st l st1 tr st2 : loop_step st l st1 -> steps st1 tr st2 -> steps st (l :: tr) st2.

(** [run] on entry: [last_tick] is the clock. *)
Definition start (r : t T) (clock : timespec) : state T :=
  mk_state true r (monotonic_ns clock) Checking [].

Definition turn_of (l : label) : option turn :=
  match l with Turn tn => Some tn | Load | Signal => None end.
Definition turns_of (tr : list label) : list turn := omap turn_of tr.

(** The steps of the loop itself. *)
Definition is_signal (l : label) : bool := match l with Signal => true | _ => false end.
Definition own_steps (tr : list label) : list label := filter (fun l => is_signal l = false) tr.

End Steps.
End SignalLoop.

Import SignalLoop.

Lemma own_steps_cons l tr :
  own_steps (l :: tr) = if is_signal l then own_steps tr else l :: own_steps tr.
Proof. unfold own_steps. rewrite filter_cons. by destruct l. Qed.

Section Loop.
Context `{Platform} {T : Type} `{PacketSink T} (interval : Z).

#[local] Notation steps := (steps interval).
#[local] Notation loop_step := (loop_step interval).

Lemma steps_app st a st1 b st2 : steps st a st1 -> steps st1 b st2 -> steps st (a ++ b) st2.
Proof. induction 1; [done|]. intros. econstructor; eauto. Qed.

Lemma steps_split st a b st2 : steps st (a ++ b) st2 -> exists st1, steps st a st1 /\ steps st1 b st2.
Proof.
  revert st. induction a as [|l a IH]; intros st Hs; [by exists st; split; [constructor|]|].
  inversion Hs as [|? ? st' ? ? H1 H2]; subst. destruct (IH st' H2) as (st1 & Ha & Hb).
  exists st1. split; [by econstructor | done].
Qed.

(** Behind the loop nothing happens but signals. *)
Lemma stopped_stays st tr st' :
  steps st tr st' -> at_ st = Stopped ->
  turns_of tr = [] /\ own_steps tr = [] /\ recv st' = recv st /\ emitted st' = emitted st /\ at_ st' = Stopped.
Proof.
  induction 1 as [|st l st1 tr st2 H1 _ IH]; [done|]. intros Hst.
  destruct H1; try done. destruct IH as (E1 & E2 & E3 & E4 & E5); [done|].
  by rewrite own_steps_cons.
Qed.

(** An execution that ends took the turns of [run_loop]. *)
Lemma execution_runs st tr st' :
  steps st tr st' -> at_ st <> Stopped -> at_ st' = Stopped ->
  exists evs, run_loop (recv st) interval (last_tick st) (turns_of tr) = Ok (recv st', evs) /\
              emitted st' = emitted st ++ evs.
Proof.
  induction 1 as [|st l st1 tr st2 H1 H2 IH]; [done|]. intros Hst Hend.
  destruct H1 as [r last evs|r last evs|b r last evs tn r' e E|st].
  - destruct IH as (evs' & E & He); [done | done|]. by exists evs'.
  - destruct (stopped_stays _ _ _ H2 eq_refl) as (Ht & _ & -> & -> & _).
    change (turns_of (Load :: tr)) with (turns_of tr). rewrite Ht.
    exists []. by rewrite app_nil_r.
  - destruct IH as (evs' & E' & He); [done | done|]. cbn [recv last_tick emitted] in *.
    change (turns_of (Turn tn :: tr)) with (tn :: turns_of tr).
    rewrite run_loop_cons, E, bind_Ok, E', bind_Ok. eexists. split; [done|]. by rewrite He, app_assoc.
  - destruct IH as (evs' & E & He); [done | done|]. by exists evs'.
Qed.

(** And every run of turns is an execution, a signal ending it. *)
Lemma run_executes r last turns r' evs out :
  run_loop r interval last turns = Ok (r', evs) ->
  exists tr st, steps (mk_state true r last Checking out) tr st /\ at_ st = Stopped /\
    turns_of tr = turns /\ recv st = r' /\ emitted st = out ++ evs.
Proof.
  revert r last evs out. induction turns as [|tn turns IH]; intros r last evs out E.
  { injection E as <- <-. exists [Signal; Load]. exists (mk_state false r last Stopped out).
    split; [|by rewrite app_nil_r]. econstructor; [apply signalled|].
    econstructor; [apply load_clear | apply steps_nil]. }
  rewrite run_loop_cons in E. destruct (one_turn r interval last tn) as [[r1 e1]|] eqn:E1; [|done].
  rewrite bind_Ok in E. destruct (run_loop r1 _ _ _) as [[r2 e2]|] eqn:E2; [|done]. injection E as <- <-.
  destruct (IH _ _ _ (out ++ e1) E2) as (tr & st & Hs & Hst & Ht & Hr & He).
  exists (Load :: Turn tn :: tr), st. split.
  { econstructor; [apply load_set|]. econstructor; [by apply turn_taken | exact Hs]. }
  change (turns_of (Load :: Turn tn :: tr)) with (tn :: turns_of tr). by rewrite Ht, He, app_assoc.
Qed.

(** Once the flag is clear, at most a turn and a load are left. *)
Lemma clear_bound st tr st' :
  steps st tr st' -> g_running st = false ->
  (length (own_steps tr) <= match at_ st with Receiving => 2 | Checking => 1 | Stopped => 0 end)%nat /\
  (length (turns_of tr) <= match at_ st with Receiving => 1 | _ => 0 end)%nat.
Proof.
  induction 1 as [|st l st1 tr st2 Hone Hmore IH]; intros Hf; [cbn; lia|]. rewrite own_steps_cons.
  destruct Hone as [r last evs|r last evs|b r last evs tn r' e E|st]; cbn [g_running at_] in *;
    cbn [is_signal length turns_of omap list_omap turn_of];
    first [done | specialize (IH Hf); unfold turns_of in IH; cbn in *; lia | exact (IH eq_refl)].
Qed.

End Loop.

(** ** What the loop and the signal do together *)

(** [run] is the executions of the receive loop with a signal: from the entry of
    the loop, whenever the signal comes, an execution that leaves the loop has done
    to the receiver, and emitted, exactly what [run] does for the turns it took,
    and for every list of turns on which [run] does not fault there is such an
    execution. *)
Theorem run_is_signalled_loop `{Platform} {T : Type} `{PacketSink T} (interval : Z)
    (clock : timespec) (r : t T) (turns : list turn) (r' : t T) (evs : list event) :
  run r interval clock turns = Ok (r', evs) <->
  exists tr st,
    steps interval (start r clock) tr st /\ at_ st = Stopped /\
    turns_of tr = turns /\ recv st = r' /\ emitted st = evs.
Proof.
  split.
  - intros E. by apply (run_executes interval r _ turns r' evs []).
  - intros (tr & st & Hs & Hst & <- & <- & <-).
    destruct (execution_runs interval _ _ _ Hs) as (evs & E & ->); [done | done|]. exact E.
Qed.

(** Datagrams a consumer accepts, whatever the buffer held. *)
Definition turn_accepted `{Platform} {T : Type} `{PacketSinkLaws T} (tn : turn) : Prop :=
  turn_ok tn /\ forall buf, blen buf = kRecvBuf -> Forall accepted (turn_datagrams buf tn).

Section Lawful.
Context `{Platform} {T : Type} `{PacketSinkLaws T} (interval : Z).

Definition receiving_ok (r : t T) : Prop := sink_ok (gap_buf_ r) /\ blen (recv_buf_ r) = kRecvBuf.

Lemma one_turn_ok r last tn :
  receiving_ok r -> turn_accepted tn ->
  exists r' e, one_turn r interval last tn = Ok (r', e) /\ receiving_ok r'.
Proof.
  intros [Hs Hb] [Hok Ha]. rewrite one_turn_drive by done.
  destruct (drive_lawful (gap_buf_ r) (turn_datagrams (recv_buf_ r) tn ++ turn_ticks interval last tn))
    as (s' & evs & rs & E & Hs' & _); [done| |].
  { apply Forall_app. split; [by apply Ha|]. unfold turn_ticks. destruct (tick_due _ _ _); [|done].
    by apply Forall_singleton. }
  rewrite E, bind_Ok. eexists _, _. split; [done|]. split; [done|]. cbn. by apply length_turn_buffer.
Qed.

Lemma loop_step_ok st l st' :
  loop_step interval st l st' -> receiving_ok (recv st) ->
  match l with Turn tn => turn_accepted tn | _ => True end -> receiving_ok (recv st').
Proof.
  intros Hone Hr Ha. destruct Hone as [| |b r last evs tn r' e E|]; try done.
  destruct (one_turn_ok r last tn Hr Ha) as (r1 & e1 & E1 & Hr1). rewrite E in E1. by injection E1 as -> ->.
Qed.

Lemma steps_ok st tr st' :
  steps interval st tr st' -> receiving_ok (recv st) -> Forall turn_accepted (turns_of tr) ->
  receiving_ok (recv st').
Proof.
  induction 1 as [|st l st1 tr st2 Hone _ IH]; [done|]. intros Hr Ha.
  apply IH; [|by destruct l; [|inversion Ha|]]. apply (loop_step_ok _ _ _ Hone Hr).
  destruct l; try done. by inversion Ha.
Qed.

Lemma steps_flag st tr st' :
  steps interval st tr st' -> g_running st = false -> g_running st' = false.
Proof.
  induction 1 as [|st l st1 tr st2 Hone _ IH]; [done|]. intros Hf. apply IH. by destruct Hone.
Qed.

End Lawful.

(** C21.  A signal ends the loop: for a consumer that keeps its contract, in whatever
    state the loop is when the flag has been cleared, it never gets stuck and no
    schedule keeps it from stopping: at most one more turn is taken and one more
    load made after the signal, and with any acceptable turn to take the loop does
    leave. *)
Theorem signal_ends_loop `{Platform} {T : Type} `{PacketSinkLaws T} (interval : Z)
    (clock : timespec) (r : t T) (before after : list label) (st : state T) (tn : turn) :
  sink_ok (gap_buf_ r) -> blen (recv_buf_ r) = kRecvBuf ->
  steps interval (start r clock) (before ++ Signal :: after) st ->
  Forall turn_accepted (turns_of (before ++ Signal :: after)) -> turn_accepted tn ->
  (length (own_steps after) <= 2)%nat /\ (length (turns_of after) <= 1)%nat /\
  exists rest st',
    steps interval st rest st' /\ at_ st' = Stopped /\
    rest ∈ [[]; [Load]; [Turn tn; Load]].
Proof.
  intros Hs Hb Hrun Hacc Htn.
  pose proof (steps_ok interval _ _ _ Hrun (conj Hs Hb) Hacc) as Hok.
  destruct (steps_split interval _ _ _ _ Hrun) as (st1 & _ & Hsig).
  inversion Hsig as [|? ? st2 ? ? Hone Hafter]; subst. inversion Hone; subst.
  destruct (clear_bound interval _ _ _ Hafter eq_refl) as [Hown Hturns].
  pose proof (steps_flag interval _ _ _ Hafter eq_refl) as Hf.
  split; [by destruct (at_ (handle_signal st1)); lia|].
  split; [by destruct (at_ (handle_signal st1)); lia|].
  destruct st as [b r1 last ph evs]. cbn [g_running recv] in *. subst b. destruct ph.
  - exists [Load]. eexists. split; [econstructor; [apply load_clear | apply steps_nil]|].
    split; [done|]. right. left.
  - destruct (one_turn_ok interval r1 last tn Hok Htn) as (r2 & e & E & _).
    exists [Turn tn; Load]. eexists. split.
    { econstructor; [by apply turn_taken|]. econstructor; [apply load_clear | apply steps_nil]. }
    split; [done|]. right. right. left.
  - exists []. eexists. split; [apply steps_nil|]. split; [done|]. left.
Qed.

(** The signal comes in the middle of the second turn. *)
Definition interrupted : list label := [Load; Turn (mk_turn (RecvFailed 11) (mk_timespec 0 0) (mk_timespec 1 0)); Load].

Lemma interrupted_steps (r : t GapBuffer.t) :
  steps 100000 (start r (mk_timespec 1 0)) (interrupted ++ Signal :: [])
    (mk_state false r 1000000000 Receiving []).
Proof.
  econstructor; [apply load_set|]. econstructor.
  { apply (turn_taken _ true r (monotonic_ns (mk_timespec 1 0)) [] _ r []). by destruct r. }
  econstructor; [apply load_set|]. econstructor; [apply signalled | apply steps_nil].
Qed.

Lemma signal_ends_loop_witness :
  let r := create test_rcfg (listening test_config true true true) test_buf in
  let tn := mk_turn (RecvFailed 11) (mk_timespec 0 0) (mk_timespec 1 50) in
  (length (own_steps []) <= 2)%nat /\ (length (turns_of []) <= 1)%nat /\
  exists rest st',
    steps 100000 (mk_state false r 1000000000 Receiving []) rest st' /\ at_ st' = Stopped /\
    rest ∈ [[]; [Load]; [Turn tn; Load]].
Proof.
  intros r tn.
  apply (signal_ends_loop 100000 (mk_timespec 1 0) r interrupted [] (mk_state false r 1000000000 Receiving []) tn).
  - by apply (listening_ok test_config true true).
  - apply length_test_buf.
  - apply interrupted_steps.
  - apply Forall_singleton. by split; [|intros].
  - by split; [|intros].
Defined.
