(* ===== verification/Pipeline.v ===== *)
(** * Pipeline: from datagrams to decisions

    Models the wiring of [tools/tick_to_trade_bench.cpp]: the gap buffer's
    messages go to the multi-symbol book, whose top-of-book changes go to the
    decision engine.  Callbacks run inside [ingest] and touch nothing of the gap
    buffer, so they are run over its events, in order.  The clock the engine
    reads is a parameter. *)

From stdpp Require Import base gmap list strings fin_maps.
From Stdlib Require Import ZArith Lia.
From S2P Require Import Prelude WireFormat WireLemmas GapBuf GapWalk Framing.
From S2P Require Import GapInv GapStep GapRun GapProps GapComplete.
From S2P Require Import Book BookInv BookProps BookTop SymbolBook SymbolProps Stats StatsProps Decision.

#[local] Open Scope Z_scope.

Module Pipeline.

Record t := mk {
  gap_buf : GapBuffer.t;
  book : MultiSymbolBook.t;
  engine : DecisionEngine.t
}.

(** The objects of [main], wired; the engine reports its decisions. *)
Definition create (gcfg : GapBuffer.Config) (ecfg : DecisionEngine.Config) : t :=
  mk (GapBuffer.set_on_message (GapBuffer.create gcfg) true)
     (MultiSymbolBook.set_on_top_change MultiSymbolBook.init true)
     (DecisionEngine.set_on_decision (DecisionEngine.create ecfg) true).

Section Ops.
(** The reading of [CLOCK_MONOTONIC] at the [n]-th top-of-book change. *)
Context (clock : Z -> timespec).

Fixpoint on_top_changes (e : DecisionEngine.t) (tops : list MultiSymbolBook.top_event)
    : DecisionEngine.t * list Decision :=
  match tops with
  | [] => (e, [])
  | (sym, top, recv_ns) :: tops' =>
      let '(e1, d1) := DecisionEngine.on_top_of_book e sym top recv_ns
                         (clock (DecisionEngine.top_changes_seen_ e)) in
      let '(e2, d2) := on_top_changes e1 tops' in
      (e2, d1 ++ d2)
  end.

Fixpoint on_messages (b : MultiSymbolBook.t) (e : DecisionEngine.t) (ms : list MoldMessage.t)
    : res (MultiSymbolBook.t * DecisionEngine.t * list Decision) :=
  match ms with
  | [] => mret (b, e, [])
  | m :: ms' =>
      '(b1, tops, _) ← MultiSymbolBook.ingest b m;
      let '(e1, d1) := on_top_changes e tops in
      '(b2, e2, d2) ← on_messages b1 e1 ms';
      mret (b2, e2, d1 ++ d2)
  end.

Definition step (p : t) (i : input) : res (t * list Decision) :=
  '(g, evs) ← apply_input (gap_buf p) i;
  '(b, e, ds) ← on_messages (book p) (engine p) (messages evs);
  mret (mk g b e, ds).

Fixpoint run (p : t) (ins : list input) : res (t * list Decision) :=
  match ins with
  | [] => mret (p, [])
  | i :: ins' =>
      '(p1, d1) ← step p i;
      '(p2, d2) ← run p1 ins';
      mret (p2, d1 ++ d2)
  end.

End Ops.
End Pipeline.

Import Pipeline.

(** ** The engine on a list of tops *)

(** What is traded: everything of a decision but its times. *)
Definition quote (d : Decision) : list byte * Z * Z * byte :=
  (Decision.symbol d, d_price d, d_shares d, d_side d).

Definition quote_of (c : DecisionEngine.Config) (sym : list byte) (top : TopOfBook)
    : list (list byte * Z * Z * byte) :=
  match bid top, ask top with
  | Some b, Some a =>
      if DecisionEngine.spread_of b a
         <=? u32 (DecisionEngine.min_spread_ticks c * DecisionEngine.tick_size c) then []
      else [(sym, u32 (pl_price b + DecisionEngine.tick_size c), DecisionEngine.quote_size c, kBuy)]
  | _, _ => []
  end.

Definition quotes_of (c : DecisionEngine.Config) (tops : list MultiSymbolBook.top_event) :=
  tops ≫= (fun '(sym, top, _) => quote_of c sym top).

Lemma on_top_quotes e sym top ns ts :
  DecisionEngine.on_decision_ e = true ->
  let r := DecisionEngine.on_top_of_book e sym top ns ts in
  quote <$> r.2 = quote_of (DecisionEngine.cfg_ e) sym top /\
  DecisionEngine.cfg_ r.1 = DecisionEngine.cfg_ e /\ DecisionEngine.on_decision_ r.1 = true /\
  Forall (fun d => d_recv_ns d = ns) r.2.
Proof.
  intros Hon r. unfold r, DecisionEngine.on_top_of_book, quote_of.
  cbn [DecisionEngine.cfg_ DecisionEngine.on_decision_].
  destruct (bid top) as [b|]; [|done]. destruct (ask top) as [a|]; [|done].
  destruct (_ <=? _); [done|]. rewrite Hon. cbn. repeat (split; [done|]). by apply Forall_singleton.
Qed.

Lemma on_top_changes_quotes clock e tops :
  DecisionEngine.on_decision_ e = true ->
  let r := on_top_changes clock e tops in
  quote <$> r.2 = quotes_of (DecisionEngine.cfg_ e) tops /\
  DecisionEngine.cfg_ r.1 = DecisionEngine.cfg_ e /\ DecisionEngine.on_decision_ r.1 = true /\
  (forall t, Forall (fun '(_, _, ns) => ns = t) tops -> Forall (fun d => d_recv_ns d = t) r.2).
Proof.
  revert e. induction tops as [|[[sym top] ns] tops IH]; intros e Hon; [done|].
  cbn [on_top_changes].
  destruct (on_top_quotes e sym top ns (clock (DecisionEngine.top_changes_seen_ e)) Hon)
    as (Q1 & C1 & O1 & T1).
  destruct (DecisionEngine.on_top_of_book _ _ _ _ _) as [e1 d1]. cbn [fst snd] in *.
  destruct (IH e1 O1) as (Q2 & C2 & O2 & T2).
  destruct (on_top_changes clock e1 tops) as [e2 d2]. cbn [fst snd] in *.
  unfold quotes_of in *. cbn [mbind list_bind]. rewrite fmap_app, Q1, Q2, C1.
  split; [done|]. split; [congruence|]. split; [done|].
  intros t Ht. apply Forall_cons in Ht as [-> Ht]. apply Forall_app. auto.
Qed.

(** ** Books do not look at the time *)

Definition restamp (ns : Z) (l : list (TopOfBook * Z)) : list (TopOfBook * Z) :=
  (fun e => (e.1, ns)) <$> l.

Definition timeless {A B} (f : Z -> A * list (B * Z)) : Prop :=
  forall ns, (f ns).1 = (f 0).1 /\ (f ns).2 = (fun e => (e.1, ns)) <$> (f 0).2.

Lemma notify_timeless b : timeless (OrderBook.notify_if_top_changed b).
Proof.
  intros ns. unfold OrderBook.notify_if_top_changed.
  destruct (negb _); [done|]. by destruct (OrderBook.top_changed _ _).
Qed.

Lemma apply_timeless b :
  (forall m, timeless (OrderBook.apply_add b m)) /\
  (forall m, timeless (OrderBook.apply_delete b m)) /\
  (forall ref n s, timeless (OrderBook.reduce_order b ref n s)) /\
  (forall m, timeless (OrderBook.apply_replace b m)).
Proof.
  repeat split; unfold OrderBook.apply_add, OrderBook.apply_delete, OrderBook.reduce_order,
    OrderBook.apply_replace; case_match; first [done | apply notify_timeless].
Qed.

Lemma update_timeless (s : MultiSymbolBook.t) sym f :
  timeless f -> timeless (fun ns => MultiSymbolBook.update_book s sym (f ns)).
Proof.
  intros Hf ns. destruct (Hf ns) as [E1 E2]. unfold MultiSymbolBook.update_book. cbn [fst snd].
  rewrite E1, E2. split; [done|]. unfold MultiSymbolBook.report.
  rewrite <-!list_fmap_compose. apply list_fmap_ext. by intros i [].
Qed.

Lemma ingest_msg_timeless s m : timeless (ingest_msg s m).
Proof.
  destruct m as [a|d|c|e|r]; intros ns; cbn [ingest_msg].
  - unfold MultiSymbolBook.ingest_add. cbv zeta.
    apply (update_timeless _ _ (OrderBook.apply_add _ a)). apply apply_timeless.
  - unfold MultiSymbolBook.ingest_delete. destruct (MultiSymbolBook.route _ _) as [[sym b]|]; [|done].
    destruct (update_timeless s sym (OrderBook.apply_delete b d) (proj1 (proj2 (apply_timeless b)) d) ns)
      as [E1 E2]. cbn in E1, E2 |- *. by rewrite E1, E2.
  - unfold MultiSymbolBook.ingest_cancel. destruct (MultiSymbolBook.route _ _) as [[sym b]|]; [|done].
    apply (update_timeless _ _ (OrderBook.apply_cancel b c)). apply apply_timeless.
  - unfold MultiSymbolBook.ingest_executed. destruct (MultiSymbolBook.route _ _) as [[sym b]|]; [|done].
    destruct (update_timeless s sym (OrderBook.apply_executed b e)
      (proj1 (proj2 (proj2 (apply_timeless b))) _ _ _) ns) as [E1 E2].
    cbn in E1, E2 |- *. by rewrite E1, E2.
  - unfold MultiSymbolBook.ingest_replace. case_match; [|done].
    match goal with |- context [MultiSymbolBook.update_book s ?sym (OrderBook.apply_replace ?b r ns)] =>
      destruct (update_timeless s sym (OrderBook.apply_replace b r)
        (proj2 (proj2 (proj2 (apply_timeless b))) r) ns) as [E1 E2] end.
    cbn in E1, E2 |- *. by rewrite E1, E2.
Qed.
