(* ===== verification/PipelineProps.v ===== *)
(** * PipelineProps: trading depends on the stream alone

    The decisions of the pipeline are those of a trader who reads the exchange's
    stream directly: packets, order of arrival, buffering and arrival times do
    not show in what is traded. *)

From stdpp Require Import base gmap list strings fin_maps.
From Stdlib Require Import ZArith Lia.
From S2P Require Import Prelude WireFormat WireLemmas GapBuf GapWalk Framing.
From S2P Require Import GapInv GapStep GapRun GapProps GapComplete.
From S2P Require Import Book BookInv BookProps BookTop SymbolBook SymbolProps Stats StatsProps Decision.
From S2P Require Import Pipeline.

#[local] Open Scope Z_scope.
Import Pipeline.

(** ** A message is its content *)

(** A message of the stream, by itself. *)
Definition plain (body : list byte) : MoldMessage.t := MoldMessage.mk (blen body) body 0 0.

Lemma readable_plain body : readable (plain body).
Proof. unfold readable. cbn. lia. Qed.

Lemma slice_content m off n :
  readable m -> 0 <= off -> 0 <= n -> off + n <= MoldMessage.length m ->
  slice (msg_content m) off n = slice (MoldMessage.body m) off n.
Proof. intros. by apply slice_take. Qed.

Lemma length_content m : readable m -> blen (msg_content m) = MoldMessage.length m.
Proof. intros [H0 Hl]. unfold msg_content. rewrite length_take. lia. Qed.

Lemma lookup_content m (i : nat) :
  readable m -> Z.of_nat i < MoldMessage.length m -> msg_content m !! i = MoldMessage.body m !! i.
Proof. intros [H0 Hl] Hi. unfold msg_content. apply lookup_take_lt. lia. Qed.

(** Decoding stays inside the message. *)
Lemma decoded_content m : readable m -> decoded m = decoded (plain (msg_content m)).
Proof.
  intros Hr. pose proof Hr as [H0 Hl]. unfold decoded, plain.
  cbn [MoldMessage.body MoldMessage.length]. rewrite (length_content m Hr).
  destruct (Z.eqb_spec (MoldMessage.length m) 0); [done|].
  rewrite (slice_content m 0 1) by (done || lia).
  assert (Hc : MoldMessage.length m <= blen (msg_content m)) by (rewrite length_content by done; lia).
  destruct (itch_of_code _); try done;
    rewrite ?ItchAddOrder_parse_eq, ?ItchDeleteOrder_parse_eq, ?ItchOrderCancel_parse_eq,
      ?ItchOrderExecuted_parse_eq, ?ItchOrderReplace_parse_eq by done;
    (case_bool; [done|]); rewrite !slice_content by (done || lia);
    rewrite ?lookup_content by (done || lia); done.
Qed.

(** ** Equal contents, equal trading *)

Definition trader_ok (e e' : DecisionEngine.t) : Prop :=
  DecisionEngine.cfg_ e = DecisionEngine.cfg_ e' /\
  DecisionEngine.on_decision_ e = true /\ DecisionEngine.on_decision_ e' = true.

(** The same tops, reported at [ns]. *)
Definition at_time (ns : Z) (tops : list MultiSymbolBook.top_event) : list MultiSymbolBook.top_event :=
  (fun t => (t.1, ns)) <$> tops.

Lemma ingest_msg_at s m ns :
  ingest_msg s m ns = ((ingest_msg s m 0).1, at_time ns (ingest_msg s m 0).2).
Proof.
  destruct (ingest_msg_timeless s m ns) as [E1 E2]. destruct (ingest_msg s m ns) as [s1 tops].
  cbn in E1, E2. by subst.
Qed.

Lemma ingest_content b m :
  readable m ->
  exists b1 tops ok,
    MultiSymbolBook.ingest b m
      = Ok (b1, at_time (MoldMessage.recv_ns m) tops, ok) /\
    forall m', readable m' -> msg_content m' = msg_content m ->
      MultiSymbolBook.ingest b m'
        = Ok (b1, at_time (MoldMessage.recv_ns m') tops, ok).
Proof.
  intros Hr. rewrite ingest_decoded by done.
  destruct (decoded m) as [x|] eqn:E.
  - exists (ingest_msg b x 0).1, (ingest_msg b x 0).2, true. split; [by rewrite ingest_msg_at|].
    intros m' Hr' Hc. rewrite ingest_decoded by done.
    by rewrite decoded_content, Hc, <-decoded_content, E, ingest_msg_at by done.
  - exists b, [], false. split; [done|]. intros m' Hr' Hc. rewrite ingest_decoded by done.
    by rewrite decoded_content, Hc, <-decoded_content, E by done.
Qed.

Lemma quotes_of_restamp c (tops : list MultiSymbolBook.top_event) ns :
  quotes_of c (at_time ns tops) = quotes_of c tops.
Proof.
  unfold quotes_of, at_time. induction tops as [|[[sym top] n] tops IH]; [done|].
  cbn [fmap list_fmap mbind list_bind fst]. by rewrite IH.
Qed.

Lemma on_messages_content clock clock' b e e' ms ms' :
  trader_ok e e' -> Forall readable ms -> Forall readable ms' ->
  msg_content <$> ms = msg_content <$> ms' ->
  exists b1 e1 e1' ds ds',
    on_messages clock b e ms = Ok (b1, e1, ds) /\
    on_messages clock' b e' ms' = Ok (b1, e1', ds') /\
    quote <$> ds = quote <$> ds' /\ trader_ok e1 e1' /\
    Forall (fun d => exists m, m ∈ ms /\ d_recv_ns d = MoldMessage.recv_ns m) ds.
Proof.
  intros He Hms. revert b e e' ms' He.
  induction Hms as [|m ms Hm _ IH]; intros b e e' ms' He Hms' Hc.
  { destruct ms'; [|done]. exists b, e, e', [], []. repeat (split; [done|]). by apply Forall_nil. }
  destruct ms' as [|m' ms']; [done|]. cbn [fmap list_fmap] in Hc. injection Hc as Hc1 Hc.
  apply Forall_cons in Hms' as [Hm' Hms'].
  destruct (ingest_content b m Hm) as (b1 & tops & ok & E & Hsame).
  specialize (Hsame m' Hm' (eq_sym Hc1)). cbn [on_messages]. rewrite E, Hsame, !bind_Ok.
  destruct He as (Hcfg & Hon & Hon').
  destruct (on_top_changes_quotes clock e (at_time (MoldMessage.recv_ns m) tops) Hon)
    as (Q1 & C1 & O1 & T1).
  destruct (on_top_changes_quotes clock' e' (at_time (MoldMessage.recv_ns m') tops) Hon')
    as (Q2 & C2 & O2 & _).
  destruct (on_top_changes clock e _) as [e1 d1]. destruct (on_top_changes clock' e' _) as [e1' d1'].
  cbn [fst snd] in *.
  destruct (IH b1 e1 e1' ms') as (b2 & e2 & e2' & ds & ds' & E2 & E2' & Q & He2 & Hp);
    [by split; [congruence|] | done | done |].
  rewrite E2, E2', !bind_Ok. exists b2, e2, e2', (d1 ++ ds), (d1' ++ ds').
  split; [done|]. split; [done|]. split.
  - rewrite !fmap_app, Q1, Q2, Q, !quotes_of_restamp. congruence.
  - split; [done|]. apply Forall_app. split.
    + eapply Forall_impl; [apply T1; apply Forall_fmap, Forall_true; by intros [[] ?]|].
      intros d Hd. exists m. split; [apply list_elem_of_here | done].
    + eapply Forall_impl; [exact Hp|]. intros d (x & Hx & Hd). exists x.
      split; [by apply list_elem_of_further | done].
Qed.

Lemma on_messages_app clock b e ms1 ms2 :
  on_messages clock b e (ms1 ++ ms2) =
  '(b1, e1, d1) ← on_messages clock b e ms1;
  '(b2, e2, d2) ← on_messages clock b1 e1 ms2; mret (b2, e2, d1 ++ d2).
Proof.
  revert b e. induction ms1 as [|m ms1 IH]; intros b e.
  { cbn. by destruct (on_messages clock b e ms2) as [[[] ]|]. }
  cbn [app on_messages]. destruct (MultiSymbolBook.ingest b m) as [[[b1 tops] ok]|]; [|done].
  rewrite !bind_Ok. destruct (on_top_changes clock e tops) as [e1 d1]. rewrite IH.
  destruct (on_messages clock b1 e1 ms1) as [[[b2 e2] d2]|]; [|done]. rewrite !bind_Ok.
  destruct (on_messages clock b2 e2 ms2) as [[[b3 e3] d3]|]; [|done]. by rewrite !bind_Ok, app_assoc.
Qed.

(** The pipeline is the buffer, then the books and the engine over its messages. *)
Lemma pipeline_run clock p ins g evs :
  GapRun.run (gap_buf p) ins = Ok (g, evs) ->
  is_ok (on_messages clock (book p) (engine p) (messages evs)) = true ->
  run clock p ins =
  '(b, e, ds) ← on_messages clock (book p) (engine p) (messages evs); mret (mk g b e, ds).
Proof.
  revert p evs. induction ins as [|i ins IH]; intros p evs Hr Hok.
  { injection Hr as <- <-. by destruct p. }
  cbn [GapRun.run run] in *. unfold step.
  destruct (apply_input (gap_buf p) i) as [[g1 e1]|]; [|done]. rewrite !bind_Ok in *.
  destruct (GapRun.run g1 ins) as [[g2 e2]|] eqn:E2; [|done]. injection Hr as <- <-.
  rewrite messages_app, on_messages_app in *.
  destruct (on_messages clock (book p) (engine p) (messages e1)) as [[[b1 t1] d1]|]; [|done].
  rewrite !bind_Ok in *.
  specialize (IH (mk g1 b1 t1) e2 E2). cbn [gap_buf book engine] in IH.
  destruct (on_messages clock b1 t1 (messages e2)) as [[[b2 t2] d2]|]; [|done].
  rewrite IH by done. by rewrite !bind_Ok.
Qed.

(** ** Runs of the pipeline *)

(** Message [k] of the stream, from a datagram that arrived at [t]. *)
Definition streamed (S : Z -> list byte) (ins : list input) (k : Z) (b : list byte) (t : Z) : Prop :=
  b = S k /\ arrived ins k b t.

Lemma carries_streamed S ins all :
  Forall (carries S) ins -> (forall i, i ∈ ins -> i ∈ all) ->
  Forall (input_ok (streamed S all)) ins.
Proof.
  rewrite !Forall_forall. intros Hs Hsub i Hi. specialize (Hs i Hi).
  destruct i as [payload len now|now]; [|done]. destruct Hs as [[Hl Hw] Hc].
  split; [done|]. intros Hlen. split; [auto|].
  intros k b Hk. split; [by apply Hc|]. exists payload, len, k. auto.
Qed.

(** What a run hands over, with all that is known of it. *)
Lemma run_segment S c ins :
  length (GapBuffer.cfg_session c) = 10%nat -> Forall (carries S) ins ->
  let g0 := GapBuffer.set_on_message (GapBuffer.create c) true in
  let n0 := session_start g0 ins in
  exists g evs,
    GapRun.run g0 ins = Ok (g, evs) /\ n0 <= GapBuffer.next_expected_ g /\
    msg_content <$> messages evs = S <$> seqZ n0 (GapBuffer.next_expected_ g - n0) /\
    Forall readable (messages evs) /\
    Forall (fun m => arrived ins (MoldMessage.seq_num m) (msg_content m) (MoldMessage.recv_ns m))
           (messages evs).
Proof.
  intros Hc Hins g0 n0.
  destruct (run_follows _ g0 ins (listening_inv _ c true false false Hc)
              (listening_settled (streamed S ins) c true false false Hc)
              (carries_streamed S ins ins Hins (fun _ H => H)))
    as (g & evs & Hr & [_ _ Hle Hseq Hsrc _ _]).
  fold n0 in Hle, Hseq. exists g, evs. split; [done|]. split; [done|].
  cbn [GapBuffer.on_message_ GapBuffer.set_on_message g0] in Hseq. split; [|split].
  - rewrite <-Hseq, <-list_fmap_compose. apply list_fmap_ext. intros i m Hm.
    rewrite Forall_lookup in Hsrc. by destruct (Hsrc i m Hm) as [[-> _] _].
  - eapply Forall_impl; [exact Hsrc|]. intros m (_ & ? & ?). unfold readable. width.
  - eapply Forall_impl; [exact Hsrc|]. by intros m ((_ & ?) & _).
Qed.

(** The trader who reads the stream itself, from message [n0], [n] messages long. *)
Definition trade (ecfg : DecisionEngine.Config) (S : Z -> list byte) (n0 n : Z)
    : res (MultiSymbolBook.t * list (list byte * Z * Z * byte)) :=
  match on_messages (fun _ => mk_timespec 0 0)
          (book (create GapBuffer.Config_init ecfg)) (engine (create GapBuffer.Config_init ecfg))
          (map (fun k => plain (S k)) (seqZ n0 n)) with
  | Ok (b, _, ds) => Ok (b, quote <$> ds)
  | Fault f => Fault f
  end.

Lemma content_plain body : msg_content (plain body) = body.
Proof. unfold msg_content, plain. cbn. by rewrite take_ge by lia. Qed.

(** Any run of the pipeline over a segment of the stream is that trader. *)
Lemma pipeline_trades clock c ecfg S ins g evs n0 n :
  GapRun.run (GapBuffer.set_on_message (GapBuffer.create c) true) ins = Ok (g, evs) ->
  Forall readable (messages evs) -> msg_content <$> messages evs = S <$> seqZ n0 n ->
  exists p ds,
    run clock (create c ecfg) ins = Ok (p, ds) /\ gap_buf p = g /\
    trade ecfg S n0 n = Ok (book p, quote <$> ds) /\
    Forall (fun d => exists m, m ∈ messages evs /\ d_recv_ns d = MoldMessage.recv_ns m) ds.
Proof.
  intros Hr Hread Hcont.
  destruct (on_messages_content clock (fun _ => mk_timespec 0 0)
    (book (create c ecfg)) (engine (create c ecfg)) (engine (create c ecfg))
    (messages evs) (map (fun k => plain (S k)) (seqZ n0 n)))
    as (b & e & e' & ds & ds' & E & E' & Q & _ & Hp); [done | done | | |].
  - apply Forall_fmap, Forall_true. intros. apply readable_plain.
  - rewrite Hcont. change (map ?f ?l) with (f <$> l). rewrite <-list_fmap_compose.
    apply list_fmap_ext. intros. symmetry. apply content_plain.
  - exists (mk g b e), ds. split.
    + rewrite (pipeline_run clock (create c ecfg) ins g evs); [by rewrite E | done | by rewrite E].
    + split; [done|]. split; [|exact Hp]. unfold trade.
      change (book (create GapBuffer.Config_init ecfg)) with (book (create c ecfg)).
      change (engine (create GapBuffer.Config_init ecfg)) with (engine (create c ecfg)).
      rewrite E'. by rewrite Q.
Qed.

(** C2.  Tick to trade: over any datagrams that carry messages of the stream (lost,
    repeated, reordered, in packets of any size, at any times, with any clock),
    the pipeline does not fault and holds the books and emits the quotes of a
    trader who reads the messages delivered, [n0] to [next_expected_ - 1],
    straight from the stream. *)
Theorem pipeline_trades_stream (clock : Z -> timespec) (S : Z -> list byte)
    (c : GapBuffer.Config) (ecfg : DecisionEngine.Config) (ins : list input) :
  length (GapBuffer.cfg_session c) = 10%nat -> Forall (carries S) ins ->
  let n0 := session_start (gap_buf (create c ecfg)) ins in
  exists p ds,
    run clock (create c ecfg) ins = Ok (p, ds) /\
    n0 <= GapBuffer.next_expected_ (gap_buf p) /\
    trade ecfg S n0 (GapBuffer.next_expected_ (gap_buf p) - n0) = Ok (book p, quote <$> ds).
Proof.
  intros Hc Hins n0.
  destruct (run_segment S c ins Hc Hins) as (g & evs & Hr & Hle & Hcont & Hread & _).
  destruct (pipeline_trades clock c ecfg S ins g evs _ _ Hr Hread Hcont) as (p & ds & E & <- & Ht & _).
  by exists p, ds.
Qed.

(** The latency anchor: every decision carries the arrival time of a datagram of
    the run that contained the message it reacts to, also when that message
    waited in the out-of-order buffer. *)
Theorem decisions_anchored_to_arrival (clock : Z -> timespec) (S : Z -> list byte)
    (c : GapBuffer.Config) (ecfg : DecisionEngine.Config) (ins : list input) :
  length (GapBuffer.cfg_session c) = 10%nat -> Forall (carries S) ins ->
  exists p ds,
    run clock (create c ecfg) ins = Ok (p, ds) /\
    Forall (fun d => exists k b, arrived ins k b (d_recv_ns d)) ds.
Proof.
  intros Hc Hins.
  destruct (run_segment S c ins Hc Hins) as (g & evs & Hr & Hle & Hcont & Hread & Harr).
  destruct (pipeline_trades clock c ecfg S ins g evs _ _ Hr Hread Hcont) as (p & ds & E & _ & _ & Hd).
  exists p, ds. split; [done|]. eapply Forall_impl; [exact Hd|]. intros d (m & Hm & ->).
  rewrite Forall_forall in Harr. eauto.
Qed.

(** A window whose packets have all arrived is traded whole. *)
Lemma covered_window_trades (clock : Z -> timespec) (S : Z -> list byte)
    (c : GapBuffer.Config) (ecfg : DecisionEngine.Config)
    (n0 N : Z) (start : Z -> Prop) (cnt : Z -> Z) (ins : list input) :
  length (GapBuffer.cfg_session c) = 10%nat ->
  packetization n0 N start cnt -> 0 <= n0 -> N < 2 ^ 64 -> N - n0 <= GapBuffer.kCapacity ->
  Forall (whole_carries S start cnt) ins -> (forall f, start f -> received ins f) ->
  session_start (gap_buf (create c ecfg)) ins = n0 ->
  exists p ds evs,
    run clock (create c ecfg) ins = Ok (p, ds) /\
    GapRun.run (gap_buf (create c ecfg)) ins = Ok (gap_buf p, evs) /\
    GapBuffer.next_expected_ (gap_buf p) = N /\ blen (messages evs) = N - n0 /\
    trade ecfg S n0 (N - n0) = Ok (book p, quote <$> ds).
Proof.
  intros Hc PZ H0 HN Hw Hins Hrec Hst.
  destruct (run_complete S c false false n0 N start cnt ins) as (g & evs & Hr & Hn & _); [done..|].
  assert (Hcar : Forall (carries S) ins) by (eapply Forall_impl; [exact Hins | by intros i []]).
  destruct (run_segment S c ins Hc Hcar) as (g1 & evs1 & Hr1 & Hle & Hcont & Hread & _).
  change (listening c true false false) with (GapBuffer.set_on_message (GapBuffer.create c) true) in Hr.
  change (gap_buf (create c ecfg))
    with (GapBuffer.set_on_message (GapBuffer.create c) true) in *.
  rewrite Hr in Hr1. apply Ok_inj, pair_equal_spec in Hr1 as [<- <-]. rewrite Hst, Hn in Hcont, Hle.
  destruct (pipeline_trades clock c ecfg S ins g evs n0 (N - n0) Hr Hread Hcont)
    as (p & ds & E & <- & Ht & _).
  exists p, ds, evs. split; [done|]. split; [done|]. split; [done|]. split; [|done].
  apply (f_equal length) in Hcont. rewrite !length_fmap, length_seqZ in Hcont. lia.
Qed.

(** C17.  Arrival order does not show: if two receivers of the same window of the
    stream both get each of its packets at least once, in whatever order, at
    whatever times, with whatever repetitions and clocks, they end with the same
    books and have quoted the same prices for the same symbols in the same
    order. *)
Theorem arrival_order_does_not_show (clock clock' : Z -> timespec) (S : Z -> list byte)
    (c c' : GapBuffer.Config) (ecfg : DecisionEngine.Config)
    (n0 N : Z) (start : Z -> Prop) (cnt : Z -> Z) (ins ins' : list input) :
  length (GapBuffer.cfg_session c) = 10%nat -> length (GapBuffer.cfg_session c') = 10%nat ->
  packetization n0 N start cnt -> 0 <= n0 -> N < 2 ^ 64 -> N - n0 <= GapBuffer.kCapacity ->
  Forall (whole_carries S start cnt) ins -> Forall (whole_carries S start cnt) ins' ->
  (forall f, start f -> received ins f /\ received ins' f) ->
  session_start (gap_buf (create c ecfg)) ins = n0 ->
  session_start (gap_buf (create c' ecfg)) ins' = n0 ->
  exists p ds p' ds',
    run clock (create c ecfg) ins = Ok (p, ds) /\
    run clock' (create c' ecfg) ins' = Ok (p', ds') /\
    book p = book p' /\ quote <$> ds = quote <$> ds' /\
    trade ecfg S n0 (N - n0) = Ok (book p, quote <$> ds).
Proof.
  intros Hc Hc' PZ H0 HN Hw Hi Hi' Hall Hs Hs'.
  destruct (covered_window_trades clock S c ecfg n0 N start cnt ins)
    as (p & ds & _ & E & _ & _ & _ & Ht); [done..| by intros f Hf; apply Hall | done|].
  destruct (covered_window_trades clock' S c' ecfg n0 N start cnt ins')
    as (p' & ds' & _ & E' & _ & _ & _ & Ht'); [done..| by intros f Hf; apply Hall | done|].
  exists p, ds, p', ds'. split; [done|]. split; [done|].
  rewrite Ht in Ht'. apply Ok_inj, pair_equal_spec in Ht' as [Hb Hq]. done.
Qed.

(** ** A trading session: an order, its counterpart far above, a better order *)

Definition trade_stream (k : Z) : list byte :=
  if k =? 1 then itch_add_wire 65 1 0 100 1 kBuy 300 (padded sym_a) 10000
  else if k =? 2 then itch_add_wire 65 1 0 110 2 kSell 200 (padded sym_a) 10500
  else if k =? 3 then itch_cancel_wire 1 0 120 1 100
  else itch_add_wire 70 1 0 130 3 kBuy 50 (padded sym_a) 10100.

Definition trade_inputs : list input :=
  [datagram 1 [trade_stream 1] 10; datagram 3 [trade_stream 3; trade_stream 4] 20;
   datagram 2 [trade_stream 2] 30].
Definition trade_inputs' : list input :=
  [Tick 3; datagram 1 [trade_stream 1] 5; datagram 1 [trade_stream 1] 6;
   datagram 2 [trade_stream 2] 7; datagram 3 [trade_stream 3; trade_stream 4] 8].
Definition trade_start (f : Z) : Prop := f = 1 \/ f = 2 \/ f = 3.
Definition trade_cnt (f : Z) : Z := if f =? 3 then 2 else 1.
Definition steady (n : Z) : timespec := mk_timespec 1 n.

Lemma pipeline_trades_stream_witness :
  let n0 := session_start (gap_buf (create test_config DecisionEngine.Config_init)) trade_inputs in
  exists p ds,
    run steady (create test_config DecisionEngine.Config_init) trade_inputs = Ok (p, ds) /\
    n0 <= GapBuffer.next_expected_ (gap_buf p) /\
    trade DecisionEngine.Config_init trade_stream n0
      (GapBuffer.next_expected_ (gap_buf p) - n0) = Ok (book p, quote <$> ds).
Proof.
  apply (pipeline_trades_stream steady trade_stream test_config DecisionEngine.Config_init).
  - reflexivity.
  - unfold trade_inputs. check_carries.
Defined.

Lemma decisions_anchored_to_arrival_witness :
  exists p ds,
    run steady (create test_config DecisionEngine.Config_init) trade_inputs = Ok (p, ds) /\
    Forall (fun d => exists k b, arrived trade_inputs k b (d_recv_ns d)) ds.
Proof.
  apply (decisions_anchored_to_arrival steady trade_stream).
  - reflexivity.
  - unfold trade_inputs. check_carries.
Defined.

Lemma trade_packetization : packetization 1 5 trade_start trade_cnt.
Proof.
  unfold trade_start, trade_cnt. split.
  - by left.
  - intros f [->|[->| ->]]; by vm_compute.
  - intros f [->|[->| ->]]; vm_compute; auto.
  - intros f f' [->|[->| ->]] [->|[->| ->]] H; vm_compute in H |- *; done.
Qed.

Ltac check_whole_carries :=
  repeat (apply Forall_cons; split); [.. | by apply Forall_nil];
    (split; [first [exact I | split; [by vm_compute|]; split; [by vm_compute|];
                    split; [vm_compute; auto | by vm_compute]] |]);
    first [ exact I
      | split; [ by vm_compute
               | intros _ k b H; vm_compute in H;
                 repeat (destruct k as [|k]; [by injection H as <- | ]); done ] ].

Lemma trade_inputs_whole :
  Forall (whole_carries trade_stream trade_start trade_cnt) trade_inputs /\
  Forall (whole_carries trade_stream trade_start trade_cnt) trade_inputs'.
Proof. split; unfold trade_inputs, trade_inputs'; check_whole_carries. Qed.

Lemma received_at ins i payload len now f :
  ins !! i = Some (Datagram payload len now) -> MoldHeader.seq_num (header payload) = f ->
  received ins f.
Proof. intros Hi Hf. exists payload, len, now. split; [by eapply list_elem_of_lookup_2 | done]. Qed.

Lemma trade_received f : trade_start f -> received trade_inputs f /\ received trade_inputs' f.
Proof.
  intros [->|[->| ->]]; split.
  - eapply (received_at trade_inputs 0); [reflexivity | by vm_compute].
  - eapply (received_at trade_inputs' 1); [reflexivity | by vm_compute].
  - eapply (received_at trade_inputs 2); [reflexivity | by vm_compute].
  - eapply (received_at trade_inputs' 3); [reflexivity | by vm_compute].
  - eapply (received_at trade_inputs 1); [reflexivity | by vm_compute].
  - eapply (received_at trade_inputs' 4); [reflexivity | by vm_compute].
Qed.

Lemma arrival_order_does_not_show_witness :
  exists p ds p' ds',
    run steady (create test_config DecisionEngine.Config_init) trade_inputs = Ok (p, ds) /\
    run (fun n => mk_timespec 7 n) (create test_config DecisionEngine.Config_init) trade_inputs'
      = Ok (p', ds') /\
    book p = book p' /\ quote <$> ds = quote <$> ds' /\
    trade DecisionEngine.Config_init trade_stream 1 (5 - 1) = Ok (book p, quote <$> ds).
Proof.
  apply (arrival_order_does_not_show steady (fun n => mk_timespec 7 n) trade_stream test_config
           test_config DecisionEngine.Config_init 1 5 trade_start trade_cnt).
  - reflexivity.
  - reflexivity.
  - apply trade_packetization.
  - done.
  - done.
  - done.
  - apply trade_inputs_whole.
  - apply trade_inputs_whole.
  - apply trade_received.
  - reflexivity.
  - reflexivity.
Defined.

(** The decision on message 2 is stamped 30, its own arrival, those on messages 3 and
    4, which waited, 20. *)
Example trade_quotes :
  ('(_, ds) ← run steady (create test_config DecisionEngine.Config_init) trade_inputs;
   mret ((fun d => (d_price d, d_recv_ns d)) <$> ds : list (Z * Z)))
  = Ok [(10100, 30); (10100, 20); (10200, 20)].
Proof. by vm_compute. Qed.
