(* ===== verification/PipelineType.v ===== *)
(** * PipelineType: the whole pipeline keeps its types on any bytes

    From the datagram to the decision: for arbitrary bytes (no stream is assumed)
    every stage returns, and every member of the buffer, the books and the
    engine, every notification and every decision stays in its C++ type. *)

From stdpp Require Import base gmap list strings fin_maps.
From Stdlib Require Import ZArith Lia.
From S2P Require Import Prelude WireFormat WireLemmas GapBuf GapWalk Framing.
From S2P Require Import GapInv GapStep GapRun GapProps GapSafety GapType.
From S2P Require Import Book BookInv BookProps BookTop SymbolBook SymbolProps BookType.
From S2P Require Import Stats Decision Pipeline PipelineProps.

#[local] Open Scope Z_scope.
Import Pipeline.

(** ** The engine *)

Record histogram_typed (h : LatencyHistogram.t) : Prop := {
  ht_len : length (LatencyHistogram.counts_ h) = Z.to_nat LatencyHistogram.kBuckets;
  ht_counts : Forall is_u64 (LatencyHistogram.counts_ h);
  ht_total : is_u64 (LatencyHistogram.total_ h);
  ht_sum : is_u64 (LatencyHistogram.sum_ h)
}.

Record engine_typed (e : DecisionEngine.t) : Prop := {
  et_size : is_u32 (DecisionEngine.quote_size (DecisionEngine.cfg_ e));
  et_latency : histogram_typed (DecisionEngine.latency_ e);
  et_emitted : is_u64 (DecisionEngine.decisions_emitted_ e);
  et_seen : is_u64 (DecisionEngine.top_changes_seen_ e)
}.

Definition decision_typed (d : Decision) : Prop :=
  is_u32 (d_price d) /\ is_u32 (d_shares d) /\ is_u64 (d_recv_ns d) /\ is_u64 (decided_ns d).

Lemma record_typed h ns : histogram_typed h -> histogram_typed (LatencyHistogram.record h ns).
Proof.
  intros []. split; cbn; auto using u64_range.
  - unfold LatencyHistogram.fetch_add. by rewrite length_insert.
  - unfold LatencyHistogram.fetch_add. apply Forall_insert; [done | apply u64_range].
Qed.

Lemma on_top_typed e sym top ns clk :
  engine_typed e -> is_u64 ns ->
  engine_typed (DecisionEngine.on_top_of_book e sym top ns clk).1 /\
  Forall decision_typed (DecisionEngine.on_top_of_book e sym top ns clk).2.
Proof.
  intros [] Hn. unfold DecisionEngine.on_top_of_book. set (e1 := DecisionEngine.mk _ _ _ _ _).
  assert (H1 : engine_typed e1) by (split; cbn; auto using inc_range).
  destruct (bid top) as [b|]; [|by split]. destruct (ask top) as [a|]; [|by split].
  destruct (_ <=? _); [by split|]. cbv zeta. cbn [fst snd]. split.
  - split; cbn; auto using inc_range. destruct (_ <? _); auto using record_typed.
  - destruct (DecisionEngine.on_decision_ e1); [|done]. apply Forall_singleton.
    repeat split; cbn; first [apply u32_range | apply et_size0 | apply Hn | apply u64_range].
Qed.

Lemma on_top_changes_typed clock e tops :
  engine_typed e -> Forall event_top_typed tops ->
  engine_typed (on_top_changes clock e tops).1 /\
  Forall decision_typed (on_top_changes clock e tops).2.
Proof.
  intros He Ht. revert e He. induction Ht as [|[[sym top] ns] tops [_ Hn] _ IH]; intros e He; [done|].
  cbn [on_top_changes].
  destruct (on_top_typed e sym top ns (clock (DecisionEngine.top_changes_seen_ e)) He Hn) as [H1 D1].
  destruct (DecisionEngine.on_top_of_book _ _ _ _ _) as [e1 d1]. cbn [fst snd] in *.
  destruct (IH e1 H1) as [H2 D2]. destruct (on_top_changes clock e1 tops) as [e2 d2].
  split; [done|]. by apply Forall_app.
Qed.

Lemma on_messages_typed clock b e ms :
  multi_typed b -> engine_typed e -> Forall (fun m => event_typed (OnMessage m)) ms ->
  exists b' e' ds, on_messages clock b e ms = Ok (b', e', ds) /\
    multi_typed b' /\ engine_typed e' /\ Forall decision_typed ds.
Proof.
  intros Hb He Hm. revert b e Hb He. induction Hm as [|m ms (Hl & Hr & _ & Hn) _ IH]; intros b e Hb He.
  { by exists b, e, []. }
  destruct (ingest_typed b m Hb) as (b1 & tops & ok & E1 & Hb1 & Ht); [unfold readable; width | done|].
  destruct (on_top_changes_typed clock e tops He Ht) as [He1 D1].
  cbn [on_messages]. rewrite E1, bind_Ok. destruct (on_top_changes clock e tops) as [e1 d1].
  destruct (IH b1 e1 Hb1 He1) as (b2 & e2 & d2 & E2 & Hb2 & He2 & D2).
  rewrite E2, bind_Ok. eexists b2, e2, _. split; [done|]. split; [done|]. split; [done|].
  by apply Forall_app.
Qed.

(** ** The pipeline *)

Record pipeline_typed (p : t) : Prop := {
  pt_gap : typed (gap_buf p);
  pt_book : multi_typed (book p);
  pt_engine : engine_typed (engine p)
}.

Definition input_typed (i : input) : Prop :=
  match i with
  | Datagram payload len now => len <= blen payload /\ is_u64 now
  | Tick now => is_u64 now
  end.

Lemma create_typed c ecfg :
  length (GapBuffer.cfg_session c) = 10%nat -> is_u32 (DecisionEngine.quote_size ecfg) ->
  pipeline_typed (create c ecfg).
Proof.
  intros Hc Hq. split.
  - by apply (listening_typed c true false false).
  - apply multi_init_typed.
  - split; try done. split; try done. by apply Forall_replicate.
Qed.

Lemma messages_typed evs :
  Forall event_typed evs -> Forall (fun m => event_typed (OnMessage m)) (messages evs).
Proof.
  intros H. induction H as [|[m|g|r] evs Hev _ IH]; [done | by constructor | done | done].
Qed.

Lemma apply_input_typed g i :
  typed g -> input_typed i ->
  exists g' evs, apply_input g i = Ok (g', evs) /\ typed g' /\ Forall event_typed evs.
Proof.
  intros Hg Hi. destruct i as [payload len now|now].
  - destruct Hi as [Hl Hn].
    destruct (gap_buffer_preserves_types g payload len now Hg Hl Hn) as [(g' & evs & r & E & T & F & _) _].
    cbn [apply_input]. rewrite E, bind_Ok. by eexists g', evs.
  - destruct (gap_buffer_preserves_types g [] 0 now Hg ltac:(done) Hi) as [_ (g' & evs & E & T & F)].
    by eexists g', evs.
Qed.

(** C12.  Type preservation from the wire to the decision: on any bytes whatever, one
    input of the pipeline (a datagram or a tick) is processed without a fault,
    keeps every member of the gap buffer, of each book and level, of the routing
    index and of the engine in the range of its C++ type, and emits only
    decisions whose price and size fit 32 bits and whose times fit 64. *)
Theorem pipeline_preserves_types (clock : Z -> timespec) (p : t) (i : input) :
  pipeline_typed p -> input_typed i ->
  exists p' ds, step clock p i = Ok (p', ds) /\ pipeline_typed p' /\ Forall decision_typed ds.
Proof.
  intros [Hg Hb He] Hi. destruct (apply_input_typed (gap_buf p) i Hg Hi) as (g & evs & E & Tg & Te).
  destruct (on_messages_typed clock (book p) (engine p) (messages evs) Hb He (messages_typed evs Te))
    as (b & e & ds & E2 & Tb & Ten & Td).
  unfold step. rewrite E, bind_Ok, E2, bind_Ok. by eexists (mk g b e), ds.
Qed.

(** A datagram that announces more messages than it has. *)
Lemma pipeline_preserves_types_witness :
  let p := create test_config DecisionEngine.Config_init in
  let i := Datagram (replicate 90 Corelib.Init.Byte.x44) 90 5 in
  exists p' ds, step steady p i = Ok (p', ds) /\ pipeline_typed p' /\ Forall decision_typed ds.
Proof.
  intros p i. apply pipeline_preserves_types.
  - by apply create_typed.
  - by vm_compute.
Defined.
