(* ===== verification/DualLine.v ===== *)
(** * DualLine: trading behind two lines

    The stages in the order the arbitrator's header and the README draw them: the
    two lines, [FeedArbitrator] over one shared [GapBuffer], the books, the
    decision engine.  The books and the engine are those of [Pipeline]. *)

From stdpp Require Import base gmap list strings fin_maps.
From Stdlib Require Import ZArith Lia.
From S2P Require Import Prelude WireFormat WireLemmas GapBuf GapWalk Framing.
From S2P Require Import GapInv GapStep GapRun GapProps GapComplete GapInOrder Sink Arbitrator ArbProps.
From S2P Require Import Book BookInv BookProps BookTop SymbolBook SymbolProps Decision.
From S2P Require Import Pipeline PipelineProps.

#[local] Open Scope Z_scope.

Module DualLine.

Record t := mk {
  arb : FeedArbitrator.t GapBuffer.t;
  book : MultiSymbolBook.t;
  engine : DecisionEngine.t
}.

Definition create (gcfg : GapBuffer.Config) (ecfg : DecisionEngine.Config) : t :=
  mk (FeedArbitrator.create (Pipeline.gap_buf (Pipeline.create gcfg ecfg)))
     (Pipeline.book (Pipeline.create gcfg ecfg)) (Pipeline.engine (Pipeline.create gcfg ecfg)).

Section Ops.
Context (clock : Z -> timespec).

Definition step (p : t) (i : line_input) : res (t * list Decision) :=
  '(a, evs) ← arb_step (arb p) i;
  '(b, e, ds) ← Pipeline.on_messages clock (book p) (engine p) (messages evs);
  mret (mk a b e, ds).

Fixpoint run (p : t) (ins : list line_input) : res (t * list Decision) :=
  match ins with
  | [] => mret (p, [])
  | i :: ins' =>
      '(p1, d1) ← step p i;
      '(p2, d2) ← run p1 ins';
      mret (p2, d1 ++ d2)
  end.

End Ops.
End DualLine.

Import DualLine.

(** ** The single-line pipeline behind it *)

(** The pipeline one sees when the lines and their statistics are forgotten. *)
Definition single (p : t) : Pipeline.t :=
  Pipeline.mk (FeedArbitrator.gap_buf_ (arb p)) (book p) (engine p).

Definition erase_lines (r : res (t * list Decision)) : res (Pipeline.t * list Decision) :=
  '(p, ds) ← r; mret (single p, ds).

Lemma step_erase clock p i :
  erase_lines (step clock p i) = Pipeline.step clock (single p) (forget_line i).
Proof.
  unfold step, Pipeline.step. pose proof (arb_step_erase (arb p) i) as He.
  assert (Hs : apply_input (FeedArbitrator.gap_buf_ (arb p)) (forget_line i)
               = sink_step (FeedArbitrator.gap_buf_ (arb p)) i)
    by (by destruct i).
  cbn [single Pipeline.gap_buf Pipeline.book Pipeline.engine]. rewrite Hs, <-He.
  destruct (arb_step (arb p) i) as [[a evs]|]; [|done]. unfold erase, erase_lines.
  cbn [mbind res_bind mret res_ret].
  by destruct (Pipeline.on_messages clock (book p) (engine p) (messages evs)) as [[[b e] ds]|].
Qed.

Lemma run_erase clock p ins :
  erase_lines (run clock p ins) = Pipeline.run clock (single p) (forget_line <$> ins).
Proof.
  revert p. induction ins as [|i ins IH]; intros p; [done|].
  cbn [run fmap list_fmap Pipeline.run]. rewrite <-step_erase.
  destruct (step clock p i) as [[p1 d1]|]; [|done].
  cbn [erase_lines mbind res_bind mret res_ret]. rewrite <-IH. unfold erase_lines. by destruct (run clock p1 ins) as [[p2 d2]|].
Qed.

(** Its arbitrator ran on the lines. *)
Lemma run_arb clock p ins p' ds :
  run clock p ins = Ok (p', ds) -> exists evs, arb_run (arb p) ins = Ok (arb p', evs).
Proof.
  revert p ds. induction ins as [|i ins IH]; intros p ds E.
  { injection E as <- <-. by eexists. }
  cbn [run arb_run] in *. unfold step in E.
  destruct (arb_step (arb p) i) as [[a e1]|]; [|done]. rewrite !bind_Ok in *.
  destruct (Pipeline.on_messages clock (book p) (engine p) (messages e1)) as [[[b e] d1]|]; [|done].
  cbn [mbind res_bind mret res_ret] in E.
  destruct (run clock (mk a b e) ins) as [[p2 d2]|] eqn:E2; [|done]. injection E as <- _.
  destruct (IH _ _ E2) as [evs Ea]. cbn [arb] in Ea. rewrite Ea, bind_Ok. by eexists.
Qed.

(** C20.  A loss on one line does not show, down to the trades: if every packet of the
    window arrives on line A or on line B (in any order and interleaving after the
    first packet, with any repetitions, times and clocks), the whole window is
    delivered, the books are those of the stream itself and the quotes those of a
    trader who reads it, and the messages credited to the two lines are together
    exactly the window. *)
Theorem dual_feed_trades_stream (clock : Z -> timespec) (S : Z -> list byte)
    (c : GapBuffer.Config) (ecfg : DecisionEngine.Config)
    (n0 N : Z) (start : Z -> Prop) (cnt : Z -> Z) (ins : list line_input) :
  length (GapBuffer.cfg_session c) = 10%nat ->
  packetization n0 N start cnt -> 0 <= n0 -> N < 2 ^ 64 -> N - n0 <= GapBuffer.kCapacity ->
  Forall (whole_carries S start cnt) (forget_line <$> ins) ->
  (forall f, start f -> on LineA ins f \/ on LineB ins f) ->
  session_start (FeedArbitrator.gap_buf_ (arb (create c ecfg))) (forget_line <$> ins) = n0 ->
  exists p ds,
    run clock (create c ecfg) ins = Ok (p, ds) /\
    GapBuffer.next_expected_ (FeedArbitrator.gap_buf_ (arb p)) = N /\
    trade ecfg S n0 (N - n0) = Ok (book p, quote <$> ds) /\
    u64 (FeedArbitrator.stat_seq_won (arb p) LineA + FeedArbitrator.stat_seq_won (arb p) LineB)
      = N - n0.
Proof.
  intros Hc PZ H0 HN Hw Hins Hon Hst.
  destruct (covered_window_trades clock S c ecfg n0 N start cnt (forget_line <$> ins))
    as (q & ds & evs & Hq & Hg & Hn & Hlen & Ht); [done..| |done|].
  { intros f Hf. by destruct (Hon f Hf); eapply on_received. }
  pose proof (run_erase clock (create c ecfg) ins) as He.
  change (single (create c ecfg)) with (Pipeline.create c ecfg) in He. rewrite Hq in He.
  destruct (run clock (create c ecfg) ins) as [[p ds']|] eqn:E; [|done]. injection He as <- <-.
  exists p, ds'. split; [done|]. split; [done|]. split; [done|].
  destruct (run_arb clock _ _ _ _ E) as [evs' Ea].
  pose proof (arb_run_erase (arb (create c ecfg)) ins) as Hae.
  rewrite Ea in Hae. rewrite sink_run_GapBuffer in Hae.
  change (FeedArbitrator.gap_buf_ (arb (create c ecfg)))
    with (Pipeline.gap_buf (Pipeline.create c ecfg)) in Hae.
  rewrite Hg in Hae. injection Hae as Hae. rewrite <-Hae in Hlen.
  destruct (create_accounts GapBuffer.t (Pipeline.gap_buf (Pipeline.create c ecfg)) ins)
    as (a & evs2 & Ea2 & _ & Hwon).
  - by apply (listening_ok c false false).
  - rewrite Forall_forall. intros i Hi. destruct i as [l payload len now|now]; [|done].
    rewrite Forall_forall in Hins. apply (list_elem_of_fmap_2 forget_line) in Hi.
    apply Hins in Hi as [_ [Hs _]]. exact Hs.
  - change (FeedArbitrator.create (Pipeline.gap_buf (Pipeline.create c ecfg)))
      with (arb (create c ecfg)) in Ea2.
    rewrite Ea in Ea2. injection Ea2 as <- <-. rewrite Hwon, Hlen, u64_small; [done|].
    pose proof (pz_range _ _ _ _ PZ n0 (pz_first _ _ _ _ PZ)). width.
Qed.

(** Line A loses packet 2, which arrives late on line B. *)
Definition trade_lines : list line_input :=
  [on_line LineA 1 [trade_stream 1] 10; on_line LineA 3 [trade_stream 3; trade_stream 4] 20;
   on_line LineB 2 [trade_stream 2] 30].

Lemma on_at l ins i payload len now f :
  ins !! i = Some (OnLine l payload len now) -> MoldHeader.seq_num (header payload) = f -> on l ins f.
Proof. intros Hi Hf. exists payload, len, now. split; [by eapply list_elem_of_lookup_2 | done]. Qed.

Lemma dual_feed_trades_stream_witness :
  exists p ds,
    run steady (create test_config DecisionEngine.Config_init) trade_lines = Ok (p, ds) /\
    GapBuffer.next_expected_ (FeedArbitrator.gap_buf_ (arb p)) = 5 /\
    trade DecisionEngine.Config_init trade_stream 1 (5 - 1) = Ok (book p, quote <$> ds) /\
    u64 (FeedArbitrator.stat_seq_won (arb p) LineA + FeedArbitrator.stat_seq_won (arb p) LineB)
      = 5 - 1.
Proof.
  apply (dual_feed_trades_stream steady trade_stream test_config DecisionEngine.Config_init
           1 5 trade_start trade_cnt).
  - reflexivity.
  - apply trade_packetization.
  - done.
  - done.
  - done.
  - exact (proj1 trade_inputs_whole).
  - intros f [->|[->| ->]]; [left | right | left].
    + by eapply (on_at _ _ 0).
    + by eapply (on_at _ _ 2).
    + by eapply (on_at _ _ 1).
  - reflexivity.
Defined.

(** ** A covered loss is not silent when the cover is late *)

(** Line B has every message, line A all but 2.  Message 3 overtakes the copy of 2, so
    a gap is reported, and after the timeout messages are requested again, although
    nothing is missing on line B. *)
Definition late_cover : list line_input :=
  [on_line LineA 1 [test_stream 1] 10; on_line LineB 1 [test_stream 1] 11;
   on_line LineA 3 [test_stream 3] 20; LineTick 530; on_line LineB 2 [test_stream 2] 540;
   on_line LineB 3 [test_stream 3] 550].

Theorem covered_loss_fires_gap :
  probe (fun '(a, evs) => (evs !! 1%nat, evs !! 2%nat, MoldMessage.seq_num <$> messages evs))
    (arb_run (FeedArbitrator.create (listening test_config true true true)) late_cover)
  = Some (Some (OnGap (mk_GapEvent 2 2 20)),
          Some (OnRetransmitRequest (RetransmitRequest.mk session_bytes 2 1)), [1; 2; 3]).
Proof. by vm_compute. Qed.

(** In time means before any later packet: then the two lines together are an
    in-sequence feed, and besides the messages nothing at all is reported or
    requested, whatever each line lost. *)
Theorem timely_cover_is_silent (S : Z -> list byte) (c : GapBuffer.Config) (n0 N : Z)
    (l : FeedLine) (payload : list byte) (len now : Z) (ins : list line_input) :
  let all := OnLine l payload len now :: ins in
  length (GapBuffer.cfg_session c) = 10%nat ->
  Forall (carries S) (forget_line <$> all) -> in_sequence n0 N (forget_line <$> all) ->
  MoldHeader.seq_num (header payload) = n0 ->
  exists a evs,
    arb_run (FeedArbitrator.create (listening c true true true)) all = Ok (a, evs) /\
    evs = OnMessage <$> messages evs /\
    (fun m => (MoldMessage.seq_num m, msg_content m)) <$> messages evs
      = (fun k => (k, S k)) <$> seqZ n0 (N - n0).
Proof.
  intros all Hc Hcar Hseq Hq. cbn [all fmap list_fmap forget_line] in Hcar, Hseq.
  destruct (run_in_sequence_silent S c true true n0 N payload len now _ Hc Hcar Hseq Hq)
    as (g & evs & E & _ & [_ Ho _ _] & Hm).
  pose proof (arb_run_erase (FeedArbitrator.create (listening c true true true)) all) as He.
  rewrite sink_run_GapBuffer in He.
  change (FeedArbitrator.gap_buf_ (FeedArbitrator.create (listening c true true true)))
    with (listening c true true true) in He.
  cbn [all fmap list_fmap forget_line] in He. rewrite E in He.
  destruct (arb_run (FeedArbitrator.create (listening c true true true)) all) as [[a evs']|] eqn:Ea; [|done].
  injection He as _ ->. by exists a, evs.
Qed.
