(* ===== verification/Tools.v ===== *)
(** * Tools: the synthetic feed

    Models the packet builders of [tools/tick_to_trade_bench.cpp] and the capture
    generator of [tools/gen_pcap.cpp].  A [std::vector] is the list of its bytes. *)

From stdpp Require Import base gmap list strings fin_maps.
From Stdlib Require Import ZArith Lia.
From S2P Require Import Prelude WireFormat WireLemmas GapBuf Book Pcap.

#[local] Open Scope Z_scope.

Definition zeroes (n : Z) : list byte := replicate (Z.to_nat n) (z2b 0).

(** [v[i] = b] *)
Definition set_byte (v : list byte) (i : Z) (b : byte) : res (list byte) := mem_write v i [b].

Module Bench.

Definition mold_packet (session : list byte) (seq : Z) (body : list byte) : res (list byte) :=
  s ← mem_read session 0 10;
  buf ← MoldHeader.serialise (MoldHeader.mk s seq 1) (zeroes (kMoldHeaderSize + 2 + blen body));
  buf ← put_be16 buf kMoldHeaderSize (u16 (blen body));
  mem_write buf (kMoldHeaderSize + 2) body.

Definition make_add (order_ref : Z) (side : byte) (shares : Z) (stock8 : list byte) (price : Z)
    : res (list byte) :=
  b ← set_byte (zeroes 36) 0 (z2b 65);
  b ← put_be64 b 11 order_ref;
  b ← set_byte b 19 side;
  b ← put_be32 b 20 shares;
  stock ← mem_read stock8 0 8;
  b ← mem_write b 24 stock;
  put_be32 b 32 price.

Definition make_cancel (order_ref cancelled_shares : Z) : res (list byte) :=
  b ← set_byte (zeroes 23) 0 (z2b 88);
  b ← put_be64 b 11 order_ref;
  put_be32 b 19 cancelled_shares.

Definition make_delete (order_ref : Z) : res (list byte) :=
  b ← set_byte (zeroes 19) 0 (z2b 68);
  put_be64 b 11 order_ref.

(** [while (padded.size() < 8) padded += ' ';] *)
Definition pad_symbol (s : list byte) : list byte :=
  s ++ replicate (8 - length s) Corelib.Init.Byte.x20.

End Bench.

Module GenPcap.

Record Options := mk_Options {
  count : Z; gap_at : Z; gap_len : Z; msgs_per_pkt : Z; dup_at : Z; rate_us : Z
}.

Definition Options_init : Options := mk_Options 10000 0 5 1 0 100.

Definition append_be16 (v : list byte) (val : Z) : res (list byte) :=
  buf ← put_be16 (zeroes 2) 0 val; mret (v ++ buf).

(** ["AAPL    "] *)
Definition aapl : list byte :=
  [z2b 65; z2b 65; z2b 80; z2b 76; z2b 32; z2b 32; z2b 32; z2b 32].

Definition make_add_order (order_ref : Z) : res (list byte) :=
  body ← set_byte (zeroes 36) 0 (z2b 65);
  body ← put_be64 body 11 order_ref;
  body ← set_byte body 19 (z2b 66);
  body ← put_be32 body 20 100;
  body ← mem_write body 24 aapl;
  put_be32 body 32 1500000.

(** The loop building [n] messages from [seq]. *)
Fixpoint message_payload (n : nat) (seq : Z) (v : list byte) : res (list byte) :=
  match n with
  | O => mret v
  | S n' =>
      body ← make_add_order (u64 seq);
      v ← append_be16 v (u16 (blen body));
      message_payload n' (seq + 1) (v ++ body)
  end.

(** ["SYNTHETIC "] *)
Definition session : list byte :=
  [z2b 83; z2b 89; z2b 78; z2b 84; z2b 72; z2b 69; z2b 84; z2b 73; z2b 67; z2b 32].

Definition build_packet (n seq : Z) : res (list byte) :=
  msg_payload ← message_payload (Z.to_nat n) seq [];
  payload ← MoldHeader.serialise (MoldHeader.mk session seq n)
              (zeroes (kMoldHeaderSize + blen msg_payload));
  mem_write payload kMoldHeaderSize msg_payload.

(** "Skip sequences in the gap." *)
Definition skip_gap (opt : Options) (seq : Z) : Z :=
  if negb (gap_at opt =? 0) && (gap_at opt <=? seq) && (seq <? u64 (gap_at opt + gap_len opt))
  then u64 (seq + gap_len opt) else seq.

Fixpoint gen_loop (fuel : nat) (opt : Options) (w : PcapWriter.t) (seq ts_us msgs_written : Z)
    : res PcapWriter.t :=
  match fuel with
  | O => Fault OutOfFuel
  | S fuel' =>
      if msgs_written <? count opt then
        let seq := skip_gap opt seq in
        let n := u16 (Z.min (msgs_per_pkt opt) (u64 (count opt - msgs_written))) in
        payload ← build_packet n seq;
        '(w, _) ← PcapWriter.write_packet w ts_us payload (u16 (blen payload));
        let ts_us := u64 (ts_us + rate_us opt) in
        let msgs_written := u64 (msgs_written + n) in
        '(w, ts_us) ←
          (if negb (dup_at opt =? 0) && (seq =? dup_at opt) then
             '(w, _) ← PcapWriter.write_packet w ts_us payload (u16 (blen payload));
             mret (w, u64 (ts_us + rate_us opt))
           else mret (w, ts_us));
        gen_loop fuel' opt w (u64 (seq + n)) ts_us msgs_written
      else mret w
  end.

(** [main]; [opened] tells whether the output could be created.  Every turn writes
    at least one message unless [msgs_per_pkt] is 0. *)
Definition main (opt : Options) (opened : bool) : res (option PcapWriter.t) :=
  let writer := PcapWriter.create opened in
  if negb (PcapWriter.is_open writer) then mret None
  else
    w ← gen_loop (S (Z.to_nat (count opt))) opt writer 1 (1700000000 * 1000000) 0;
    mret (Some w).

End GenPcap.
