(* ===== verification/ToolsProps.v ===== *)
(** * ToolsProps: the synthetic feed is a feed

    The builders produce the wire format, and a generated capture replays
    completely. *)

From stdpp Require Import base gmap list strings fin_maps.
From Stdlib Require Import ZArith Lia.
From S2P Require Import Prelude WireFormat WireLemmas GapBuf GapWalk Framing.
From S2P Require Import GapInv GapStep GapRun GapProps GapInOrder Codec Book Sink Pcap Pacing Unpaced PcapProps PcapRound Tools.

#[local] Open Scope Z_scope.

(** ** The builders *)

(** The fields not written stay zero. *)
Definition add_wire (oref : Z) (sd : byte) (sh : Z) (stk : list byte) (pr : Z) : list byte :=
  itch_add_wire 65 0 0 0 oref sd sh stk pr.

(** Replace a list of known length by its elements. *)
Ltac explode :=
  repeat match goal with
  | H : length ?l = ?n |- _ =>
      is_var l;
      lazymatch n with
      | O => apply length_zero_iff_nil in H; subst l
      | _ => destruct l; [discriminate H | apply (f_equal pred) in H; cbn [length pred] in H]
      end
  end.

Lemma make_add_Ok oref sd sh stk pr :
  length stk = 8%nat -> Bench.make_add oref sd sh stk pr = Ok (add_wire oref sd sh stk pr).
Proof.
  intros Hs. unfold Bench.make_add, add_wire, itch_add_wire, put_be64, put_be32, set_byte.
  rewrite !store_le_bswap.
  pose proof (length_be_bytes 8 oref) as H1. pose proof (length_be_bytes 4 sh) as H2.
  pose proof (length_be_bytes 4 pr) as H3.
  generalize dependent (be_bytes 8 oref). intros l1 H1.
  generalize dependent (be_bytes 4 sh). intros l2 H2.
  generalize dependent (be_bytes 4 pr). intros l3 H3.
  explode. reflexivity.
Qed.

Lemma make_cancel_Ok oref sh :
  Bench.make_cancel oref sh = Ok (itch_cancel_wire 0 0 0 oref sh).
Proof.
  unfold Bench.make_cancel, itch_cancel_wire, put_be64, put_be32, set_byte. rewrite !store_le_bswap.
  pose proof (length_be_bytes 8 oref) as H1. pose proof (length_be_bytes 4 sh) as H2.
  generalize dependent (be_bytes 8 oref). intros l1 H1.
  generalize dependent (be_bytes 4 sh). intros l2 H2.
  explode. reflexivity.
Qed.

Lemma make_delete_Ok oref : Bench.make_delete oref = Ok (itch_delete_wire 0 0 0 oref).
Proof.
  unfold Bench.make_delete, itch_delete_wire, put_be64, set_byte. rewrite !store_le_bswap.
  pose proof (length_be_bytes 8 oref) as H1.
  generalize dependent (be_bytes 8 oref). intros l1 H1. explode. reflexivity.
Qed.

Lemma make_add_order_Ok k :
  GenPcap.make_add_order k = Ok (add_wire k kBuy 100 GenPcap.aapl 1500000).
Proof.
  unfold GenPcap.make_add_order, add_wire, itch_add_wire, put_be64, put_be32, set_byte.
  rewrite !store_le_bswap. pose proof (length_be_bytes 8 k) as H1.
  generalize dependent (be_bytes 8 k). intros l1 H1. explode. reflexivity.
Qed.

(** A header and what follows it, written into a vector of their size. *)
Lemma header_then h body n :
  length (MoldHeader.session h) = 10%nat -> n = kMoldHeaderSize + blen body ->
  (buf ← MoldHeader.serialise h (zeroes n); mem_write buf kMoldHeaderSize body)
  = Ok (MoldHeader.wire h ++ body).
Proof.
  intros Hs ->. pose proof (wire_length h Hs) as Hw. unfold zeroes.
  assert (Hz : blen (replicate (Z.to_nat (kMoldHeaderSize + blen body)) (z2b 0))
    = kMoldHeaderSize + blen body) by (rewrite length_replicate; unfold kMoldHeaderSize; lia).
  rewrite MoldHeader_serialise_Ok, bind_Ok by (done || lia).
  rewrite mem_write_splice; [|done | rewrite length_splice; lia].
  rewrite <-Hw at 2. replace (blen (MoldHeader.wire h)) with (0 + blen (MoldHeader.wire h)) at 1 by lia.
  rewrite splice_splice_app by lia. rewrite splice_0, drop_ge, app_nil_r; [done|].
  rewrite length_app. lia.
Qed.

Lemma mold_packet_Ok session seq body :
  length session = 10%nat -> blen body < 2 ^ 16 ->
  Bench.mold_packet session seq body = Ok (packet_wire session seq [body]).
Proof.
  intros Hs Hb. unfold Bench.mold_packet. rewrite mem_read_Ok, bind_Ok, (slice_all session) by lia.
  set (h := MoldHeader.mk session seq 1). rewrite u16_small by width.
  pose proof (wire_length h Hs) as Hw.
  pose proof (header_then h (be_bytes 2 (blen body) ++ body) (kMoldHeaderSize + 2 + blen body) Hs) as Hh.
  rewrite length_app, length_be_bytes in Hh. specialize (Hh ltac:(lia)).
  destruct (MoldHeader.serialise h _) as [buf|]; [|done]. rewrite bind_Ok in Hh |- *.
  unfold mem_write in Hh. destruct (in_bounds buf _ _) eqn:Eb; [|done].
  apply in_bounds_true in Eb. rewrite length_app, length_be_bytes in Eb.
  fold (splice buf kMoldHeaderSize (be_bytes 2 (blen body) ++ body)) in Hh. apply Ok_inj in Hh.
  rewrite put_be16_Ok, bind_Ok by (unfold kMoldHeaderSize in *; lia).
  rewrite mem_write_splice; [|done | rewrite length_splice; rewrite ?length_be_bytes; unfold kMoldHeaderSize in *; lia].
  replace (kMoldHeaderSize + 2) with (kMoldHeaderSize + blen (be_bytes 2 (blen body)))
    by (by rewrite length_be_bytes).
  rewrite splice_splice_app by (rewrite ?length_be_bytes; unfold kMoldHeaderSize in *; lia).
  rewrite Hh. unfold packet_wire. cbn [frame]. by rewrite app_nil_r.
Qed.

(** "SYM" *)
Definition sym_pad : list byte := [z2b 83; z2b 89; z2b 77].

(** The benchmark's builders speak the wire format: each body they build is
    decoded by the parser of its type to the arguments given (zero locate and
    timestamp), and [mold_packet] makes it a one-message datagram in which the
    message loop finds exactly that body. *)
Theorem builders_round_trip (oref sh pr seq : Z) (sd : byte) (stk session : list byte) :
  is_u64 oref -> is_u32 sh -> is_u32 pr -> is_u64 seq -> length stk = 8%nat ->
  length session = 10%nat ->
  exists add cancel del,
    Bench.make_add oref sd sh stk pr = Ok add /\ Bench.make_cancel oref sh = Ok cancel /\
    Bench.make_delete oref = Ok del /\
    (forall out, ItchAddOrder.parse add (blen add) out =
       Ok (true, ItchAddOrder.mk (ItchAddOrder.seq_num out) 0 0 oref sh pr
                   (stk ++ [Corelib.Init.Byte.x00]) sd false)) /\
    (forall out, ItchOrderCancel.parse cancel (blen cancel) out =
       Ok (true, ItchOrderCancel.mk (ItchOrderCancel.seq_num out) 0 oref sh)) /\
    (forall out, ItchDeleteOrder.parse del (blen del) out =
       Ok (true, ItchDeleteOrder.mk (ItchDeleteOrder.seq_num out) 0 oref)) /\
    forall body, body ∈ [add; cancel; del] ->
      exists p, Bench.mold_packet session seq body = Ok p /\
        header p = MoldHeader.mk session seq 1 /\ packet_messages p (blen p) = [body].
Proof.
  intros Hr Hs Hp Hq Hk Hse. eexists _, _, _.
  split; [by apply make_add_Ok|]. split; [apply make_cancel_Ok|]. split; [apply make_delete_Ok|].
  assert (Hla : blen (add_wire oref sd sh stk pr) = 36)
    by (unfold add_wire, itch_add_wire, itch_prefix; rewrite !length_app, !length_be_bytes, Hk; done).
  assert (Hlc : blen (itch_cancel_wire 0 0 0 oref sh) = 23)
    by (unfold itch_cancel_wire, itch_prefix; by rewrite !length_app, !length_be_bytes).
  assert (Hld : blen (itch_delete_wire 0 0 0 oref) = 19)
    by (unfold itch_delete_wire, itch_prefix; by rewrite !length_app, !length_be_bytes).
  split; [|split; [|split]].
  - intros out. rewrite Hla, <-(app_nil_r (add_wire _ _ _ _ _)). unfold add_wire.
    rewrite itch_add_decode; try done. by left.
  - intros out. rewrite Hlc, <-(app_nil_r (itch_cancel_wire _ _ _ _ _)). by rewrite itch_cancel_decode.
  - intros out. rewrite Hld, <-(app_nil_r (itch_delete_wire _ _ _ _)). by rewrite itch_delete_decode.
  - intros body Hb. assert (Hlb : blen body < 2 ^ 16).
    { apply elem_of_cons in Hb as [->|Hb]; [lia|]. apply elem_of_cons in Hb as [->|Hb]; [lia|].
      apply elem_of_cons in Hb as [->|Hb]; [lia|]. by apply elem_of_nil in Hb. }
    exists (packet_wire session seq [body]). split; [by apply mold_packet_Ok|]. split.
    + by rewrite header_packet_wire.
    + apply packet_messages_wire; [done | done | done | by apply Forall_singleton].
Qed.

Lemma builders_round_trip_witness :
  exists add cancel del,
    Bench.make_add 5 kBuy 100 (Bench.pad_symbol sym_pad) 850000 = Ok add /\
    Bench.make_cancel 5 100 = Ok cancel /\ Bench.make_delete 5 = Ok del /\
    (forall out, ItchAddOrder.parse add (blen add) out =
       Ok (true, ItchAddOrder.mk (ItchAddOrder.seq_num out) 0 0 5 100 850000
                   (Bench.pad_symbol sym_pad ++ [Corelib.Init.Byte.x00]) kBuy false)) /\
    (forall out, ItchOrderCancel.parse cancel (blen cancel) out =
       Ok (true, ItchOrderCancel.mk (ItchOrderCancel.seq_num out) 0 5 100)) /\
    (forall out, ItchDeleteOrder.parse del (blen del) out =
       Ok (true, ItchDeleteOrder.mk (ItchDeleteOrder.seq_num out) 0 5)) /\
    forall body, body ∈ [add; cancel; del] ->
      exists p, Bench.mold_packet session_bytes 9 body = Ok p /\
        header p = MoldHeader.mk session_bytes 9 1 /\ packet_messages p (blen p) = [body].
Proof. apply builders_round_trip; by vm_compute. Defined.

(** ** The generator *)

(** The generated stream: message [k] adds order [k]. *)
Definition add_stream (k : Z) : list byte := add_wire k kBuy 100 GenPcap.aapl 1500000.

Lemma length_add_stream k : blen (add_stream k) = 36.
Proof.
  unfold add_stream, add_wire, itch_add_wire, itch_prefix. by rewrite !length_app, !length_be_bytes.
Qed.

Definition batch (seq n : Z) : list (list byte) := add_stream <$> seqZ seq n.

Lemma batch_fits seq n : fits (batch seq n).
Proof. apply Forall_fmap, Forall_true. intros k. change (blen (add_stream k) < 2 ^ 16). rewrite length_add_stream. lia. Qed.

Lemma length_batch seq n : 0 <= n -> blen (batch seq n) = n.
Proof. intros. unfold batch. rewrite length_fmap, length_seqZ. lia. Qed.

Lemma length_frame_batch seq n : 0 <= n -> blen (frame (batch seq n)) = 38 * n.
Proof.
  intros Hn. unfold batch. remember (Z.to_nat n) as k eqn:Ek. revert seq n Hn Ek.
  induction k as [|k IH]; intros seq n Hn Ek.
  - replace n with 0 by lia. done.
  - rewrite seqZ_cons by lia. cbn [fmap list_fmap frame].
    rewrite !length_app, length_be_bytes, !Nat2Z.inj_add.
    fold (add_stream <$> seqZ (Z.succ seq) (Z.pred n)). rewrite IH, length_add_stream by lia. lia.
Qed.

Lemma frame_app a b : frame (a ++ b) = frame a ++ frame b.
Proof. induction a as [|x a IH]; [done|]. cbn [app frame]. by rewrite IH, !app_assoc. Qed.

Lemma append_be16_Ok v val : GenPcap.append_be16 v val = Ok (v ++ be_bytes 2 val).
Proof.
  unfold GenPcap.append_be16. rewrite put_be16_Ok, bind_Ok by done.
  reflexivity.
Qed.

Lemma message_payload_Ok n seq v :
  0 <= seq -> seq + Z.of_nat n <= 2 ^ 64 ->
  GenPcap.message_payload n seq v = Ok (v ++ frame (batch seq (Z.of_nat n))).
Proof.
  revert seq v. induction n as [|n IH]; intros seq v H0 Hn.
  { cbn. by rewrite app_nil_r. }
  cbn [GenPcap.message_payload]. rewrite (u64_small seq) by width.
  rewrite make_add_order_Ok, bind_Ok. fold (add_stream seq).
  rewrite length_add_stream, append_be16_Ok, bind_Ok, IH by lia.
  unfold batch. rewrite (seqZ_cons seq) by lia. cbn [fmap list_fmap frame].
  rewrite length_add_stream, <-!app_assoc. change (u16 36) with 36.
  replace (Z.succ seq) with (seq + 1) by lia. replace (Z.pred (Z.of_nat (S n))) with (Z.of_nat n) by lia.
  done.
Qed.

Lemma build_packet_Ok n seq :
  0 <= seq -> 0 <= n -> seq + n <= 2 ^ 64 ->
  GenPcap.build_packet n seq = Ok (packet_wire GenPcap.session seq (batch seq n)).
Proof.
  intros H0 Hn Hq. unfold GenPcap.build_packet.
  rewrite message_payload_Ok, bind_Ok by lia. rewrite Z2Nat.id by lia. cbn [app].
  rewrite header_then by done. unfold packet_wire, packet_hdr. by rewrite length_batch by lia.
Qed.

(** Options under which the generated times and lengths fit their fields: a packet
    of 1722 messages is the largest the writer does not truncate. *)
Record gen_ok (opt : GenPcap.Options) : Prop := {
  go_count : 1 <= GenPcap.count opt < 2 ^ 63;
  go_msgs : 1 <= GenPcap.msgs_per_pkt opt <= 1722;
  go_rate : 0 <= GenPcap.rate_us opt;
  go_time : 1700000000 * 1000000 + 2 * GenPcap.rate_us opt * GenPcap.count opt < 2 ^ 32 * 1000000
}.

(** Written packets that follow each other from [n0] to [N]. *)
Definition offered (p : Z * list byte) : input := Datagram p.2 (blen p.2) 0.
Record planned (n0 N : Z) (ps : list (Z * list byte)) : Prop := {
  pn_writable : Forall writable ps;
  pn_carries : Forall (carries add_stream) (offered <$> ps);
  pn_sequence : in_sequence n0 N (offered <$> ps);
  pn_first : forall p ps', ps = p :: ps' -> seq_of p = n0;
  pn_range : Forall (fun p => n0 <= seq_of p /\
               seq_of p + blen (packet_messages p.2 (blen p.2)) <= N) ps
}.

Lemma planned_le n0 N ps : planned n0 N ps -> n0 <= N.
Proof. intros [_ _ Hq _ _]. by apply in_sequence_le in Hq. Qed.

Lemma planned_nil n0 : planned n0 n0 [].
Proof. by split. Qed.

(** The packet of [n] messages from [seq]. *)
Definition gen_packet (seq n : Z) : list byte := packet_wire GenPcap.session seq (batch seq n).

Section GenPacket.
Context (seq n : Z) (Hs : 1 <= seq) (Hn : 1 <= n <= 1722) (Hsn : seq + n <= 2 ^ 63).

Lemma gen_packet_facts :
  blen (gen_packet seq n) = 20 + 38 * n /\
  header (gen_packet seq n) = MoldHeader.mk GenPcap.session seq n /\
  packet_messages (gen_packet seq n) (blen (gen_packet seq n)) = batch seq n.
Proof using All.
  unfold gen_packet. split; [|split].
  - rewrite length_packet_wire, length_frame_batch by (done || lia). done.
  - rewrite header_packet_wire by (try done; rewrite ?length_batch; width).
    unfold packet_hdr. by rewrite length_batch by lia.
  - apply packet_messages_wire; [done | width | rewrite length_batch; lia | apply batch_fits].
Qed.

Lemma gen_packet_carries ts : carries add_stream (offered (ts, gen_packet seq n)).
Proof using All.
  destruct gen_packet_facts as (Hl & Hh & Hm). unfold offered, carries, sane. cbn [snd].
  rewrite Hh, Hm. cbn [MoldHeader.seq_num]. split; [split; [lia|]|].
  - intros _. unfold no_wrap. cbn. lia.
  - intros _ k b Hk. unfold batch in Hk. apply list_lookup_fmap_Some in Hk as (x & -> & Hx).
    apply lookup_seqZ in Hx as [-> _]. done.
Qed.

Lemma gen_packet_writable ts : 0 <= ts < 2 ^ 32 * 1000000 -> writable (ts, gen_packet seq n).
Proof using All.
  intros Ht. destruct gen_packet_facts as (Hl & _). split; [done|]. cbn [snd]. rewrite Hl.
  unfold kMaxWritten. lia.
Qed.

(** One more packet in front of a plan, possibly twice. *)
Lemma planned_cons ts N ps :
  0 <= ts < 2 ^ 32 * 1000000 -> planned (seq + n) N ps -> planned seq N ((ts, gen_packet seq n) :: ps).
Proof using All.
  intros Ht Hp. pose proof (planned_le _ _ _ Hp) as HN. destruct Hp as [Hw Hc Hq _ Hr].
  destruct gen_packet_facts as (Hl & Hh & Hm). split.
  - constructor; [by apply gen_packet_writable | done].
  - cbn [fmap list_fmap]. constructor; [apply gen_packet_carries | done].
  - cbn [fmap list_fmap in_sequence offered snd]. rewrite Hh, Hm, length_batch by lia.
    cbn [MoldHeader.seq_num]. unfold kMoldHeaderSize. split; [lia|]. split; [lia|].
    by rewrite Z.max_r by lia.
  - intros p ps' [= <- <-]. unfold seq_of. cbn [snd]. by rewrite Hh.
  - constructor.
    + unfold seq_of. cbn [snd]. rewrite Hh, Hm, length_batch by lia. cbn [MoldHeader.seq_num]. lia.
    + eapply Forall_impl; [exact Hr|]. cbn. lia.
Qed.

Lemma planned_twice ts ts' N ps :
  0 <= ts < 2 ^ 32 * 1000000 -> 0 <= ts' < 2 ^ 32 * 1000000 -> planned (seq + n) N ps ->
  planned seq N ((ts, gen_packet seq n) :: (ts', gen_packet seq n) :: ps).
Proof using All.
  intros Ht Ht' Hp. destruct (planned_cons ts' N ps Ht' Hp) as [Hw Hc _ _ Hr].
  destruct Hp as [_ _ Hq _ _]. destruct gen_packet_facts as (Hl & Hh & Hm). split.
  - constructor; [by apply gen_packet_writable | done].
  - cbn [fmap list_fmap]. constructor; [apply gen_packet_carries | done].
  - cbn [fmap list_fmap in_sequence offered snd]. rewrite Hh, Hm, length_batch by lia.
    cbn [MoldHeader.seq_num]. unfold kMoldHeaderSize. rewrite !Z.max_r by lia. repeat split; try lia. done.
  - intros p ps' [= <- <-]. unfold seq_of. cbn [snd]. by rewrite Hh.
  - apply Forall_cons in Hr as Hr'. destruct Hr' as [H1 _]. by constructor.
Qed.

End GenPacket.

Lemma write_all_cons w ts p ps w1 :
  PcapWriter.write_packet w ts p (blen p) = Ok (w1, true) ->
  write_all w ((ts, p) :: ps) = write_all w1 ps.
Proof. intros E. cbn [write_all]. by rewrite E, bind_Ok. Qed.

(** One turn of the loop: a packet, or the same packet twice. *)
Lemma gen_turn opt fuel w file seq ts written :
  gen_ok opt -> PcapWriter.fp_ w = Some file -> 0 <= written < GenPcap.count opt -> 0 <= ts ->
  ts + 2 * GenPcap.rate_us opt * (GenPcap.count opt - written) < 2 ^ 32 * 1000000 ->
  let q := GenPcap.skip_gap opt seq in
  let n := Z.min (GenPcap.msgs_per_pkt opt) (GenPcap.count opt - written) in
  1 <= q -> q + n <= 2 ^ 63 ->
  exists w1 file1 ts1 pp,
    GenPcap.gen_loop (S fuel) opt w seq ts written = GenPcap.gen_loop fuel opt w1 (q + n) ts1 (written + n) /\
    PcapWriter.fp_ w1 = Some file1 /\ (forall ps, write_all w (pp ++ ps) = write_all w1 ps) /\
    0 <= ts1 /\
    ts1 + 2 * GenPcap.rate_us opt * (GenPcap.count opt - (written + n)) < 2 ^ 32 * 1000000 /\
    pp <> [] /\ (forall N ps, planned (q + n) N ps -> planned q N (pp ++ ps)).
Proof.
  intros [Hc Hm Hr _] Hf Hw Ht Hts q n Hq Hqn. cbn [GenPcap.gen_loop].
  rewrite (proj2 (Z.ltb_lt _ _)) by lia. cbv zeta. fold q.
  rewrite (u64_small (GenPcap.count opt - written)) by width. rewrite u16_small by width. fold n.
  assert (Hn : 1 <= n <= 1722 /\ written + n <= GenPcap.count opt) by lia.
  rewrite build_packet_Ok, bind_Ok by lia. fold (gen_packet q n).
  destruct (gen_packet_facts q n) as (Hl & _); [lia..|].
  rewrite (u16_small (blen _)) by (rewrite Hl; width).
  set (p := gen_packet q n) in *.
  assert (Hb : 0 <= 2 * GenPcap.rate_us opt * (GenPcap.count opt - (written + n))) by nia.
  assert (Hb2 : 2 * GenPcap.rate_us opt * (GenPcap.count opt - written)
    = 2 * GenPcap.rate_us opt * (GenPcap.count opt - (written + n)) + 2 * GenPcap.rate_us opt * n) by ring.
  assert (Hb3 : 2 * GenPcap.rate_us opt <= 2 * GenPcap.rate_us opt * n) by nia.
  rewrite (write_packet_Ok w file ts p Hf) by (apply gen_packet_writable; lia).
  rewrite bind_Ok. set (w1 := PcapWriter.mk _ _).
  assert (E1 : PcapWriter.write_packet w ts p (blen p) = Ok (w1, true))
    by (apply write_packet_Ok; [done | apply gen_packet_writable; lia]).
  rewrite (u64_small (ts + _)), (u64_small (written + n)), (u64_small (q + n)) by width.
  destruct (negb (GenPcap.dup_at opt =? 0) && (q =? GenPcap.dup_at opt)).
  - rewrite (write_packet_Ok w1 _ (ts + GenPcap.rate_us opt) p eq_refl)
      by (apply gen_packet_writable; lia).
    rewrite !bind_Ok. set (w2 := PcapWriter.mk _ _).
    assert (E2 : PcapWriter.write_packet w1 (ts + GenPcap.rate_us opt) p (blen p) = Ok (w2, true))
      by (apply write_packet_Ok; [done | apply gen_packet_writable; lia]).
    rewrite (u64_small (ts + _ + _)) by width.
    exists w2. eexists _, (ts + GenPcap.rate_us opt + GenPcap.rate_us opt),
      [(ts, p); (ts + GenPcap.rate_us opt, p)].
    split; [done|]. split; [done|]. split.
    { intros ps. cbn [app]. by rewrite (write_all_cons w ts p _ w1), (write_all_cons w1 _ p _ w2). }
    split; [lia|]. split; [lia|]. split; [done|]. intros N ps Hp. by apply planned_twice; try lia.
  - rewrite bind_Ok. exists w1. eexists _, (ts + GenPcap.rate_us opt), [(ts, p)].
    split; [done|]. split; [done|]. split.
    { intros ps. cbn [app]. by rewrite (write_all_cons w ts p _ w1). }
    split; [lia|]. split; [lia|]. split; [done|]. intros N ps Hp. by apply planned_cons; try lia.
Qed.

(** No skip ahead: the plan is contiguous. *)
Lemma gen_loop_rest opt : gen_ok opt ->
  (forall seq, 0 <= seq < 2 ^ 63 -> GenPcap.gap_at opt = 0 \/
     GenPcap.gap_at opt + GenPcap.gap_len opt <= seq -> GenPcap.skip_gap opt seq = seq) ->
  forall fuel w file seq ts written,
  PcapWriter.fp_ w = Some file -> 0 <= written <= GenPcap.count opt ->
  1 <= seq -> seq + (GenPcap.count opt - written) <= 2 ^ 63 ->
  GenPcap.gap_at opt = 0 \/ GenPcap.gap_at opt + GenPcap.gap_len opt <= seq ->
  GenPcap.count opt - written < Z.of_nat fuel -> 0 <= ts ->
  ts + 2 * GenPcap.rate_us opt * (GenPcap.count opt - written) < 2 ^ 32 * 1000000 ->
  exists w' ps,
    GenPcap.gen_loop fuel opt w seq ts written = Ok w' /\
    write_all w ps = Ok w' /\ planned seq (seq + (GenPcap.count opt - written)) ps.
Proof.
  intros Hok Hskip. induction fuel as [|fuel IH]; intros w file seq ts written Hf Hw Hs Hs2 Hg Hfuel Ht Hts;
    [lia|].
  destruct (decide (written = GenPcap.count opt)) as [->|Hne].
  { exists w, []. cbn [GenPcap.gen_loop]. rewrite Z.ltb_irrefl, Z.sub_diag, Z.add_0_r.
    split; [done|]. split; [done | apply planned_nil]. }
  pose proof (go_msgs opt Hok) as Hm. pose proof (go_count opt Hok).
  assert (Hq : GenPcap.skip_gap opt seq = seq) by (apply Hskip; [lia | done]).
  destruct (gen_turn opt fuel w file seq ts written Hok Hf)
    as (w1 & file1 & ts1 & pp & E & Hf1 & Ew & Ht1 & Hts1 & _ & Hp); rewrite ?Hq; try lia.
  rewrite Hq in *. set (n := Z.min _ _) in *.
  destruct (IH w1 file1 (seq + n) ts1 (written + n) Hf1) as (w' & ps & E' & Ew' & Hp'); try lia.
  exists w', (pp ++ ps). rewrite E, Ew. split; [done|]. split; [done|]. apply Hp.
  by replace (seq + (GenPcap.count opt - written))
    with (seq + n + (GenPcap.count opt - (written + n))) by lia.
Qed.

Lemma gen_loop_plan opt : gen_ok opt -> GenPcap.gap_at opt = 0 ->
  forall fuel w file ts written,
  PcapWriter.fp_ w = Some file -> 0 <= written <= GenPcap.count opt ->
  GenPcap.count opt - written < Z.of_nat fuel -> 0 <= ts ->
  ts + 2 * GenPcap.rate_us opt * (GenPcap.count opt - written) < 2 ^ 32 * 1000000 ->
  exists w' ps,
    GenPcap.gen_loop fuel opt w (written + 1) ts written = Ok w' /\
    write_all w ps = Ok w' /\ planned (written + 1) (GenPcap.count opt + 1) ps.
Proof.
  intros Hok Hg fuel w file ts written Hf Hw Hfuel Ht Hts. pose proof (go_count opt Hok).
  replace (GenPcap.count opt + 1) with (written + 1 + (GenPcap.count opt - written)) by lia.
  eapply gen_loop_rest; try done; try lia.
  intros seq _ _. unfold GenPcap.skip_gap. by rewrite Hg.
Qed.

(** Reading a plan back. *)
Lemma fed_plan S N ps ds :
  Forall2 as_written ps ds -> forall n0,
  Forall (carries S) (offered <$> ps) -> in_sequence n0 N (offered <$> ps) ->
  Forall (carries S) ds /\ in_sequence n0 N ds /\
  Forall (fun i => match i with Datagram _ _ _ => True | Tick _ => False end) ds.
Proof.
  induction 1 as [|p i ps ds Hp _ IH]; intros n0 Hc Hs; [by split|].
  cbn [fmap list_fmap] in Hc, Hs. apply Forall_cons in Hc as [Hc1 Hc].
  destruct i as [m len now|]; [|done]. destruct Hp as (-> & -> & Hpre).
  cbn [in_sequence offered] in Hs. destruct Hs as (Hl & Hq & Hs).
  destruct (IH _ Hc Hs) as (IH1 & IH2 & IH3).
  split; [|split; [|by constructor]].
  - constructor; [|done]. by apply (carries_prefix S p.2 m 0).
  - cbn [in_sequence]. by rewrite (header_prefix p.2 m), (packet_messages_prefix p.2 m).
Qed.

(** The generator and the replay agree: without [--gap-at], for any message
    count, packet size up to 1722 messages, rate and duplicate position that fit
    the capture's fields, [gen_pcap] terminates and writes a file whose replay
    delivers messages 1 to [count], each once and in order, byte for byte as
    generated. *)
Theorem generated_capture_replays (opt : GenPcap.Options) (c : GapBuffer.Config)
    (on_gap on_retx : bool) (cfg : PcapReader.Config) (buf : list byte) :
  gen_ok opt -> GenPcap.gap_at opt = 0 -> length (GapBuffer.cfg_session c) = 10%nat ->
  PcapReader.filter_port cfg = 0 \/ PcapReader.filter_port cfg = 15001 ->
  blen buf = PcapReader.kFrameBuf ->
  exists w st g evs fed,
    GenPcap.main opt true = Ok (Some w) /\
    (forall clock, clock_runs cfg (PcapWriter.fp_ w) clock = true ->
       exists ats, PcapReader.replay cfg (PcapWriter.fp_ w) buf (listening c true on_gap on_retx) clock
                   = Ok (st, g, evs, fed, ats)) /\
    GapBuffer.next_expected_ g = GenPcap.count opt + 1 /\
    (fun m => (MoldMessage.seq_num m, msg_content m)) <$> messages evs
      = (fun k => (k, add_stream k)) <$> seqZ 1 (GenPcap.count opt).
Proof.
  intros Hok Hg Hc Hport Hb.
  destruct (gen_loop_plan opt Hok Hg (S (Z.to_nat (GenPcap.count opt))) (PcapWriter.create true)
    _ (1700000000 * 1000000) 0 eq_refl) as (w & ps & E & Ew & [Hw Hcar Hseq Hfst _]);
    [destruct Hok; lia.. |].
  change (0 + 1) with 1 in *. destruct ps as [|p ps].
  { cbn in Hseq. destruct Hok. lia. }
  destruct (replay_written cfg (p :: ps) buf (listening c true on_gap on_retx) Hport Hw Hb)
    as (w' & Ew' & Er).
  rewrite Ew in Ew'. apply Ok_inj in Ew' as <-.
  pose proof (datagrams_written cfg buf _ Hport Hw) as Hds.
  set (ds := datagrams cfg buf _) in *.
  destruct (fed_plan add_stream _ _ _ Hds 1 Hcar Hseq) as (Hcd & Hsd & Hdd).
  destruct ds as [|[m len now|now] ds]; [by inversion Hds | | by inversion Hdd].
  assert (Hq : MoldHeader.seq_num (header m) = 1).
  { apply Forall2_cons in Hds as [(-> & -> & Hpre) _]. rewrite (header_prefix p.2 m); [|apply Hsd|done].
    by apply (Hfst p ps). }
  destruct (run_in_sequence add_stream c on_gap on_retx 1 (GenPcap.count opt + 1) m len now ds Hc Hcd Hsd Hq)
    as (g & evs & Hr & Hn & Hm).
  destruct (feed_run _ g evs _ 0 Hdd Hr) as [n' Hf]. rewrite Hf, bind_Ok in Er.
  eexists w, _, g, evs, _. split; [|split; [intros clock; by apply replay_unpaced_Ok|]].
  - unfold GenPcap.main. change (PcapWriter.is_open (PcapWriter.create true)) with true.
    cbn [negb]. by rewrite E, bind_Ok.
  - split; [done|]. by replace (GenPcap.count opt) with (GenPcap.count opt + 1 - 1) by lia.
Qed.

Definition gen_buf : list byte := replicate (Z.to_nat PcapReader.kFrameBuf) (z2b 0).

Lemma generated_capture_replays_witness :
  let opt := GenPcap.mk_Options 10 0 5 3 4 100 in
  exists w st g evs fed,
    GenPcap.main opt true = Ok (Some w) /\
    (forall clock, clock_runs (PcapReader.mk_Config true 1 15001) (PcapWriter.fp_ w) clock = true ->
       exists ats, PcapReader.replay (PcapReader.mk_Config true 1 15001) (PcapWriter.fp_ w) gen_buf
                     (listening test_config true true true) clock = Ok (st, g, evs, fed, ats)) /\
    GapBuffer.next_expected_ g = 11 /\
    (fun m => (MoldMessage.seq_num m, msg_content m)) <$> messages evs
      = (fun k => (k, add_stream k)) <$> seqZ 1 10.
Proof.
  intros opt.
  apply (generated_capture_replays opt test_config true true (PcapReader.mk_Config true 1 15001) gen_buf).
  - split; by vm_compute.
  - reflexivity.
  - reflexivity.
  - by right.
  - unfold gen_buf. by rewrite length_replicate, Z2Nat.id.
Defined.
