(* ===== verification/GenGap.v ===== *)
(** * GenGap: the generator with a gap

    Where [gen_pcap --gap-at] puts the gap, and what the replay of the file makes
    of it. *)

From stdpp Require Import base gmap list strings fin_maps.
From Stdlib Require Import ZArith Lia.
From S2P Require Import Prelude WireFormat WireLemmas GapBuf GapWalk Framing.
From S2P Require Import GapInv GapStep GapRun GapProps GapInOrder.
From S2P Require Import Sink Pcap Pacing Unpaced PcapProps PcapRound Tools ToolsProps.

#[local] Open Scope Z_scope.
Import GenPcap.

(** Gap options that do not wrap. *)
Record gap_ok (opt : Options) : Prop := {
  ga_at : 0 <= gap_at opt;
  ga_len : 0 <= gap_len opt;
  ga_fits : gap_at opt + gap_len opt + count opt < 2 ^ 63
}.

(** The start of the first packet, of those numbered without a gap, that is not
    before [gap_at]. *)
Definition first_from_gap (opt : Options) : Z :=
  1 + msgs_per_pkt opt * ((gap_at opt - 1 + (msgs_per_pkt opt - 1)) / msgs_per_pkt opt).

(** Where the sequence jumps by [gap_len], if it does: at a packet start only. *)
Definition jump_at (opt : Options) : option Z :=
  if negb (gap_at opt =? 0) && (first_from_gap opt <? gap_at opt + gap_len opt)
     && (first_from_gap opt <=? count opt)
  then Some (first_from_gap opt) else None.

Section Gap.
Context (opt : Options) (Hok : gen_ok opt) (Hgap : gap_ok opt).

Lemma skip_gap_eq seq :
  skip_gap opt seq =
  if negb (gap_at opt =? 0) && (gap_at opt <=? seq) && (seq <? gap_at opt + gap_len opt)
  then u64 (seq + gap_len opt) else seq.
Proof using All.
  destruct Hgap, Hok. unfold skip_gap. by rewrite (u64_small (gap_at opt + _)) by width.
Qed.

Lemma skip_none seq :
  gap_at opt = 0 \/ seq < gap_at opt \/ gap_at opt + gap_len opt <= seq -> skip_gap opt seq = seq.
Proof using All.
  rewrite skip_gap_eq. intros H. destruct (Z.eqb_spec (gap_at opt) 0); [done|].
  destruct (Z.leb_spec (gap_at opt) seq), (Z.ltb_spec seq (gap_at opt + gap_len opt)); (done || lia).
Qed.

Lemma skip_some seq :
  1 <= gap_at opt <= seq -> seq < gap_at opt + gap_len opt -> skip_gap opt seq = seq + gap_len opt.
Proof using All.
  intros H1 H2. destruct Hgap, Hok. rewrite skip_gap_eq. rewrite (proj2 (Z.eqb_neq _ _)) by lia.
  rewrite (proj2 (Z.leb_le _ _)), (proj2 (Z.ltb_lt _ _)) by lia. cbn [negb andb].
  rewrite u64_small; [done | width].
Qed.

Lemma first_from_gap_least :
  1 <= gap_at opt ->
  let J := (gap_at opt - 1 + (msgs_per_pkt opt - 1)) / msgs_per_pkt opt in
  msgs_per_pkt opt * (J - 1) < gap_at opt - 1 <= msgs_per_pkt opt * J.
Proof using All.
  intros Hg J. pose proof (go_msgs opt Hok).
  pose proof (Z.mod_pos_bound (gap_at opt - 1 + (msgs_per_pkt opt - 1)) (msgs_per_pkt opt)).
  pose proof (Z.div_mod (gap_at opt - 1 + (msgs_per_pkt opt - 1)) (msgs_per_pkt opt)) as HD.
  fold J in HD. lia.
Qed.

(** The jump is inside the gap. *)
Lemma jump_at_inside s : jump_at opt = Some s -> gap_at opt <= s < gap_at opt + gap_len opt.
Proof using All.
  unfold jump_at, first_from_gap. pose proof first_from_gap_least as Hf. cbv zeta in Hf.
  set (J := (_ + _) / _) in *. pose proof (ga_at opt Hgap).
  destruct (Z.eqb_spec (gap_at opt) 0) as [|Hne]; [done|]. cbn [negb andb].
  destruct (Z.ltb_spec (1 + msgs_per_pkt opt * J) (gap_at opt + gap_len opt)); [|done].
  destruct (_ <=? _); [|done]. intros [= <-]. lia.
Qed.

(** The plan of the rest of the file, from a packet start before the gap. *)
Lemma gen_loop_before fuel w file ts j :
  let J := (gap_at opt - 1 + (msgs_per_pkt opt - 1)) / msgs_per_pkt opt in
  let written := msgs_per_pkt opt * j in
  1 <= gap_at opt -> 0 <= j <= J -> PcapWriter.fp_ w = Some file -> written <= count opt ->
  count opt - written < Z.of_nat fuel -> 0 <= ts ->
  ts + 2 * rate_us opt * (count opt - written) < 2 ^ 32 * 1000000 ->
  exists w' ps1 ps2,
    gen_loop fuel opt w (written + 1) ts written = Ok w' /\ write_all w (ps1 ++ ps2) = Ok w' /\
    match jump_at opt with
    | None => planned (written + 1) (count opt + 1) ps1 /\ ps2 = []
    | Some s => planned (written + 1) s ps1 /\ planned (s + gap_len opt) (count opt + gap_len opt + 1) ps2 /\
                ps2 <> [] /\ (s = written + 1 -> ps1 = [])
    end.
Proof using All.
  intros J written Hg. unfold written. clear written.
  pose proof (go_msgs opt Hok) as Hm. pose proof (go_count opt Hok) as Hcnt. destruct Hgap as [G1 G2 G3].
  assert (HJ : msgs_per_pkt opt * (J - 1) < gap_at opt - 1 <= msgs_per_pkt opt * J) by by apply first_from_gap_least.
  assert (Hjump : forall P : option Z -> Prop,
    (count opt < 1 + msgs_per_pkt opt * J \/ gap_at opt + gap_len opt <= 1 + msgs_per_pkt opt * J -> P None) ->
    (1 + msgs_per_pkt opt * J <= count opt -> 1 + msgs_per_pkt opt * J < gap_at opt + gap_len opt ->
     P (Some (1 + msgs_per_pkt opt * J))) -> P (jump_at opt)).
  { intros P Hn Hs. unfold jump_at, first_from_gap. fold J. rewrite (proj2 (Z.eqb_neq _ _)) by lia.
    cbn [negb andb]. destruct (Z.ltb_spec (1 + msgs_per_pkt opt * J) (gap_at opt + gap_len opt)),
      (Z.leb_spec (1 + msgs_per_pkt opt * J) (count opt)); cbn [andb]; auto. }
  revert w file ts j. induction fuel as [|fuel IH]; intros w file ts j Hj Hf Hw Hfuel Ht Hts; [lia|].
  set (written := msgs_per_pkt opt * j) in *.
  destruct (decide (written = count opt)) as [E|Hne].
  { exists w, [], []. cbn [gen_loop]. rewrite E, Z.ltb_irrefl. split; [done|]. split; [done|].
    apply Hjump; [|intros; nia]. intros _. split; [apply planned_nil | done]. }
  destruct (decide (j < J)) as [Hlt|Hge].
  - assert (Hq : skip_gap opt (written + 1) = written + 1) by (apply skip_none; nia).
    destruct (gen_turn opt fuel w file (written + 1) ts written Hok Hf)
      as (w1 & file1 & ts1 & pp & E & Hf1 & Ew & Ht1 & Hts1 & _ & Hp); rewrite ?Hq; try lia.
    rewrite Hq in *. set (n := Z.min _ _) in *.
    destruct (decide (msgs_per_pkt opt <= count opt - written)) as [Hfull|Hlast].
    + assert (En : written + n = msgs_per_pkt opt * (j + 1)) by lia.
      assert (En1 : written + 1 + n = msgs_per_pkt opt * (j + 1) + 1) by lia.
      rewrite En in Hts1, E. rewrite En1 in Hp, E.
      destruct (IH w1 file1 ts1 (j + 1)) as (w' & ps1 & ps2 & E' & Ew' & Hp'); try done; try lia.
      exists w', (pp ++ ps1), ps2. rewrite E, <-app_assoc, Ew. split; [done|]. split; [done|].
      revert Hp'. apply Hjump; [by intros _ [Hp1 H2]; split; [apply Hp|]|].
      intros _ _ (Hp1 & H2 & H3 & _). split; [by apply Hp|]. split; [done|]. split; [done|]. intros; nia.
    + exists w1, pp, []. rewrite app_nil_r. rewrite <-(app_nil_r pp) at 1. rewrite E, Ew.
      assert (En : written + n = count opt) by lia.
      destruct fuel as [|fuel]; [lia|]. cbn [gen_loop write_all]. rewrite En, Z.ltb_irrefl.
      split; [done|]. split; [done|]. apply Hjump; [|intros; nia]. intros _. split; [|done].
      rewrite <-(app_nil_r pp). apply Hp. replace (count opt + 1) with (written + 1 + n) by lia.
      apply planned_nil.
  - assert (j = J) as -> by lia. fold written in HJ. fold written in Hjump.
    destruct (decide (written + 1 < gap_at opt + gap_len opt)) as [Hin|Hout].
    + assert (Hq : skip_gap opt (written + 1) = written + 1 + gap_len opt) by (apply skip_some; lia).
      destruct (gen_turn opt fuel w file (written + 1) ts written Hok Hf)
        as (w1 & file1 & ts1 & pp & E & Hf1 & Ew & Ht1 & Hts1 & Hpp & Hp); rewrite ?Hq; try lia.
      rewrite Hq in *. set (n := Z.min _ _) in *.
      destruct (gen_loop_rest opt Hok) with (fuel := fuel) (w := w1) (file := file1)
        (seq := written + 1 + gap_len opt + n) (ts := ts1) (written := written + n)
        as (w' & ps & E' & Ew' & Hp'); try done; try lia.
      { intros seq _ Hseq. apply skip_none. lia. }
      exists w', [], (pp ++ ps). cbn [app]. rewrite E, Ew. split; [done|]. split; [done|].
      apply Hjump; [intros; lia|]. intros _ _. replace (1 + written) with (written + 1) by lia.
      split; [apply planned_nil|]. split; [|by destruct pp]. apply Hp.
      by replace (count opt + gap_len opt + 1)
        with (written + 1 + gap_len opt + n + (count opt - (written + n))) by lia.
    + destruct (gen_loop_rest opt Hok) with (fuel := S fuel) (w := w) (file := file)
        (seq := written + 1) (ts := ts) (written := written)
        as (w' & ps & E' & Ew' & Hp'); try done; try lia.
      { intros seq _ Hseq. apply skip_none. lia. }
      exists w', ps, []. rewrite app_nil_r. split; [done|]. split; [done|].
      apply Hjump; [|intros; lia]. intros _. split; [|done].
      by replace (count opt + 1) with (written + 1 + (count opt - written)) by lia.
Qed.

(** The whole file. *)
Lemma gen_main_plan :
  exists w ps1 ps2,
    main opt true = Ok (Some w) /\ write_all (PcapWriter.create true) (ps1 ++ ps2) = Ok w /\
    match jump_at opt with
    | None => planned 1 (count opt + 1) ps1 /\ ps2 = []
    | Some s => planned 1 s ps1 /\ planned (s + gap_len opt) (count opt + gap_len opt + 1) ps2 /\
                ps2 <> [] /\ (s = 1 -> ps1 = [])
    end.
Proof using All.
  pose proof (go_msgs opt Hok) as Hm. pose proof (go_count opt Hok) as Hcnt.
  pose proof (go_time opt Hok). pose proof (ga_at opt Hgap).
  assert (Hmain : forall w, gen_loop (S (Z.to_nat (count opt))) opt (PcapWriter.create true) 1
    (1700000000 * 1000000) 0 = Ok w -> main opt true = Ok (Some w)).
  { intros w E. unfold main. change (PcapWriter.is_open (PcapWriter.create true)) with true.
    cbn [negb]. by rewrite E, bind_Ok. }
  destruct (decide (gap_at opt = 0)) as [Hg|Hg].
  - destruct (gen_loop_plan opt Hok Hg (S (Z.to_nat (count opt))) (PcapWriter.create true)
      _ (1700000000 * 1000000) 0 eq_refl) as (w & ps & E & Ew & Hp); [lia.. |].
    exists w, ps, []. rewrite app_nil_r. split; [by apply Hmain|]. split; [done|].
    unfold jump_at. rewrite Hg. done.
  - destruct (gen_loop_before (S (Z.to_nat (count opt))) (PcapWriter.create true)
      (default [] (PcapWriter.fp_ (PcapWriter.create true)))
      (1700000000 * 1000000) 0) as (w & ps1 & ps2 & E & Ew & Hp); rewrite ?Z.mul_0_r; try done; try lia.
    { split; [lia|]. apply Z.div_pos; lia. }
    rewrite Z.mul_0_r in E, Hp. exists w, ps1, ps2. split; [by apply Hmain | done].
Qed.

End Gap.

(** ** Replaying the file *)

(** The messages a replay delivers: from [.1], up to [.2], which is not.  When the
    gap is at the very start, the session begins behind it. *)
Definition delivered_range (opt : Options) : Z * Z :=
  match jump_at opt with
  | None => (1, count opt + 1)
  | Some s => if s =? 1 then (1 + gap_len opt, count opt + gap_len opt + 1) else (1, s)
  end.

Lemma planned_lacks n0 N ps ds k :
  planned n0 N ps -> Forall2 as_written ps ds -> k < n0 \/ N <= k -> Forall (lacks k) ds.
Proof.
  intros [_ _ Hseq _ Hr] Hds Hk. revert n0 Hseq Hr Hk.
  assert (Hlen : forall n0, in_sequence n0 N (offered <$> ps) -> Forall (fun p => kMoldHeaderSize <= blen p.2) ps).
  { clear. induction ps as [|p ps IH]; intros n0 Hs; [done|]. cbn [fmap list_fmap in_sequence offered] in Hs.
    destruct Hs as (? & _ & Hs). constructor; [done | by eapply IH]. }
  intros n0 Hseq Hr Hk. specialize (Hlen n0 Hseq). clear Hseq.
  induction Hds as [|p i ps ds Hp _ IH]; [done|].
  apply Forall_cons in Hr as [Hr1 Hr]. apply Forall_cons in Hlen as [Hl1 Hlen].
  constructor; [|by apply IH]. destruct i as [m len now|]; [|done].
  destruct Hp as (-> & _ & Hpre). unfold lacks.
  rewrite (header_prefix p.2 m), (packet_messages_prefix p.2 m) by done. unfold seq_of in Hr1. lia.
Qed.

Lemma fed_carries S ps ds :
  Forall2 as_written ps ds -> Forall (carries S) (offered <$> ps) ->
  (exists n0 N, in_sequence n0 N (offered <$> ps)) -> Forall (carries S) ds.
Proof.
  intros Hds Hc (n0 & N & Hs). by destruct (fed_plan S N ps ds Hds n0 Hc Hs).
Qed.

(** The head of a plan, as read. *)
Lemma planned_head n0 N p ps ds :
  planned n0 N (p :: ps) -> Forall2 as_written (p :: ps) ds ->
  exists m len now ds', ds = Datagram m len now :: ds' /\ MoldHeader.seq_num (header m) = n0.
Proof.
  intros [_ _ Hseq Hfst _] Hds. inversion Hds as [|? i ? ds' Hp _]; subst.
  destruct i as [m len now|]; [|done]. exists m, len, now, ds'. split; [done|].
  destruct Hp as (_ & _ & Hpre). cbn [fmap list_fmap in_sequence offered] in Hseq.
  destruct Hseq as (Hl & _). rewrite (header_prefix p.2 m) by done. by apply (Hfst p ps).
Qed.

(** The packets of a file, before and behind the jump if there is one. *)
Definition file_plan (opt : Options) (ps1 ps2 : list (Z * list byte)) : Prop :=
  match jump_at opt with
  | None => planned 1 (count opt + 1) ps1 /\ ps2 = []
  | Some s => planned 1 s ps1 /\ planned (s + gap_len opt) (count opt + gap_len opt + 1) ps2 /\
              ps2 <> [] /\ (s = 1 -> ps1 = [])
  end.

Lemma file_plan_planned opt ps1 ps2 :
  file_plan opt ps1 ps2 -> (exists n N, planned n N ps1) /\ (exists n N, planned n N ps2).
Proof.
  unfold file_plan. destruct (jump_at opt) as [s|].
  - intros (? & ? & _). eauto 10.
  - intros [? ->]. pose proof (planned_nil 1). eauto 10.
Qed.

(** A plan in one piece is delivered whole. *)
Lemma planned_run c on_gap on_retx n0 N p ps ds :
  length (GapBuffer.cfg_session c) = 10%nat -> planned n0 N (p :: ps) ->
  Forall2 as_written (p :: ps) ds ->
  exists g evs,
    run (listening c true on_gap on_retx) ds = Ok (g, evs) /\ GapBuffer.next_expected_ g = N /\
    (fun m => (MoldMessage.seq_num m, msg_content m)) <$> messages evs
      = (fun k => (k, add_stream k)) <$> seqZ n0 (N - n0).
Proof.
  intros Hc Hp Hd. destruct (planned_head _ _ _ _ _ Hp Hd) as (m & len & now & ds' & -> & Hq).
  destruct (fed_plan add_stream _ _ _ Hd _ (pn_carries _ _ _ Hp) (pn_sequence _ _ _ Hp))
    as (Hcd & Hsd & _).
  by apply run_in_sequence.
Qed.

(** What the buffer makes of a planned file as it is read back. *)
Lemma planned_delivers opt c on_gap on_retx ps1 ps2 ds1 ds2 :
  gen_ok opt -> gap_ok opt -> length (GapBuffer.cfg_session c) = 10%nat ->
  file_plan opt ps1 ps2 -> Forall2 as_written ps1 ds1 -> Forall2 as_written ps2 ds2 ->
  exists g evs,
    run (listening c true on_gap on_retx) (ds1 ++ ds2) = Ok (g, evs) /\
    GapBuffer.next_expected_ g = (delivered_range opt).2 /\
    (fun m => (MoldMessage.seq_num m, msg_content m)) <$> messages evs
      = (fun k => (k, add_stream k)) <$> seqZ (delivered_range opt).1
          ((delivered_range opt).2 - (delivered_range opt).1).
Proof.
  intros Hok Hgap Hc Hplan Hd1 Hd2.
  pose proof (go_count opt Hok) as Hcnt. pose proof (ga_len opt Hgap) as Hlen.
  unfold file_plan, delivered_range in *. destruct (jump_at opt) as [s|] eqn:Ej.
  - destruct Hplan as (Hp1 & Hp2 & Hne & Hempty).
    destruct (Z.eqb_spec s 1) as [->|Hs]; cbn [fst snd].
    + rewrite (Hempty eq_refl) in Hd1. inversion Hd1; subst ds1. cbn [app].
      destruct ps2 as [|p ps2]; [done|]. by eapply planned_run.
    + destruct ps1 as [|p ps1]; [by pose proof (pn_sequence _ _ _ Hp1); cbn in *; lia|].
      pose proof (planned_lacks _ _ _ _ s Hp1 Hd1 ltac:(lia)) as L1.
      pose proof (planned_lacks _ _ _ _ s Hp2 Hd2) as L2.
      destruct (planned_head _ _ _ _ _ Hp1 Hd1) as (m & len & now & ds' & -> & Hq).
      destruct (fed_plan add_stream _ _ _ Hd1 _ (pn_carries _ _ _ Hp1) (pn_sequence _ _ _ Hp1))
        as (Hcd1 & Hsd & _).
      destruct (fed_plan add_stream _ _ _ Hd2 _ (pn_carries _ _ _ Hp2) (pn_sequence _ _ _ Hp2))
        as (Hcd2 & _ & _).
      apply (hole_stops add_stream c on_gap on_retx 1 s m len now ds' ds2); try done.
      * by apply Forall_app.
      * apply Forall_app. split; [done|]. apply L2. left.
        destruct (jump_at_inside opt Hok Hgap s Ej). lia.
  - destruct Hplan as [Hp1 ->]. inversion Hd2; subst ds2. rewrite app_nil_r. cbn [fst snd].
    destruct ps1 as [|p ps1]; [by pose proof (pn_sequence _ _ _ Hp1); cbn in *; lia|].
    by eapply planned_run.
Qed.

(** C16.  The generator and the replay agree, gap included: for any message count,
    packet size up to 1722, rate, duplicate position and gap that fit the
    capture's fields, [gen_pcap] terminates and its file replays without a fault.
    The sequence jumps by [gap_len] exactly at the first packet start from
    [gap_at] on, if that lies inside the gap and the file gets that far: then the
    replay delivers the messages before it and nothing after (everything, when
    the gap is at the very start); otherwise it delivers the whole file. *)
Theorem generated_gap_replays (opt : Options) (c : GapBuffer.Config) (on_gap on_retx : bool)
    (cfg : PcapReader.Config) (buf : list byte) :
  gen_ok opt -> gap_ok opt -> length (GapBuffer.cfg_session c) = 10%nat ->
  PcapReader.filter_port cfg = 0 \/ PcapReader.filter_port cfg = 15001 ->
  blen buf = PcapReader.kFrameBuf ->
  exists w st g evs fed,
    main opt true = Ok (Some w) /\
    (forall clock, clock_runs cfg (PcapWriter.fp_ w) clock = true ->
       exists ats, PcapReader.replay cfg (PcapWriter.fp_ w) buf (listening c true on_gap on_retx) clock
                   = Ok (st, g, evs, fed, ats)) /\
    GapBuffer.next_expected_ g = (delivered_range opt).2 /\
    (fun m => (MoldMessage.seq_num m, msg_content m)) <$> messages evs
      = (fun k => (k, add_stream k)) <$> seqZ (delivered_range opt).1
                                              ((delivered_range opt).2 - (delivered_range opt).1).
Proof.
  intros Hok Hgap Hc Hport Hb.
  destruct (gen_main_plan opt Hok Hgap) as (w & ps1 & ps2 & Em & Ew & Hplan).
  destruct (file_plan_planned opt ps1 ps2 Hplan) as [(n1 & N1 & [Hw1 Hc1 Hs1 _ _]) (n2 & N2 & [Hw2 Hc2 Hs2 _ _])].
  assert (Hw : Forall writable (ps1 ++ ps2)) by by apply Forall_app.
  destruct (replay_written cfg (ps1 ++ ps2) buf (listening c true on_gap on_retx) Hport Hw Hb)
    as (w' & Ew' & Er).
  rewrite Ew in Ew'. apply Ok_inj in Ew' as <-.
  pose proof (datagrams_written cfg buf _ Hport Hw) as Hds.
  set (ds := datagrams cfg buf _) in *.
  apply Forall2_app_inv_l in Hds as (ds1 & ds2 & Hd1 & Hd2 & Eds). rewrite Eds in Er.
  destruct (fed_plan add_stream _ _ _ Hd1 _ Hc1 Hs1) as (_ & _ & Hdd1).
  destruct (fed_plan add_stream _ _ _ Hd2 _ Hc2 Hs2) as (_ & _ & Hdd2).
  destruct (planned_delivers opt c on_gap on_retx ps1 ps2 ds1 ds2 Hok Hgap Hc Hplan Hd1 Hd2)
    as (g & evs & Hr & Hn & Hm).
  assert (Hdd : Forall (fun i => match i with Datagram _ _ _ => True | Tick _ => False end) (ds1 ++ ds2))
    by by apply Forall_app.
  destruct (feed_run _ g evs _ 0 Hdd Hr) as [n' Hf]. rewrite Hf, bind_Ok in Er.
  eexists w, _, g, evs, _. split; [done|]. split; [intros clock; by apply replay_unpaced_Ok | done].
Qed.

Lemma generated_gap_replays_witness :
  let opt := mk_Options 10 4 3 2 7 100 in
  (exists w st g evs fed,
    main opt true = Ok (Some w) /\
    (forall clock, clock_runs (PcapReader.mk_Config true 1 15001) (PcapWriter.fp_ w) clock = true ->
       exists ats, PcapReader.replay (PcapReader.mk_Config true 1 15001) (PcapWriter.fp_ w) gen_buf
                     (listening test_config true true true) clock = Ok (st, g, evs, fed, ats)) /\
    GapBuffer.next_expected_ g = 5 /\
    (fun m => (MoldMessage.seq_num m, msg_content m)) <$> messages evs
      = (fun k => (k, add_stream k)) <$> seqZ 1 (5 - 1)) /\
  jump_at (mk_Options 10 4 1 3 0 100) = Some 4 /\ jump_at (mk_Options 10 5 2 3 0 100) = None.
Proof.
  intros opt. split; [|split; by vm_compute].
  refine (generated_gap_replays opt test_config true true (PcapReader.mk_Config true 1 15001) gen_buf
    _ _ _ _ _).
  - split; by vm_compute.
  - split; by vm_compute.
  - reflexivity.
  - by right.
  - unfold gen_buf. by rewrite length_replicate, Z2Nat.id.
Defined.

(** ** No progress *)

(** A packet is written whatever the time; the times wrap. *)
Lemma write_packet_any w file ts p :
  PcapWriter.fp_ w = Some file -> blen p < 2 ^ 16 ->
  exists w' file', PcapWriter.write_packet w ts p (u16 (blen p)) = Ok (w', true) /\
    PcapWriter.fp_ w' = Some file'.
Proof.
  intros Hf Hp. rewrite u16_small by width. unfold PcapWriter.write_packet. rewrite Hf. cbv zeta.
  rewrite mem_read_Ok, bind_Ok by lia. by eexists _, _.
Qed.

(** With [--msgs-per-pkt 0], or any multiple of 65536, and a positive count the
    generator writes empty packets for ever: no amount of fuel ends its loop. *)
Theorem zero_messages_per_packet_spins (opt : Options) (fuel : nat) (w : PcapWriter.t)
    (file : list byte) (seq ts : Z) :
  msgs_per_pkt opt = 0 -> 0 < count opt < 2 ^ 64 -> PcapWriter.fp_ w = Some file -> is_u64 seq ->
  gen_loop fuel opt w seq ts 0 = Fault OutOfFuel.
Proof.
  intros Hm Hc. revert w file seq ts. induction fuel as [|fuel IH]; intros w file seq ts Hf Hs; [done|].
  cbn [gen_loop]. rewrite (proj2 (Z.ltb_lt _ _)) by lia. cbv zeta. rewrite Hm.
  rewrite Z.sub_0_r, (u64_small (count opt)), Z.min_l by width. change (u16 0) with 0.
  assert (Hq : is_u64 (skip_gap opt seq)) by (unfold skip_gap; case_match; [apply u64_range | done]).
  set (q := skip_gap opt seq) in *.
  rewrite build_packet_Ok, bind_Ok by width.
  assert (Hl : blen (packet_wire session q (batch q 0)) < 2 ^ 16)
    by (rewrite length_packet_wire by done; done).
  destruct (write_packet_any w file ts _ Hf Hl) as (w1 & f1 & -> & Hf1). rewrite bind_Ok.
  rewrite Z.add_0_r, (u64_small q) by done. change (u64 0) with 0.
  destruct (_ && _).
  - destruct (write_packet_any w1 f1 (u64 (ts + rate_us opt)) _ Hf1 Hl) as (w2 & f2 & -> & Hf2).
    rewrite !bind_Ok. by apply (IH w2 f2).
  - rewrite bind_Ok. by apply (IH w1 f1).
Qed.

Lemma zero_messages_per_packet_spins_witness :
  gen_loop 50 (mk_Options 10 0 5 0 0 100) (PcapWriter.create true) 1 0 0 = Fault OutOfFuel.
Proof. by eapply zero_messages_per_packet_spins. Defined.
