(* ===== verification/CommandLine.v ===== *)
(** * CommandLine: the arguments of the programs

    The option loops of [src/main.cpp], [tools/gen_pcap.cpp],
    [tools/tick_to_trade_bench.cpp] and [tools/timestamp_validate.cpp], with the
    number conversions of the C and C++ libraries they call.  A C string is the
    list of the bytes before its terminator; an exception nobody catches is the
    result of the program. *)

From stdpp Require Import base gmap list strings fin_maps.
From Stdlib Require Import ZArith Lia.
From Stdlib Require Strings.String.
From S2P Require Import Prelude WireFormat GapBuf Pcap Tools.

#[local] Open Scope Z_scope.

(** ** Exceptions *)

Inductive exn := InvalidArgument | OutOfRange | LengthError.

Inductive outcome (A : Type) :=
| Done (a : A)
| Throws (e : exn).
Arguments Done {A} _.
Arguments Throws {A} _.

#[export] Instance outcome_ret : MRet outcome := fun A a => Done a.
#[export] Instance outcome_bind : MBind outcome := fun A B f m =>
  match m with Done a => f a | Throws e => Throws e end.

(** ** Numbers *)

Definition str (s : string) : list byte := String.list_byte_of_string s.

Definition is_digit (c : byte) : bool := (48 <=? b2z c) && (b2z c <=? 57).
(** [isspace] of the C locale. *)
Definition is_space (c : byte) : bool := (b2z c =? 32) || ((9 <=? b2z c) && (b2z c <=? 13)).

Fixpoint skip_space (s : list byte) : list byte :=
  match s with
  | c :: s' => if is_space c then skip_space s' else s
  | [] => []
  end.

Definition sign (s : list byte) : bool * list byte :=
  match s with
  | c :: s' => if b2z c =? 45 then (true, s') else if b2z c =? 43 then (false, s') else (false, s)
  | [] => (false, [])
  end.

(** The leading digits, in base 10, after [acc]. *)
Fixpoint digits_value (s : list byte) (acc : Z) : Z :=
  match s with
  | c :: s' => if is_digit c then digits_value s' (10 * acc + (b2z c - 48)) else acc
  | [] => acc
  end.

Definition has_digits (s : list byte) : bool :=
  match s with c :: _ => is_digit c | [] => false end.

(** [std::stoull] and, [unsigned long] having 64 bits, [std::stoul]: a minus sign
    negates modulo [2^64]. *)
Definition stoull (s : list byte) : outcome Z :=
  let '(neg, ds) := sign (skip_space s) in
  if negb (has_digits ds) then Throws InvalidArgument else
  let v := digits_value ds 0 in
  if 2 ^ 64 <=? v then Throws OutOfRange else Done (if neg then u64 (- v) else v).

(** The conversion of a 64-bit [long] to [int]. *)
Definition int_of_long (v : Z) : Z := (v + 2 ^ 31) mod 2 ^ 32 - 2 ^ 31.

(** [std::atoi]: [int(strtol(s, nullptr, 10))], which saturates at [long]. *)
Definition atoi (s : list byte) : Z :=
  let '(neg, ds) := sign (skip_space s) in
  let v := digits_value ds 0 in
  int_of_long (if neg then Z.max (- 2 ^ 63) (- v) else Z.min (2 ^ 63 - 1) v).

(** [std::to_string] of an unsigned number. *)
Definition digit (n : Z) : byte := z2b (48 + n).
Fixpoint decimal (fuel : nat) (n : Z) (acc : list byte) : list byte :=
  match fuel with
  | O => acc
  | S fuel' =>
      let acc := digit (n mod 10) :: acc in
      if n <? 10 then acc else decimal fuel' (n / 10) acc
  end.
Definition to_string (n : Z) : list byte := decimal (S (Z.to_nat (Z.log2 n))) n [].

(** ** The option loop *)

Section Scan.
Context {O : Type}.
(** What an option that takes a value does with it, and an argument that is none. *)
Context (named : list byte -> option (list byte -> O -> outcome O)) (plain : list byte -> O -> O).

(** [for (int i = 1; i < argc; ++i)]; an option in last place has no value. *)
Fixpoint scan (args : list (list byte)) (o : O) : outcome O :=
  match args with
  | [] => mret o
  | a :: rest =>
      match named a, rest with
      | Some set, v :: rest' => o ← set v o; scan rest' o
      | _, _ => scan rest (plain a o)
      end
  end.
End Scan.

(** [!std::strcmp(argv[i], name)] *)
Definition streq (a : list byte) (name : string) : bool := bool_decide (a = str name).

Module MainArgs.

Record t := mk { group : list byte; iface : list byte; replay_file : list byte; port : Z }.

Definition init : t := mk (str "239.1.1.1") (str "lo") [] 15001.

Definition named (a : list byte) : option (list byte -> t -> outcome t) :=
  if streq a "--group" then Some (fun v o => mret (mk v (iface o) (replay_file o) (port o)))
  else if streq a "--port" then
    Some (fun v o => mret (mk (group o) (iface o) (replay_file o) (u16 (atoi v))))
  else if streq a "--iface" then Some (fun v o => mret (mk (group o) v (replay_file o) (port o)))
  else if streq a "--replay" then Some (fun v o => mret (mk (group o) (iface o) v (port o)))
  else None.

Definition parse (args : list (list byte)) : outcome t := scan named (fun _ o => o) args init.

End MainArgs.

Module GenArgs.
Import GenPcap.

(** The output file and the numeric options. *)
Definition t : Type := list byte * Options.
Definition init : t := (str "synthetic.pcap", Options_init).

Definition number (f : Options -> Z -> Options) : option (list byte -> t -> outcome t) :=
  Some (fun v o => n ← stoull v; mret (o.1, f o.2 n)).

Definition named (a : list byte) : option (list byte -> t -> outcome t) :=
  if streq a "--count" then
    number (fun o n => mk_Options n (gap_at o) (gap_len o) (msgs_per_pkt o) (dup_at o) (rate_us o))
  else if streq a "--gap-at" then
    number (fun o n => mk_Options (count o) n (gap_len o) (msgs_per_pkt o) (dup_at o) (rate_us o))
  else if streq a "--gap-len" then
    number (fun o n => mk_Options (count o) (gap_at o) n (msgs_per_pkt o) (dup_at o) (rate_us o))
  else if streq a "--msgs-per-pkt" then
    number (fun o n => mk_Options (count o) (gap_at o) (gap_len o) (u16 n) (dup_at o) (rate_us o))
  else if streq a "--dup-at" then
    number (fun o n => mk_Options (count o) (gap_at o) (gap_len o) (msgs_per_pkt o) n (rate_us o))
  else if streq a "--rate-us" then
    number (fun o n => mk_Options (count o) (gap_at o) (gap_len o) (msgs_per_pkt o) (dup_at o) n)
  else None.

(** [argv[i][0] != '-'] *)
Definition plain (a : list byte) (o : t) : t :=
  if bool_decide (head a = Some (z2b 45)) then o else (a, o.2).

Definition parse_args (args : list (list byte)) : outcome t := scan named plain args init.

(** The whole program: its exit code, and the packets its last line reports;
    [opened] tells which output files can be created. *)
Definition main (opened : list byte -> bool) (args : list (list byte)) : outcome (res (Z * option Z)) :=
  o ← parse_args args;
  Done (w ← GenPcap.main o.2 (opened o.1);
        mret match w with
             | Some w => (0, Some (PcapWriter.packets_written_ w))
             | None => (1, None)
             end).

End GenArgs.

Module BenchArgs.

Record Options := mk_Options { messages : Z; symbols : Z; warmup : Z }.
Definition Options_init : Options := mk_Options 200000 8 20000.

Definition named (a : list byte) : option (list byte -> Options -> outcome Options) :=
  if streq a "--messages" then
    Some (fun v o => n ← stoull v; mret (mk_Options n (symbols o) (warmup o)))
  else if streq a "--symbols" then
    Some (fun v o => n ← stoull v; mret (mk_Options (messages o) (u32 n) (warmup o)))
  else if streq a "--warmup" then
    Some (fun v o => n ← stoull v; mret (mk_Options (messages o) (symbols o) n))
  else None.

Definition parse_args (args : list (list byte)) : outcome Options :=
  scan named (fun _ o => o) args Options_init.

End BenchArgs.

Module TimestampArgs.

Definition named (a : list byte) : option (list byte -> Z -> outcome Z) :=
  if streq a "--count" then Some (fun v _ => mret (atoi v)) else None.

(** The [int] number of round trips. *)
Definition parse (args : list (list byte)) : outcome Z := scan named (fun _ o => o) args 20000.

End TimestampArgs.
