(* ===== verification/CommandProps.v ===== *)
(** * CommandProps: options are read as they are written

    Decimal numbers survive [std::to_string] and the conversions, and the option
    loops give back the options that were rendered as arguments. *)

From stdpp Require Import base gmap list strings fin_maps.
From Stdlib Require Import ZArith Lia.
From S2P Require Import Prelude Tools CommandLine.

#[local] Open Scope Z_scope.

(** ** Decimal numbers *)

Lemma b2z_digit n : 0 <= n < 10 -> b2z (digit n) = 48 + n.
Proof. intros. unfold digit. rewrite b2z_z2b, u8_small; width. Qed.

Lemma is_digit_digit n : 0 <= n < 10 -> is_digit (digit n) = true.
Proof. intros. unfold is_digit. rewrite b2z_digit by done. lia. Qed.

(** The digits of [n], read after nothing, leave [n] for what follows them. *)
Lemma digits_value_decimal fuel n acc :
  0 <= n < 2 ^ Z.of_nat fuel -> (0 < fuel)%nat ->
  digits_value (decimal fuel n acc) 0 = digits_value acc n.
Proof.
  revert n acc. induction fuel as [|fuel IH]; intros n acc Hn Hf; [lia|]. cbn [decimal].
  pose proof (Z.mod_pos_bound n 10 ltac:(lia)). pose proof (Z.div_mod n 10 ltac:(lia)).
  assert (Hd : forall a, digits_value (digit (n mod 10) :: acc) a = digits_value acc (10 * a + n mod 10)).
  { intros a. cbn [digits_value]. rewrite is_digit_digit, b2z_digit by done. f_equal. lia. }
  destruct (Z.ltb_spec n 10).
  - rewrite Hd, Z.mod_small by lia. done.
  - rewrite Nat2Z.inj_succ, Z.pow_succ_r in Hn by lia.
    destruct fuel as [|fuel]; [cbn in Hn; lia|].
    rewrite IH, Hd; [f_equal; lia | split; [lia|] | lia].
    apply Z.div_lt_upper_bound; lia.
Qed.

Lemma head_decimal fuel n acc :
  0 <= n -> (0 < fuel)%nat -> exists d rest, 0 <= d < 10 /\ decimal fuel n acc = digit d :: rest.
Proof.
  revert n acc. induction fuel as [|fuel IH]; intros n acc Hn Hf; [lia|]. cbn [decimal].
  pose proof (Z.mod_pos_bound n 10 ltac:(lia)).
  destruct (Z.ltb_spec n 10); [by eexists _, _|].
  destruct fuel as [|fuel]; [by eexists _, _|]. apply IH; [apply Z.div_pos; lia | lia].
Qed.

Lemma to_string_value n : 0 <= n -> digits_value (to_string n) 0 = n.
Proof.
  intros Hn. unfold to_string. rewrite digits_value_decimal; [done | | lia].
  rewrite Nat2Z.inj_succ, Z2Nat.id by apply Z.log2_nonneg. split; [done|].
  destruct (Z.eq_dec n 0) as [->|]; [done|]. apply Z.log2_spec. lia.
Qed.

(** No white space and no sign in front. *)
Lemma to_string_plain n :
  0 <= n -> sign (skip_space (to_string n)) = (false, to_string n) /\ has_digits (to_string n) = true.
Proof.
  intros Hn. unfold to_string.
  destruct (head_decimal (S (Z.to_nat (Z.log2 n))) n [] Hn ltac:(lia)) as (d & rest & Hd & ->).
  cbn [skip_space has_digits]. unfold is_space. rewrite b2z_digit by done.
  rewrite (proj2 (Z.eqb_neq _ 32)), (proj2 (Z.leb_gt _ 13)), andb_false_r by lia.
  cbn [orb sign]. rewrite b2z_digit by done.
  rewrite (proj2 (Z.eqb_neq _ 45)), (proj2 (Z.eqb_neq _ 43)) by lia.
  split; [done | by apply is_digit_digit].
Qed.

Lemma stoull_to_string n : is_u64 n -> stoull (to_string n) = Done n.
Proof.
  intros Hn. unfold stoull. destruct (to_string_plain n) as [-> ->]; [width|]. cbn [negb].
  rewrite to_string_value by width. by rewrite (proj2 (Z.leb_gt _ _)) by width.
Qed.

(** [atoi] keeps the low bits of a number that fits a [long]. *)
Lemma atoi_to_string n : 0 <= n < 2 ^ 63 -> atoi (to_string n) = int_of_long n.
Proof.
  intros Hn. unfold atoi. destruct (to_string_plain n) as [-> _]; [lia|].
  rewrite to_string_value by lia. by rewrite Z.min_r by lia.
Qed.

Lemma u16_int_of_long v : u16 (int_of_long v) = u16 v.
Proof.
  unfold u16, int_of_long. rewrite Zminus_mod, (Z.mod_mod_divide _ _ (2 ^ 16)) by (by exists (2 ^ 16)).
  rewrite Zminus_mod_idemp_l, Zminus_mod_idemp_r. f_equal. lia.
Qed.

(** ** Rendering options *)

Definition render_main (o : MainArgs.t) : list (list byte) :=
  [str "--group"; MainArgs.group o; str "--port"; to_string (MainArgs.port o);
   str "--iface"; MainArgs.iface o; str "--replay"; MainArgs.replay_file o].

Definition render_gen (o : GenArgs.t) : list (list byte) :=
  [str "--count"; to_string (GenPcap.count o.2); str "--gap-at"; to_string (GenPcap.gap_at o.2);
   str "--gap-len"; to_string (GenPcap.gap_len o.2);
   str "--msgs-per-pkt"; to_string (GenPcap.msgs_per_pkt o.2);
   str "--dup-at"; to_string (GenPcap.dup_at o.2); str "--rate-us"; to_string (GenPcap.rate_us o.2); o.1].

Definition render_bench (o : BenchArgs.Options) : list (list byte) :=
  [str "--warmup"; to_string (BenchArgs.warmup o); str "--symbols"; to_string (BenchArgs.symbols o);
   str "--messages"; to_string (BenchArgs.messages o)].

(** Options as their C++ types hold them; the output is not mistaken for an option. *)
Definition gen_typed (o : GenArgs.t) : Prop :=
  is_u64 (GenPcap.count o.2) /\ is_u64 (GenPcap.gap_at o.2) /\ is_u64 (GenPcap.gap_len o.2) /\
  is_u16 (GenPcap.msgs_per_pkt o.2) /\ is_u64 (GenPcap.dup_at o.2) /\ is_u64 (GenPcap.rate_us o.2) /\
  head o.1 <> Some (z2b 45).

Definition bench_typed (o : BenchArgs.Options) : Prop :=
  is_u64 (BenchArgs.messages o) /\ is_u32 (BenchArgs.symbols o) /\ is_u64 (BenchArgs.warmup o).

Lemma scan_named {O} named plain a set v rest (o o' : O) :
  named a = Some set -> set v o = Done o' ->
  scan named plain (a :: v :: rest) o = scan named plain rest o'.
Proof. intros Hn Hs. cbn [scan]. by rewrite Hn, Hs. Qed.

Lemma gen_round_trip o : gen_typed o -> GenArgs.parse_args (render_gen o) = Done o.
Proof.
  destruct o as [out [c ga gl mp du ra]]. unfold gen_typed.
  cbn [fst snd GenPcap.count GenPcap.gap_at GenPcap.gap_len GenPcap.msgs_per_pkt GenPcap.dup_at GenPcap.rate_us].
  intros (H1 & H2 & H3 & H4 & H5 & H6 & Ho).
  unfold GenArgs.parse_args, render_gen. cbn [fst snd GenPcap.count GenPcap.gap_at GenPcap.gap_len
    GenPcap.msgs_per_pkt GenPcap.dup_at GenPcap.rate_us].
  do 6 (erewrite scan_named; [|reflexivity | cbv beta; rewrite stoull_to_string by width; reflexivity]).
  cbn [scan]. rewrite (u16_small mp) by done.
  assert (Hp : GenArgs.plain out (str "synthetic.pcap", GenPcap.mk_Options c ga gl mp du ra)
               = (out, GenPcap.mk_Options c ga gl mp du ra)).
  { unfold GenArgs.plain. by rewrite bool_decide_eq_false_2. }
  cbn [fst snd GenPcap.count GenPcap.gap_at GenPcap.gap_len GenPcap.msgs_per_pkt GenPcap.dup_at GenPcap.rate_us
    GenArgs.init GenPcap.Options_init] in *.
  destruct (GenArgs.named out); by rewrite Hp.
Qed.

Lemma bench_round_trip o : bench_typed o -> BenchArgs.parse_args (render_bench o) = Done o.
Proof.
  destruct o as [m s w]. intros (H1 & H2 & H3). cbn in H1, H2, H3.
  unfold BenchArgs.parse_args, render_bench. cbn [BenchArgs.messages BenchArgs.symbols BenchArgs.warmup].
  do 3 (erewrite scan_named; [|reflexivity | cbv beta; rewrite stoull_to_string by width; reflexivity]).
  cbn [scan BenchArgs.messages BenchArgs.symbols BenchArgs.warmup]. by rewrite (u32_small s).
Qed.

(** C27.  Options are read as they are written: rendering the options of any of the
    three programs as arguments and parsing them gives them back, whatever
    [std::to_string] made of the numbers; only the receiver's port, converted by
    [atoi], is silently taken modulo 65536. *)
Theorem options_round_trip (g : GenArgs.t) (b : BenchArgs.Options) (m : MainArgs.t) :
  gen_typed g -> bench_typed b -> 0 <= MainArgs.port m < 2 ^ 63 ->
  GenArgs.parse_args (render_gen g) = Done g /\
  BenchArgs.parse_args (render_bench b) = Done b /\
  MainArgs.parse (render_main m)
  = Done (MainArgs.mk (MainArgs.group m) (MainArgs.iface m) (MainArgs.replay_file m)
            (u16 (MainArgs.port m))).
Proof.
  intros Hg Hb Hp. split; [by apply gen_round_trip|]. split; [by apply bench_round_trip|].
  destruct m as [gr i r p]. cbn in Hp. unfold MainArgs.parse, render_main.
  cbn [MainArgs.group MainArgs.iface MainArgs.replay_file MainArgs.port].
  do 4 (erewrite scan_named; [|reflexivity | reflexivity]). cbn [scan].
  cbn [MainArgs.group MainArgs.iface MainArgs.replay_file MainArgs.port].
  by rewrite atoi_to_string, u16_int_of_long.
Qed.

(** Port 65537 is port 1. *)
Lemma options_round_trip_witness :
  let g := (str "day.pcap", GenPcap.mk_Options 5000 1000 (2 ^ 64 - 1) 12 0 250) in
  let b := BenchArgs.mk_Options 1000000 4 0 in
  let m := MainArgs.mk (str "239.7.7.7") (str "eth1") [] 65537 in
  GenArgs.parse_args (render_gen g) = Done g /\
  BenchArgs.parse_args (render_bench b) = Done b /\
  MainArgs.parse (render_main m) = Done (MainArgs.mk (str "239.7.7.7") (str "eth1") [] 1).
Proof.
  intros g b m. apply (options_round_trip g b m); [by vm_compute | by vm_compute | by vm_compute].
Defined.
