(* ===== verification/Timestamp.v ===== *)
(** * Timestamp: the SO_TIMESTAMPING validation tool

    Models [tools/timestamp_validate.cpp].  The kernel and the clock answer
    through the record [system]; text is reduced to the values printed.  An
    [int] counter that leaves its range is a fault. *)

From stdpp Require Import base gmap list strings fin_maps.
From Stdlib Require Import ZArith Lia.
From S2P Require Import Prelude WireFormat GapBuf Stats Decision Receiver CommandLine.

#[local] Open Scope Z_scope.

(** Bits of [ethtool_ts_info::so_timestamping]. *)
Class TimestampFlags := {
  SOF_TIMESTAMPING_TX_HARDWARE : Z;
  SOF_TIMESTAMPING_RX_HARDWARE : Z
}.

Module TimestampValidate.

Definition ts_to_ns (ts : timespec) : Z := timespec_ns ts.
(** The reading of [CLOCK_REALTIME] is given. *)
Definition realtime_ns (ts : timespec) : Z := ts_to_ns ts.

(** One pass of the loop as the system sees it: the clock before [sendto] and its
    result, what [recvmsg] answers, and the clock after it. *)
Record round := mk_round {
  clock_send : timespec; sent : Z; received : recvmsg_answer; clock_read : timespec
}.

Record system := mk_system {
  hw_socket : Z; hw_ioctl : Z; so_timestamping : Z;     (* the interface query *)
  socket_fd : Z; bind_result : Z; option_result : Z;    (* the measuring socket *)
  rounds : Z -> round
}.

Section Tool.
Context `{Platform} `{TimestampFlags} (sys : system).

Definition interface_reports_hw_timestamping : bool :=
  if hw_socket sys <? 0 then false else
  let ok := hw_ioctl sys =? 0 in
  if negb ok then false
  else negb (Z.land (so_timestamping sys) SOF_TIMESTAMPING_TX_HARDWARE =? 0) &&
       negb (Z.land (so_timestamping sys) SOF_TIMESTAMPING_RX_HARDWARE =? 0).

(** [++n] of an [int]. *)
Definition int_inc (n : Z) : res Z := if n <? 2 ^ 31 - 1 then mret (n + 1) else Fault SignedOverflow.

(** A timestamp the kernel filled in. *)
Definition filled (ts : timespec) : bool := negb (tv_sec ts =? 0) || negb (tv_nsec ts =? 0).

(** The walk over the control messages, from [t_kernel] and [hw_ts_seen]. *)
Fixpoint scan_control (control : list cmsghdr) (t_kernel hw_ts_seen : Z) : res (Z * Z) :=
  match control with
  | [] => mret (t_kernel, hw_ts_seen)
  | cm :: rest =>
      if (cmsg_level cm =? SOL_SOCKET) && (cmsg_type cm =? SO_TIMESTAMPING) then
        tss ← mem_read (cmsg_data cm) 0 48;
        let ts0 := MulticastReceiver.timespec_of (slice tss 0 16) in
        let ts2 := MulticastReceiver.timespec_of (slice tss 32 16) in
        let t_kernel := if filled ts0 then ts_to_ns ts0 else t_kernel in
        hw_ts_seen ← (if filled ts2 then int_inc hw_ts_seen else mret hw_ts_seen);
        scan_control rest t_kernel hw_ts_seen
      else scan_control rest t_kernel hw_ts_seen
  end.

(** The variables of the loop, and the calls [perror] named. *)
Record t := mk {
  send_to_kernel : SampleRecorder.t;
  kernel_to_read : SampleRecorder.t;
  missing_ts : Z;
  hw_ts_seen : Z;
  errors : list string
}.

Definition init : t := mk SampleRecorder.init SampleRecorder.init 0 0 [].

Definition perror (s : t) (what : string) : t :=
  mk (send_to_kernel s) (kernel_to_read s) (missing_ts s) (hw_ts_seen s) (errors s ++ [what]).

(** The body of the loop. *)
Definition one_round (s : t) (r : round) : res t :=
  let t_send := realtime_ns (clock_send r) in
  if sent r <? 0 then mret (perror s "sendto") else
  let t_read := realtime_ns (clock_read r) in
  match received r with
  | RecvFailed _ => mret (perror s "recvmsg")
  | Received _ control =>
      '(t_kernel, hw) ← scan_control control 0 (hw_ts_seen s);
      if t_kernel =? 0 then
        missing ← int_inc (missing_ts s);
        mret (mk (send_to_kernel s) (kernel_to_read s) missing hw (errors s))
      else
        mret (mk (if t_send <=? t_kernel
                  then SampleRecorder.record (send_to_kernel s) (u64 (t_kernel - t_send))
                  else send_to_kernel s)
                 (if t_kernel <=? t_read
                  then SampleRecorder.record (kernel_to_read s) (u64 (t_read - t_kernel))
                  else kernel_to_read s)
                 (missing_ts s) hw (errors s))
  end.

(** [n] passes from the [i]-th. *)
Fixpoint loop (n : nat) (i : Z) (s : t) : res t :=
  match n with
  | O => mret s
  | S n' => s ← one_round s (rounds sys i); loop n' (i + 1) s
  end.

(** What is printed after the loop. *)
Record report := mk_report {
  completed : Z; missing : Z; hw_populated : Z;
  send_summary : SampleRecorder.Summary; read_summary : SampleRecorder.Summary
}.

(** The exit code, the capability line, the errors, and the report of a run that
    gets that far. *)
Record exit := mk_exit {
  code : Z; lo_hw : bool; failures : list string; results : option report
}.

(** [vector<uint64_t>::max_size()] *)
Definition kMaxVector : Z := 2 ^ 60 - 1.

Definition fail (lo_hw : bool) (what : string) : outcome (res exit) :=
  Done (Ok (mk_exit 1 lo_hw [what] None)).

(** [main]: [size_t(count)] is reserved, which throws when it is too large. *)
Definition main (args : list (list byte)) : outcome (res exit) :=
  count ← TimestampArgs.parse args;
  let hw := interface_reports_hw_timestamping in
  if socket_fd sys <? 0 then fail hw "socket" else
  if bind_result sys <? 0 then fail hw "bind" else
  if option_result sys <? 0 then fail hw "SO_TIMESTAMPING" else
  if kMaxVector <? u64 count then Throws LengthError else
  mret (
    s ← loop (Z.to_nat count) 0 init;
    send ← SampleRecorder.print (send_to_kernel s);
    read ← SampleRecorder.print (kernel_to_read s);
    mret (mk_exit 0 hw (errors s)
            (Some (mk_report count (missing_ts s) (hw_ts_seen s) send read)))).

End Tool.
End TimestampValidate.
