(* ===== verification/TimestampProps.v ===== *)
(** * TimestampProps: what the timestamp tool reports

    The samples are exact differences of clock readings, never wrapped
    subtractions, and every round trip is accounted for once. *)

From stdpp Require Import base gmap list strings fin_maps.
From Stdlib Require Import ZArith Lia.
From S2P Require Import Prelude WireFormat GapBuf Stats StatsProps Decision Receiver CommandLine Timestamp.

#[local] Open Scope Z_scope.
Import TimestampValidate.

Section Props.
Context `{Platform}.

(** ** Control messages *)

Definition stamping (cm : cmsghdr) : bool :=
  (cmsg_level cm =? SOL_SOCKET) && (cmsg_type cm =? SO_TIMESTAMPING).
Definition software (cm : cmsghdr) : timespec := MulticastReceiver.timespec_of (slice (cmsg_data cm) 0 16).
Definition hardware (cm : cmsghdr) : timespec := MulticastReceiver.timespec_of (slice (cmsg_data cm) 32 16).

(** The kernel's timestamping message carries three timespecs. *)
Definition control_ok (control : list cmsghdr) : Prop :=
  Forall (fun cm => stamping cm = true -> 48 <= blen (cmsg_data cm)) control.

Definition software_stamps (control : list cmsghdr) : list Z :=
  omap (fun cm => if stamping cm && filled (software cm)
                  then Some (ts_to_ns (software cm)) else None) control.
Definition hardware_stamps (control : list cmsghdr) : Z :=
  blen (omap (fun cm => if stamping cm && filled (hardware cm) then Some cm else None) control).

(** The last software timestamp, 0 when there is none. *)
Definition kernel_stamp (control : list cmsghdr) : Z := default 0 (list.last (software_stamps control)).

Lemma slice_prefix (l : list byte) m a n :
  0 <= a -> 0 <= n -> a + n <= m -> slice (slice l 0 m) a n = slice l a n.
Proof. intros. unfold slice at 2. rewrite drop_0. by apply slice_take. Qed.

Lemma scan_control_spec control t hw :
  control_ok control -> 0 <= hw -> hw + hardware_stamps control < 2 ^ 31 ->
  scan_control control t hw
  = Ok (default t (list.last (software_stamps control)), hw + hardware_stamps control).
Proof.
  intros Hc. revert t hw. induction Hc as [|cm control Hcm _ IH]; intros t hw Hhw Hlt.
  { cbn. by rewrite Z.add_0_r. }
  cbn [scan_control]. unfold software_stamps, hardware_stamps in *. cbn [omap list_omap] in *.
  fold (stamping cm). destruct (stamping cm) eqn:Es; cbn [andb] in *; [|by apply IH].
  specialize (Hcm eq_refl). rewrite mem_read_Ok, bind_Ok, !slice_prefix by lia.
  fold (software cm) (hardware cm).
  assert (Hlast : forall l, default (if filled (software cm) then ts_to_ns (software cm) else t)
      (list.last l) = default t (list.last (match (if filled (software cm)
        then Some (ts_to_ns (software cm)) else None) with Some y => y :: l | None => l end))).
  { intros l. destruct (filled (software cm)); [|done]. rewrite last_cons. by destruct (list.last l). }
  rewrite <-Hlast. destruct (filled (hardware cm)).
  - cbn [length] in Hlt. unfold int_inc. rewrite (proj2 (Z.ltb_lt _ _)), bind_Ok by lia.
    rewrite IH by lia. f_equal. f_equal. cbn [length]. lia.
  - rewrite bind_Ok. by apply IH.
Qed.

(** With one timestamping message at most, the tool's [t_kernel] is the receive
    timestamp [extract_timestamp] gives the receiver. *)
Lemma kernel_stamp_is_receivers control :
  control_ok control -> blen (filter (fun cm => stamping cm = true) control) <= 1 ->
  MulticastReceiver.extract_timestamp control = Ok (kernel_stamp control).
Proof.
  intros Hc. unfold kernel_stamp, software_stamps.
  assert (Hnone : forall l, filter (fun cm => stamping cm = true) l = [] ->
    omap (fun cm => if stamping cm && filled (software cm)
                    then Some (ts_to_ns (software cm)) else None) l = [] /\
    (control_ok l -> MulticastReceiver.extract_timestamp l = Ok 0)).
  { induction l as [|cm l IH]; [done|]. rewrite filter_cons. case_decide as E; [done|]. intros Hl.
    apply not_true_is_false in E. cbn [omap list_omap MulticastReceiver.extract_timestamp].
    fold (stamping cm). rewrite E. destruct (IH Hl) as [I1 I2]. split; [done|].
    intros Hcl. apply I2. by apply (Forall_cons_1 _ _ _ Hcl). }
  induction Hc as [|cm control Hcm Hc IH]; [done|]. rewrite filter_cons.
  cbn [omap list_omap MulticastReceiver.extract_timestamp]. fold (stamping cm).
  case_decide as E; [|apply not_true_is_false in E; rewrite E; auto].
  intros Hl. cbn [length] in Hl. specialize (Hcm E).
  destruct (Hnone control) as [N1 N2]; [by apply nil_length_inv; lia|].
  rewrite E, N1, mem_read_Ok, bind_Ok by lia. cbn [andb].
  assert (Ht : MulticastReceiver.timespec_of (slice (cmsg_data cm) 0 48) = software cm).
  { unfold software, MulticastReceiver.timespec_of. by rewrite !slice_prefix by lia. }
  rewrite Ht. change (negb _ || negb _) with (filled (software cm)).
  destruct (filled (software cm)); [done|]. auto.
Qed.

(** ** Round trips *)

Inductive fate :=
| SendFailed
| ReceiveFailed
| Unstamped
| Stamped (t_send t_kernel t_read : Z).

Definition fate_of (r : round) : fate :=
  if sent r <? 0 then SendFailed else
  match received r with
  | RecvFailed _ => ReceiveFailed
  | Received _ control =>
      if kernel_stamp control =? 0 then Unstamped
      else Stamped (realtime_ns (clock_send r)) (kernel_stamp control) (realtime_ns (clock_read r))
  end.

Definition control_of (r : round) : list cmsghdr :=
  if sent r <? 0 then [] else
  match received r with RecvFailed _ => [] | Received _ control => control end.

Definition failure (r : round) : option string :=
  match fate_of r with SendFailed => Some "sendto" | ReceiveFailed => Some "recvmsg" | _ => None end.
Definition unstamped (r : round) : option unit :=
  match fate_of r with Unstamped => Some tt | _ => None end.
Definition stamped (r : round) : option (Z * Z * Z) :=
  match fate_of r with Stamped s k t => Some (s, k, t) | _ => None end.
(** Loopback transit and wake-up latency, of the rounds whose clocks are in order. *)
Definition transit (r : round) : option Z :=
  '(s, k, _) ← stamped r; if s <=? k then Some (k - s) else None.
Definition wake_up (r : round) : option Z :=
  '(_, k, t) ← stamped r; if k <=? t then Some (t - k) else None.

Definition hardware_seen (rs : list round) : Z := hardware_stamps (rs ≫= control_of).

Definition accounted (rs : list round) : t :=
  mk (omap transit rs) (omap wake_up rs) (blen (omap unstamped rs)) (hardware_seen rs)
     (omap failure rs).

Lemma hardware_seen_app rs rs' : hardware_seen (rs ++ rs') = hardware_seen rs + hardware_seen rs'.
Proof.
  unfold hardware_seen, hardware_stamps. rewrite bind_app, omap_app, length_app. lia.
Qed.

Lemma stamp_range control : is_u64 (kernel_stamp control).
Proof.
  unfold kernel_stamp, software_stamps. induction control as [|cm control IH]; [done|].
  cbn [omap list_omap]. destruct (_ && _); [|done]. rewrite last_cons.
  destruct (list.last _); [done|]. apply u64_range.
Qed.

Lemma round_step (rs : list round) (r : round) :
  control_ok (control_of r) -> hardware_seen (rs ++ [r]) < 2 ^ 31 -> blen rs < 2 ^ 31 - 1 ->
  one_round (accounted rs) r = Ok (accounted (rs ++ [r])).
Proof.
  intros Hc Hh Hlen. rewrite hardware_seen_app in Hh. unfold accounted.
  rewrite !omap_app, hardware_seen_app, length_app, Nat2Z.inj_add.
  unfold hardware_seen at 2 in Hh. unfold hardware_seen at 3. cbn [mbind list_bind] in *.
  rewrite app_nil_r in *.
  assert (H0 : 0 <= hardware_seen rs) by apply Nat2Z.is_nonneg.
  assert (Hm : blen (omap unstamped rs) <= blen rs).
  { clear. induction rs as [|r rs IH]; [done|]. cbn [omap list_omap length].
    destruct (unstamped r); cbn [length]; lia. }
  unfold one_round, transit, wake_up, stamped, unstamped, failure, control_of, fate_of in *.
  destruct (sent r <? 0) eqn:Es.
  { cbn -[Z.add]. rewrite Es. cbn -[Z.add]. rewrite !app_nil_r, !Z.add_0_r. done. }
  destruct (received r) as [e|data control] eqn:Er.
  { cbn -[Z.add]. rewrite Es, Er. cbn -[Z.add]. rewrite !app_nil_r, !Z.add_0_r. done. }
  cbn [hw_ts_seen]. rewrite scan_control_spec by done. rewrite bind_Ok. fold (kernel_stamp control).
  pose proof (stamp_range control) as Hk.
  cbn [omap list_omap]. rewrite Es, Er.
  destruct (kernel_stamp control =? 0).
  - unfold int_inc. cbn [missing_ts]. rewrite (proj2 (Z.ltb_lt _ _)), bind_Ok by lia.
    cbn -[Z.add]. by rewrite !app_nil_r.
  - cbn -[Z.add Z.leb]. rewrite !app_nil_r, Z.add_0_r.
    pose proof (u64_range (u64 (u64 (tv_sec (clock_send r)) * 1000000000) + u64 (tv_nsec (clock_send r)))) as Hs.
    pose proof (u64_range (u64 (u64 (tv_sec (clock_read r)) * 1000000000) + u64 (tv_nsec (clock_read r)))) as Ht.
    fold (timespec_ns (clock_send r)) in Hs. fold (timespec_ns (clock_read r)) in Ht.
    unfold realtime_ns, ts_to_ns, SampleRecorder.record.
    destruct (Z.leb_spec (timespec_ns (clock_send r)) (kernel_stamp control));
      destruct (Z.leb_spec (kernel_stamp control) (timespec_ns (clock_read r)));
      rewrite ?app_nil_r, ?u64_small by width; done.
Qed.

Lemma hardware_seen_prefix rs rs' : hardware_seen rs <= hardware_seen (rs ++ rs').
Proof.
  rewrite hardware_seen_app. assert (0 <= hardware_seen rs') by apply Nat2Z.is_nonneg. lia.
Qed.

Lemma loop_spec sys rs n i :
  Forall (fun r => control_ok (control_of r)) (map (rounds sys) (seqZ i (Z.of_nat n))) ->
  hardware_seen (rs ++ map (rounds sys) (seqZ i (Z.of_nat n))) < 2 ^ 31 ->
  blen rs + Z.of_nat n < 2 ^ 31 ->
  loop sys n i (accounted rs) = Ok (accounted (rs ++ map (rounds sys) (seqZ i (Z.of_nat n)))).
Proof.
  revert rs i. induction n as [|n IH]; intros rs i; [intros; cbn; by rewrite app_nil_r|].
  rewrite (seqZ_cons i) by lia. replace (Z.pred (Z.of_nat (S n))) with (Z.of_nat n) by lia.
  replace (Z.succ i) with (i + 1) by lia. cbn [map loop].
  rewrite (cons_middle _ rs), (app_assoc rs). intros [Hc1 Hc]%Forall_cons Hh Hlen.
  pose proof (hardware_seen_prefix (rs ++ [rounds sys i])
                (map (rounds sys) (seqZ (i + 1) (Z.of_nat n)))).
  rewrite round_step, bind_Ok by (done || lia). apply IH; [done | done|].
  rewrite length_app. cbn [length]. lia.
Qed.

Lemma length_omap_le {A B} (f : A -> option B) (l : list A) : (length (omap f l) <= length l)%nat.
Proof. induction l as [|x l IH]; cbn; [lia|]. destruct (f x); cbn; lia. Qed.

Lemma fates_add_up rs :
  blen (omap failure rs) + blen (omap unstamped rs) + blen (omap stamped rs) = blen rs.
Proof.
  induction rs as [|r rs IH]; [done|]. cbn [omap list_omap]. unfold failure at 1, unstamped at 1, stamped at 1.
  destruct (fate_of r); cbn [length]; lia.
Qed.

Context `{TimestampFlags}.

(** C28.  The timestamp tool reports exact intervals: once the socket is set up, with
    control messages of the kernel's shape and fewer than 2^31 hardware stamps,
    the run is free of faults, and its two recorders hold, for every round trip
    whose datagram came back with a software timestamp, the differences send to
    kernel and kernel to read, each left out when its clocks are out of order (so
    none is a wrapped subtraction), and the report has their summaries; each round is a failed call, a missing stamp
    or a stamped trip, and "round-trips completed" is the number asked for, also
    when calls failed. *)
Theorem timestamp_tool_exact (sys : system) (args : list (list byte)) (count : Z) :
  TimestampArgs.parse args = Done count -> 0 <= count < 2 ^ 31 ->
  0 <= socket_fd sys -> 0 <= bind_result sys -> 0 <= option_result sys ->
  let rs := map (rounds sys) (seqZ 0 count) in
  Forall (fun r => control_ok (control_of r)) rs -> hardware_seen rs < 2 ^ 31 ->
  exists send read,
    main sys args = Done (Ok (
      mk_exit 0 (interface_reports_hw_timestamping sys) (omap failure rs)
        (Some (mk_report count (blen (omap unstamped rs)) (hardware_seen rs) send read)))) /\
    Samples.summary_of (omap transit rs) send /\ Samples.summary_of (omap wake_up rs) read /\
    blen (omap failure rs) + blen (omap unstamped rs) + blen (omap stamped rs) = count.
Proof using All.
  intros Ha Hn Hs Hb Ho rs Hc Hh.
  assert (Hrs : blen rs = count) by (unfold rs; rewrite length_map, length_seqZ; lia).
  pose proof (length_omap_le transit rs). pose proof (length_omap_le wake_up rs).
  destruct (Samples.summarize_total (omap transit rs)) as (send & Es & Ss); [lia|].
  destruct (Samples.summarize_total (omap wake_up rs)) as (read & Er & Sr); [lia|].
  exists send, read. split; [|by rewrite fates_add_up].
  unfold main. rewrite Ha. cbn [mbind outcome_bind].
  rewrite !(proj2 (Z.ltb_ge _ _)) by (first [done | rewrite u64_small by width; unfold kMaxVector; lia]).
  change init with (accounted []). rewrite (loop_spec sys []); rewrite ?Z2Nat.id; try done; [|cbn [length]; lia..].
  rewrite bind_Ok. cbn [app accounted send_to_kernel kernel_to_read missing_ts hw_ts_seen errors].
  unfold SampleRecorder.print. fold rs. by rewrite Es, bind_Ok, Er, bind_Ok.
Qed.

End Props.

(** ** A run: a round trip, a send that fails, a datagram without a stamp *)

#[local] Instance test_platform : Platform :=
  {| SOL_SOCKET := 1; SO_TIMESTAMPING := 37; EAGAIN := 11; EWOULDBLOCK := 11; INADDR_ANY := 0 |}.
#[local] Instance test_flags : TimestampFlags :=
  {| SOF_TIMESTAMPING_TX_HARDWARE := 1; SOF_TIMESTAMPING_RX_HARDWARE := 4 |}.

Definition test_stamp (sec nsec : Z) : cmsghdr :=
  mk_cmsghdr 1 37 (store_le 8 sec ++ store_le 8 nsec ++ replicate 32 (z2b 0)).
Definition test_round (i : Z) : round :=
  match i with
  | 0 => mk_round (mk_timespec 7 100) 4 (Received (str "ping") [test_stamp 7 150]) (mk_timespec 7 190)
  | 1 => mk_round (mk_timespec 7 200) (-1) (RecvFailed 11) (mk_timespec 7 290)
  | 2 => mk_round (mk_timespec 7 300) 4 (Received (str "ping") []) (mk_timespec 7 390)
  | _ => mk_round (mk_timespec 7 400) 4 (Received (str "ping") [test_stamp 7 399]) (mk_timespec 7 500)
  end.
Definition test_system : system := mk_system 3 0 5 4 0 0 test_round.

Lemma timestamp_tool_exact_witness :
  (exists send read,
    main test_system [str "--count"; str "4"]
      = Done (Ok (mk_exit 0 true ["sendto"] (Some (mk_report 4 1 0 send read)))) /\
    Samples.summary_of [50] send /\ Samples.summary_of [40; 101] read /\ 1 + 1 + 2 = 4) /\
  TimestampArgs.parse [str "--count"; str "-1"] = Done (-1) /\
  main test_system [str "--count"; str "-1"] = Throws LengthError.
Proof.
  split; [|split; by vm_compute].
  refine (timestamp_tool_exact test_system [str "--count"; str "4"] 4 _ _ _ _ _ _ _).
  1-5: by vm_compute.
  - repeat (apply Forall_cons; split); [.. | by apply Forall_nil];
      repeat (apply Forall_cons; split); first [by apply Forall_nil | by intros _; vm_compute].
  - by vm_compute.
Defined.
