(* ===== verification/Benchmark.v ===== *)
(** * Benchmark: the tick-to-trade benchmark

    Models [main] of [tools/tick_to_trade_bench.cpp]: the synthetic load, the
    measured loop and the report.  The random engine and the distributions are a
    parameter, [Rng], whose laws are their documented ranges; the readings of
    the clock are functions of the message and of the top-of-book change. *)

From stdpp Require Import base gmap list strings fin_maps.
From Stdlib Require Import ZArith Lia.
From S2P Require Import Prelude WireFormat GapBuf GapRun Book Stats Decision Pipeline Tools CommandLine.

#[local] Open Scope Z_scope.

(** [std::mt19937_64] and [std::uniform_int_distribution]. *)
Class Rng (G : Type) := {
  uniform : Z -> Z -> G -> Z * G;
  bits64 : G -> Z * G
}.

Class RngLaws (G : Type) `{Rng G} := {
  uniform_range a b g : a <= b -> a <= (uniform a b g).1 <= b;
  bits64_range g : is_u64 (bits64 g).1
}.

Module Benchmark.
Import BenchArgs.

(** ["T2TBENCH  "] *)
Definition session : list byte := str "T2TBENCH  ".

(** ["SYM" + std::to_string(i)] *)
Definition name (i : Z) : list byte := str "SYM" ++ to_string i.
Definition all_symbols (opt : Options) : list (list byte) :=
  Bench.pad_symbol ∘ name <$> seqZ 0 (symbols opt).

(** [v[i]] *)
Definition at_index {A} (v : list A) (i : Z) : res A :=
  match v !! Z.to_nat i with Some x => mret x | None => Fault OutOfBounds end.

(** The generator of the load. *)
Record load (G : Type) := mk_load { rng : G; live_orders : list Z; next_order_ref : Z }.
Arguments mk_load {G} _ _ _.
Arguments rng {G} _.
Arguments live_orders {G} _.
Arguments next_order_ref {G} _.

Definition kSellSide : byte := z2b 83.

Definition mid_of (sym_idx : Z) : Z := u32 (1000000 + u32 (sym_idx * 50000)).
Definition price_of (side : byte) (mid jitter : Z) : Z :=
  let half_spread := u32 (u32 (150 + jitter) * 100) in
  if decide (side = kBuy) then u32 (mid - half_spread) else u32 (mid + half_spread).

(** The readings of the clock: before and after the [i]-th message, and at the [n]-th
    top-of-book change. *)
Record clocks := mk_clocks { before : Z -> timespec; after : Z -> timespec; deciding : Z -> timespec }.

Section Loop.
Context {G : Type} `{Rng G} (opt : Options) (clk : clocks).

(** The body of the next message. *)
Definition make_body (s : load G) : res (load G * list byte) :=
  let '(sym_idx, g) := uniform 0 (u32 (symbols opt - 1)) (rng s) in
  sym ← at_index (all_symbols opt) sym_idx;
  let '(op, g) := uniform 0 9 g in
  let mid := mid_of sym_idx in
  if (op <=? 5) || bool_decide (live_orders s = []) then
    let side := if Z.even op then kBuy else kSellSide in
    let '(jitter, g) := uniform 0 50 g in
    body ← Bench.make_add (next_order_ref s) side 100 sym (price_of side mid jitter);
    mret (mk_load g (live_orders s ++ [next_order_ref s]) (u64 (next_order_ref s + 1)), body)
  else if op <=? 7 then
    let '(r, g) := bits64 g in
    ref ← at_index (live_orders s) (r mod blen (live_orders s));
    body ← Bench.make_cancel ref 30;
    mret (mk_load g (live_orders s) (next_order_ref s), body)
  else
    let '(r, g) := bits64 g in
    let idx := r mod blen (live_orders s) in
    ref ← at_index (live_orders s) idx;
    body ← Bench.make_delete ref;
    mret (mk_load g (delete (Z.to_nat idx) (live_orders s)) (next_order_ref s), body).

Record t := mk {
  pipeline : Pipeline.t;
  generator : load G;
  seq : Z;
  per_msg : SampleRecorder.t;
  per_decision : SampleRecorder.t
}.

(** The objects of [main] before the loop; [rng0] is the seeded engine. *)
Definition start (rng0 : G) : t :=
  mk (Pipeline.create (GapBuffer.mk_Config (GapBuffer.gap_timeout_ns GapBuffer.Config_init)
        (GapBuffer.retry_interval_ns GapBuffer.Config_init)
        (GapBuffer.max_retransmit_count GapBuffer.Config_init) session) DecisionEngine.Config_init)
     (mk_load rng0 [] 1) 1 SampleRecorder.init SampleRecorder.init.

(** The callback [on_decision] while [recording] is set. *)
Definition record_decisions (r : SampleRecorder.t) (ds : list Decision) : SampleRecorder.t :=
  fold_left (fun r d => SampleRecorder.record r (u64 (decided_ns d - d_recv_ns d))) ds r.

(** The [i]-th iteration. *)
Definition iteration (i : Z) (s : t) : res t :=
  let warming := i <? warmup opt in
  '(gen, body) ← make_body (generator s);
  pkt ← Bench.mold_packet session (seq s) body;
  let t0 := DecisionEngine.monotonic_ns (before clk i) in
  '(p, ds) ← Pipeline.step (deciding clk) (pipeline s) (Datagram pkt (blen pkt) t0);
  let t1 := DecisionEngine.monotonic_ns (after clk i) in
  mret (mk p gen (u64 (seq s + 1))
          (if warming then per_msg s else SampleRecorder.record (per_msg s) (u64 (t1 - t0)))
          (if warming then per_decision s else record_decisions (per_decision s) ds)).

(** [n] iterations from the [i]-th. *)
Fixpoint iterations (n : nat) (i : Z) (s : t) : res t :=
  match n with
  | O => mret s
  | S n' => s ← iteration i s; iterations n' (i + 1) s
  end.

Definition total : Z := u64 (warmup opt + messages opt).

Definition measure (rng0 : G) : res t := iterations (Z.to_nat total) 0 (start rng0).

(** The numbers of the report. *)
Record report := mk_report {
  r_messages : Z; r_warmup : Z; r_symbols : Z; symbols_in_book : Z; top_events : Z; decisions : Z;
  msg_summary : SampleRecorder.Summary; decision_summary : SampleRecorder.Summary
}.

(** [vector<uint64_t>::max_size()] *)
Definition kMaxVector : Z := 2 ^ 60 - 1.

(** [main] after the arguments: reserving more than a vector can hold throws. *)
Definition main (rng0 : G) : outcome (res report) :=
  if kMaxVector <? messages opt then Throws LengthError else
  mret (
    s ← measure rng0;
    msg ← SampleRecorder.summarize (per_msg s);
    dec ← SampleRecorder.summarize (per_decision s);
    mret (mk_report (messages opt) (warmup opt) (symbols opt)
            (MultiSymbolBook.symbol_count (Pipeline.book (pipeline s)))
            (DecisionEngine.top_changes_seen (Pipeline.engine (pipeline s)))
            (DecisionEngine.decisions_emitted (Pipeline.engine (pipeline s))) msg dec)).

End Loop.

Arguments t G : clear implicits.

(** The whole program. *)
Definition program {G : Type} `{Rng G} (clk : clocks) (rng0 : G) (args : list (list byte))
    : outcome (res report) :=
  opt ← parse_args args; main opt clk rng0.

End Benchmark.
