(* ===== verification/BenchProps.v ===== *)
(** * BenchProps: what the benchmark measures

    Every synthetic message is delivered by its own [ingest] call, the books stay
    uncrossed with a wide spread, and so every two-sided change of a top is
    answered by exactly one recorded decision. *)

From stdpp Require Import base gmap list strings fin_maps.
From Stdlib Require Import ZArith Lia.
From S2P Require Import Prelude WireFormat WireLemmas GapBuf GapWalk Framing.
From S2P Require Import GapInv GapStep GapRun GapProps.
From S2P Require Import Book BookInv BookProps BookTop BookNotify SymbolBook SymbolProps.
From S2P Require Import Stats StatsProps Decision Pipeline PipelineProps Tools ToolsProps.
From S2P Require Import CommandLine CommandProps Benchmark.

#[local] Open Scope Z_scope.
Import Pipeline.

(** ** The gap buffer on a perfect feed *)

(** A buffer that has taken packets 1 to [k], one message each, and nothing else. *)
Record perfect (k : Z) (g : GapBuffer.t) : Prop := {
  pf_next : GapBuffer.next_expected_ g = if k =? 0 then 0 else k + 1;
  pf_synced : GapBuffer.session_synced_ g = negb (k =? 0);
  pf_gap : GapBuffer.gap_start_ g = 0;
  pf_empty : forall s, BufferedPacket.occupied (GapBuffer.slot g s) = false;
  pf_on : GapBuffer.on_message_ g = true;
  pf_delivered : GapBuffer.stat_delivered_ g = k;
  pf_faultless : GapBuffer.stat_gaps_ g = 0 /\ GapBuffer.stat_duplicates_ g = 0 /\
    GapBuffer.stat_buffer_overflows_ g = 0 /\ GapBuffer.stat_retx_ g = 0
}.

Lemma slot_create c on s :
  BufferedPacket.occupied (GapBuffer.slot (GapBuffer.set_on_message (GapBuffer.create c) on) s) = false.
Proof.
  unfold GapBuffer.slot. cbn [GapBuffer.slots_ GapBuffer.set_on_message GapBuffer.create].
  destruct (replicate _ _ !! _) as [p|] eqn:E; [|done].
  by apply lookup_replicate in E as [-> _].
Qed.

Lemma create_perfect c : perfect 0 (GapBuffer.set_on_message (GapBuffer.create c) true).
Proof. split; try done. intros s. apply slot_create. Qed.

(** The one message of a one-message packet. *)
Lemma single_walk session seq body :
  length session = 10%nat -> is_u64 seq -> blen body < 2 ^ 16 ->
  let p := packet_wire session seq [body] in
  exists l b, walk 1 p kMoldHeaderSize (blen p) = [(l, b)] /\ content (l, b) = body /\ 0 <= l <= blen b.
Proof.
  intros Hs Hq Hb p.
  assert (Hm : packet_messages p (blen p) = [body])
    by (apply packet_messages_wire; [done | done | done | by apply Forall_singleton]).
  unfold packet_messages, p in Hm. rewrite header_packet_wire in Hm by done. fold p in Hm.
  unfold bodies in Hm. change (Z.to_nat _) with 1%nat in Hm.
  destruct (walk 1 p kMoldHeaderSize (blen p)) as [|[l b] [|]] eqn:E; try done.
  exists l, b. split; [done|]. split; [by injection Hm|].
  destruct (walk_in_bounds 1 p kMoldHeaderSize (blen p) l b) as [Hl Hlb]; [done | lia | |width].
  rewrite E. apply list_elem_of_here.
Qed.

Lemma flush_buffer_empty g :
  (forall s, BufferedPacket.occupied (GapBuffer.slot g s) = false) ->
  GapBuffer.flush_buffer g = Ok (g, [], 0).
Proof.
  intros He. unfold GapBuffer.flush_buffer. generalize (Z.to_nat GapBuffer.kCapacity). intros n.
  cbn [GapBuffer.flush_loop]. by rewrite He.
Qed.

Lemma ingest_perfect k g session body t :
  perfect k g -> 0 <= k < 2 ^ 64 - 2 -> length session = 10%nat -> blen body < 2 ^ 16 ->
  let p := packet_wire session (k + 1) [body] in
  exists g' m,
    GapBuffer.ingest g p (blen p) t = Ok (g', [OnMessage m], 1) /\ perfect (k + 1) g' /\
    readable m /\ msg_content m = body /\ MoldMessage.recv_ns m = t.
Proof.
  intros [Hn Hy Hg He Ho Hd (F1 & F2 & F3 & F4)] Hk Hs Hb p.
  destruct (single_walk session (k + 1) body Hs) as (l & b & Hw & Hc & Hl); [width | done|]. fold p in Hw.
  assert (Hlen : kMoldHeaderSize <= blen p)
    by (unfold p; rewrite length_packet_wire by done; lia).
  rewrite ingest_long by lia. unfold p at 1 2. rewrite header_packet_wire by (done || width). fold p.
  set (hdr := packet_hdr session (k + 1) [body]).
  assert (Hsy : exists g1, GapBuffer.sync_session g hdr = g1 /\ GapBuffer.next_expected_ g1 = k + 1 /\
    GapBuffer.session_synced_ g1 = true /\ GapBuffer.gap_start_ g1 = 0 /\
    GapBuffer.slots_ g1 = GapBuffer.slots_ g /\ GapBuffer.on_message_ g1 = true /\
    GapBuffer.stat_delivered_ g1 = k /\ GapBuffer.stat_gaps_ g1 = 0 /\
    GapBuffer.stat_duplicates_ g1 = 0 /\ GapBuffer.stat_buffer_overflows_ g1 = 0 /\
    GapBuffer.stat_retx_ g1 = 0).
  { unfold GapBuffer.sync_session. destruct (Z.eqb_spec k 0) as [->|Hne]; rewrite Hn, Hy.
    - cbn [Z.eqb negb andb]. eexists. split; [reflexivity|]. done.
    - rewrite (proj2 (Z.eqb_neq (k + 1) 0)) by lia. cbn [andb]. exists g. by rewrite Hn, Hy. }
  destruct Hsy as (g1 & -> & N1 & Y1 & G1 & S1 & O1 & D1 & A1 & A2 & A3 & A4).
  unfold ingest_synced. change (MoldHeader.is_heartbeat hdr) with false.
  change (MoldHeader.seq_num hdr) with (k + 1). change (MoldHeader.msg_count hdr) with 1. cbv zeta.
  cbn [GapBuffer.next_expected_ GapBuffer.add_messages GapBuffer.inc_packets]. rewrite N1.
  rewrite u64_small by width. rewrite (proj2 (Z.ltb_ge _ _)), Z.ltb_irrefl by lia.
  set (g2 := GapBuffer.add_messages _ 1).
  rewrite deliver_packet_eq by (cbn; first [lia | width]).
  change (Z.to_nat (MoldHeader.msg_count hdr)) with 1%nat. change (MoldHeader.seq_num hdr) with (k + 1).
  rewrite Hw. change (GapBuffer.next_expected_ g2) with (GapBuffer.next_expected_ g1). rewrite N1.
  cbn [number length]. unfold fresh. rewrite filter_cons_True by (cbn; lia). rewrite filter_nil.
  rewrite bind_Ok. cbn [length Nat.iter nat_rect]. rewrite Z.max_r by lia.
  set (g3 := GapBuffer.set_next_expected _ _).
  assert (Hslot : forall s, GapBuffer.slot g3 s = GapBuffer.slot g s)
    by (intros s; unfold GapBuffer.slot; change (GapBuffer.slots_ g3) with (GapBuffer.slots_ g1); by rewrite S1).
  rewrite flush_buffer_empty, bind_Ok by (intros s; by rewrite Hslot).
  assert (clear_gap g3 = g3) as ->.
  { unfold clear_gap. change (GapBuffer.gap_start_ g3) with (GapBuffer.gap_start_ g1). by rewrite G1. }
  exists g3, (MoldMessage.mk l b (k + 1) t). split.
  { unfold emit. change (GapBuffer.on_message_ g2) with (GapBuffer.on_message_ g1). rewrite O1. done. }
  split; [|done]. split; try done.
  - cbn. by rewrite (proj2 (Z.eqb_neq (k + 1) 0)) by lia.
  - change (GapBuffer.session_synced_ g3) with (GapBuffer.session_synced_ g1). rewrite Y1.
    by rewrite (proj2 (Z.eqb_neq (k + 1) 0)) by lia.
  - intros s. by rewrite Hslot.
  - change (GapBuffer.stat_delivered_ g3) with (inc (GapBuffer.stat_delivered_ g1)). rewrite D1.
    unfold inc. rewrite u64_small; [done | width].
Qed.

(** ** The symbols *)

(** The number of symbols whose names fit the stock field and whose prices fit 32
    bits with room. *)
Definition kMaxSymbols : Z := 80000.

Lemma decimal_digits fuel n acc :
  Forall (fun c => is_digit c = true) acc -> Forall (fun c => is_digit c = true) (decimal fuel n acc).
Proof.
  revert n acc. induction fuel as [|fuel IH]; intros n acc Ha; [done|]. cbn [decimal].
  pose proof (Z.mod_pos_bound n 10 ltac:(lia)).
  assert (Hc : Forall (fun c => is_digit c = true) (digit (n mod 10) :: acc))
    by (constructor; [by apply is_digit_digit | done]).
  destruct (_ <? _); [done | by apply IH].
Qed.

Lemma decimal_length fuel n acc (d : nat) :
  n < 10 ^ Z.of_nat d -> (0 < d)%nat -> (length (decimal fuel n acc) <= length acc + d)%nat.
Proof.
  revert n acc d. induction fuel as [|fuel IH]; intros n acc d Hn Hd; [cbn; lia|]. cbn [decimal].
  destruct (Z.ltb_spec n 10); [cbn; lia|].
  destruct d as [|[|d]]; [lia | cbn in Hn; lia|].
  rewrite Nat2Z.inj_succ, Z.pow_succ_r in Hn by lia.
  specialize (IH (n / 10) (digit (n mod 10) :: acc) (S d)). cbn [length] in IH.
  etransitivity; [apply IH; [apply Z.div_lt_upper_bound; lia | lia] | lia].
Qed.

Lemma name_inj i j : 0 <= i -> 0 <= j -> Benchmark.name i = Benchmark.name j -> i = j.
Proof.
  unfold Benchmark.name. intros Hi Hj E. apply app_inv_head in E.
  rewrite <-(to_string_value i), <-(to_string_value j) by done. by rewrite E.
Qed.

Lemma to_string_facts i :
  0 <= i < kMaxSymbols ->
  Forall (fun c => is_digit c = true) (to_string i) /\ (length (to_string i) <= 5)%nat /\ to_string i <> [].
Proof.
  unfold kMaxSymbols. intros Hi. split; [by apply decimal_digits | split].
  - by apply (decimal_length _ i [] 5); [lia | lia].
  - destruct (to_string_plain i) as [_ H]; [lia|]. by destruct (to_string i).
Qed.

Lemma length_pad_symbol s : (length s <= 8)%nat -> length (Bench.pad_symbol s) = 8%nat.
Proof. intros. unfold Bench.pad_symbol. rewrite length_app, length_replicate. lia. Qed.

(** The stock field of a symbol, and the book it is filed under. *)
Lemma name_key i :
  0 <= i < kMaxSymbols ->
  length (Bench.pad_symbol (Benchmark.name i)) = 8%nat /\
  symbol_key (Bench.pad_symbol (Benchmark.name i) ++ [Corelib.Init.Byte.x00]) = Benchmark.name i.
Proof.
  intros Hi. destruct (to_string_facts i Hi) as (Hd & Hl & Hne).
  assert (Hlen : (length (Benchmark.name i) <= 8)%nat)
    by (unfold Benchmark.name; rewrite length_app; change (length (str "SYM")) with 3%nat; lia).
  split; [by apply length_pad_symbol|].
  change (Bench.pad_symbol ?n) with (padded n). apply symbol_key_padded; [done | |].
  - unfold Benchmark.name. rewrite elem_of_app. intros [H|H].
    + by repeat (apply elem_of_cons in H as [H|H]; [discriminate H|]); apply elem_of_nil in H.
    + rewrite Forall_forall in Hd. by apply Hd in H.
  - unfold Benchmark.name. rewrite last_app.
    destruct (list.last (to_string i)) as [c|] eqn:E; [|by apply last_None in E].
    intros [= ->]. apply last_Some_elem_of in E. rewrite Forall_forall in Hd. by apply Hd in E.
Qed.

Lemma symbol_at opt idx :
  0 <= idx < BenchArgs.symbols opt ->
  Benchmark.at_index (Benchmark.all_symbols opt) idx
  = Ok (Bench.pad_symbol (Benchmark.name idx)).
Proof.
  intros Hi. unfold Benchmark.at_index, Benchmark.all_symbols.
  rewrite list_lookup_fmap, (proj2 (lookup_seqZ 0 _ (Z.to_nat idx) idx)) by lia. done.
Qed.

(** ** The prices *)

(** Bids 150 to 200 ticks below the mid price of the symbol, asks as far above. *)
Definition in_band (idx : Z) (buy : bool) (pr : Z) : Prop :=
  let mid := 1000000 + idx * 50000 in
  if buy then mid - 20000 <= pr <= mid - 15000 else mid + 15000 <= pr <= mid + 20000.

Lemma price_in_band idx side j :
  0 <= idx < kMaxSymbols -> 0 <= j <= 50 ->
  let pr := Benchmark.price_of side (Benchmark.mid_of idx) j in
  in_band idx (bool_decide (side = kBuy)) pr /\ is_u32 pr /\
  pr = (if decide (side = kBuy) then 1000000 + idx * 50000 - (150 + j) * 100
        else 1000000 + idx * 50000 + (150 + j) * 100).
Proof.
  unfold kMaxSymbols. intros Hi Hj. unfold Benchmark.price_of, Benchmark.mid_of, in_band. cbv zeta.
  rewrite (u32_small (150 + j)), (u32_small ((150 + j) * 100)), (u32_small (idx * 50000)) by width.
  rewrite (u32_small (1000000 + _)) by width.
  destruct (decide (side = kBuy)) as [E|E].
  - rewrite bool_decide_eq_true_2 by done. rewrite u32_small by width. split; [lia|]. split; [width | done].
  - rewrite bool_decide_eq_false_2 by done. rewrite u32_small by width. split; [lia|]. split; [width | done].
Qed.

(** ** The bodies *)

Lemma decoded_add ref side stk pr :
  is_u64 ref -> is_u32 pr -> length stk = 8%nat ->
  decoded (plain (add_wire ref side 100 stk pr)) =
  Some (MAdd (ItchAddOrder.mk 0 0 0 ref 100 pr (stk ++ [Corelib.Init.Byte.x00]) side false)).
Proof.
  intros Hr Hp Hs.
  assert (Hl : blen (add_wire ref side 100 stk pr) = 36)
    by (unfold add_wire, itch_add_wire, itch_prefix; rewrite !length_app, !length_be_bytes, Hs; done).
  unfold decoded, plain. cbn [MoldMessage.body MoldMessage.length]. rewrite Hl. cbn [Z.eqb].
  change (itch_of_code _) with AddOrderNoMpid. cbn iota.
  rewrite <-(app_nil_r (add_wire _ _ _ _ _)). unfold add_wire.
  rewrite itch_add_decode; try done. by left.
Qed.

Lemma decoded_cancel ref :
  is_u64 ref ->
  decoded (plain (itch_cancel_wire 0 0 0 ref 30)) = Some (MCancel (ItchOrderCancel.mk 0 0 ref 30)).
Proof.
  intros Hr. assert (Hl : blen (itch_cancel_wire 0 0 0 ref 30) = 23)
    by (unfold itch_cancel_wire, itch_prefix; by rewrite !length_app, !length_be_bytes).
  unfold decoded, plain. cbn [MoldMessage.body MoldMessage.length]. rewrite Hl. cbn [Z.eqb].
  change (itch_of_code _) with OrderCancel. cbn iota.
  rewrite <-(app_nil_r (itch_cancel_wire _ _ _ _ _)). by rewrite itch_cancel_decode.
Qed.

Lemma decoded_delete ref :
  is_u64 ref ->
  decoded (plain (itch_delete_wire 0 0 0 ref)) = Some (MDelete (ItchDeleteOrder.mk 0 0 ref)).
Proof.
  intros Hr. assert (Hl : blen (itch_delete_wire 0 0 0 ref) = 19)
    by (unfold itch_delete_wire, itch_prefix; by rewrite !length_app, !length_be_bytes).
  unfold decoded, plain. cbn [MoldMessage.body MoldMessage.length]. rewrite Hl. cbn [Z.eqb].
  change (itch_of_code _) with OrderDelete. cbn iota.
  rewrite <-(app_nil_r (itch_delete_wire _ _ _ _)). by rewrite itch_delete_decode.
Qed.

(** ** The load, as orders

    What the generator means by its bytes: the same draws of the engine, with the
    messages as records and the prices as integers. *)

Section Orders.
Context {G : Type} `{Rng G} (opt : BenchArgs.Options).

(** 100 shares of a symbol. *)
Definition add_order (ref : Z) (side : byte) (sym : list byte) (price : Z) : book_msg :=
  MAdd (ItchAddOrder.mk 0 0 0 ref 100 price (Bench.pad_symbol sym ++ [Corelib.Init.Byte.x00]) side false).

(** Six operations in ten (and the first) place an order 150 to 200 ticks from the mid
    price of a symbol, buys below it and sells above; two cancel 30 shares of a live
    order, two delete one. *)
Definition next_message (s : Benchmark.load G) : Benchmark.load G * book_msg :=
  let live := Benchmark.live_orders s in
  let ref := Benchmark.next_order_ref s in
  let '(i, g) := uniform 0 (BenchArgs.symbols opt - 1) (Benchmark.rng s) in
  let '(op, g) := uniform 0 9 g in
  if (op <=? 5) || bool_decide (live = []) then
    let '(jitter, g) := uniform 0 50 g in
    let mid := 1000000 + i * 50000 in
    let half_spread := (150 + jitter) * 100 in
    (Benchmark.mk_load g (live ++ [ref]) (ref + 1),
     if Z.even op then add_order ref kBuy (Benchmark.name i) (mid - half_spread)
     else add_order ref Benchmark.kSellSide (Benchmark.name i) (mid + half_spread))
  else
    let '(r, g) := bits64 g in
    let pick := Z.to_nat (r mod blen live) in
    let target := default 0 (live !! pick) in
    if op <=? 7 then (Benchmark.mk_load g live ref, MCancel (ItchOrderCancel.mk 0 0 target 30))
    else (Benchmark.mk_load g (delete pick live) ref, MDelete (ItchDeleteOrder.mk 0 0 target)).

(** The next [n] messages. *)
Fixpoint load_run (n : nat) (s : Benchmark.load G) : Benchmark.load G * list book_msg :=
  match n with
  | O => (s, [])
  | S n' =>
      let '(s1, msg) := next_message s in
      let '(s2, msgs) := load_run n' s1 in
      (s2, msg :: msgs)
  end.

Lemma load_run_add a b s :
  load_run (a + b) s =
  let '(s1, m1) := load_run a s in let '(s2, m2) := load_run b s1 in (s2, m1 ++ m2).
Proof.
  revert s. induction a as [|a IH]; intros s; cbn [Nat.add load_run]; [by destruct (load_run b s)|].
  destruct (next_message s) as [s1 msg]. rewrite IH. destruct (load_run a s1) as [s2 m1].
  by destruct (load_run b s2).
Qed.

End Orders.

(** ** The generator's orders *)

Section Load.
Context {G : Type} `{RngLaws G} (opt : BenchArgs.Options).
Context (Hsym : 1 <= BenchArgs.symbols opt <= kMaxSymbols).

(** Every resting order [f] has is one the generator still lists, files under one of
    its symbols and lies in the band of that symbol. *)
Record load_ok (k : Z) (s : Benchmark.load G) (f : flat) : Prop := {
  lo_next : 1 <= Benchmark.next_order_ref s <= k + 1;
  lo_live : Forall (fun r => 1 <= r < Benchmark.next_order_ref s) (Benchmark.live_orders s);
  lo_known : forall ref, is_Some (f !! ref) -> ref ∈ Benchmark.live_orders s;
  lo_size : Z.of_nat (size f) <= k;
  lo_band : forall ref sym o, f !! ref = Some (sym, o) ->
    exists idx, 0 <= idx < BenchArgs.symbols opt /\ sym = Benchmark.name idx /\
      in_band idx (is_buy o) (price o)
}.

Lemma load_ok_fewer k s f s' f' :
  load_ok k s f -> Benchmark.next_order_ref s' = Benchmark.next_order_ref s ->
  (forall r, r ∈ Benchmark.live_orders s' -> r ∈ Benchmark.live_orders s) ->
  (forall ref, is_Some (f' !! ref) -> ref ∈ Benchmark.live_orders s') ->
  (size f' <= size f)%nat ->
  (forall ref sym o, f' !! ref = Some (sym, o) ->
     exists o', f !! ref = Some (sym, o') /\ side o = side o' /\ price o = price o') ->
  load_ok (k + 1) s' f'.
Proof.
  intros [H1 H2 H3 H4 H5] En Hl Hk Hsz Hf. split.
  - lia.
  - rewrite En. rewrite Forall_forall in H2 |- *. auto.
  - done.
  - lia.
  - intros ref sym o Ho. destruct (Hf ref sym o Ho) as (o' & Ho' & E1 & E2).
    destruct (H5 ref sym o' Ho') as (idx & ? & ? & Hb). exists idx.
    unfold is_buy in *. by rewrite E1, E2.
Qed.

Lemma load_reduce k s f g ref n :
  load_ok k s f ->
  load_ok (k + 1) (Benchmark.mk_load g (Benchmark.live_orders s) (Benchmark.next_order_ref s))
          (flat_reduce f ref n).
Proof.
  intros Hl. unfold flat_reduce. destruct (f !! ref) as [[sym o]|] eqn:Hf.
  2:{ eapply load_ok_fewer; [exact Hl | done | done | apply Hl | lia | eauto]. }
  destruct (_ <=? _).
  - eapply load_ok_fewer; [exact Hl | done | done | | |].
    + intros r [x Hx]. apply lookup_delete_Some in Hx as [_ Hx]. apply (lo_known _ _ _ Hl). eauto.
    + rewrite map_size_delete. destruct (f !! ref); cbn; lia.
    + intros r sym' o' [_ Ho]%lookup_delete_Some. eauto.
  - eapply load_ok_fewer; [exact Hl | done | done | | |].
    + intros r Hx. apply (lo_known _ _ _ Hl). destruct (decide (ref = r)) as [<-|Hne]; [eauto|].
      by rewrite lookup_insert_ne in Hx.
    + rewrite map_size_insert, Hf. done.
    + intros r sym' o' Ho. apply lookup_insert_Some in Ho as [[<- [= <- <-]]|[Hne Ho]]; eauto.
Qed.

Lemma elem_of_delete_ne {A} (l : list A) i x y :
  l !! i = Some x -> y ∈ l -> y <> x -> y ∈ delete i l.
Proof.
  intros Hi Hy Hne. apply list_elem_of_lookup in Hy as [j Hj].
  rewrite delete_take_drop. apply elem_of_app. destruct (decide (j < i)%nat).
  - left. apply list_elem_of_lookup. exists j. by rewrite lookup_take_lt.
  - right. assert (j <> i) by (intros ->; congruence). apply list_elem_of_lookup.
    exists (j - S i)%nat. rewrite lookup_drop. by replace (S i + (j - S i))%nat with j by lia.
Qed.

Lemma elem_of_delete {A} (l : list A) i y : y ∈ delete i l -> y ∈ l.
Proof.
  rewrite delete_take_drop, elem_of_app. intros [Hy|Hy]; apply list_elem_of_lookup in Hy as [j Hj].
  - apply lookup_take_Some in Hj as [Hj _]. by eapply list_elem_of_lookup_2.
  - rewrite lookup_drop in Hj. by eapply list_elem_of_lookup_2.
Qed.

Lemma live_pick (l : list Z) r :
  l <> [] -> exists ref, Benchmark.at_index l (r mod blen l) = Ok ref /\
    l !! Z.to_nat (r mod blen l) = Some ref.
Proof.
  intros Hl. assert (0 < blen l) by (destruct l; [done | cbn; lia]).
  pose proof (Z.mod_pos_bound r (blen l)). unfold Benchmark.at_index.
  destruct (lookup_lt_is_Some_2 l (Z.to_nat (r mod blen l))) as [ref E]; [lia|].
  exists ref. by rewrite E.
Qed.

(** One message of the load: the bytes mean what they should. *)
Lemma make_body_ok k s f :
  load_ok k s f -> 0 <= k < 2 ^ 32 - 2 ->
  let '(s', msg) := next_message opt s in
  exists body,
    Benchmark.make_body opt s = Ok (s', body) /\ blen body < 2 ^ 16 /\
    decoded (plain body) = Some msg /\ flat_ok f msg /\ load_ok (k + 1) s' (flat_step f msg).
Proof using All.
  intros Hl Hk. pose proof Hl as [Hn Hlive Hknown Hsz Hband]. unfold kMaxSymbols in Hsym.
  unfold next_message, Benchmark.make_body.
  rewrite (u32_small (BenchArgs.symbols opt - 1)) by width.
  pose proof (uniform_range 0 (BenchArgs.symbols opt - 1) (Benchmark.rng s) ltac:(lia)) as Hidx.
  destruct (uniform 0 (BenchArgs.symbols opt - 1) (Benchmark.rng s)) as [idx g1]. cbn [fst] in Hidx.
  rewrite symbol_at, bind_Ok by lia.
  destruct (name_key idx) as [Hlen Hkey]; [unfold kMaxSymbols; lia|].
  set (stk := Bench.pad_symbol (Benchmark.name idx)) in *.
  destruct (uniform 0 9 g1) as [op g2]. cbv zeta.
  destruct ((op <=? 5) || _) eqn:Eop.
  - set (sd := if Z.even op then kBuy else Benchmark.kSellSide).
    pose proof (uniform_range 0 50 g2 ltac:(lia)) as Hj. destruct (uniform 0 50 g2) as [j g3].
    cbn [fst] in Hj.
    destruct (price_in_band idx sd j) as (Hb & Hu & Hpr); [unfold kMaxSymbols; lia | done|].
    set (pr := Benchmark.price_of sd _ j) in *.
    assert (Hmsg : (if Z.even op
        then add_order (Benchmark.next_order_ref s) kBuy (Benchmark.name idx)
               (1000000 + idx * 50000 - (150 + j) * 100)
        else add_order (Benchmark.next_order_ref s) Benchmark.kSellSide (Benchmark.name idx)
               (1000000 + idx * 50000 + (150 + j) * 100))
      = add_order (Benchmark.next_order_ref s) sd (Benchmark.name idx) pr)
      by (rewrite Hpr; unfold sd; by destruct (Z.even op)).
    rewrite Hmsg. clear Hmsg Hpr. unfold add_order. fold stk.
    rewrite make_add_Ok, bind_Ok by done.
    assert (Hf : f !! Benchmark.next_order_ref s = None).
    { destruct (f !! _) eqn:E; [|done]. assert (Hin : Benchmark.next_order_ref s ∈ Benchmark.live_orders s) by eauto.
      rewrite Forall_forall in Hlive. apply Hlive in Hin. lia. }
    rewrite u64_small by width.
    eexists. split; [done|]. split; [|split; [apply decoded_add; [width | done | done]|]].
    { unfold add_wire, itch_add_wire, itch_prefix. rewrite !length_app, !length_be_bytes, Hlen. done. }
    split.
    + split; [lia|]. cbn [ItchAddOrder.shares ItchAddOrder.order_ref]. rewrite Hf. split; [width | done].
    + cbn [flat_step ItchAddOrder.order_ref ItchAddOrder.stock ItchAddOrder.shares ItchAddOrder.price
        ItchAddOrder.side]. rewrite decide_False by (rewrite Hf; by intros []). rewrite Hkey.
      split; cbn [Benchmark.next_order_ref Benchmark.live_orders].
      * lia.
      * apply Forall_app. split; [|apply Forall_singleton; lia].
        eapply Forall_impl; [exact Hlive|]. cbn. lia.
      * intros ref Hr. apply elem_of_app. destruct (decide (Benchmark.next_order_ref s = ref)) as [<-|Hne].
        { right. apply list_elem_of_here. }
        left. rewrite lookup_insert_ne in Hr by done. eauto.
      * rewrite map_size_insert, Hf. cbn. lia.
      * intros ref sym o Ho. apply lookup_insert_Some in Ho as [[<- [= <- <-]]|[_ Ho]]; [|by eapply Hband].
        exists idx. split; [lia|]. done.
  - apply orb_false_iff in Eop as [Eop Hne]. apply bool_decide_eq_false in Hne.
    assert (Hu : forall i ref, Benchmark.live_orders s !! i = Some ref -> is_u64 ref).
    { intros i ref Hi. apply (Forall_lookup_1 _ _ _ _ Hlive) in Hi. cbn in Hi. width. }
    destruct (bits64 g2) as [r g3]. destruct (op <=? 7).
    + destruct (live_pick _ r Hne) as (ref & -> & Hr).
      rewrite bind_Ok, make_cancel_Ok, bind_Ok, Hr. change (default 0 (Some ref)) with ref.
      eexists. split; [done|]. split; [|split; [apply decoded_cancel; by eapply Hu|]].
      { unfold itch_cancel_wire, itch_prefix. by rewrite !length_app, !length_be_bytes. }
      split; [split; [lia | done]|]. by apply load_reduce.
    + destruct (live_pick _ r Hne) as (ref & -> & Hr).
      rewrite bind_Ok, make_delete_Ok, bind_Ok, Hr. change (default 0 (Some ref)) with ref.
      eexists. split; [done|]. split; [|split; [apply decoded_delete; by eapply Hu|]].
      { unfold itch_delete_wire, itch_prefix. by rewrite !length_app, !length_be_bytes. }
      split; [split; [lia | done]|]. cbn [flat_step ItchDeleteOrder.order_ref].
      eapply load_ok_fewer; [exact Hl | done | | | |]; cbn [Benchmark.live_orders].
      * intros x. apply elem_of_delete.
      * intros x [y Hy]. apply lookup_delete_Some in Hy as [Hxy Hy].
        eapply elem_of_delete_ne; [exact Hr | apply Hknown; eauto | congruence].
      * rewrite map_size_delete. destruct (f !! ref); cbn; lia.
      * intros x sym o [_ Ho]%lookup_delete_Some. eauto.
Qed.

End Load.

(** ** Tops *)

(** A notification shows the book as it is after the message. *)
Lemma apply_msg_reports b msg ns :
  Forall (fun e => e.1 = OrderBook.top (apply_msg b msg ns).1) (apply_msg b msg ns).2.
Proof.
  destruct (apply_msg_shape b msg ns) as [[s ->]|(b' & _ & ->)]; [done|].
  unfold OrderBook.notify_if_top_changed. destruct (negb _); [done|]. cbv zeta.
  destruct (OrderBook.top_changed _ _); [|done]. by apply Forall_singleton.
Qed.

Lemma update_reports s sym msg ns :
  Forall (fun '(sy, t0, _) => t0 = OrderBook.top (MultiSymbolBook.book_at
            (MultiSymbolBook.update_book s sym (apply_msg (MultiSymbolBook.book_at s sym) msg ns)).1 sy))
    (MultiSymbolBook.update_book s sym (apply_msg (MultiSymbolBook.book_at s sym) msg ns)).2.
Proof.
  unfold MultiSymbolBook.update_book, MultiSymbolBook.report. cbn [fst snd].
  apply Forall_fmap. eapply Forall_impl; [apply apply_msg_reports|].
  intros [t0 n] Ht. cbn. by rewrite book_at_put, decide_True.
Qed.

Lemma ingest_msg_reports s f msg ns :
  routes s f ->
  Forall (fun '(sy, t0, _) => t0 = OrderBook.top (MultiSymbolBook.book_at (ingest_msg s msg ns).1 sy))
    (ingest_msg s msg ns).2.
Proof.
  intros Hr. destruct msg as [a|d|c|e|r]; cbn [ingest_msg].
  - apply (update_reports _ _ (MAdd a)).
  - unfold MultiSymbolBook.ingest_delete. destruct (MultiSymbolBook.route s _) as [[sym b]|] eqn:E; [|done].
    destruct (routed s f _ sym b Hr E) as (_ & _ & -> & _). apply (update_reports s sym (MDelete d) ns).
  - unfold MultiSymbolBook.ingest_cancel. destruct (MultiSymbolBook.route s _) as [[sym b]|] eqn:E; [|done].
    destruct (routed s f _ sym b Hr E) as (_ & _ & -> & _). apply (update_reports s sym (MCancel c) ns).
  - unfold MultiSymbolBook.ingest_executed. destruct (MultiSymbolBook.route s _) as [[sym b]|] eqn:E; [|done].
    destruct (routed s f _ sym b Hr E) as (_ & _ & -> & _). apply (update_reports s sym (MExecuted e) ns).
  - unfold MultiSymbolBook.ingest_replace. case_match; [|done].
    apply (update_reports s _ (MReplace r) ns).
Qed.

(** And there is at most one. *)
Lemma ingest_msg_one s msg ns : (length (ingest_msg s msg ns).2 <= 1)%nat.
Proof.
  assert (Hu : forall b sym m,
    (length (MultiSymbolBook.update_book s sym (apply_msg b m ns)).2 <= 1)%nat).
  { intros b sym m. unfold MultiSymbolBook.update_book, MultiSymbolBook.report. cbn [snd].
    rewrite length_fmap. destruct (apply_msg_shape b m ns) as [[? ->]|(b' & _ & ->)]; [cbn; lia|].
    unfold OrderBook.notify_if_top_changed. destruct (negb _); [cbn; lia|]. cbv zeta.
    destruct (OrderBook.top_changed _ _); cbn; lia. }
  destruct msg as [a|d|c|e|r]; cbn [ingest_msg].
  - apply (Hu _ _ (MAdd a)).
  - unfold MultiSymbolBook.ingest_delete. destruct (MultiSymbolBook.route s _) as [[sym b]|];
      [apply (Hu b sym (MDelete d)) | cbn; lia].
  - unfold MultiSymbolBook.ingest_cancel. destruct (MultiSymbolBook.route s _) as [[sym b]|];
      [apply (Hu b sym (MCancel c)) | cbn; lia].
  - unfold MultiSymbolBook.ingest_executed. destruct (MultiSymbolBook.route s _) as [[sym b]|];
      [apply (Hu b sym (MExecuted e)) | cbn; lia].
  - unfold MultiSymbolBook.ingest_replace. case_match; [|cbn; lia]. apply (Hu _ _ (MReplace r)).
Qed.

Definition two_sided (t0 : TopOfBook) : bool :=
  match bid t0, ask t0 with Some _, Some _ => true | _, _ => false end.
Definition two_sided_events (tops : list MultiSymbolBook.top_event) : Z :=
  blen (filter (fun e => two_sided e.1.2 = true) tops).

(** Wider than the engine's filter, far from crossed. *)
Definition wide (t0 : TopOfBook) : Prop :=
  forall b a, bid t0 = Some b -> ask t0 = Some a -> pl_price b + 30000 <= pl_price a.

Lemma books_wide (opt : BenchArgs.Options) s f :
  routes s f ->
  (forall ref sym o, f !! ref = Some (sym, o) ->
     exists idx, 0 <= idx < BenchArgs.symbols opt /\ sym = Benchmark.name idx /\
       in_band idx (is_buy o) (price o)) ->
  forall sym, wide (OrderBook.top (MultiSymbolBook.book_at s sym)).
Proof.
  intros [Hb _ _] Hband sym b a Eb Ea. destruct (top_ok _ _ (Hb sym)) as [Hbid Hask].
  rewrite Eb in Hbid. rewrite Ea in Hask.
  destruct Hbid as ((k1 & o1 & Hk1 & Hs1 & <-) & _). destruct Hask as ((k2 & o2 & Hk2 & Hs2 & <-) & _).
  rewrite lookup_orders_of in Hk1, Hk2.
  destruct (f !! k1) as [[y1 x1]|] eqn:E1; [|done]. case_decide; [|done]. injection Hk1 as ->.
  destruct (f !! k2) as [[y2 x2]|] eqn:E2; [|done]. case_decide; [|done]. injection Hk2 as ->. subst y1 y2.
  destruct (Hband k1 sym o1 E1) as (i1 & Hi1 & N1 & B1). destruct (Hband k2 sym o2 E2) as (i2 & Hi2 & N2 & B2).
  assert (i1 = i2) by (apply name_inj; [lia | lia | congruence]). subst i2.
  rewrite Hs1 in B1. rewrite Hs2 in B2. unfold in_band in *. lia.
Qed.

(** The engine answers a wide two-sided top with one decision, any other with none. *)
Lemma wide_quotes sym t0 :
  wide t0 -> length (quote_of DecisionEngine.Config_init sym t0) = if two_sided t0 then 1%nat else 0%nat.
Proof.
  unfold wide, quote_of, two_sided. destruct (bid t0) as [b|], (ask t0) as [a|]; try done.
  intros Hw. specialize (Hw b a eq_refl eq_refl). unfold DecisionEngine.spread_of.
  rewrite (proj2 (Z.ltb_lt _ _)) by lia.
  change (u32 (DecisionEngine.min_spread_ticks DecisionEngine.Config_init *
    DecisionEngine.tick_size DecisionEngine.Config_init)) with 200.
  by rewrite (proj2 (Z.leb_gt _ _)) by lia.
Qed.

Lemma wide_decisions clock e tops :
  DecisionEngine.on_decision_ e = true -> DecisionEngine.cfg_ e = DecisionEngine.Config_init ->
  Forall (fun '(_, t0, _) => wide t0) tops ->
  blen (on_top_changes clock e tops).2 = two_sided_events tops.
Proof.
  intros Hon Hc Hw. destruct (on_top_changes_quotes clock e tops Hon) as (Q & _).
  rewrite <-(length_fmap quote), Q, Hc. unfold quotes_of, two_sided_events. clear Q.
  induction Hw as [|[[sym t0] ns] tops Hw _ IH]; [done|].
  cbn [mbind list_bind]. rewrite length_app, wide_quotes, filter_cons by done. cbn [fst snd].
  rewrite Nat2Z.inj_add, IH.
  destruct (two_sided t0); case_decide; try done.
  exact (eq_sym (Nat2Z.inj_add 1 _)).
Qed.

(** The engine's counters over a list of tops. *)
Lemma on_top_changes_counts clock e tops :
  DecisionEngine.on_decision_ e = true ->
  let r := on_top_changes clock e tops in
  DecisionEngine.top_changes_seen_ r.1 = Nat.iter (length tops) inc (DecisionEngine.top_changes_seen_ e) /\
  DecisionEngine.decisions_emitted_ r.1 = Nat.iter (length r.2) inc (DecisionEngine.decisions_emitted_ e).
Proof.
  revert e. induction tops as [|[[sym t0] ns] tops IH]; intros e Hon; [done|]. cbn [on_top_changes].
  set (o := DecisionEngine.on_top_of_book _ _ _ _ _).
  assert (Ho : DecisionEngine.on_decision_ o.1 = true /\
    DecisionEngine.top_changes_seen_ o.1 = inc (DecisionEngine.top_changes_seen_ e) /\
    DecisionEngine.decisions_emitted_ o.1 = Nat.iter (length o.2) inc (DecisionEngine.decisions_emitted_ e)).
  { unfold o, DecisionEngine.on_top_of_book. cbn [DecisionEngine.cfg_ DecisionEngine.on_decision_].
    destruct (bid t0), (ask t0); try done. destruct (_ <=? _); [done|]. by rewrite Hon. }
  destruct o as [e1 d1]. destruct Ho as (Ho1 & Ht1 & Hd1). cbn [fst snd] in *.
  destruct (IH e1 Ho1) as [Ht2 Hd2]. destruct (on_top_changes clock e1 tops) as [e2 d2]. cbn [fst snd] in *.
  rewrite Ht2, Hd2, Ht1, Hd1, length_app. cbn [length]. split; [by rewrite Nat.iter_succ_r|].
  rewrite Nat.add_comm. by rewrite Nat.iter_add.
Qed.

(** ** The measured loop *)

(** After [k] messages: nothing was lost, and the books hold what the generator
    believes to be resting. *)
Record steady {G} (opt : BenchArgs.Options) (k : Z) (s : Benchmark.t G) (f : flat) : Prop := {
  sd_gap : perfect k (gap_buf (Benchmark.pipeline s));
  sd_seq : Benchmark.seq s = k + 1;
  sd_books : routes (book (Benchmark.pipeline s)) f;
  sd_load : load_ok opt k (Benchmark.generator s) f;
  sd_on : DecisionEngine.on_decision_ (engine (Benchmark.pipeline s)) = true;
  sd_cfg : DecisionEngine.cfg_ (engine (Benchmark.pipeline s)) = DecisionEngine.Config_init
}.

Lemma two_sided_events_app a b : two_sided_events (a ++ b) = two_sided_events a + two_sided_events b.
Proof. unfold two_sided_events. rewrite filter_app, length_app. apply Nat2Z.inj_add. Qed.

Lemma two_sided_events_bound tops : 0 <= two_sided_events tops <= blen tops.
Proof. unfold two_sided_events. split; [apply Nat2Z.is_nonneg | apply inj_le, length_filter]. Qed.

Lemma on_top_changes_app clock e a b :
  on_top_changes clock e (a ++ b) =
  let '(e1, d1) := on_top_changes clock e a in
  let '(e2, d2) := on_top_changes clock e1 b in (e2, d1 ++ d2).
Proof.
  revert e. induction a as [|[[sym t0] ns] a IH]; intros e; cbn [app on_top_changes].
  { by destruct (on_top_changes clock e b). }
  destruct (DecisionEngine.on_top_of_book _ _ _ _ _) as [e1 d1]. rewrite IH.
  destruct (on_top_changes clock e1 a) as [e2 d2]. destruct (on_top_changes clock e2 b).
  by rewrite app_assoc.
Qed.

Lemma ingest_all_app b ms1 ms2 :
  ingest_all b (ms1 ++ ms2) =
  '(b1, t1) ← ingest_all b ms1; '(b2, t2) ← ingest_all b1 ms2; mret (b2, t1 ++ t2).
Proof.
  revert b. induction ms1 as [|m ms1 IH]; intros b.
  { cbn. by destruct (ingest_all b ms2) as [[]|]. }
  cbn [app ingest_all]. destruct (MultiSymbolBook.ingest b m) as [[[b1 t1] ok]|]; [|done].
  rewrite !bind_Ok, IH. destruct (ingest_all b1 ms1) as [[b2 t2]|]; [|done]. rewrite !bind_Ok.
  destruct (ingest_all b2 ms2) as [[b3 t3]|]; [|done]. by rewrite !bind_Ok, app_assoc.
Qed.

(** What a decision's sample is. *)
Definition decision_latency (d : Decision) : Z := u64 (decided_ns d - d_recv_ns d).

Lemma record_decisions_app r ds :
  Benchmark.record_decisions r ds = r ++ (decision_latency <$> ds).
Proof.
  unfold Benchmark.record_decisions. revert r. induction ds as [|d ds IH]; intros r; [by rewrite app_nil_r|].
  cbn [fold_left fmap list_fmap]. rewrite IH. unfold SampleRecorder.record. by rewrite <-app_assoc.
Qed.

(** The samples of two-sided tops, of which the first is the [n]-th of the run: the
    clock at the decision less the arrival of the message. *)
Definition decision_samples (clk : Benchmark.clocks) (n : Z) (tops : list MultiSymbolBook.top_event)
    : list Z :=
  omap (fun '(j, (_, top, arrival)) =>
          if two_sided top
          then Some (u64 (DecisionEngine.monotonic_ns (Benchmark.deciding clk j) - arrival)) else None)
       (zip (seqZ n (blen tops)) tops).

Lemma decision_samples_cons clk n sym t0 ns tops :
  decision_samples clk n ((sym, t0, ns) :: tops) =
  (if two_sided t0 then [u64 (DecisionEngine.monotonic_ns (Benchmark.deciding clk n) - ns)] else [])
  ++ decision_samples clk (n + 1) tops.
Proof.
  unfold decision_samples. rewrite seqZ_cons by (cbn; lia). cbn [zip zip_with omap list_omap].
  match goal with |- context [Z.pred ?x] => replace (Z.pred x) with (blen tops) by (cbn [length]; by rewrite Nat2Z.inj_succ, Z.pred_succ) end.
  replace (Z.succ n) with (n + 1) by lia. by destruct (two_sided t0).
Qed.

Lemma wide_samples clk e tops n :
  DecisionEngine.on_decision_ e = true -> DecisionEngine.cfg_ e = DecisionEngine.Config_init ->
  DecisionEngine.top_changes_seen_ e = n -> 0 <= n -> n + blen tops < 2 ^ 64 ->
  Forall (fun '(_, t0, _) => wide t0) tops ->
  decision_latency <$> (on_top_changes (Benchmark.deciding clk) e tops).2 = decision_samples clk n tops.
Proof.
  intros Hon Hc Hn H0 Hlt Hw. revert e n Hon Hc Hn H0 Hlt.
  induction Hw as [|[[sym t0] ns] tops Hw _ IH]; intros e n Hon Hc Hn H0 Hlt; [done|].
  cbn [on_top_changes length] in *. rewrite Hn, decision_samples_cons.
  pose proof (on_top_changes_counts (Benchmark.deciding clk) e [(sym, t0, ns)] Hon) as [Hs _].
  destruct (on_top_changes_quotes (Benchmark.deciding clk) e [(sym, t0, ns)] Hon) as (_ & Hc1 & Hon1 & _).
  cbn [on_top_changes length Nat.iter nat_rect] in *. rewrite Hn in *.
  assert (Hd : decision_latency <$> (DecisionEngine.on_top_of_book e sym t0 ns (Benchmark.deciding clk n)).2
    = if two_sided t0 then [u64 (DecisionEngine.monotonic_ns (Benchmark.deciding clk n) - ns)] else []).
  { unfold DecisionEngine.on_top_of_book, two_sided. cbn [DecisionEngine.cfg_ DecisionEngine.on_decision_].
    destruct (bid t0) as [b|] eqn:Eb; [|done]. destruct (ask t0) as [a|] eqn:Ea; [|done].
    specialize (Hw b a Eb Ea). unfold DecisionEngine.spread_of. rewrite Hc, Hon.
    rewrite (proj2 (Z.ltb_lt _ _)) by lia.
    change (u32 (DecisionEngine.min_spread_ticks DecisionEngine.Config_init *
      DecisionEngine.tick_size DecisionEngine.Config_init)) with 200.
    by rewrite (proj2 (Z.leb_gt _ _)) by lia. }
  destruct (DecisionEngine.on_top_of_book e sym t0 ns _) as [e1 d1]. cbn [fst snd] in *.
  specialize (IH e1 (n + 1)). destruct (on_top_changes _ e1 tops) as [e2 d2]. cbn [fst snd] in *.
  rewrite fmap_app, Hd, IH; [done | done | congruence | | lia | lia].
  rewrite Hs. unfold inc. apply u64_small. width.
Qed.

Section Loop.
Context {G : Type} `{RngLaws G} (opt : BenchArgs.Options) (clk : Benchmark.clocks).
Context (Hsym : 1 <= BenchArgs.symbols opt <= kMaxSymbols).

(** When the [i]-th message arrives, and what its iteration measures. *)
Definition arrival_of (i : Z) : Z := DecisionEngine.monotonic_ns (Benchmark.before clk i).
Definition latency_of (i : Z) : Z :=
  u64 (DecisionEngine.monotonic_ns (Benchmark.after clk i) - arrival_of i).

(** What iterations from the [k]-th on did: the messages [ms] are those of the load,
    stamped with their arrival, the books took them and gave [tops], and the
    engine took these. *)
Record advanced (k : Z) (s s' : Benchmark.t G) (f f' : flat) (ms : list MoldMessage.t)
    (tops : list MultiSymbolBook.top_event) : Prop := {
  ad_load : exists msgs,
    load_run opt (length ms) (Benchmark.generator s) = (Benchmark.generator s', msgs) /\
    decoded <$> ms = Some <$> msgs /\ f' = fold_left flat_step msgs f;
  ad_times : MoldMessage.recv_ns <$> ms = arrival_of <$> seqZ k (blen ms);
  ad_books : ingest_all (book (Benchmark.pipeline s)) ms = Ok (book (Benchmark.pipeline s'), tops);
  ad_one : (length tops <= length ms)%nat;
  ad_wide : Forall (fun '(_, t0, _) => wide t0) tops;
  ad_engine : (on_top_changes (Benchmark.deciding clk) (engine (Benchmark.pipeline s)) tops).1
    = engine (Benchmark.pipeline s')
}.

(** The samples the decisions of these tops make. *)
Definition samples_of (s : Benchmark.t G) (tops : list MultiSymbolBook.top_event) : list Z :=
  decision_latency <$> (on_top_changes (Benchmark.deciding clk) (engine (Benchmark.pipeline s)) tops).2.

Lemma advanced_refl k s f : advanced k s s f f [] [].
Proof. split; try done. by exists []. Qed.

Lemma advanced_app k s1 s2 s3 f1 f2 f3 m1 t1 m2 t2 :
  advanced k s1 s2 f1 f2 m1 t1 -> advanced (k + blen m1) s2 s3 f2 f3 m2 t2 ->
  advanced k s1 s3 f1 f3 (m1 ++ m2) (t1 ++ t2) /\ samples_of s1 (t1 ++ t2) = samples_of s1 t1 ++ samples_of s2 t2.
Proof.
  intros [(l1 & L1 & D1 & F1) T1 B1 O1 W1 E1] [(l2 & L2 & D2 & F2) T2 B2 O2 W2 E2].
  unfold samples_of. rewrite on_top_changes_app.
  destruct (on_top_changes _ (engine (Benchmark.pipeline s1)) t1) as [e1 d1] eqn:Ee1.
  cbn [fst snd] in *. subst e1.
  destruct (on_top_changes _ (engine (Benchmark.pipeline s2)) t2) as [e2 d2] eqn:Ee2.
  cbn [fst snd] in *. split; [|by rewrite fmap_app]. split.
  - exists (l1 ++ l2). rewrite length_app, load_run_add, L1, L2. split; [done|].
    rewrite !fmap_app, D1, D2. split; [done|]. by rewrite fold_left_app, <-F1.
  - rewrite fmap_app, T1, T2, length_app, Nat2Z.inj_add, seqZ_app, fmap_app by lia. done.
  - by rewrite ingest_all_app, B1, bind_Ok, B2, bind_Ok.
  - rewrite !length_app. lia.
  - by apply Forall_app.
  - by rewrite on_top_changes_app, Ee1, Ee2.
Qed.

Lemma iteration_step k s f :
  steady opt k s f -> 0 <= k < 2 ^ 32 - 2 ->
  exists s' f' m tops,
    Benchmark.iteration opt clk k s = Ok s' /\ steady opt (k + 1) s' f' /\ advanced k s s' f f' [m] tops /\
    (if k <? BenchArgs.warmup opt
     then Benchmark.per_msg s' = Benchmark.per_msg s /\
          Benchmark.per_decision s' = Benchmark.per_decision s
     else Benchmark.per_msg s' = Benchmark.per_msg s ++ [latency_of k] /\
          Benchmark.per_decision s' = Benchmark.per_decision s ++ samples_of s tops).
Proof using All.
  intros [Hg Hsq Hb Hl Hon Hcfg] Hk.
  pose proof (make_body_ok opt Hsym k _ f Hl Hk) as Hmake.
  destruct (next_message opt (Benchmark.generator s)) as [gen msg] eqn:Enext.
  destruct Hmake as (body & Eb & Hlen & Hd & Hf & Hl').
  unfold Benchmark.iteration. rewrite Eb, bind_Ok, Hsq, mold_packet_Ok, bind_Ok by done.
  set (pkt := packet_wire _ _ _). set (t0 := DecisionEngine.monotonic_ns (Benchmark.before clk k)).
  destruct (ingest_perfect k _ Benchmark.session body t0 Hg) as (g' & m & Ei & Hg' & Hr & Hc & Ht);
    [lia | done | done|]. fold pkt in Ei.
  assert (Hdm : decoded m = Some msg) by (by rewrite decoded_content, Hc by done).
  pose proof (ingest_decoded (book (Benchmark.pipeline s)) m Hr) as Em. rewrite Hdm in Em.
  pose proof (ingest_msg_routes _ f msg (MoldMessage.recv_ns m) Hb Hf) as Hb'.
  pose proof (ingest_msg_reports _ f msg (MoldMessage.recv_ns m) Hb) as Hrep.
  pose proof (ingest_msg_one (book (Benchmark.pipeline s)) msg (MoldMessage.recv_ns m)) as H1.
  destruct (ingest_msg (book (Benchmark.pipeline s)) msg _) as [b' tops] eqn:Etops. cbn [fst snd] in *.
  assert (Hw : Forall (fun '(_, t0, _) => wide t0) tops).
  { eapply Forall_impl; [exact Hrep|]. intros [[sy t1] n] ->.
    eapply books_wide; [exact Hb' | apply (lo_band _ _ _ _ Hl')]. }
  destruct (on_top_changes_quotes (Benchmark.deciding clk) (engine (Benchmark.pipeline s)) tops Hon)
    as (_ & Hcfg' & Hon' & _).
  unfold step, apply_input. rewrite Ei, !bind_Ok.
  change (messages [OnMessage m]) with [m]. cbn [on_messages]. rewrite Em, bind_Ok.
  unfold samples_of.
  destruct (on_top_changes _ _ tops) as [e' ds] eqn:Ee. cbn [fst snd] in *. rewrite !bind_Ok, app_nil_r.
  eexists _, (flat_step f msg), m, tops. split; [reflexivity|]. split; [|split].
  - split; cbn [Benchmark.pipeline Benchmark.seq Benchmark.generator gap_buf book engine]; try done.
    + rewrite u64_small by width. lia.
    + congruence.
  - split; cbn [Benchmark.pipeline Benchmark.generator book engine fmap list_fmap length].
    + exists [msg]. cbn [load_run]. rewrite Enext, Hdm. done.
    + rewrite Ht. rewrite (seqZ_cons k) by lia. done.
    + cbn [ingest_all]. by rewrite Em, !bind_Ok, app_nil_r.
    + done.
    + done.
    + by rewrite Ee.
  - cbn [Benchmark.per_msg Benchmark.per_decision]. destruct (_ <? _); [done|]. split; [done|].
    by rewrite record_decisions_app, Ee.
Qed.

(** A stretch of warm-up, or of measured iterations. *)
Lemma iterations_stretch (measured : bool) n k s f :
  steady opt k s f -> 0 <= k -> k + Z.of_nat n < 2 ^ 32 - 1 ->
  (forall i, k <= i < k + Z.of_nat n -> (i <? BenchArgs.warmup opt) = negb measured) ->
  exists s' f' ms tops,
    Benchmark.iterations opt clk n k s = Ok s' /\ steady opt (k + Z.of_nat n) s' f' /\
    advanced k s s' f f' ms tops /\ length ms = n /\
    Benchmark.per_msg s'
    = Benchmark.per_msg s ++ (if measured then map latency_of (seqZ k (Z.of_nat n)) else []) /\
    Benchmark.per_decision s'
    = Benchmark.per_decision s ++ (if measured then samples_of s tops else []).
Proof using All.
  revert k s f. induction n as [|n IH]; intros k s f Hs Hk Hn Hm.
  { exists s, f, [], []. rewrite Z.add_0_r. split; [done|]. split; [done|].
    split; [apply advanced_refl|]. split; [done|].
    by destruct measured; cbn; rewrite ?app_nil_r. }
  destruct (iteration_step k s f Hs) as (s1 & f1 & m & t1 & E1 & S1 & A1 & R1); [lia|].
  rewrite Hm in R1 by lia.
  destruct (IH (k + 1) s1 f1 S1) as (s2 & f2 & ms & t2 & E2 & S2 & A2 & L2 & M2 & D2);
    [lia | lia | intros; apply Hm; lia|].
  destruct (advanced_app k s s1 s2 f f1 f2 [m] t1 ms t2 A1 A2) as [A Hds].
  exists s2, f2, ([m] ++ ms), (t1 ++ t2). cbn [Benchmark.iterations]. rewrite E1, bind_Ok, E2.
  split; [done|]. split; [by replace (k + Z.of_nat (S n)) with (k + 1 + Z.of_nat n) by lia|].
  split; [exact A|]. split; [cbn; lia|]. rewrite M2, D2.
  destruct measured; cbn [negb] in R1; destruct R1 as [-> ->].
  - rewrite (seqZ_cons k) by lia. cbn [map].
    replace (Z.pred (Z.of_nat (S n))) with (Z.of_nat n) by lia.
    replace (Z.succ k) with (k + 1) by lia. rewrite Hds, <-!app_assoc. done.
  - done.
Qed.

Lemma iterations_add n1 n2 k s :
  Benchmark.iterations opt clk (n1 + n2) k s =
  s1 ← Benchmark.iterations opt clk n1 k s;
  Benchmark.iterations opt clk n2 (k + Z.of_nat n1) s1.
Proof using.
  revert k s. induction n1 as [|n1 IH]; intros k s; [cbn; by rewrite Z.add_0_r|].
  cbn [Nat.add Benchmark.iterations]. destruct (Benchmark.iteration opt clk k s) as [s1|]; [|done].
  rewrite !bind_Ok, IH. by replace (k + 1 + Z.of_nat n1) with (k + Z.of_nat (S n1)) by lia.
Qed.

Lemma start_steady (rng0 : G) : steady opt 0 (Benchmark.start rng0) ∅.
Proof using.
  split; try done.
  - apply create_perfect.
  - apply init_routes.
  - split; cbn; [lia | by apply Forall_nil | intros ref [? ?]; done | by rewrite map_size_empty | done].
Qed.

Lemma length_decision_samples n tops : blen (decision_samples clk n tops) <= blen tops.
Proof using.
  revert n. induction tops as [|[[sym t0] ns] tops IH]; intros n; [done|].
  rewrite decision_samples_cons, length_app. specialize (IH (n + 1)).
  destruct (two_sided t0); cbn [length]; lia.
Qed.

(** The whole run: its warm-up, and its measured part. *)
Lemma two_stretches (rng0 : G) :
  0 <= BenchArgs.warmup opt -> 0 <= BenchArgs.messages opt ->
  BenchArgs.warmup opt + BenchArgs.messages opt < 2 ^ 32 - 2 ->
  exists s1 s2 f warm measured tw tm,
    Benchmark.measure opt clk rng0 = Ok s2 /\
    steady opt (BenchArgs.warmup opt + BenchArgs.messages opt) s2 f /\
    (exists f1, advanced 0 (Benchmark.start rng0) s1 ∅ f1 warm tw) /\
    advanced 0 (Benchmark.start rng0) s2 ∅ f (warm ++ measured) (tw ++ tm) /\
    length warm = Z.to_nat (BenchArgs.warmup opt) /\ length measured = Z.to_nat (BenchArgs.messages opt) /\
    Benchmark.per_msg s2 = map latency_of (seqZ (BenchArgs.warmup opt) (BenchArgs.messages opt)) /\
    Benchmark.per_decision s2 = decision_samples clk (blen tw) tm.
Proof using All.
  intros Hw Hm Hlt. unfold Benchmark.measure, Benchmark.total. rewrite u64_small by width.
  rewrite Z2Nat.inj_add, iterations_add by done.
  destruct (iterations_stretch false (Z.to_nat (BenchArgs.warmup opt)) 0 _ _ (start_steady rng0))
    as (s1 & f1 & warm & tw & -> & S1 & A1 & L1 & M1 & D1); [lia | lia | |].
  { intros i Hi. apply Z.ltb_lt. lia. }
  rewrite bind_Ok. rewrite Z.add_0_l in *.
  destruct (iterations_stretch true (Z.to_nat (BenchArgs.messages opt)) _ _ _ S1)
    as (s2 & f2 & measured & tm & E2 & S2 & A2 & L2 & M2 & D2); [lia | lia | |].
  { intros i Hi. apply Z.ltb_ge. lia. }
  assert (Hk : 0 + blen warm = Z.of_nat (Z.to_nat (BenchArgs.warmup opt))) by lia.
  rewrite <-Hk in A2. destruct (advanced_app 0 _ _ _ _ _ _ _ _ _ _ A1 A2) as [A _].
  rewrite M1, app_nil_l in M2. rewrite D1, app_nil_l in D2. rewrite !Z2Nat.id in * by done.
  exists s1, s2, f2, warm, measured, tw, tm. split; [done|]. split; [done|]. split; [by exists f1|].
  split; [done|]. split; [done|]. split; [done|]. split; [exact M2|].
  change ([] ++ ?x) with x in D2. rewrite D2.
  assert (Hseen : DecisionEngine.top_changes_seen_ (engine (Benchmark.pipeline s1)) = blen tw).
  { rewrite <-(ad_engine _ _ _ _ _ _ _ A1).
    destruct (on_top_changes_counts (Benchmark.deciding clk) (engine (Benchmark.pipeline (Benchmark.start rng0)))
      tw eq_refl) as [-> _].
    pose proof (ad_one _ _ _ _ _ _ _ A1). apply iter_inc. lia. }
  pose proof (ad_one _ _ _ _ _ _ _ A1). pose proof (ad_one _ _ _ _ _ _ _ A2).
  assert (0 <= blen tw /\ blen tw + blen tm < 2 ^ 64) as [? ?] by lia.
  apply wide_samples; [apply S1 | apply S1 | done | done | done | apply A2].
Qed.

(** C14.  The benchmark measures the path it means to: for any random engine within
    its documented ranges and any clocks, with up to 80000 symbols and fewer than
    2^32 - 2 messages, the run does not fault.  Every message of the load (the orders
    the draws of the engine mean, [load_run]: 100 shares of a symbol 150 to 200
    ticks from its mid price, cancels of 30, deletes) is delivered by its own
    [ingest] call with the time of that call, without gap, duplicate or
    retransmission; the books hold exactly what rests of these orders, with
    spreads that stay wide, and each two-sided change of a top is answered by one
    decision.  The recorders hold exactly the interval of each measured message,
    and for each two-sided top of the measured part the clock at its decision less
    the arrival of its message, and nothing of the warm-up; [main] ends with a
    report of these numbers, whose percentiles are the samples of the nearest
    ranks. *)
Theorem benchmark_measures_path (rng0 : G) :
  0 <= BenchArgs.warmup opt -> 0 <= BenchArgs.messages opt ->
  BenchArgs.warmup opt + BenchArgs.messages opt < 2 ^ 32 - 2 ->
  let total := BenchArgs.warmup opt + BenchArgs.messages opt in
  let load := (load_run opt (Z.to_nat total) (Benchmark.mk_load rng0 [] 1)).2 in
  exists s warm measured b tw tm r,
    Benchmark.measure opt clk rng0 = Ok s /\ Benchmark.main opt clk rng0 = mret (Ok r) /\
    GapBuffer.stat_delivered_ (gap_buf (Benchmark.pipeline s)) = total /\
    GapBuffer.stat_gaps_ (gap_buf (Benchmark.pipeline s)) = 0 /\
    GapBuffer.stat_duplicates_ (gap_buf (Benchmark.pipeline s)) = 0 /\
    GapBuffer.stat_retx_ (gap_buf (Benchmark.pipeline s)) = 0 /\
    blen warm = BenchArgs.warmup opt /\ blen measured = BenchArgs.messages opt /\
    decoded <$> (warm ++ measured) = Some <$> load /\
    MoldMessage.recv_ns <$> (warm ++ measured) = arrival_of <$> seqZ 0 total /\
    ingest_all (book (create GapBuffer.Config_init DecisionEngine.Config_init)) warm = Ok (b, tw) /\
    ingest_all b measured = Ok (book (Benchmark.pipeline s), tm) /\
    routes (book (Benchmark.pipeline s)) (fold_left flat_step load ∅) /\
    Forall (fun '(_, top, _) => wide top) (tw ++ tm) /\
    Benchmark.per_msg s = map latency_of (seqZ (BenchArgs.warmup opt) (BenchArgs.messages opt)) /\
    Benchmark.per_decision s = decision_samples clk (blen tw) tm /\
    Benchmark.r_messages r = BenchArgs.messages opt /\ Benchmark.r_warmup r = BenchArgs.warmup opt /\
    Benchmark.r_symbols r = BenchArgs.symbols opt /\
    Benchmark.symbols_in_book r = MultiSymbolBook.symbol_count (book (Benchmark.pipeline s)) /\
    Benchmark.top_events r = blen (tw ++ tm) /\
    Benchmark.decisions r = two_sided_events (tw ++ tm) /\
    Samples.summary_of (Benchmark.per_msg s) (Benchmark.msg_summary r) /\
    Samples.summary_of (Benchmark.per_decision s) (Benchmark.decision_summary r).
Proof using All.
  intros Hw Hm Hlt total load.
  destruct (two_stretches rng0 Hw Hm Hlt)
    as (s1 & s2 & f & warm & measured & tw & tm & E & S & [f1 A1] & A & L1 & L2 & M & D).
  pose proof A as [(msgs & Hload & Hdec & Hf) Htimes B O W En]. fold total in S, Htimes.
  assert (Hlen : length (warm ++ measured) = Z.to_nat total) by (rewrite length_app, L1, L2; lia).
  assert (Htot : Z.of_nat (Z.to_nat total) = total) by lia. rewrite Hlen in *. rewrite Htot in Htimes.
  change (Benchmark.generator (Benchmark.start rng0)) with (Benchmark.mk_load rng0 [] 1) in Hload.
  assert (Hl : load = msgs) by (unfold load; by rewrite Hload).
  assert (Hseen : blen (tw ++ tm) < 2 ^ 64) by lia.
  pose proof (two_sided_events_bound (tw ++ tm)). pose proof (length_app tw tm).
  destruct (sd_gap _ _ _ _ S) as [_ _ _ _ _ Hd (G1 & G2 & _ & G4)].
  destruct (Samples.summarize_total (Benchmark.per_msg s2)) as (msg & Em' & Sm);
    [rewrite M, length_map, length_seqZ; lia|].
  destruct (Samples.summarize_total (Benchmark.per_decision s2)) as (dec & Ed & Sd).
  { rewrite D. pose proof (length_decision_samples (blen tw) tm). lia. }
  pose proof (ad_books _ _ _ _ _ _ _ A1) as B1.
  exists s2, warm, measured, (book (Benchmark.pipeline s1)), tw, tm. eexists.
  unfold Benchmark.main. rewrite (proj2 (Z.ltb_ge _ _)) by (unfold Benchmark.kMaxVector; lia).
  rewrite E, bind_Ok, Em', bind_Ok, Ed, bind_Ok.
  split; [done|]. split; [reflexivity|]. split; [done|]. do 3 (split; [done|]).
  split; [lia|]. split; [lia|]. split; [by rewrite Hl|]. split; [done|]. split; [exact B1|].
  split. { rewrite ingest_all_app in B. change (book (Benchmark.pipeline (Benchmark.start rng0))) with
      (book (create GapBuffer.Config_init DecisionEngine.Config_init)) in *. rewrite B1, bind_Ok in B.
    destruct (ingest_all _ measured) as [[b2 t2]|]; [|done]. rewrite bind_Ok in B. injection B as -> Ht.
    by apply app_inv_head in Ht as ->. }
  split; [rewrite Hl, <-Hf; apply S|]. split; [done|]. split; [done|]. split; [done|].
  do 4 (split; [done|]). cbn [Benchmark.top_events Benchmark.decisions Benchmark.msg_summary Benchmark.decision_summary].
  unfold DecisionEngine.top_changes_seen, DecisionEngine.decisions_emitted. rewrite <-En.
  destruct (on_top_changes_counts (Benchmark.deciding clk) (engine (Benchmark.pipeline (Benchmark.start rng0)))
    (tw ++ tm) eq_refl) as [-> ->].
  split; [by apply iter_inc|]. split; [|done].
  change (DecisionEngine.decisions_emitted_ (engine (Benchmark.pipeline (Benchmark.start rng0)))) with 0.
  pose proof (wide_decisions (Benchmark.deciding clk) (engine (Benchmark.pipeline (Benchmark.start rng0)))
    (tw ++ tm) eq_refl eq_refl W) as Hn. rewrite iter_inc; lia.
Qed.

End Loop.

(** With [--symbols 0] the distribution runs up to [2^32 - 1] and the first symbol is
    read from an empty vector, whatever the engine draws. *)
Theorem zero_symbols_out_of_bounds {G : Type} `{Rng G} (opt : BenchArgs.Options)
    (clk : Benchmark.clocks) (rng0 : G) :
  BenchArgs.symbols opt = 0 -> 0 < Benchmark.total opt ->
  Benchmark.measure opt clk rng0 = Fault OutOfBounds.
Proof.
  intros Hs Ht. unfold Benchmark.measure. destruct (Z.to_nat (Benchmark.total opt)) as [|n] eqn:En; [lia|].
  cbn [Benchmark.iterations]. unfold Benchmark.iteration, Benchmark.make_body.
  destruct (uniform _ _ _) as [idx g]. unfold Benchmark.at_index at 1, Benchmark.all_symbols.
  by rewrite Hs.
Qed.

(** ** A run *)

(** A linear congruential engine. *)
#[local] Instance lcg : Rng Z := {
  uniform a b g :=
    let g' := u64 (g * 6364136223846793005 + 1442695040888963407) in
    (a + Z.shiftr g' 33 mod (b - a + 1), g');
  bits64 g := let g' := u64 (g * 6364136223846793005 + 1442695040888963407) in (Z.shiftr g' 20, g')
}.

#[local] Instance lcg_laws : RngLaws Z.
Proof.
  split.
  - intros a b g Hab. cbn [uniform lcg fst].
    pose proof (Z.mod_pos_bound (Z.shiftr (u64 (g * 6364136223846793005 + 1442695040888963407)) 33)
      (b - a + 1)). lia.
  - intros g. cbn [bits64 lcg fst]. set (x := u64 _).
    pose proof (u64_range (g * 6364136223846793005 + 1442695040888963407)) as Hx. fold x in Hx.
    rewrite Z.shiftr_div_pow2 by lia. unfold is_u64 in *. split; [apply Z.div_pos; lia|].
    apply Z.div_lt_upper_bound; lia.
Qed.

Definition test_options : BenchArgs.Options := BenchArgs.mk_Options 60 2 10.
Definition test_clocks : Benchmark.clocks :=
  Benchmark.mk_clocks (fun i => mk_timespec 5 (10 * i)) (fun i => mk_timespec 5 (10 * i + 7))
    (fun n => mk_timespec 5 (1000 + n)).

Lemma benchmark_measures_path_witness :
  (exists s warm measured b tw tm r,
    Benchmark.measure test_options test_clocks 42 = Ok s /\
    Benchmark.main test_options test_clocks 42 = mret (Ok r) /\
    blen warm = 10 /\ blen measured = 60 /\
    decoded <$> (warm ++ measured) = Some <$> (load_run test_options 70 (Benchmark.mk_load 42 [] 1)).2 /\
    ingest_all (book (create GapBuffer.Config_init DecisionEngine.Config_init)) warm = Ok (b, tw) /\
    ingest_all b measured = Ok (book (Benchmark.pipeline s), tm) /\
    Benchmark.per_decision s = decision_samples test_clocks (blen tw) tm /\
    Benchmark.decisions r = two_sided_events (tw ++ tm) /\
    Samples.summary_of (Benchmark.per_decision s) (Benchmark.decision_summary r)) /\
  match Benchmark.measure test_options test_clocks 42 with
  | Ok s => (DecisionEngine.top_changes_seen_ (engine (Benchmark.pipeline s)),
             DecisionEngine.decisions_emitted_ (engine (Benchmark.pipeline s)),
             blen (Benchmark.per_decision s), Benchmark.per_msg s)
  | Fault _ => (0, 0, 0, [])
  end = (18, 11, 11, replicate 60 7).
Proof.
  split; [|by vm_compute].
  destruct (benchmark_measures_path test_options test_clocks ltac:(by vm_compute) 42
              ltac:(by vm_compute) ltac:(by vm_compute) ltac:(by vm_compute))
    as (s & warm & measured & b & tw & tm & r & E & R & _ & _ & _ & _ & Lw & Lm & Ld & _ & B1 & B2 & _ & _ &
        _ & D & _ & _ & _ & _ & _ & C & _ & S).
  exists s, warm, measured, b, tw, tm, r.
  exact (conj E (conj R (conj Lw (conj Lm (conj Ld (conj B1 (conj B2 (conj D (conj C S))))))))).
Defined.

Lemma zero_symbols_out_of_bounds_witness :
  Benchmark.measure (BenchArgs.mk_Options 5 0 0) test_clocks 42 = Fault OutOfBounds.
Proof. by apply zero_symbols_out_of_bounds. Defined.
