(* ===== verification/Main.v ===== *)
(** * Main: the receiver program

    Models the parts of [src/main.cpp] that [Program] puts together: the message
    handler, the wiring of the gap buffer, and the data path of replay mode. *)

From stdpp Require Import base gmap list strings fin_maps.
From Stdlib Require Import ZArith Lia.
From S2P Require Import Prelude WireFormat WireLemmas GapBuf GapWalk Framing.
From S2P Require Import GapInv GapStep GapRun GapProps Sink Pcap Pacing Unpaced PcapProps PcapRound.

#[local] Open Scope Z_scope.

Module Handler.

(** The latency and throughput members are never touched. *)
Record t := mk { total_messages : Z; add_orders : Z; delete_orders : Z; executions : Z }.

Definition init : t := mk 0 0 0 0.

Definition on_message (h : t) (msg : MoldMessage.t) : res t :=
  let h := mk (inc (total_messages h)) (add_orders h) (delete_orders h) (executions h) in
  type ← itch_type (MoldMessage.body msg);
  mret match type with
       | AddOrderNoMpid | AddOrderMpid =>
           mk (total_messages h) (inc (add_orders h)) (delete_orders h) (executions h)
       | OrderDelete =>
           mk (total_messages h) (add_orders h) (inc (delete_orders h)) (executions h)
       | OrderExecuted | OrderExecutedPrice =>
           mk (total_messages h) (add_orders h) (delete_orders h) (inc (executions h))
       | _ => h
       end.

(** The callback over the messages of a run. *)
Fixpoint on_messages (h : t) (msgs : list MoldMessage.t) : res t :=
  match msgs with
  | [] => mret h
  | m :: msgs' => h ← on_message h m; on_messages h msgs'
  end.

End Handler.

(** [main]'s gap buffer: its configuration and its callbacks. *)
Definition gap_cfg : GapBuffer.Config :=
  GapBuffer.mk_Config 200000 2000000 100 (replicate 10 Corelib.Init.Byte.x20).
Definition wired : GapBuffer.t := listening gap_cfg true true true.

(** Replay mode: replay statistics, gap buffer and handler at the end. *)
Definition replay_mode (port : Z) (file : option (list byte)) (frame_buf : list byte)
    : res (ReplayStats.t * GapBuffer.t * Handler.t) :=
  '(stats, g, evs, _, _) ← PcapReader.replay (PcapReader.mk_Config false 1 port) file frame_buf wired [];
  h ← Handler.on_messages Handler.init (messages evs);
  mret (stats, g, h).

(** ** What is counted *)

Inductive counter := CAdd | CDelete | CExec | COther.

#[export] Instance counter_eq_dec : EqDecision counter.
Proof. solve_decision. Defined.

(** The counter of a message, by its first byte. *)
Definition counter_of (body : list byte) : counter :=
  match body with
  | [] => COther
  | b :: _ =>
      match itch_of_code (b2z b) with
      | AddOrderNoMpid | AddOrderMpid => CAdd
      | OrderDelete => CDelete
      | OrderExecuted | OrderExecutedPrice => CExec
      | _ => COther
      end
  end.

Definition tally (c : counter) (bodies : list (list byte)) : Z :=
  blen (filter (fun b => counter_of b = c) bodies).

Definition plus_counts (h : Handler.t) (bodies : list (list byte)) : Handler.t :=
  Handler.mk (u64 (Handler.total_messages h + blen bodies))
    (u64 (Handler.add_orders h + tally CAdd bodies))
    (u64 (Handler.delete_orders h + tally CDelete bodies))
    (u64 (Handler.executions h + tally CExec bodies)).

Definition counts_ok (h : Handler.t) : Prop :=
  is_u64 (Handler.total_messages h) /\ is_u64 (Handler.add_orders h) /\
  is_u64 (Handler.delete_orders h) /\ is_u64 (Handler.executions h).

Lemma itch_type_content m :
  msg_content m <> [] ->
  exists b rest, msg_content m = b :: rest /\
    itch_type (MoldMessage.body m) = Ok (itch_of_code (b2z b)).
Proof.
  unfold msg_content. destruct (MoldMessage.body m) as [|b rest]; [by rewrite take_nil|].
  destruct (Z.to_nat (MoldMessage.length m)) as [|n]; [done|]. intros _. cbn [take].
  exists b, (take n rest). split; [done|]. unfold itch_type.
  by rewrite (byte_at_Ok (b :: rest) 0 b), bind_Ok by (first [done | cbn; lia]).
Qed.

Lemma tally_cons c b bodies :
  tally c (b :: bodies) = (if decide (counter_of b = c) then 1 else 0) + tally c bodies.
Proof.
  unfold tally. rewrite filter_cons. destruct (decide (counter_of b = c)); cbn [length]; lia.
Qed.

Lemma on_message_counts h m :
  counts_ok h -> msg_content m <> [] ->
  Handler.on_message h m = Ok (plus_counts h [msg_content m]) /\
  counts_ok (plus_counts h [msg_content m]).
Proof.
  intros (H1 & H2 & H3 & H4) Hne. destruct (itch_type_content m Hne) as (b & rest & E & Ht).
  split; [|repeat split; apply u64_range].
  unfold Handler.on_message, plus_counts. rewrite Ht, bind_Ok, E, !tally_cons. unfold tally.
  cbn [filter list_filter length counter_of]. rewrite !Z.add_0_r. unfold inc.
  destruct (itch_of_code (b2z b)); cbn; rewrite ?Z.add_0_r, ?(u64_small (Handler.add_orders h)),
    ?(u64_small (Handler.delete_orders h)), ?(u64_small (Handler.executions h)) by done; done.
Qed.

Lemma plus_counts_app h b1 b2 : plus_counts (plus_counts h b1) b2 = plus_counts h (b1 ++ b2).
Proof.
  unfold plus_counts, tally. cbn [Handler.total_messages Handler.add_orders Handler.delete_orders
    Handler.executions]. rewrite !u64_add_idemp_l, !filter_app, !length_app. f_equal; f_equal; lia.
Qed.

Lemma on_messages_counts h ms :
  counts_ok h -> Forall (fun m => msg_content m <> []) ms ->
  Handler.on_messages h ms = Ok (plus_counts h (msg_content <$> ms)).
Proof.
  intros Hh Hms. revert h Hh. induction Hms as [|m ms Hm _ IH]; intros h Hh.
  { cbn. destruct Hh as (H1 & H2 & H3 & H4). unfold plus_counts. cbn. rewrite !Z.add_0_r, !u64_small by done.
    by destruct h. }
  cbn [Handler.on_messages fmap list_fmap]. destruct (on_message_counts h m Hh Hm) as [-> Hh1].
  by rewrite bind_Ok, IH, plus_counts_app by done.
Qed.

Lemma datagrams_only cfg buf items :
  Forall (fun i => match i with Datagram _ _ _ => True | Tick _ => False end) (datagrams cfg buf items).
Proof.
  revert buf. induction items as [|i items IH]; intros buf; [constructor|]. cbn [datagrams].
  destruct (selected cfg i); [constructor; [done|]|]; apply IH.
Qed.

(** The program's replay mode counts the stream: for any capture file of either
    byte order whose datagrams to the port carry non-empty messages of the stream,
    replay mode ends without a fault, and its totals are, modulo the 64-bit
    counters, the number of messages delivered in sequence and how many of
    them are adds, deletes and executions, a repeated or buffered message
    counted once. *)
Theorem replay_mode_counts_stream (S : Z -> list byte) (port : Z) (swap : bool)
    (rest buf : list byte) (items : list item) :
  length rest = 20%nat -> Forall item_ok items -> blen buf = PcapReader.kFrameBuf ->
  let ins := datagrams (PcapReader.mk_Config false 1 port) buf items in
  Forall (carries S) ins -> (forall k, S k <> []) ->
  let n0 := session_start wired ins in
  exists st g h,
    replay_mode port (Some (pcap_file swap rest (capture_of <$> items))) buf = Ok (st, g, h) /\
    n0 <= GapBuffer.next_expected_ g /\
    h = plus_counts Handler.init (S <$> seqZ n0 (GapBuffer.next_expected_ g - n0)).
Proof.
  intros Hr Hi Hb ins Hins HS n0.
  destruct (run_delivers S gap_cfg true true ins eq_refl Hins) as (g & evs & E & Hle & Hm).
  fold wired in E, Hle, Hm. fold n0 in Hle, Hm.
  destruct (feed_run wired g evs ins 0 (datagrams_only _ _ _) E) as [n' Hf].
  assert (Hcont : msg_content <$> messages evs = S <$> seqZ n0 (GapBuffer.next_expected_ g - n0)).
  { apply (f_equal (fmap snd)) in Hm. by rewrite <-!list_fmap_compose in Hm. }
  unfold replay_mode.
  pose proof (replay_captures _ (PcapReader.mk_Config false 1 port) swap rest buf items wired Hr Hi Hb) as Er.
  fold ins in Er. rewrite Hf, bind_Ok in Er.
  destruct (replay_unpaced_Ok _ _ _ _ [] _ _ _ _ Er eq_refl) as [ats ->]. rewrite !bind_Ok.
  rewrite on_messages_counts, bind_Ok, Hcont; [by eexists _, g, _ | done |].
  apply Forall_forall. intros m Hin He. apply (list_elem_of_fmap_2 msg_content) in Hin.
  rewrite Hcont, He in Hin. apply list_elem_of_fmap in Hin as (k & Hk & _). by apply (HS k).
Qed.

(** Payloads that carry the stream make datagrams that do. *)
Lemma datagrams_carry S cfg buf items :
  Forall (fun i => carries S (Datagram (e_payload (i_eth i)) (blen (e_payload (i_eth i))) 0)) items ->
  Forall (carries S) (datagrams cfg buf items).
Proof.
  intros Hi. revert buf. induction Hi as [|i items Hc _ IH]; intros buf; [constructor|]. cbn [datagrams].
  destruct (selected cfg i); [constructor; [|apply IH] | apply IH].
  eapply carries_prefix; [by eexists | exact Hc].
Qed.

(** A capture: an add and a delete, another port's traffic, an execution. *)
Definition body_stream (k : Z) : list byte :=
  [z2b (if k =? 6 then 68 else if k =? 7 then 69 else 65); z2b k].
Definition other_port : eth :=
  mk_eth (replicate 12 (z2b 7)) None 5 (PcapWriter.ip_header 28) 1 9999 0 [] [].
Definition stream_items : list item :=
  [mk_item 1700000000 100 0 (written_eth (packet_wire session_bytes 5 [body_stream 5; body_stream 6]));
   mk_item 1700000000 200 0 other_port;
   mk_item 1700000000 300 0 (written_eth (packet_wire session_bytes 7 [body_stream 7]))].

Lemma stream_items_ok : Forall item_ok stream_items.
Proof.
  apply Forall_cons. split; [split; [by apply written_eth_ok | by vm_compute ..]|].
  apply Forall_cons. split; [split; [by split | by vm_compute ..]|].
  apply Forall_singleton. split; [by apply written_eth_ok | by vm_compute ..].
Qed.

Lemma replay_mode_counts_stream_witness :
  let ins := datagrams (PcapReader.mk_Config false 1 15001) zero_buf stream_items in
  let n0 := session_start wired ins in
  exists st g h,
    replay_mode 15001 (Some (pcap_file false (replicate 20 (z2b 0)) (capture_of <$> stream_items)))
      zero_buf = Ok (st, g, h) /\
    n0 <= GapBuffer.next_expected_ g /\
    h = plus_counts Handler.init (body_stream <$> seqZ n0 (GapBuffer.next_expected_ g - n0)).
Proof.
  apply replay_mode_counts_stream.
  - reflexivity.
  - exact stream_items_ok.
  - exact zero_buf_size.
  - apply datagrams_carry. unfold stream_items. cbn [i_eth]. check_carries.
  - done.
Defined.
