(* ===== verification/Program.v ===== *)
(** * Program: the receiver program as a whole

    Models [main] of [src/main.cpp]: its arguments, the callbacks that print, replay
    mode and live mode with what they print, and the exit code.  Text is reduced
    to the values printed; the system answers file opens, system calls and
    [recvmsg]. *)

From stdpp Require Import base gmap list strings fin_maps.
From Stdlib Require Import ZArith Lia.
From S2P Require Import Prelude WireFormat WireLemmas GapBuf GapWalk Framing.
From S2P Require Import GapInv GapStep GapRun GapProps Sink Decision Pcap Pacing Unpaced PcapProps PcapRound.
From S2P Require Import Receiver ReceiverOpen ReceiverProps ReceiverRun CommandLine Main.

#[local] Open Scope Z_scope.
Import MulticastReceiver.

(** A line (or block of lines) on [stdout] or [stderr]. *)
Inductive line :=
| GapLine (e : GapEvent)
| RetxLine (first_seq count : Z)
| Replaying (file : list byte)
| PcapStats (packets_read udp_packets non_udp_skipped messages : Z)
| HandlerStats (h : Handler.t)
| GapStats (gaps duplicates retransmit_requests heartbeats : Z)
| OpenFailed
| BufferShortfall (requested granted : Z)
| Listening (group : list byte) (port : Z) (iface : list byte)
| RanFor (ms : Z).

(** What the callbacks [on_gap] and [on_retransmit] print during a run. *)
Definition callback_line (ev : event) : option line :=
  match ev with
  | OnMessage _ => None
  | OnGap e => Some (GapLine e)
  | OnRetransmitRequest r => Some (RetxLine (RetransmitRequest.first_seq r) (RetransmitRequest.count r))
  end.
Definition callback_lines (evs : list event) : list line := omap callback_line evs.

Definition gap_stats (g : GapBuffer.t) : line :=
  GapStats (GapBuffer.stat_gaps g) (GapBuffer.stat_duplicates g)
    (GapBuffer.stat_retransmit_requests g) (GapBuffer.stat_heartbeats g).

(** [Handler::print] *)
Definition handler_print (h : Handler.t) : line := HandlerStats h.

(** The system [main] runs in: files, the set-up calls, what the arrays hold before
    they are written, the clock at the start of the loop, the turns of the loop
    until a signal stops it, and the milliseconds it took. *)
Record system := mk_system {
  files : list byte -> option (list byte);
  calls : kernel;
  frame_memory : list byte;
  recv_memory : list byte;
  loop_start : timespec;
  loop_turns : list turn;
  elapsed_ms : Z
}.

(** Exit code, lines, and the system calls on the socket. *)
Record exit := mk_exit { code : Z; printed : list line; history : list action }.

(** [if (!replay_file.empty())] *)
Definition replay_branch (o : MainArgs.t) (sys : system) : res exit :=
  '(stats, g, evs, _, _) ← PcapReader.replay (PcapReader.mk_Config false 1 (MainArgs.port o))
                          (files sys (MainArgs.replay_file o)) (frame_memory sys) wired [];
  h ← Handler.on_messages Handler.init (messages evs);
  mret (mk_exit 0
    (Replaying (MainArgs.replay_file o) :: callback_lines evs ++
     [PcapStats (ReplayStats.packets_read stats) (ReplayStats.udp_packets stats)
        (ReplayStats.non_udp_skipped stats) (ReplayStats.messages_ingested stats);
      handler_print h; gap_stats g]) []).

(** [MulticastReceiver::Config] with the three members [main] sets. *)
Definition live_config (o : MainArgs.t) : Config :=
  mk_Config (MainArgs.group o) [] (MainArgs.iface o) (MainArgs.port o) true false true
            (8 * 1024 * 1024).

Definition shortfall_lines (r : t GapBuffer.t) : list line :=
  if recv_buffer_shortfall r
  then [BufferShortfall (recv_buffer_bytes (cfg_ r)) (granted_recv_buffer_bytes_ r)] else [].

Section Live.
Context `{Platform}.

(** Live mode; the receiver's destructor closes the socket on both returns. *)
Definition live_branch (o : MainArgs.t) (sys : system) : res exit :=
  let '((r, hist), opened) :=
    open (calls sys) (create (live_config o) wired (recv_memory sys), []) in
  if negb opened then
    let '((_, hist), _) := close (calls sys) (r, hist) in
    mret (mk_exit 1 [OpenFailed] hist)
  else
    '(r', evs) ← run r 100000 (loop_start sys) (loop_turns sys);
    h ← Handler.on_messages Handler.init (messages evs);
    let '((_, hist), _) := close (calls sys) (r', hist) in
    mret (mk_exit 0
      (shortfall_lines r ++ [Listening (MainArgs.group o) (MainArgs.port o) (MainArgs.iface o)] ++
       callback_lines evs ++ [RanFor (elapsed_ms sys); handler_print h; gap_stats (gap_buf_ r')]) hist).

(** [main]; its own option loop throws nothing. *)
Definition main (sys : system) (args : list (list byte)) : outcome (res exit) :=
  o ← MainArgs.parse args;
  mret match MainArgs.replay_file o with
       | [] => live_branch o sys
       | _ => replay_branch o sys
       end.

End Live.

(** ** The option loop never throws *)

Lemma scan_total {O} named plain args (o : O) :
  (forall a set v o, named a = Some set -> exists o', set v o = Done o') ->
  exists o', scan named plain args o = Done o'.
Proof.
  intros Ht. revert o. remember (length args) as n eqn:En.
  revert args En. induction (lt_wf n) as [n _ IH]. intros args -> o.
  destruct args as [|a [|v rest]]; cbn [scan].
  - by exists o.
  - by destruct (named a); eexists.
  - destruct (named a) as [set|] eqn:E.
    + destruct (Ht a set v o E) as [o' ->]. apply (IH (length rest) ltac:(cbn; lia) rest eq_refl).
    + apply (IH (length (v :: rest)) ltac:(cbn; lia) (v :: rest) eq_refl).
Qed.

Lemma main_parse_total args : exists o, MainArgs.parse args = Done o.
Proof.
  apply scan_total. intros a set v o. unfold MainArgs.named.
  repeat (case_match; [intros [= <-]; by eexists|]). done.
Qed.

(** ** What the program prints *)

(** The lines of a run start with the callbacks' and end with the totals. *)
Definition totals (h : Handler.t) (g : GapBuffer.t) : list line := [HandlerStats h; gap_stats g].

Lemma counts_of_stream (S : Z -> list byte) ms n0 n :
  (forall k, S k <> []) ->
  (fun m => (MoldMessage.seq_num m, msg_content m)) <$> ms = (fun k => (k, S k)) <$> seqZ n0 n ->
  Handler.on_messages Handler.init ms = Ok (plus_counts Handler.init (S <$> seqZ n0 n)).
Proof.
  intros HS Hm. assert (Hc : msg_content <$> ms = S <$> seqZ n0 n).
  { apply (f_equal (fmap snd)) in Hm. by rewrite <-!list_fmap_compose in Hm. }
  rewrite on_messages_counts, Hc; [done | done |].
  apply Forall_forall. intros m Hin He. apply (list_elem_of_fmap_2 msg_content) in Hin.
  rewrite Hc, He in Hin. apply list_elem_of_fmap in Hin as (k & Hk & _). by apply (HS k).
Qed.

Lemma counted_read cfg items st :
  is_u64 (ReplayStats.packets_read st) -> is_u64 (ReplayStats.udp_packets st) ->
  ReplayStats.packets_read (counted cfg items st) = u64 (ReplayStats.packets_read st + blen items) /\
  ReplayStats.udp_packets (counted cfg items st)
    = u64 (ReplayStats.udp_packets st + blen (filter (fun i => selected cfg i = true) items)).
Proof.
  revert st. induction items as [|i items IH]; intros st Hr Hu.
  { cbn. by rewrite !Z.add_0_r, !u64_small. }
  cbn [counted]. rewrite filter_cons. destruct (selected cfg i); cbn [length];
    (rewrite ?decide_True by done; rewrite ?decide_False by done;
     match goal with |- context [counted cfg items ?s] => destruct (IH s) as [-> ->] end;
     [apply u64_range | first [apply u64_range | exact Hu] |]);
    cbn; unfold inc; rewrite !u64_add_idemp_l; split; f_equal; lia.
Qed.

(** C15.  Replay mode.  For any arguments that name a file, whose datagrams to the port
    carry non-empty messages of the stream, the program exits with 0 and its
    last lines are the totals: of the handler, modulo the 64-bit counters, the
    messages delivered in sequence and how many of them are adds, deletes and
    executions. *)
Theorem replay_prints_totals `{Platform} (S : Z -> list byte) (sys : system)
    (args : list (list byte)) (o : MainArgs.t) (swap : bool) (rest : list byte) (items : list item) :
  MainArgs.parse args = Done o -> MainArgs.replay_file o <> [] ->
  files sys (MainArgs.replay_file o) = Some (pcap_file swap rest (capture_of <$> items)) ->
  length rest = 20%nat -> Forall item_ok items -> blen (frame_memory sys) = PcapReader.kFrameBuf ->
  let ins := datagrams (PcapReader.mk_Config false 1 (MainArgs.port o)) (frame_memory sys) items in
  Forall (carries S) ins -> (forall k, S k <> []) ->
  let n0 := session_start wired ins in
  exists g evs st,
    main sys args = Done (Ok (mk_exit 0
      (Replaying (MainArgs.replay_file o) :: callback_lines evs ++
       PcapStats (ReplayStats.packets_read st) (ReplayStats.udp_packets st)
         (ReplayStats.non_udp_skipped st) (ReplayStats.messages_ingested st) ::
       totals (plus_counts Handler.init (S <$> seqZ n0 (GapBuffer.next_expected_ g - n0))) g) [])) /\
    GapRun.run wired ins = Ok (g, evs) /\ n0 <= GapBuffer.next_expected_ g /\
    ReplayStats.packets_read st = u64 (blen items) /\
    ReplayStats.udp_packets st
      = u64 (blen (filter (fun i => selected (PcapReader.mk_Config false 1 (MainArgs.port o)) i = true) items)).
Proof.
  intros Hp Hf Hfile Hr Hi Hb ins Hins HS n0.
  destruct (run_delivers S gap_cfg true true ins eq_refl Hins) as (g & evs & E & Hle & Hm).
  fold wired in E, Hle, Hm. fold n0 in Hle, Hm.
  destruct (feed_run wired g evs ins 0 (datagrams_only _ _ _) E) as [n' Hfd].
  set (cfg := PcapReader.mk_Config false 1 (MainArgs.port o)) in *.
  exists g, evs, (with_ingested (counted cfg items ReplayStats.init) n').
  split; [|split; [done|]; split; [done|]].
  - unfold main. rewrite Hp. cbn [mbind outcome_bind mret outcome_ret]. f_equal.
    destruct (MainArgs.replay_file o) as [|b f] eqn:Ef; [done|]. unfold replay_branch.
    pose proof (replay_captures _ cfg swap rest (frame_memory sys) items wired Hr Hi Hb) as Er.
    fold ins in Er. rewrite Hfd, bind_Ok in Er.
    destruct (replay_unpaced_Ok _ _ _ _ [] _ _ _ _ Er eq_refl) as [ats Er'].
    rewrite Ef, Hfile. fold cfg. rewrite Er', !bind_Ok.
    rewrite (counts_of_stream S _ n0 _ HS Hm), bind_Ok. done.
  - by destruct (counted_read cfg items ReplayStats.init).
Qed.






(** ** Two sessions *)

Definition granting : kernel :=
  mk_kernel (fun _ c => match c with Socket => 3 | _ => 0 end)
            (fun _ c => match c with GetRcvBuf => 425984 | _ => 0 end) (fun _ => 7).

Definition replay_args : list (list byte) := [str "--port"; str "15001"; str "--replay"; str "day.pcap"].

Definition test_system : system :=
  mk_system
    (fun f => if decide (f = str "day.pcap")
              then Some (pcap_file false (replicate 20 (z2b 0)) (capture_of <$> stream_items)) else None)
    granting zero_buf test_buf (mk_timespec 1 0) test_turns 1500.

Lemma replay_prints_totals_witness :
  let ins := datagrams (PcapReader.mk_Config false 1 15001) zero_buf stream_items in
  let n0 := session_start wired ins in
  exists g evs st,
    main test_system replay_args = Done (Ok (mk_exit 0
      (Replaying (str "day.pcap") :: callback_lines evs ++
       PcapStats (ReplayStats.packets_read st) (ReplayStats.udp_packets st)
         (ReplayStats.non_udp_skipped st) (ReplayStats.messages_ingested st) ::
       totals (plus_counts Handler.init
                 (body_stream <$> seqZ n0 (GapBuffer.next_expected_ g - n0))) g) [])) /\
    GapRun.run wired ins = Ok (g, evs) /\ n0 <= GapBuffer.next_expected_ g /\
    ReplayStats.packets_read st = u64 (blen stream_items) /\
    ReplayStats.udp_packets st
      = u64 (blen (filter (fun i => selected (PcapReader.mk_Config false 1 15001) i = true) stream_items)).
Proof.
  apply (replay_prints_totals body_stream test_system replay_args
           (MainArgs.mk (str "239.1.1.1") (str "lo") (str "day.pcap") 15001)
           false (replicate 20 (z2b 0)) stream_items).
  - reflexivity.
  - discriminate.
  - reflexivity.
  - reflexivity.
  - exact stream_items_ok.
  - exact zero_buf_size.
  - apply datagrams_carry. unfold stream_items. cbn [i_eth]. check_carries.
  - done.
Defined.

