(* ===== verification/ConformFeed.v ===== *)
(** * ConformFeed: the repository's tests of the wire format and the feed

    [tests/test_wire_format.cpp], [tests/test_gap_buffer.cpp] and
    [tests/test_feed_arbitrator.cpp], a Module each, with the test's builders as
    definitions and every test function as an example that evaluates the model on
    the test's input and compares what the test's CHECKs compare.  The golden
    vectors of the ITCH layouts, which the repository types by hand from the
    exchange's tables, fix the parsers of the model in the same way. *)

From stdpp Require Import base gmap list strings fin_maps.
From Stdlib Require Import ZArith Lia.
From S2P Require Import Prelude WireFormat GapBuf GapWalk GapRun Sink Stats Arbitrator Tools.

#[local] Open Scope Z_scope.

(** A C string literal. *)
Definition text (s : string) : list byte := Stdlib.Strings.String.list_byte_of_string s.

(** A character literal. *)
Definition letter (s : string) : byte := default (z2b 0) (head (text s)).

(** A byte array written as numbers. *)
Definition raw (l : list Z) : list byte := z2b <$> l.

(** ** tests/test_wire_format.cpp *)

Module WireFormatTests.

Example test_be_helpers :
  be16 (raw [0x12; 0x34]) 0 = Ok 0x1234 /\
  be32 (raw [0x12; 0x34; 0x56; 0x78]) 0 = Ok 0x12345678 /\
  be64 (raw [1; 2; 3; 4; 5; 6; 7; 8]) 0 = Ok 0x0102030405060708 /\
  be48 (raw [0; 0; 0x01; 0x83; 0x5A; 0x12]) 0 = Ok 0x01835A12 /\
  put_be16 (zeroes 2) 0 0xABCD = Ok (raw [0xAB; 0xCD]) /\
  put_be64 (zeroes 8) 0 0x0102030405060708 = Ok (raw [1; 2; 3; 4; 5; 6; 7; 8]).
Proof. by vm_compute. Qed.

(** The header buffers of the tests. *)
Definition header_bytes (session : string) (seq count : Z) : res (list byte) :=
  buf ← mem_write (zeroes 20) 0 (text session);
  buf ← put_be64 buf 10 seq;
  put_be16 buf 18 count.

Definition parse_header (len : Z) (bytes : res (list byte)) : res (bool * MoldHeader.t) :=
  buf ← bytes; MoldHeader.parse (MoldHeader.mk [] 0 0) buf len.

Example test_mold_header_parse :
  parse_header 20 (header_bytes "SESSIONA  " 42 3) = Ok (true, MoldHeader.mk (text "SESSIONA  ") 42 3) /\
  MoldHeader.is_heartbeat (MoldHeader.mk (text "SESSIONA  ") 42 3) = false /\
  probe fst (parse_header 19 (header_bytes "SESSIONA  " 42 3)) = Some false.
Proof. by vm_compute. Qed.

Example test_mold_header_heartbeat :
  probe (fun r => (MoldHeader.is_heartbeat r.2, MoldHeader.seq_num r.2))
    (parse_header 20 (header_bytes "SESSIONA  " 0 0)) = Some (true, 0).
Proof. by vm_compute. Qed.

Example test_mold_header_round_trip :
  let orig := MoldHeader.mk (text "TESTTEST  ") 999999 7 in
  parse_header 20 (MoldHeader.serialise orig (zeroes 20)) = Ok (true, orig).
Proof. by vm_compute. Qed.

(** 09:30:00 after midnight, in nanoseconds. *)
Definition kGoldenTs : Z := 34200000000000.

(** Locate 42, tracking 7 and the timestamp, then the order reference 12345. *)
Definition golden (ty : Z) (rest : list Z) : list byte :=
  raw ([ty; 0x00; 0x2A; 0x00; 0x07; 0x1F; 0x1A; 0xCE; 0xD9; 0xF0; 0x00;
        0x00; 0x00; 0x00; 0x00; 0x00; 0x00; 0x30; 0x39] ++ rest).

Definition golden_add : list byte :=
  golden 0x41 [0x42; 0x00; 0x00; 0x00; 0x64;
               0x41; 0x41; 0x50; 0x4C; 0x20; 0x20; 0x20; 0x20; 0x00; 0x16; 0xE3; 0x60].

Example test_itch_add_order_golden (out : ItchAddOrder.t) :
  ItchAddOrder.parse golden_add 36 out
  = Ok (true, ItchAddOrder.mk (ItchAddOrder.seq_num out) kGoldenTs 42 12345 100 1500000
                (text "AAPL    " ++ [Corelib.Init.Byte.x00]) (letter "B") false) /\
  itch_timestamp_ns golden_add = Ok kGoldenTs /\
  ItchAddOrder.parse golden_add 35 out = Ok (false, out).
Proof. by vm_compute. Qed.

Example test_itch_delete_golden (out : ItchDeleteOrder.t) :
  ItchDeleteOrder.parse (golden 0x44 []) 19 out
  = Ok (true, ItchDeleteOrder.mk (ItchDeleteOrder.seq_num out) kGoldenTs 12345) /\
  ItchDeleteOrder.parse (golden 0x44 []) 18 out = Ok (false, out).
Proof. by vm_compute. Qed.

Example test_itch_cancel_golden (out : ItchOrderCancel.t) :
  let x := golden 0x58 [0x00; 0x00; 0x00; 0x28] in
  ItchOrderCancel.parse x 23 out
  = Ok (true, ItchOrderCancel.mk (ItchOrderCancel.seq_num out) kGoldenTs 12345 40) /\
  ItchOrderCancel.parse x 22 out = Ok (false, out).
Proof. by vm_compute. Qed.

Example test_itch_executed_golden (out : ItchOrderExecuted.t) :
  let e := golden 0x45 [0x00; 0x00; 0x00; 0x1E;
                        0x00; 0x00; 0x00; 0x00; 0x00; 0x01; 0x86; 0xA0] in
  ItchOrderExecuted.parse e 31 out
  = Ok (true, ItchOrderExecuted.mk (ItchOrderExecuted.seq_num out) kGoldenTs 12345 30 100000) /\
  ItchOrderExecuted.parse e 30 out = Ok (false, out).
Proof. by vm_compute. Qed.

Example test_itch_replace_golden (out : ItchOrderReplace.t) :
  let u := golden 0x55 [0x00; 0x00; 0x00; 0x00; 0x00; 0x00; 0x30; 0x3A;
                        0x00; 0x00; 0x00; 0x96; 0x00; 0x2D; 0xC8; 0x34] in
  ItchOrderReplace.parse u 35 out
  = Ok (true, ItchOrderReplace.mk (ItchOrderReplace.seq_num out) kGoldenTs 12345 12346 150 3000372) /\
  ItchOrderReplace.parse u 34 out = Ok (false, out).
Proof. by vm_compute. Qed.

Example test_retransmit_request :
  RetransmitRequest.serialise (RetransmitRequest.mk (text "SESSION1  ") 1001 50) (zeroes 20)
  = Ok (text "SESSION1  " ++ be_bytes 8 1001 ++ be_bytes 2 50) /\
  RetransmitRequest.kSize = 20.
Proof. by vm_compute. Qed.

Example test_pcap_headers :
  PcapGlobalHeader.magic_number PcapGlobalHeader.init = kPcapMagicLE /\
  PcapGlobalHeader.version_major PcapGlobalHeader.init = 2 /\
  PcapGlobalHeader.version_minor PcapGlobalHeader.init = 4 /\
  PcapGlobalHeader.network PcapGlobalHeader.init = 1 /\
  length (PcapGlobalHeader.bytes PcapGlobalHeader.init) = 24%nat /\
  length (PcapRecordHeader.bytes (PcapRecordHeader.mk 0 0 0 0)) = 16%nat.
Proof. by vm_compute. Qed.

Example test_itch_type_helper :
  itch_type (text "A") = Ok AddOrderNoMpid /\ itch_type (text "D") = Ok OrderDelete.
Proof. by vm_compute. Qed.

End WireFormatTests.

(** ** Datagrams of dummy messages *)

(** [msg_count] messages of [msg_len] bytes, written from [p] on. *)
Fixpoint put_messages (n : nat) (buf : list byte) (p : Z) (body : byte) (msg_len : Z)
    : res (list byte) :=
  match n with
  | O => mret buf
  | S n' =>
      buf ← put_be16 buf p msg_len;
      buf ← mem_write buf (p + 2) (replicate (Z.to_nat msg_len) body);
      put_messages n' buf (p + 2 + msg_len) body msg_len
  end.

Definition make_packet (session : string) (seq msg_count msg_body_byte msg_len : Z)
    : res (list byte) :=
  buf ← MoldHeader.serialise (MoldHeader.mk (text session) seq msg_count)
          (zeroes (kMoldHeaderSize + msg_count * (2 + msg_len)));
  put_messages (Z.to_nat msg_count) buf kMoldHeaderSize (z2b msg_body_byte) msg_len.

Definition make_heartbeat (session : string) : res (list byte) :=
  MoldHeader.serialise (MoldHeader.mk (text session) 0 0) (zeroes kMoldHeaderSize).

(** The calls of a test, in order; a packet is built when it is sent. *)
Inductive call :=
| Ingest (packet : res (list byte)) (now_ns : Z)
| IngestA (packet : res (list byte)) (now_ns : Z)
| IngestB (packet : res (list byte)) (now_ns : Z)
| AtTime (now_ns : Z).

(** ** tests/test_gap_buffer.cpp *)

Module GapBufferTests.
Import GapBuffer.

Definition input_of (c : call) : res input :=
  match c with
  | Ingest p now | IngestA p now | IngestB p now =>
      b ← p; mret (Datagram b (blen b) now)
  | AtTime now => mret (Tick now)
  end.

Definition play (g : t) (script : list call) : res (t * list event) :=
  ins ← mapM input_of script; run g ins.

Definition sess : string := "SESSIONA  ".
Definition one (seq body : Z) : res (list byte) := make_packet sess seq 1 body 4.

(** A default buffer with the callbacks a test installs. *)
Definition gb (on_message on_gap on_retransmit : bool) : t :=
  listening Config_init on_message on_gap on_retransmit.

Definition seqs (evs : list event) : list Z := MoldMessage.seq_num <$> messages evs.

Example test_inorder_delivery :
  probe (fun '(g, evs) => (seqs evs, stat_gaps g, stat_duplicates g, next_expected g))
    (play (gb true false false)
       ((fun s => Ingest (one s s) (1000000 + 1000 * (s - 1))) <$> seqZ 1 5))
  = Some ([1; 2; 3; 4; 5], 0, 0, 6).
Proof. by vm_compute. Qed.

Example test_duplicate_detection :
  probe (fun '(g, evs) => (length (messages evs), stat_duplicates g, next_expected g))
    (play (gb true false false)
       [Ingest (one 1 0xAA) 1000000; Ingest (one 2 0xBB) 1000001; Ingest (one 1 0xAA) 1000002])
  = Some (2%nat, 1, 3).
Proof. by vm_compute. Qed.

(** Exactly one event for a gap, whatever else arrives behind it. *)
Example test_gap_detection :
  probe snd
    (play (gb false true false)
       [Ingest (one 1 1) 1000000; Ingest (one 4 4) 1001000; Ingest (one 5 5) 1002000])
  = Some [OnGap (mk_GapEvent 2 3 1001000)].
Proof. by vm_compute. Qed.

Definition reordered : list call :=
  [Ingest (one 1 1) 1000000; Ingest (one 3 3) 1000001; Ingest (one 4 4) 1000002;
   Ingest (one 2 2) 1000003].

Example test_outoforder_flush :
  probe (fun r => length (messages r.2)) (play (gb true false false) (take 3 reordered)) = Some 1%nat /\
  probe (fun r => seqs r.2) (play (gb true false false) reordered) = Some [1; 2; 3; 4].
Proof. by vm_compute. Qed.

Definition retransmit_cfg : Config :=
  mk_Config 500000 1000000 (max_retransmit_count Config_init) (text sess).

Definition t0 : Z := 1000000000.

Definition timed : list call :=
  [Ingest (one 1 1) t0; Ingest (one 3 3) (t0 + 100); AtTime (t0 + 400000);
   AtTime (t0 + 600000); AtTime (t0 + 1100000); AtTime (t0 + 1700000)].

(** The requests of the first [n] calls. *)
Definition requests_after (n : nat) : option (list event) :=
  probe snd (play (listening retransmit_cfg false false true) (take n timed)).

Example test_retransmit_request_timing :
  let request := OnRetransmitRequest (RetransmitRequest.mk (text sess) 2 1) in
  requests_after <$> [3; 4; 5; 6]%nat
  = [Some []; Some [request]; Some [request]; Some [request; request]].
Proof. by vm_compute. Qed.

Definition refilled : list call :=
  [Ingest (one 1 1) 1000000; Ingest (one 3 3) 1000001; Ingest (one 2 2) 1000002].

Example test_retransmit_fills_gap :
  probe (fun r => seqs r.2) (play (gb true false false) (take 2 refilled)) = Some [1] /\
  probe (fun '(g, evs) => (seqs evs, in_gap g)) (play (gb true false false) refilled)
  = Some ([1; 2; 3], false).
Proof. by vm_compute. Qed.

(** The first datagram a buffer sees is here a heartbeat of sequence 0. *)
Example test_heartbeat :
  probe (fun '(g, evs, r) => (r, messages evs, stat_heartbeats g))
    (hb ← make_heartbeat sess; ingest (gb true false false) hb (blen hb) 1000000)
  = Some (0, [], 1).
Proof. by vm_compute. Qed.

Example test_multi_message_packet :
  probe (fun '(g, evs) => (seqs evs, next_expected g))
    (play (gb true false false) [Ingest (make_packet sess 1 3 0xAA 4) 1000000])
  = Some ([1; 2; 3], 4).
Proof. by vm_compute. Qed.

Example test_parse_errors :
  probe snd (ingest (gb false false false) (zeroes 5) 5 1000000) = Some (-1).
Proof. by vm_compute. Qed.

(** 10000 messages, ten in a packet. *)
Example test_large_sequential_stream :
  probe (fun '(g, evs) => (blen (messages evs), stat_gaps g, next_expected g))
    (play (gb true false false)
       ((fun i => Ingest (make_packet sess (1 + 10 * i) 10 0x55 4) (1000 * i)) <$> seqZ 0 1000))
  = Some (10000, 0, 10001).
Proof. by vm_compute. Qed.

End GapBufferTests.

(** ** tests/test_feed_arbitrator.cpp *)

Module FeedArbitratorTests.
Import FeedArbitrator.

Definition line_input_of (c : call) : res line_input :=
  match c with
  | Ingest p now | IngestA p now => b ← p; mret (OnLine LineA b (blen b) now)
  | IngestB p now => b ← p; mret (OnLine LineB b (blen b) now)
  | AtTime now => mret (LineTick now)
  end.

Definition make_cfg : GapBuffer.Config :=
  GapBuffer.mk_Config 1000 2000 (GapBuffer.max_retransmit_count GapBuffer.Config_init)
    (text "ABFEEDSES ").

Definition pkt (seq : Z) : res (list byte) := make_packet "ABFEEDSES " seq 1 seq 4.

Definition play (script : list call) : res (FeedArbitrator.t GapBuffer.t * list event) :=
  ins ← mapM line_input_of script; arb_run (create (listening make_cfg true true true)) ins.

Definition gaps (evs : list event) : list GapEvent :=
  omap (fun e => match e with OnGap g => Some g | _ => None end) evs.
Definition requests (evs : list event) : list RetransmitRequest.t :=
  omap (fun e => match e with OnRetransmitRequest r => Some r | _ => None end) evs.

(** Both lines carry everything, B always just behind A. *)
Definition identical (seq : Z) : list call :=
  [IngestA (pkt seq) (1000 + 2 * (seq - 1)); IngestB (pkt seq) (1001 + 2 * (seq - 1))].

Example test_identical_streams_no_duplicate_delivery :
  probe (fun '(a, evs) => (length (messages evs), stat_seq_won a LineA, stat_redundant a LineB,
                           a_win_share a))
    (play (mjoin (identical <$> seqZ 1 10)))
  = Some (10%nat, 10, 10, double_of 1).
Proof. by vm_compute. Qed.

(** Line A drops 5 to 9; each turn ends with a tick. *)
Definition a_drops (seq : Z) : list call :=
  let ts := 1000 + 10 * (seq - 1) in
  (if (5 <=? seq) && (seq <=? 9) then [] else [IngestA (pkt seq) ts])
  ++ [IngestB (pkt seq) ts; AtTime (ts + 10)].

Example test_line_a_gap_covered_by_line_b_no_stall :
  probe (fun '(a, evs) => (length (messages evs), gaps evs, requests evs,
                           5 <=? stat_seq_won a LineB))
    (play (mjoin (a_drops <$> seqZ 1 20)))
  = Some (20%nat, [], [], true).
Proof. by vm_compute. Qed.

(** Both lines miss 8 to 10. *)
Definition both_drop (seq : Z) : list call :=
  let ts := 1000 + 200 * (seq - 1) in
  (if (8 <=? seq) && (seq <=? 10) then [] else [IngestA (pkt seq) ts; IngestB (pkt seq) ts])
  ++ [AtTime (ts + 200)].

(** The test looks at the last request only; this is every one of them. *)
Example test_both_lines_drop_same_range_real_gap :
  probe (fun '(a, evs) => (length (gaps evs), requests evs))
    (play (mjoin (both_drop <$> seqZ 1 20)))
  = Some (1%nat, [RetransmitRequest.mk (text "ABFEEDSES ") 8 3]).
Proof. by vm_compute. Qed.

Definition a_alone : list call :=
  (fun s => IngestA (pkt s) (1000 + 100 * (s - 1))) <$> seqZ 1 5.
Definition then_b_alone : list call :=
  (fun s => IngestB (pkt s) (1500 + 10000000 * (s - 6))) <$> seqZ 6 5.

Definition dark_after (script : list call) (l : FeedLine) (now : Z) : option bool :=
  probe (fun r => line_looks_dark r.1 l now 5000000) (play script).

Example test_dark_line_detection :
  dark_after a_alone LineA 1500 = Some false /\
  dark_after (a_alone ++ then_b_alone) LineA 50001500 = Some true /\
  dark_after (a_alone ++ then_b_alone) LineB 40001500 = Some false.
Proof. by vm_compute. Qed.

Example test_never_connected_line_is_not_reported_dark : dark_after [] LineA 999999999 = Some false.
Proof. by vm_compute. Qed.

End FeedArbitratorTests.
