(* ===== verification/ConformBook.v ===== *)
(** * ConformBook: the repository's tests of the books, the engine and the captures

    [tests/test_order_book.cpp], [tests/test_decision_engine.cpp] and
    [tests/test_pcap_replay.cpp], a Module each, in the manner of [ConformFeed]. *)

From stdpp Require Import base gmap list strings fin_maps.
From Stdlib Require Import ZArith Lia.
From S2P Require Import Prelude WireFormat GapBuf GapWalk GapRun Sink Book Stats Decision.
From S2P Require Import Pcap Tools ConformFeed.

#[local] Open Scope Z_scope.

(** ** tests/test_order_book.cpp *)

Module OrderBookTests.
Import OrderBook.

(** [make_add] and [make_cancel] are those of the benchmark. *)
Definition make_add (order_ref : Z) (side : string) (shares : Z) (stock8 : string) (price : Z)
    : res (list byte) :=
  Bench.make_add order_ref (letter side) shares (text stock8) price.

Definition make_delete : Z -> res (list byte) := Bench.make_delete.
Definition make_cancel : Z -> Z -> res (list byte) := Bench.make_cancel.

Definition make_executed (order_ref exec_shares : Z) : res (list byte) :=
  b ← set_byte (zeroes 31) 0 (z2b 0x45);
  b ← put_be64 b 11 order_ref;
  b ← put_be32 b 19 exec_shares;
  put_be64 b 23 999.

Definition make_replace (orig_ref new_ref shares price : Z) : res (list byte) :=
  b ← set_byte (zeroes 35) 0 (z2b 0x55);
  b ← put_be64 b 11 orig_ref;
  b ← put_be64 b 19 new_ref;
  b ← put_be32 b 27 shares;
  put_be32 b 31 price.

(** One step of a test: build the body, parse it, apply it if that succeeded. *)
Definition apply_parsed {M} (parse : list byte -> Z -> M -> res (bool * M)) (uninit : M)
    (apply : t -> M -> Z -> t * list (TopOfBook * Z)) (body : res (list byte)) (recv_ns : Z)
    (b : t) : res (t * list (TopOfBook * Z)) :=
  bs ← body;
  '(ok, m) ← parse bs (blen bs) uninit;
  mret (if ok : bool then apply b m recv_ns else (b, [])).

Definition add := apply_parsed ItchAddOrder.parse MultiSymbolBook.add_uninit apply_add.
Definition del := apply_parsed ItchDeleteOrder.parse MultiSymbolBook.delete_uninit apply_delete.
Definition cancel := apply_parsed ItchOrderCancel.parse MultiSymbolBook.cancel_uninit apply_cancel.
Definition exec := apply_parsed ItchOrderExecuted.parse MultiSymbolBook.executed_uninit apply_executed.
Definition replace := apply_parsed ItchOrderReplace.parse MultiSymbolBook.replace_uninit apply_replace.

Fixpoint play (b : t) (steps : list (t -> res (t * list (TopOfBook * Z))))
    : res (t * list (TopOfBook * Z)) :=
  match steps with
  | [] => mret (b, [])
  | s :: steps' =>
      '(b1, t1) ← s b;
      '(b2, t2) ← play b1 steps';
      mret (b2, t1 ++ t2)
  end.

(** What a test looks at after its steps. *)
Definition after {A} (steps : list (t -> res (t * list (TopOfBook * Z)))) (f : t -> A) : option A :=
  probe (fun r => f r.1) (play init steps).

Definition msft (ref : Z) (side : string) (shares : Z) : res (list byte) :=
  make_add ref side shares "MSFT    " 3000000.

Example test_add_and_top :
  after [add (make_add 1 "B" 100 "AAPL    " 1500000) 1000;
         add (make_add 2 "S" 200 "AAPL    " 1500500) 1001]
    (fun b => (top b, crossed (top b), resting_order_count b))
  = Some (mk_TopOfBook (Some (mk_PriceLevel 1500000 100 1)) (Some (mk_PriceLevel 1500500 200 1)),
          false, 2).
Proof. by vm_compute. Qed.

Example test_price_level_aggregation :
  after ((fun ref => add (msft ref "B" 100) 1000) <$> [1; 2; 3]) (fun b => (bid (top b), bid_level_count b))
  = Some (Some (mk_PriceLevel 3000000 300 3), 1).
Proof. by vm_compute. Qed.

Example test_delete_removes_order_and_shrinks_level :
  after [add (msft 1 "B" 100) 1000; add (msft 2 "B" 50) 1001; del (make_delete 1) 1002]
    (fun b => (bid (top b), resting_order_count b))
  = Some (Some (mk_PriceLevel 3000000 50 1), 1).
Proof. by vm_compute. Qed.

Example test_cancel_partial_reduction :
  let partial := [add (msft 1 "B" 100) 1000; cancel (make_cancel 1 40) 1001] in
  after partial (fun b => (bid (top b), resting_order_count b))
  = Some (Some (mk_PriceLevel 3000000 60 1), 1) /\
  after (partial ++ [cancel (make_cancel 1 60) 1002]) (fun b => (resting_order_count b, bid (top b)))
  = Some (0, None).
Proof. by vm_compute. Qed.

Example test_executed_partial_and_full_fill :
  let partial := [add (msft 1 "S" 100) 1000; exec (make_executed 1 30) 1001] in
  after partial (fun b => ask (top b)) = Some (Some (mk_PriceLevel 3000000 70 1)) /\
  after (partial ++ [exec (make_executed 1 70) 1002]) (fun b => (ask (top b), stat_executes b))
  = Some (None, 2).
Proof. by vm_compute. Qed.

Example test_replace_swaps_ref_price_shares :
  let replaced := [add (msft 1 "B" 100) 1000; replace (make_replace 1 2 150 3000500) 1001] in
  after replaced (fun b => (resting_order_count b, bid (top b)))
  = Some (1, Some (mk_PriceLevel 3000500 150 1)) /\
  after (replaced ++ [cancel (make_cancel 1 10) 1002]) stat_unknown_order = Some 1.
Proof. by vm_compute. Qed.

Example test_defensive_unknown_and_duplicate :
  after [del (make_delete 999) 1000; add (msft 1 "B" 100) 1000; add (msft 1 "B" 100) 1001]
    (fun b => (stat_unknown_order b, stat_duplicate_add b, resting_order_count b))
  = Some (1, 1, 1).
Proof. by vm_compute. Qed.

(** A change of the size at the best price counts, an order behind it does not. *)
Example test_top_of_book_callback_fires_on_change_only :
  let steps := [add (msft 1 "B" 100) 1000; add (msft 2 "B" 50) 1001;
                add (make_add 3 "B" 50 "MSFT    " 2999000) 1002] in
  (fun n => probe (fun r => length r.2) (play (set_on_top_change init true) (take n steps)))
    <$> [1; 2; 3]%nat
  = [Some 1%nat; Some 2%nat; Some 2%nat].
Proof. by vm_compute. Qed.

(** *** Several symbols *)

(** [mb.ingest(as_msg(body, seq))] for each body in turn, with what each returned. *)
Fixpoint ingest_all (s : MultiSymbolBook.t) (seq : Z) (bodies : list (res (list byte)))
    : res (MultiSymbolBook.t * list MultiSymbolBook.top_event * list bool) :=
  match bodies with
  | [] => mret (s, [], [])
  | body :: bodies' =>
      bs ← body;
      '(s, e1, r) ← MultiSymbolBook.ingest s (MoldMessage.mk (blen bs) bs seq 1000);
      '(s, e2, rs) ← ingest_all s (seq + 1) bodies';
      mret (s, e1 ++ e2, r :: rs)
  end.

Definition bid_of (s : MultiSymbolBook.t) (symbol : string) : option Z :=
  b ← MultiSymbolBook.book_for s (text symbol); pl_shares <$> bid (top b).

Definition two_symbols : list (res (list byte)) :=
  [make_add 1 "B" 100 "AAPL    " 1500000; make_add 2 "B" 200 "MSFT    " 3000000;
   make_cancel 1 40; make_delete 2; make_cancel 2 10].

Example test_multi_symbol_routing :
  probe (fun '(s, _, rs) => (rs, MultiSymbolBook.symbol_count s, bid_of s "AAPL", bid_of s "MSFT",
                             MultiSymbolBook.stat_unrouted s))
    (ingest_all MultiSymbolBook.init 1 (take 3 two_symbols))
  = Some ([true; true; true], 2, Some 60, Some 200, 0) /\
  probe (fun '(s, _, _) => MultiSymbolBook.stat_unrouted s)
    (ingest_all MultiSymbolBook.init 1 two_symbols) = Some 1.
Proof. by vm_compute. Qed.

Example test_multi_symbol_top_change_callback_includes_symbol :
  probe (fun '(_, evs, _) => (fun '(sym, _, _) => sym) <$> evs)
    (ingest_all (MultiSymbolBook.set_on_top_change MultiSymbolBook.init true) 1 (take 2 two_symbols))
  = Some [text "AAPL"; text "MSFT"].
Proof. by vm_compute. Qed.

(** *** Behind the gap buffer *)

(** Sequence, body and arrival time of a datagram. *)
Definition packet (x : Z * res (list byte) * Z) : res input :=
  b ← x.1.2; p ← Bench.mold_packet (text "TESTSESS  ") x.1.1 b; mret (Datagram p (blen p) x.2).

Definition test_cfg : GapBuffer.Config :=
  GapBuffer.mk_Config (GapBuffer.gap_timeout_ns GapBuffer.Config_init)
    (GapBuffer.retry_interval_ns GapBuffer.Config_init)
    (GapBuffer.max_retransmit_count GapBuffer.Config_init) (text "TESTSESS  ").

Definition packets (l : list (Z * res (list byte))) : res (list input) :=
  mapM packet (zip l (seqZ 1000 (blen l))).

(** Feed datagrams; the book takes the messages delivered. *)
Definition feed (l : list (Z * res (list byte))) : res (GapBuffer.t * MultiSymbolBook.t) :=
  ins ← packets l;
  '(g, evs) ← run (listening test_cfg true false false) ins;
  '(s, _, _) ← ingest_all MultiSymbolBook.init 1
                 ((fun m => Ok (take (Z.to_nat (MoldMessage.length m)) (MoldMessage.body m)))
                    <$> messages evs);
  mret (g, s).

Definition reordered : list (Z * res (list byte)) :=
  [(1, make_add 1 "B" 100 "AAPL    " 1500000); (2, make_add 2 "S" 100 "AAPL    " 1500500);
   (4, make_cancel 1 50); (3, make_add 3 "B" 10 "AAPL    " 1000000)].

Example test_end_to_end_gap_buffer_to_book :
  probe (fun r => bid_of r.2 "AAPL") (feed (take 3 reordered)) = Some (Some 100) /\
  probe (fun r => (bid_of r.2 "AAPL", GapBuffer.stat_gaps r.1)) (feed reordered)
  = Some (Some 50, 1).
Proof. by vm_compute. Qed.

End OrderBookTests.

(** ** tests/test_decision_engine.cpp *)

Module DecisionEngineTests.
Import DecisionEngine.

Definition tight : Config := mk_Config 2 100 (quote_size Config_init).
Definition observed (c : Config) : t := set_on_decision (create c) true.

Definition one_sided : TopOfBook := mk_TopOfBook (Some (mk_PriceLevel 1500000 100 1)) None.
Definition spread (ask : Z) : TopOfBook :=
  mk_TopOfBook (Some (mk_PriceLevel 1500000 100 1)) (Some (mk_PriceLevel ask 100 1)).

(** A reading of the clock, later than [1000] ns. *)
Definition clock : timespec := mk_timespec 12 345.

Definition decisions_on (c : Config) (top : TopOfBook) (recv_ns : Z) : list Decision :=
  (on_top_of_book (observed c) (text "AAPL") top recv_ns clock).2.

Example test_no_decision_without_both_sides :
  decisions_on Config_init (mk_TopOfBook None None) 1000 = [] /\
  decisions_on Config_init one_sided 1000 = [].
Proof. by vm_compute. Qed.

Example test_no_decision_when_spread_too_tight : decisions_on tight (spread 1500100) 1000 = [].
Proof. by vm_compute. Qed.

Example test_decision_fires_on_wide_spread :
  let r := on_top_of_book (observed tight) (text "AAPL") (spread 1500500) 1000 clock in
  r.2 = [mk_Decision (text "AAPL") 1500100 (quote_size tight) kBuy 1000 (monotonic_ns clock)] /\
  decisions_emitted r.1 = 1.
Proof. by vm_compute. Qed.

Example test_latency_recorded_only_with_real_timestamps :
  let samples recv_ns :=
    LatencyHistogram.count
      (latency (on_top_of_book (create Config_init) (text "AAPL") (spread 1500500) recv_ns clock).1) in
  samples 0 = 1 /\ samples (2 ^ 64 - 1) = 0.
Proof. by vm_compute. Qed.

(** [ItchAddOrder m{}] with four fields set. *)
Definition order (side : string) (price shares order_ref : Z) : ItchAddOrder.t :=
  ItchAddOrder.mk 0 0 0 order_ref shares price (zeroes 9) (letter side) false.

(** The book's callback hands every change of the top to the engine. *)
Definition wired (e : t) (b : OrderBook.t) (m : ItchAddOrder.t) (now : Z)
    : t * OrderBook.t * list Decision :=
  let '(b, tops) := OrderBook.apply_add b m now in
  let '(e, ds) := foldl (fun '(e, ds) '(t0, ns) =>
      let '(e, d) := on_top_of_book e (text "AAPL") t0 ns clock in (e, ds ++ d)) (e, []) tops in
  (e, b, ds).

Example test_wired_to_order_book :
  let '(e, b, d1) := wired (observed Config_init) (OrderBook.set_on_top_change OrderBook.init true)
                       (order "B" 1500000 100 1) 1000 in
  let '(e, b, d2) := wired e b (order "S" 1500500 100 2) 1000 in
  d1 = [] /\ length d2 = 1%nat /\ top_changes_seen e = 2.
Proof. by vm_compute. Qed.

End DecisionEngineTests.

(** ** tests/test_pcap_replay.cpp *)

Module PcapReplayTests.
Import PcapWriter PcapReader.

Definition sess : list byte := text "SESSIONA  ".

Definition make_itch_add (order_ref : Z) (side : string) (shares price : Z) : res (list byte) :=
  OrderBookTests.make_add order_ref side shares "AAPL    " price.

(** One call of the writer. *)
Inductive write := Message (ts_us seq : Z) (body : res (list byte)) | Heartbeat (ts_us : Z).

Definition apply_write (w : PcapWriter.t) (x : write) : res PcapWriter.t :=
  match x with
  | Message ts seq body =>
      b ← body; r ← write_mold_packet w ts sess seq 1 b (u16 (blen b)); mret (fst r)
  | Heartbeat ts => r ← write_heartbeat w ts sess; mret (fst r)
  end.

Fixpoint write_all (w : PcapWriter.t) (xs : list write) : res PcapWriter.t :=
  match xs with
  | [] => mret w
  | x :: xs' => w ← apply_write w x; write_all w xs'
  end.

Definition default_config : Config := mk_Config false 1 0.

(** Write the file, then replay it into a fresh buffer. *)
Definition round (cfg : Config) (xs : list write) : res (PcapWriter.t * outcome (T := GapBuffer.t)) :=
  w ← write_all (PcapWriter.create true) xs;
  r ← replay cfg (fp_ w) (zeroes kFrameBuf)
        (listening GapBuffer.Config_init true true false) [];
  mret (w, r).

Definition seqs (evs : list event) : list Z := MoldMessage.seq_num <$> messages evs.

Definition adds (side : string) (shares price : Z) (l : list Z) : list write :=
  (fun s => Message (s * 1000) s (make_itch_add s side shares price)) <$> l.

Example test_clean_stream :
  probe (fun '(w, (st, g, evs, _, _)) => (packets_written w, st, seqs evs))
    (round default_config (adds "B" 100 1500000 (seqZ 1 10)))
  = Some (10, ReplayStats.mk 10 10 0 0 10, seqZ 1 10).
Proof. by vm_compute. Qed.

Example test_gap_in_pcap :
  probe (fun '(_, (_, g, evs, _, _)) =>
           (seqs evs, omap (fun e => match e with OnGap x => Some (first_missing_seq x) | _ => None end) evs,
            GapBuffer.in_gap g))
    (round default_config (adds "S" 200 1600000 [1; 2; 4; 5]))
  = Some ([1; 2], [3], true).
Proof. by vm_compute. Qed.

Example test_heartbeat_in_pcap :
  probe (fun '(_, (st, g, evs, _, _)) =>
           (ReplayStats.packets_read st, seqs evs, GapBuffer.stat_heartbeats g))
    (round default_config
       [Message 1000 1 (make_itch_add 1 "B" 100 1500000); Heartbeat 2000;
        Message 3000 2 (make_itch_add 2 "B" 200 1510000)])
  = Some (3, [1; 2], 1).
Proof. by vm_compute. Qed.

Example test_multi_message_roundtrip :
  probe (fun '(_, (_, _, evs, _, _)) => length (messages evs))
    (round default_config
       ((fun i => Message ((i + 1) * 1000) (i + 1) (mret (replicate 4 (z2b (0xA0 + i))))) <$> [0; 1; 2]))
  = Some 3%nat.
Proof. by vm_compute. Qed.

(** The writer's packets go to port 15001. *)
Example test_port_filter :
  probe (fun '(_, (st, _, evs, _, _)) => (ReplayStats.non_udp_skipped st, messages evs))
    (round (mk_Config false 1 9999) (adds "B" 100 1500000 [1]))
  = Some (1, []).
Proof. by vm_compute. Qed.

End PcapReplayTests.
